(** * L-Store storage engine: a shallow embedding and its properties

    The development follows the Python sources under [lstore/]:
    [config.py], [page.py], [record.py], [index.py], [pagedir.py],
    [bufferpool.py], [transaction_tracker.py], [transaction.py],
    [wal.py], [table.py] and [query.py].

    Python objects that are mutated in place are threaded explicitly as
    state; a raised exception is a value of [exn] and leaves the state as
    it was at the point of the raise. *)

From Stdlib Require Import ZArith List Bool Lia Strings.Byte String.
From Stdlib Require Import DecimalString DecimalZ.
From stdpp Require Import base option list sorting gmap.
Import ListNotations.
Local Open Scope Z_scope.

(** ** Python builtins used by the engine *)

Module Py.

(** Exception classes raised by the sources and by the builtins they
    call.  [KeyboardInterrupt] stands for the classes that derive from
    [BaseException] only; nothing in the sources raises it. *)
Inductive exn : Type :=
| ValueError | KeyError | IndexError | RuntimeError | AssertionError
| OverflowError | TypeError | AttributeError | ZeroDivisionError
| UnicodeDecodeError | UnicodeEncodeError | UniqueKeyViolationError
| FileNotFoundError | OSError | StopIteration | PlainException
| KeyboardInterrupt | OutOfFuel.

(** [isinstance(e, Exception)].  [OutOfFuel] is no Python exception: it
    marks a [while] loop that the bound given to its model cut off, and
    no handler catches it. *)
Definition is_Exception (e : exn) : bool :=
  match e with KeyboardInterrupt | OutOfFuel => false | _ => true end.

Inductive res (A : Type) : Type :=
| Ok (a : A)
| Raise (e : exn).
Arguments Ok {A} a.
Arguments Raise {A} e.

Definition bind {A B} (r : res A) (k : A -> res B) : res B :=
  match r with Ok a => k a | Raise e => Raise e end.

Definition assert (b : bool) : res unit :=
  if b then Ok tt else Raise AssertionError.

Inductive endian : Type := Little | Big.

Definition order {A} (e : endian) (l : list A) : list A :=
  match e with Little => l | Big => rev l end.

Definition Z_of_byte (b : byte) : Z := Z.of_N (Byte.to_N b).

Definition byte_of_Z (z : Z) : byte :=
  match Byte.of_N (Z.to_N (z mod 256)) with
  | Some b => b
  | None => x00
  end.

(** The [n] low-order bytes of [z], least significant first. *)
Fixpoint le_bytes (n : nat) (z : Z) : list byte :=
  match n with
  | O => []
  | S n' => byte_of_Z z :: le_bytes n' (z / 256)
  end.

Fixpoint le_value (bs : list byte) : Z :=
  match bs with
  | [] => 0
  | b :: r => Z_of_byte b + 256 * le_value r
  end.

Definition bits_of (num_bytes : nat) : Z := 8 * Z.of_nat num_bytes.

(** [value.to_bytes(num_bytes, endian, signed=signed)] *)
Definition to_bytes (value : Z) (num_bytes : nat) (e : endian)
    (signed : bool) : res (list byte) :=
  if signed then
    if (- 2 ^ (bits_of num_bytes - 1) <=? value)
       && (value <? 2 ^ (bits_of num_bytes - 1))
    then Ok (order e (le_bytes num_bytes (value mod 2 ^ bits_of num_bytes)))
    else Raise OverflowError
  else
    if (0 <=? value) && (value <? 2 ^ bits_of num_bytes)
    then Ok (order e (le_bytes num_bytes value))
    else Raise OverflowError.

(** [int.from_bytes(b, endian, signed=signed)]; the empty string gives 0. *)
Definition from_bytes (b : list byte) (e : endian) (signed : bool) : Z :=
  let u := le_value (order e b) in
  match b with
  | [] => 0
  | _ => if signed && (2 ^ (bits_of (length b) - 1) <=? u)
         then u - 2 ^ bits_of (length b)
         else u
  end.

(** A [str] is its sequence of code points. *)
Definition str : Type := list Z.

Definition is_surrogate (c : Z) : bool := (55296 <=? c) && (c <=? 57343).

Definition cont (z : Z) : byte := byte_of_Z (128 + z mod 64).

(** UTF-8 encoding of one code point, strict error handler. *)
Definition utf8_encode_cp (c : Z) : res (list byte) :=
  if c <? 0 then Raise UnicodeEncodeError
  else if c <? 128 then Ok [byte_of_Z c]
  else if c <? 2048 then Ok [byte_of_Z (192 + c / 64); cont c]
  else if c <? 65536 then
    if is_surrogate c then Raise UnicodeEncodeError
    else Ok [byte_of_Z (224 + c / 4096); cont (c / 64); cont c]
  else if c <? 1114112 then
    Ok [byte_of_Z (240 + c / 262144); cont (c / 4096); cont (c / 64); cont c]
  else Raise UnicodeEncodeError.

(** [s.encode("utf-8")] *)
Fixpoint encode (s : str) : res (list byte) :=
  match s with
  | [] => Ok []
  | c :: r =>
      bind (utf8_encode_cp c) (fun bs =>
      bind (encode r) (fun rest => Ok (bs ++ rest)))
  end.

Definition is_cont (b : byte) : bool :=
  (128 <=? Z_of_byte b) && (Z_of_byte b <=? 191).

Definition in_range (lo hi : Z) (b : byte) : bool :=
  (lo <=? Z_of_byte b) && (Z_of_byte b <=? hi).

(** [b.decode("utf-8")], strict: shortest form only, no surrogates,
    nothing above U+10FFFF, no truncated sequence. *)
Fixpoint decode (bs : list byte) : res str :=
  match bs with
  | [] => Ok []
  | b0 :: r0 =>
      let z0 := Z_of_byte b0 in
      if z0 <? 128 then bind (decode r0) (fun s => Ok (z0 :: s))
      else if in_range 194 223 b0 then
        match r0 with
        | b1 :: r1 =>
            if is_cont b1
            then bind (decode r1) (fun s =>
                   Ok (((z0 - 192) * 64 + (Z_of_byte b1 - 128)) :: s))
            else Raise UnicodeDecodeError
        | _ => Raise UnicodeDecodeError
        end
      else if in_range 224 239 b0 then
        match r0 with
        | b1 :: b2 :: r2 =>
            if in_range (if z0 =? 224 then 160 else 128)
                        (if z0 =? 237 then 159 else 191) b1
               && is_cont b2
            then bind (decode r2) (fun s =>
                   Ok (((z0 - 224) * 4096 + (Z_of_byte b1 - 128) * 64
                        + (Z_of_byte b2 - 128)) :: s))
            else Raise UnicodeDecodeError
        | _ => Raise UnicodeDecodeError
        end
      else if in_range 240 244 b0 then
        match r0 with
        | b1 :: b2 :: b3 :: r3 =>
            if in_range (if z0 =? 240 then 144 else 128)
                        (if z0 =? 244 then 143 else 191) b1
               && is_cont b2 && is_cont b3
            then bind (decode r3) (fun s =>
                   Ok (((z0 - 240) * 262144 + (Z_of_byte b1 - 128) * 4096
                        + (Z_of_byte b2 - 128) * 64
                        + (Z_of_byte b3 - 128)) :: s))
            else Raise UnicodeDecodeError
        | _ => Raise UnicodeDecodeError
        end
      else Raise UnicodeDecodeError
  end.

(** A [bitarray] is its sequence of bits; the endianness it was built
    with only shows in [tobytes] and [frombytes]. *)
Definition bitarray : Type := list bool.

(** Weight of bit [i] (0..7) inside its byte. *)
Definition bit_pos (e : endian) (i : nat) : Z :=
  match e with Little => Z.of_nat i | Big => 7 - Z.of_nat i end.

Fixpoint pack (e : endian) (i : nat) (bits : list bool) : Z :=
  match bits with
  | [] => 0
  | b :: r => (if b then 2 ^ bit_pos e i else 0) + pack e (S i) r
  end.

Fixpoint tobytes_aux (e : endian) (num_bytes : nat) (bits : list bool)
    : list byte :=
  match num_bytes with
  | O => []
  | S n => byte_of_Z (pack e 0 (take 8 bits)) :: tobytes_aux e n (drop 8 bits)
  end.

(** [ba.tobytes()]: the last byte is padded with zero bits. *)
Definition tobytes (e : endian) (ba : bitarray) : list byte :=
  tobytes_aux e (Nat.div (length ba + 7) 8) ba.

Definition unpack (e : endian) (b : byte) : list bool :=
  map (fun i => Z.testbit (Z_of_byte b) (bit_pos e i)) (seq 0 8).

(** [ba.frombytes(bs)] on an empty [ba] *)
Definition frombytes (e : endian) (bs : list byte) : bitarray :=
  flat_map (unpack e) bs.

(** [l[i]] with Python's negative indices *)
Definition getitem {A} (l : list A) (i : Z) : res A :=
  let j := if i <? 0 then i + Z.of_nat (length l) else i in
  if j <? 0 then Raise IndexError
  else match l !! Z.to_nat j with
       | Some a => Ok a
       | None => Raise IndexError
       end.

(** [l[i] = v] with Python's negative indices *)
Definition setitem {A} (l : list A) (i : Z) (v : A) : res (list A) :=
  let j := if i <? 0 then i + Z.of_nat (length l) else i in
  if (j <? 0) || (Z.of_nat (length l) <=? j) then Raise IndexError
  else Ok (<[Z.to_nat j := v]> l).

(** [a // b] *)
Definition floordiv (a b : Z) : res Z :=
  if b =? 0 then Raise ZeroDivisionError else Ok (a / b).

(** A slice bound as Python clips it: counted from the end when
    negative, then brought into [0, len]. *)
Definition clip (len : nat) (i : Z) : nat :=
  if i <? 0 then Z.to_nat (Z.max (i + Z.of_nat len) 0)
  else Nat.min (Z.to_nat i) len.

(** [b[first:last]] *)
Definition slice {A} (l : list A) (first last : Z) : list A :=
  let i := clip (length l) first in
  let j := clip (length l) last in
  take (j - i) (drop i l).

(** [b[first:last] = v] on a [bytearray] or a [list]: the part between
    the clipped bounds is replaced, so the buffer may change length. *)
Definition set_slice {A} (l : list A) (first last : Z) (v : list A)
    : list A :=
  let i := clip (length l) first in
  let j := Nat.max i (clip (length l) last) in
  take i l ++ v ++ drop j l.

(** Values held in a record's raw columns: an [int], [None], or the
    [bitarray] of the schema-encoding column. *)
Inductive val : Type :=
| VInt (z : Z)
| VNone
| VBits (b : bitarray).

#[global] Instance val_eq_dec : EqDecision val.
Proof. solve_decision. Defined.

(** [bool(v)] *)
Definition truthy (v : val) : bool :=
  match v with
  | VInt z => negb (z =? 0)
  | VNone => false
  | VBits b => negb (Nat.eqb (length b) 0)
  end.

(** [v == z] for an [int] [z] *)
Definition eq_int (v : val) (z : Z) : bool :=
  match v with VInt x => x =? z | _ => false end.

(** The [int] a value must be where the sources do arithmetic or an
    ordered comparison on it, or call [to_bytes]. *)
Definition as_int (v : val) (e : exn) : res Z :=
  match v with VInt z => Ok z | _ => Raise e end.

End Py.

Declare Scope py_scope.
Delimit Scope py_scope with py.
Notation "x <- y ;; z" := (Py.bind y (fun x => z))
  (at level 20, y at level 99, z at level 200, only parsing) : py_scope.
Notation "' x <- y ;; z" := (Py.bind y (fun x => z))
  (at level 20, x pattern, y at level 99, z at level 200, only parsing)
  : py_scope.
Notation "'do' y ;; z" := (Py.bind y (fun _ => z))
  (at level 20, y at level 99, z at level 200, only parsing) : py_scope.
Local Open Scope py_scope.

(** ** [config.py] *)

Module Config.
Definition PAGE_SIZE : Z := 4096.
Definition DATA_SIZE : nat := 8.

Definition INDIRECTION_COLUMN : nat := 0.
Definition RID_COLUMN : nat := 1.
Definition TIMESTAMP_COLUMN : nat := 2.
Definition SCHEMA_ENCODING_COLUMN : nat := 3.
Definition BASE_RID_COLUMN : nat := 4.
Definition NUM_META_COLS : nat := 5.

Definition BASE_RID_BEGIN : Z := 1000.
Definition TAIL_RID_BEGIN : Z := 2 ^ 63 - 1.

Definition BUFFERPOOL_MAX_FRAMES : Z := 1 * 1024 * 1024 * 1024 / PAGE_SIZE.

Definition MAX_TABLE_SIZE_INT : nat := 2.
Definition MAX_TABLE_NAME_LEN : Z := 2 ^ (Z.of_nat MAX_TABLE_SIZE_INT * 8) - 1.

Definition MERGE_INTERVAL : Z := 513.

Definition COL_ENCODING : nat := 2.
Definition N_QUERY_ENCODING : nat := 8.
End Config.

(** ** [query.py]: [QueryType] *)

Module QueryType.
Inductive t : Type := INSERT | UPDATE | INCREMENT | DELETE | SELECT | SUM.

#[global] Instance eq_dec : EqDecision t.
Proof. solve_decision. Defined.

Definition value (q : t) : Z :=
  match q with
  | INSERT => 1 | UPDATE => 2 | INCREMENT => 3 | DELETE => 4
  | SELECT => 5 | SUM => 6
  end.

(** The class attribute [_READONLY = 5]; [SELECT = 5] is its alias. *)
Definition READONLY : Z := 5.

(** [is_readonly]: [val > cls._READONLY] *)
Definition is_readonly (val : t) : bool := READONLY <? value val.

(** [QueryType(i)] *)
Definition of_int (i : Z) : Py.res t :=
  if i =? 1 then Py.Ok INSERT
  else if i =? 2 then Py.Ok UPDATE
  else if i =? 3 then Py.Ok INCREMENT
  else if i =? 4 then Py.Ok DELETE
  else if i =? 5 then Py.Ok SELECT
  else if i =? 6 then Py.Ok SUM
  else Py.Raise Py.ValueError.
End QueryType.

(** ** [transaction.py]: the recorded queries *)

(** A [StoredQuery] is [(callable, table name, args)]; of the callable
    only its [query_type] attribute is read.  An argument is an [int] or
    [None]. *)
Record StoredQuery : Type := mkStoredQuery {
  sq_type : QueryType.t;
  sq_table : Py.str;
  sq_args : list (option Z);
}.

(** ** [wal.py] *)

Module TransactionSerializer.
Import Py.

Definition serialize_int (value : Z) (num_bytes : nat) (signed : bool)
    : res (list byte) :=
  to_bytes value num_bytes Little signed.

Definition serialize_uint (value : Z) (num_bytes : nat) : res (list byte) :=
  serialize_int value num_bytes false.

Definition serialize_str (s : str) : res (list byte) :=
  if Config.MAX_TABLE_NAME_LEN <? Z.of_nat (length s) then Raise ValueError
  else
    n <- serialize_uint (Z.of_nat (length s)) Config.MAX_TABLE_SIZE_INT ;;
    b <- encode s ;;
    Ok (n ++ b).

(** [col.to_bytes(...)] on an argument: [None] has no such attribute. *)
Definition serialize_arg (col : option Z) : res (list byte) :=
  match col with
  | Some v => serialize_int v Config.DATA_SIZE true
  | None => Raise AttributeError
  end.

Fixpoint serialize_args (cols : list (option Z)) : res (list byte) :=
  match cols with
  | [] => Ok []
  | col :: r =>
      b <- serialize_arg col ;; rest <- serialize_args r ;; Ok (b ++ rest)
  end.

Definition _serialize_insert (q : list (option Z)) : res (list byte) :=
  n <- serialize_uint (Z.of_nat (length q)) Config.COL_ENCODING ;;
  cols <- serialize_args q ;;
  Ok (n ++ cols).

(** The second loop of [_serialize_update]: the columns that are not
    [None]. *)
Fixpoint serialize_present (cols : list (option Z)) : res (list byte) :=
  match cols with
  | [] => Ok []
  | None :: r => serialize_present r
  | Some v :: r =>
      b <- serialize_int v Config.DATA_SIZE true ;;
      rest <- serialize_present r ;;
      Ok (b ++ rest)
  end.

Definition _serialize_update (q : list (option Z)) : res (list byte) :=
  key <- getitem q 0 ;;
  let cols := drop 1 q in
  k <- serialize_arg key ;;
  n <- serialize_uint (Z.of_nat (length cols)) Config.COL_ENCODING ;;
  let ba := map (fun col : option Z => match col with None => false | Some _ => true end)
                cols in
  vals <- serialize_present cols ;;
  Ok (k ++ n ++ tobytes Little ba ++ vals).

Definition _serialize_increment (q : list (option Z)) : res (list byte) :=
  key <- getitem q 0 ;;
  inc_column <- getitem q 1 ;;
  k <- serialize_arg key ;;
  c <- match inc_column with
       | Some v => serialize_uint v Config.COL_ENCODING
       | None => Raise AttributeError
       end ;;
  Ok (k ++ c).

Definition _serialize_delete (q : list (option Z)) : res (list byte) :=
  key <- getitem q 0 ;;
  serialize_arg key.

Definition _serialize_query (q : StoredQuery) : res (list byte) :=
  let query_type := sq_type q in
  if QueryType.is_readonly query_type then Ok []
  else
    t <- serialize_uint (QueryType.value query_type) 1 ;;
    s <- serialize_str (sq_table q) ;;
    body <- match query_type with
            | QueryType.INSERT => _serialize_insert (sq_args q)
            | QueryType.UPDATE => _serialize_update (sq_args q)
            | QueryType.INCREMENT => _serialize_increment (sq_args q)
            | QueryType.DELETE => _serialize_delete (sq_args q)
            | _ => Ok []
            end ;;
    Ok (t ++ s ++ body).

Fixpoint serialize_queries (qs : list StoredQuery) : res (list byte) :=
  match qs with
  | [] => Ok []
  | q :: r =>
      b <- _serialize_query q ;; rest <- serialize_queries r ;; Ok (b ++ rest)
  end.

(** [TransactionSerializer(xact).serialize()], from the transaction's
    [start_time] and [queries]. *)
Definition serialize (start_time : Z) (queries : list StoredQuery)
    : res (list byte) :=
  t <- serialize_uint start_time Config.DATA_SIZE ;;
  n <- serialize_uint (Z.of_nat (length queries)) Config.N_QUERY_ENCODING ;;
  qs <- serialize_queries queries ;;
  Ok (t ++ n ++ qs).
End TransactionSerializer.

Module RedoQuery.
Import Py.

Record t : Type := mk {
  query_type : QueryType.t;
  table_name : str;
  insert : list Z;
  update : list (option Z);
  key : Z;
  inc_column : Z;
}.

Definition set_insert (q : t) (v : list Z) : t :=
  mk (query_type q) (table_name q) v (update q) (key q) (inc_column q).
Definition set_update (q : t) (v : list (option Z)) : t :=
  mk (query_type q) (table_name q) (insert q) v (key q) (inc_column q).
Definition set_key (q : t) (v : Z) : t :=
  mk (query_type q) (table_name q) (insert q) (update q) v (inc_column q).
Definition set_inc_column (q : t) (v : Z) : t :=
  mk (query_type q) (table_name q) (insert q) (update q) (key q) v.

(** [RedoQuery(query_type, table_name)] with [__post_init__] *)
Definition new (qt : QueryType.t) (name : str) : res t :=
  if QueryType.is_readonly qt then Raise RuntimeError
  else Ok (mk qt name [] [] 0 0).

(** [to_stored_query]: the callable is the [Query] method of that type. *)
Definition to_stored_query (q : t) : res StoredQuery :=
  match query_type q with
  | QueryType.INSERT =>
      Ok (mkStoredQuery QueryType.INSERT (table_name q) (map Some (insert q)))
  | QueryType.UPDATE =>
      Ok (mkStoredQuery QueryType.UPDATE (table_name q)
            (Some (key q) :: update q))
  | QueryType.INCREMENT =>
      Ok (mkStoredQuery QueryType.INCREMENT (table_name q)
            [Some (key q); Some (inc_column q)])
  | QueryType.DELETE =>
      Ok (mkStoredQuery QueryType.DELETE (table_name q) [Some (key q)])
  | _ => Raise RuntimeError
  end.
End RedoQuery.

Module RedoTransaction.
Record t : Type := mk {
  start_time : Z;
  queries : list RedoQuery.t;
}.
End RedoTransaction.

Module WriteAheadLogParser.
Import Py.

(** The parser reads from the file cursor to the end of the file: its
    state is the bytes not yet read.  [f.read(n)] returns at most [n]
    bytes. *)
Definition parser (A : Type) : Type := list byte -> res (A * list byte).

Definition read (n : nat) : parser (list byte) :=
  fun f => Ok (take n f, drop n f).

Definition parse_int (num_bytes : nat) (signed : bool) : parser Z :=
  fun f =>
    '(b, f) <- read num_bytes f ;;
    Ok (from_bytes b Little signed, f).

Definition parse_uint (num_bytes : nat) : parser Z :=
  parse_int num_bytes false.

Definition parse_query_type : parser QueryType.t :=
  fun f =>
    '(i, f) <- parse_uint 1 f ;;
    q <- QueryType.of_int i ;;
    Ok (q, f).

Definition parse_str : parser str :=
  fun f =>
    '(n_chars, f) <- parse_uint Config.MAX_TABLE_SIZE_INT f ;;
    '(b, f) <- read (Z.to_nat n_chars) f ;;
    s <- decode b ;;
    Ok (s, f).

Fixpoint parse_cols (num_cols : nat) : parser (list Z) :=
  fun f =>
    match num_cols with
    | O => Ok ([], f)
    | S n =>
        '(v, f) <- parse_int Config.DATA_SIZE true f ;;
        '(vs, f) <- parse_cols n f ;;
        Ok (v :: vs, f)
    end.

Definition _parse_insert (query : RedoQuery.t) : parser RedoQuery.t :=
  fun f =>
    '(num_cols, f) <- parse_uint Config.COL_ENCODING f ;;
    '(cols, f) <- parse_cols (Z.to_nat num_cols) f ;;
    Ok (RedoQuery.set_insert query (RedoQuery.insert query ++ cols), f).

Fixpoint parse_flags (ba : bitarray) : parser (list (option Z)) :=
  fun f =>
    match ba with
    | [] => Ok ([], f)
    | false :: r =>
        '(vs, f) <- parse_flags r f ;;
        Ok (None :: vs, f)
    | true :: r =>
        '(v, f) <- parse_int Config.DATA_SIZE true f ;;
        '(vs, f) <- parse_flags r f ;;
        Ok (Some v :: vs, f)
    end.

Definition _parse_update (query : RedoQuery.t) : parser RedoQuery.t :=
  fun f =>
    '(k, f) <- parse_int Config.DATA_SIZE true f ;;
    let query := RedoQuery.set_key query k in
    '(table_num_cols, f) <- parse_uint Config.COL_ENCODING f ;;
    let bitarray_size := Z.to_nat ((table_num_cols + 7) / 8) in
    '(b, f) <- read bitarray_size f ;;
    let ba := take (Z.to_nat table_num_cols) (frombytes Little b) in
    '(cols, f) <- parse_flags ba f ;;
    Ok (RedoQuery.set_update query (RedoQuery.update query ++ cols), f).

Definition _parse_increment (query : RedoQuery.t) : parser RedoQuery.t :=
  fun f =>
    '(k, f) <- parse_int Config.DATA_SIZE true f ;;
    '(c, f) <- parse_uint Config.COL_ENCODING f ;;
    Ok (RedoQuery.set_inc_column (RedoQuery.set_key query k) c, f).

Definition _parse_delete (query : RedoQuery.t) : parser RedoQuery.t :=
  fun f =>
    '(k, f) <- parse_int Config.DATA_SIZE true f ;;
    Ok (RedoQuery.set_key query k, f).

Definition _parse_query : parser RedoQuery.t :=
  fun f =>
    '(qt, f) <- parse_query_type f ;;
    '(name, f) <- parse_str f ;;
    query <- RedoQuery.new qt name ;;
    match RedoQuery.query_type query with
    | QueryType.INSERT => _parse_insert query f
    | QueryType.UPDATE => _parse_update query f
    | QueryType.INCREMENT => _parse_increment query f
    | QueryType.DELETE => _parse_delete query f
    | _ => Raise RuntimeError
    end.

Fixpoint parse_queries (num_queries : nat) : parser (list RedoQuery.t) :=
  fun f =>
    match num_queries with
    | O => Ok ([], f)
    | S n =>
        '(q, f) <- _parse_query f ;;
        '(qs, f) <- parse_queries n f ;;
        Ok (q :: qs, f)
    end.

Definition _parse_xact : parser RedoTransaction.t :=
  fun f =>
    '(t, f) <- parse_uint Config.DATA_SIZE f ;;
    '(num_queries, f) <- parse_uint Config.N_QUERY_ENCODING f ;;
    '(qs, f) <- parse_queries (Z.to_nat num_queries) f ;;
    Ok (RedoTransaction.mk t qs, f).

(** The loop of [parse]: [while self._f.tell() < self._fsize].  [None]
    when [fuel] iterations were not enough. *)
Fixpoint parse_loop (fuel : nat) (f : list byte)
    : option (res (list RedoTransaction.t)) :=
  match f with
  | [] => Some (Ok [])
  | _ :: _ =>
      match fuel with
      | O => None
      | S fuel' =>
          match _parse_xact f with
          | Raise e => Some (Raise e)
          | Ok (x, f') =>
              match parse_loop fuel' f' with
              | Some (Ok xs) => Some (Ok (x :: xs))
              | r => r
              end
          end
      end
  end.

(** [WriteAheadLogParser(f).parse()] on a file holding [wal]; every
    transaction takes at least one byte, so [length wal] iterations
    are enough. *)
Definition parse (wal : list byte) : option (res (list RedoTransaction.t)) :=
  parse_loop (length wal) wal.
End WriteAheadLogParser.

(** ** State and exceptions

    A method that mutates its object is a function from the state to an
    outcome and the state it leaves behind; a raise keeps the mutations
    made before it. *)

Module St.
Import Py.

Definition M (S A : Type) : Type := S -> res A * S.

Definition ret {S A} (a : A) : M S A := fun s => (Ok a, s).
Definition raise {S A} (e : exn) : M S A := fun s => (Raise e, s).
Definition lift {S A} (r : res A) : M S A := fun s => (r, s).
Definition get {S} : M S S := fun s => (Ok s, s).
Definition put {S} (s : S) : M S unit := fun _ => (Ok tt, s).

Definition bind {S A B} (m : M S A) (k : A -> M S B) : M S B :=
  fun s =>
    match m s with
    | (Ok a, s') => k a s'
    | (Raise e, s') => (Raise e, s')
    end.

(** Run [m] on the component of the state selected by [proj]/[inj]. *)
Definition zoom {S T A} (proj : S -> T) (inj : T -> S -> S) (m : M T A)
    : M S A :=
  fun s => let '(r, t) := m (proj s) in (r, inj t s).

(** [for x in l: f(x)] *)
Fixpoint for_each {S A} (l : list A) (f : A -> M S unit) : M S unit :=
  match l with
  | [] => ret tt
  | x :: r => bind (f x) (fun _ => for_each r f)
  end.

(** [try: return m  except Exception: return h]; what is not an
    [Exception] passes through. *)
Definition try_except {S A} (m : M S A) (h : M S A) : M S A :=
  fun s =>
    match m s with
    | (Ok a, s') => (Ok a, s')
    | (Raise e, s') => if is_Exception e then h s' else (Raise e, s')
    end.
End St.

Notation "x <~ y ;; z" := (St.bind y (fun x => z))
  (at level 20, y at level 99, z at level 200, only parsing) : py_scope.
Notation "' x <~ y ;; z" := (St.bind y (fun x => z))
  (at level 20, x pattern, y at level 99, z at level 200, only parsing)
  : py_scope.
Notation "'run' y ;; z" := (St.bind y (fun _ => z))
  (at level 20, y at level 99, z at level 200, only parsing) : py_scope.

(** ** [page.py] *)

Module PageId.
Record t : Type := mk {
  table_name : Py.str;
  raw_column_index : nat;
  is_base : bool;
  page_index : Z;
}.

Definition to_tuple (p : t) : Py.str * nat * bool * Z :=
  (table_name p, raw_column_index p, is_base p, page_index p).

Definition of_tuple (x : Py.str * nat * bool * Z) : t :=
  let '(n, c, b, i) := x in mk n c b i.

#[global] Instance eq_dec : EqDecision t.
Proof. solve_decision. Defined.

#[global] Instance countable : Countable t.
Proof.
  apply (inj_countable' to_tuple of_tuple). intros []. reflexivity.
Defined.
End PageId.

Module PageLocation.
Record t : Type := mk {
  table_name : Py.str;
  raw_column_index : nat;
  is_base : bool;
  page_index : Z;
  offset : Z;
}.

Definition id (l : t) : PageId.t :=
  PageId.mk (table_name l) (raw_column_index l) (is_base l) (page_index l).

Definition from_id (i : PageId.t) (offset : Z) : t :=
  mk (PageId.table_name i) (PageId.raw_column_index i) (PageId.is_base i)
     (PageId.page_index i) offset.

Definition set_offset (l : t) (o : Z) : t :=
  mk (table_name l) (raw_column_index l) (is_base l) (page_index l) o.

#[global] Instance eq_dec : EqDecision t.
Proof. solve_decision. Defined.
End PageLocation.

(** [page_range]: the [count] pages from [page_id] on, in one file. *)
Definition page_range (page_id : PageId.t) (count : nat) : list PageId.t :=
  map (fun i => PageId.mk (PageId.table_name page_id)
                  (PageId.raw_column_index page_id) (PageId.is_base page_id)
                  (PageId.page_index page_id + Z.of_nat i))
      (seq 0 count).

(** [columns_of]: the physical pages of a conceptual page. *)
Definition columns_of (page_id : PageId.t) (num_raw_cols : nat)
    : list PageId.t :=
  map (fun i => PageId.mk (PageId.table_name page_id) i
                  (PageId.is_base page_id) (PageId.page_index page_id))
      (seq 0 num_raw_cols).

Module Page.
Import Py.

Definition zero_page : list byte :=
  repeat x00 (Z.to_nat Config.PAGE_SIZE).

(** [Page.__init__]: an empty buffer is replaced by a fresh page, and
    the length is asserted. *)
Definition init (data : list byte) : res (list byte) :=
  let d := match data with [] => zero_page | _ => data end in
  do assert (Z.of_nat (length d) =? Config.PAGE_SIZE) ;;
  Ok d.

(** [AlignedPage._write_bytes] *)
Definition _write_bytes (col_size : Z) (data value : list byte) (offset : Z)
    : res (list byte) :=
  do assert (Z.of_nat (length value) =? col_size) ;;
  let first := offset * col_size in
  let last := first + col_size in
  Ok (set_slice data first last value).

(** [AlignedPage._read_bytes] *)
Definition _read_bytes (col_size : Z) (data : list byte) (offset : Z)
    : list byte :=
  let first := offset * col_size in
  let last := first + col_size in
  slice data first last.
End Page.

Module DataPage.
Import Py.

Definition col_size : Z := Z.of_nat Config.DATA_SIZE.

(** [DataPage(page_id, data, pagedir)]: the page's buffer. *)
Definition new (data : list byte) : res (list byte) := Page.init data.

(** [read(offset)]; [e] is [sys.byteorder]. *)
Definition read (e : endian) (page : list byte) (offset : Z) : Z :=
  from_bytes (Page._read_bytes col_size page offset) e true.

(** [write(value, offset)]: the new contents of the buffer. *)
Definition write (e : endian) (page : list byte) (value : val) (offset : Z)
    : res (list byte) :=
  v <- as_int value AttributeError ;;
  b <- to_bytes v Config.DATA_SIZE e true ;;
  Page._write_bytes col_size page b offset.
End DataPage.

Module SchemaEncodingPage.
Import Py.

Definition get_col_size (num_columns : nat) : Z :=
  (Z.of_nat num_columns + 7) / 8.

(** [SchemaEncodingPage(page_id, num_columns, data, pagedir)] *)
Definition new (data : list byte) : res (list byte) := Page.init data.

(** [write(value, offset)]: every bitarray the engine writes was built
    with [endian=sys.byteorder], so the endianness assertion holds; a
    value that is no bitarray has no [endian] method. *)
Definition write (e : endian) (num_columns : nat) (page : list byte)
    (value : val) (offset : Z) : res (list byte) :=
  match value with
  | VBits ba =>
      Page._write_bytes (get_col_size num_columns) page (tobytes e ba) offset
  | _ => Raise AttributeError
  end.

(** [read(offset)] *)
Definition read (e : endian) (num_columns : nat) (page : list byte)
    (offset : Z) : bitarray :=
  take num_columns
    (frombytes e (Page._read_bytes (get_col_size num_columns) page offset)).
End SchemaEncodingPage.

(** ** [record.py] *)

Module Record.
Import Py.

(** Every record is built by [new], which pads [raw_columns] to the
    five metadata columns, so the metadata lookups are in range. *)
Record t : Type := mk {
  key_col : nat;
  raw_columns : list val;
  is_deleted : bool;
}.

Definition raw (r : t) (i : nat) : val := nth i (raw_columns r) VNone.

Definition set_raw (r : t) (i : nat) (v : val) : t :=
  mk (key_col r) (<[i := v]> (raw_columns r)) (is_deleted r).

Definition set_raw_columns (r : t) (l : list val) : t :=
  mk (key_col r) l (is_deleted r).

Definition set_is_deleted (r : t) (b : bool) : t :=
  mk (key_col r) (raw_columns r) b.

Definition schema_encoding (r : t) : val :=
  raw r Config.SCHEMA_ENCODING_COLUMN.
Definition set_schema_encoding (r : t) (v : val) : t :=
  set_raw r Config.SCHEMA_ENCODING_COLUMN v.

(** [Record(key_col, raw_columns)] *)
Definition new (key_col : nat) (raw_columns : list val) : t :=
  let padded :=
    raw_columns
    ++ repeat (VInt 0) (Config.NUM_META_COLS - length raw_columns) in
  let r := mk key_col padded false in
  match schema_encoding r with
  | VBits _ => r
  | _ => set_schema_encoding r (VBits [])
  end.

Definition columns (r : t) : list val :=
  drop Config.NUM_META_COLS (raw_columns r).

Definition set_columns (r : t) (value : list val) : t :=
  set_raw_columns r
    (set_slice (raw_columns r) (Z.of_nat Config.NUM_META_COLS)
       (Z.of_nat (length (raw_columns r))) value).

(** [indirection]: [0] reads as [None]. *)
Definition indirection (r : t) : val :=
  match raw r Config.INDIRECTION_COLUMN with
  | VInt 0 => VNone
  | v => v
  end.

Definition set_indirection (r : t) (rid : val) : t :=
  set_raw r Config.INDIRECTION_COLUMN (if truthy rid then rid else VInt 0).

Definition rid (r : t) : val := raw r Config.RID_COLUMN.
Definition set_rid (r : t) (v : val) : t := set_raw r Config.RID_COLUMN v.

Definition timestamp (r : t) : val := raw r Config.TIMESTAMP_COLUMN.
Definition set_timestamp (r : t) (v : val) : t :=
  set_raw r Config.TIMESTAMP_COLUMN v.

Definition base_rid (r : t) : val := raw r Config.BASE_RID_COLUMN.
Definition set_base_rid (r : t) (v : val) : t :=
  set_raw r Config.BASE_RID_COLUMN v.

(** [filter_columns] *)
Fixpoint project (cols : list val) (flags : list Z) : list val :=
  match cols, flags with
  | value :: cols', flag :: flags' =>
      if flag =? 1 then value :: project cols' flags'
      else project cols' flags'
  | _, _ => []
  end.

Definition filter_columns (r : t) (projected_column_indices : list Z) : t :=
  set_columns r (project (columns r) projected_column_indices).
End Record.

(** ** [index.py] *)

Module SortedSet.
(** A [SortedSet] of RIDs is the ascending list of its elements. *)
Fixpoint add (rid : Z) (s : list Z) : list Z :=
  match s with
  | [] => [rid]
  | x :: r =>
      if rid <? x then rid :: s
      else if rid =? x then s
      else x :: add rid r
  end.

Definition mem (rid : Z) (s : list Z) : bool := existsb (Z.eqb rid) s.

Fixpoint discard (rid : Z) (s : list Z) : list Z :=
  match s with
  | [] => []
  | x :: r => if rid =? x then r else x :: discard rid r
  end.

(** [s.remove(rid)] raises [KeyError] when [rid] is absent. *)
Definition remove (rid : Z) (s : list Z) : Py.res (list Z) :=
  if mem rid s then Py.Ok (discard rid s) else Py.Raise Py.KeyError.
End SortedSet.

Module RangedIndex.
Import Py.

(** [_index] is a [SortedDict] from value to [SortedSet]; its key order
    only shows in [locate_range]. *)
Record t : Type := mk {
  _index : gmap Z (list Z);
  _is_unique : bool;
}.

Definition empty (is_unique : bool) : t := mk ∅ is_unique.

(** [__add], which [add] calls *)
Definition add (value rid : Z) (ix : t) : res t :=
  if _is_unique ix && bool_decide (is_Some (_index ix !! value))
  then Raise UniqueKeyViolationError
  else
    let rids := default [] (_index ix !! value) in
    Ok (mk (<[value := SortedSet.add rid rids]> (_index ix)) (_is_unique ix)).

Definition locate (value : Z) (ix : t) : list Z :=
  default [] (_index ix !! value).

(** [irange(begin, end)]: the keys in the closed range, ascending. *)
Definition irange (first last : Z) (ix : t) : list Z :=
  merge_sort Z.le
    (filter (fun v => first <= v /\ v <= last)
       (map fst (map_to_list (_index ix)))).

Definition locate_range (first last : Z) (ix : t) : list Z :=
  flat_map (fun value => default [] (_index ix !! value))
    (irange first last ix).

(** [remove(value, rid)]; [rid] is [None] to drop the whole bucket. *)
Definition remove (value : Z) (rid : option Z) (ix : t) : res t :=
  match _index ix !! value with
  | None => Ok ix
  | Some rids =>
      match _is_unique ix, rid with
      | false, Some r =>
          rids' <- SortedSet.remove r rids ;;
          Ok (mk (<[value := rids']> (_index ix)) (_is_unique ix))
      | _, _ => Ok (mk (delete value (_index ix)) (_is_unique ix))
      end
  end.
End RangedIndex.

Module Index.
Import Py.

(** [indices]: one optional column index per data column. *)
Abbreviation t := (list (option RangedIndex.t)) (only parsing).

(** [Index.locate(column, value)] *)
Definition locate (column : Z) (value : Z) (ix : t) : res (list Z) :=
  i <- getitem ix column ;;
  match i with
  | None => Raise RuntimeError
  | Some i => Ok (RangedIndex.locate value i)
  end.

(** [Index.__init__] on a table without records: a [UniqueIndex] on the
    key column, none elsewhere ([create_table] passes no other
    column). *)
Definition new (num_columns key : nat) : t :=
  <[key := Some (RangedIndex.empty true)]> (repeat None num_columns).
End Index.

(** ** [transaction_tracker.py] *)

Module TransactionTracker.
Import Py.

(** [_aborted]: [true] = aborted, [false] = committed, absent =
    pending. *)
Abbreviation t := (gmap Z bool) (only parsing).

Definition mark_committed (timestamp : Z) : St.M t unit :=
  fun a =>
    match a !! timestamp with
    | Some _ => (Raise ValueError, a)
    | None => (Ok tt, <[timestamp := false]> a)
    end.

Definition mark_aborted (timestamp : Z) : St.M t unit :=
  fun a =>
    match a !! timestamp with
    | Some _ => (Raise ValueError, a)
    | None => (Ok tt, <[timestamp := true]> a)
    end.

Definition is_committed (timestamp : Z) (a : t) : bool :=
  bool_decide (default true (a !! timestamp) = false).

Definition is_aborted (timestamp : Z) (a : t) : bool :=
  bool_decide (default false (a !! timestamp) = true).

Definition is_maybe_pending (timestamp : Z) (a : t) : bool :=
  bool_decide (a !! timestamp = None).
End TransactionTracker.

(** ** [table.py]: what a table is built with *)

Module TableInfo.
Record t : Type := mk {
  name : Py.str;
  num_columns : nat;
  key : nat;
  (** [sys.byteorder] of the machine the engine runs on *)
  byteorder : Py.endian;
}.

Definition num_raw_cols (tbl : t) : nat :=
  num_columns tbl + Config.NUM_META_COLS.
End TableInfo.

(** ** [pagedir.py] *)

Module PageDirectory.
Import Py.

(** The mutable attributes of a [PageDirectory].  The four resolved
    and record counters and [_num_records] are [defaultdict(int)]:
    reading a missing key stores 0 under it. *)
Record t : Type := mk {
  _unused_tp_idx : Z;
  _unused_bp_idx : Z;
  _merge_queue : list PageId.t;
  _range_last_bp : gmap Z Z;
  _con_bp_last_con_tp : gmap Z (option Z);
  _con_tp_owner : gmap Z Z;
  _con_bp_num_resolved : gmap Z Z;
  _con_tp_num_resolved : gmap Z Z;
  _offsets : gmap Z (list PageLocation.t);
  _unused_base_rid : Z;
  _unused_tail_rid : Z;
  _num_records : gmap PageId.t Z;
  _con_bp_num_records : gmap Z Z;
  _con_tp_num_records : gmap Z Z;
  _tps : gmap Z Z;
}.

Definition set_unused_tp_idx (v : Z) (d : t) : t :=
  mk v (_unused_bp_idx d) (_merge_queue d) (_range_last_bp d)
     (_con_bp_last_con_tp d) (_con_tp_owner d) (_con_bp_num_resolved d)
     (_con_tp_num_resolved d) (_offsets d) (_unused_base_rid d)
     (_unused_tail_rid d) (_num_records d) (_con_bp_num_records d)
     (_con_tp_num_records d) (_tps d).
Definition set_unused_bp_idx (v : Z) (d : t) : t :=
  mk (_unused_tp_idx d) v (_merge_queue d) (_range_last_bp d)
     (_con_bp_last_con_tp d) (_con_tp_owner d) (_con_bp_num_resolved d)
     (_con_tp_num_resolved d) (_offsets d) (_unused_base_rid d)
     (_unused_tail_rid d) (_num_records d) (_con_bp_num_records d)
     (_con_tp_num_records d) (_tps d).
Definition set_merge_queue (v : list PageId.t) (d : t) : t :=
  mk (_unused_tp_idx d) (_unused_bp_idx d) v (_range_last_bp d)
     (_con_bp_last_con_tp d) (_con_tp_owner d) (_con_bp_num_resolved d)
     (_con_tp_num_resolved d) (_offsets d) (_unused_base_rid d)
     (_unused_tail_rid d) (_num_records d) (_con_bp_num_records d)
     (_con_tp_num_records d) (_tps d).
Definition set_range_last_bp (v : gmap Z Z) (d : t) : t :=
  mk (_unused_tp_idx d) (_unused_bp_idx d) (_merge_queue d) v
     (_con_bp_last_con_tp d) (_con_tp_owner d) (_con_bp_num_resolved d)
     (_con_tp_num_resolved d) (_offsets d) (_unused_base_rid d)
     (_unused_tail_rid d) (_num_records d) (_con_bp_num_records d)
     (_con_tp_num_records d) (_tps d).
Definition set_con_bp_last_con_tp (v : gmap Z (option Z)) (d : t) : t :=
  mk (_unused_tp_idx d) (_unused_bp_idx d) (_merge_queue d)
     (_range_last_bp d) v (_con_tp_owner d) (_con_bp_num_resolved d)
     (_con_tp_num_resolved d) (_offsets d) (_unused_base_rid d)
     (_unused_tail_rid d) (_num_records d) (_con_bp_num_records d)
     (_con_tp_num_records d) (_tps d).
Definition set_con_tp_owner (v : gmap Z Z) (d : t) : t :=
  mk (_unused_tp_idx d) (_unused_bp_idx d) (_merge_queue d)
     (_range_last_bp d) (_con_bp_last_con_tp d) v (_con_bp_num_resolved
     d) (_con_tp_num_resolved d) (_offsets d) (_unused_base_rid d)
     (_unused_tail_rid d) (_num_records d) (_con_bp_num_records d)
     (_con_tp_num_records d) (_tps d).
Definition set_con_bp_num_resolved (v : gmap Z Z) (d : t) : t :=
  mk (_unused_tp_idx d) (_unused_bp_idx d) (_merge_queue d)
     (_range_last_bp d) (_con_bp_last_con_tp d) (_con_tp_owner d) v
     (_con_tp_num_resolved d) (_offsets d) (_unused_base_rid d)
     (_unused_tail_rid d) (_num_records d) (_con_bp_num_records d)
     (_con_tp_num_records d) (_tps d).
Definition set_con_tp_num_resolved (v : gmap Z Z) (d : t) : t :=
  mk (_unused_tp_idx d) (_unused_bp_idx d) (_merge_queue d)
     (_range_last_bp d) (_con_bp_last_con_tp d) (_con_tp_owner d)
     (_con_bp_num_resolved d) v (_offsets d) (_unused_base_rid d)
     (_unused_tail_rid d) (_num_records d) (_con_bp_num_records d)
     (_con_tp_num_records d) (_tps d).
Definition set_offsets (v : gmap Z (list PageLocation.t)) (d : t) : t :=
  mk (_unused_tp_idx d) (_unused_bp_idx d) (_merge_queue d)
     (_range_last_bp d) (_con_bp_last_con_tp d) (_con_tp_owner d)
     (_con_bp_num_resolved d) (_con_tp_num_resolved d) v
     (_unused_base_rid d) (_unused_tail_rid d) (_num_records d)
     (_con_bp_num_records d) (_con_tp_num_records d) (_tps d).
Definition set_unused_base_rid (v : Z) (d : t) : t :=
  mk (_unused_tp_idx d) (_unused_bp_idx d) (_merge_queue d)
     (_range_last_bp d) (_con_bp_last_con_tp d) (_con_tp_owner d)
     (_con_bp_num_resolved d) (_con_tp_num_resolved d) (_offsets d) v
     (_unused_tail_rid d) (_num_records d) (_con_bp_num_records d)
     (_con_tp_num_records d) (_tps d).
Definition set_unused_tail_rid (v : Z) (d : t) : t :=
  mk (_unused_tp_idx d) (_unused_bp_idx d) (_merge_queue d)
     (_range_last_bp d) (_con_bp_last_con_tp d) (_con_tp_owner d)
     (_con_bp_num_resolved d) (_con_tp_num_resolved d) (_offsets d)
     (_unused_base_rid d) v (_num_records d) (_con_bp_num_records d)
     (_con_tp_num_records d) (_tps d).
Definition set_num_records (v : gmap PageId.t Z) (d : t) : t :=
  mk (_unused_tp_idx d) (_unused_bp_idx d) (_merge_queue d)
     (_range_last_bp d) (_con_bp_last_con_tp d) (_con_tp_owner d)
     (_con_bp_num_resolved d) (_con_tp_num_resolved d) (_offsets d)
     (_unused_base_rid d) (_unused_tail_rid d) v (_con_bp_num_records d)
     (_con_tp_num_records d) (_tps d).
Definition set_con_bp_num_records (v : gmap Z Z) (d : t) : t :=
  mk (_unused_tp_idx d) (_unused_bp_idx d) (_merge_queue d)
     (_range_last_bp d) (_con_bp_last_con_tp d) (_con_tp_owner d)
     (_con_bp_num_resolved d) (_con_tp_num_resolved d) (_offsets d)
     (_unused_base_rid d) (_unused_tail_rid d) (_num_records d) v
     (_con_tp_num_records d) (_tps d).
Definition set_con_tp_num_records (v : gmap Z Z) (d : t) : t :=
  mk (_unused_tp_idx d) (_unused_bp_idx d) (_merge_queue d)
     (_range_last_bp d) (_con_bp_last_con_tp d) (_con_tp_owner d)
     (_con_bp_num_resolved d) (_con_tp_num_resolved d) (_offsets d)
     (_unused_base_rid d) (_unused_tail_rid d) (_num_records d)
     (_con_bp_num_records d) v (_tps d).
Definition set_tps (v : gmap Z Z) (d : t) : t :=
  mk (_unused_tp_idx d) (_unused_bp_idx d) (_merge_queue d)
     (_range_last_bp d) (_con_bp_last_con_tp d) (_con_tp_owner d)
     (_con_bp_num_resolved d) (_con_tp_num_resolved d) (_offsets d)
     (_unused_base_rid d) (_unused_tail_rid d) (_num_records d)
     (_con_bp_num_records d) (_con_tp_num_records d) v.

(** [PageDirectory.__init__] with [load=False] *)
Definition new : t :=
  mk 0 0 [] ∅ ∅ ∅ ∅ ∅ ∅ Config.BASE_RID_BEGIN Config.TAIL_RID_BEGIN ∅ ∅ ∅ ∅.

Definition _base_rid_begin : Z := Config.BASE_RID_BEGIN.
Definition _tail_rid_begin : Z := Config.TAIL_RID_BEGIN.

Definition _se_recs_per_page (tbl : TableInfo.t) : Z :=
  Config.PAGE_SIZE / ((Z.of_nat (TableInfo.num_columns tbl) + 7) / 8).

Definition _data_recs_per_page : Z :=
  Config.PAGE_SIZE / Z.of_nat Config.DATA_SIZE.

Definition _con_page_max_recs (tbl : TableInfo.t) : Z :=
  Z.min (_se_recs_per_page tbl) _data_recs_per_page.

(** [d[k]] on a [defaultdict(int)] *)
Definition dd_get `{Countable K} (k : K) (m : gmap K Z) : Z * gmap K Z :=
  match m !! k with
  | Some v => (v, m)
  | None => (0, <[k := 0]> m)
  end.

(** [d[k]] on a [dict] *)
Definition dict_get `{Countable K} {V} (k : K) (m : gmap K V) : res V :=
  match m !! k with
  | Some v => Ok v
  | None => Raise KeyError
  end.

Definition read_con_bp_num_resolved (k : Z) : St.M t Z :=
  fun d => let '(v, m) := dd_get k (_con_bp_num_resolved d) in
           (Ok v, set_con_bp_num_resolved m d).
Definition read_con_tp_num_resolved (k : Z) : St.M t Z :=
  fun d => let '(v, m) := dd_get k (_con_tp_num_resolved d) in
           (Ok v, set_con_tp_num_resolved m d).
Definition read_con_bp_num_records (k : Z) : St.M t Z :=
  fun d => let '(v, m) := dd_get k (_con_bp_num_records d) in
           (Ok v, set_con_bp_num_records m d).
Definition read_con_tp_num_records (k : Z) : St.M t Z :=
  fun d => let '(v, m) := dd_get k (_con_tp_num_records d) in
           (Ok v, set_con_tp_num_records m d).
Definition read_num_records (k : PageId.t) : St.M t Z :=
  fun d => let '(v, m) := dd_get k (_num_records d) in
           (Ok v, set_num_records m d).

Definition modify (f : t -> t) : St.M t unit := fun d => (Ok tt, f d).

(** [clear_merge_queue] *)
Definition clear_merge_queue : St.M t (list PageId.t) :=
  fun d => (Ok (_merge_queue d), set_merge_queue [] d).

(** [__mark_resolved] *)
Definition mark_resolved (tbl : TableInfo.t) (rid : Z) : St.M t unit :=
  d <~ St.get ;;
  locs <~ St.lift (dict_get rid (_offsets d)) ;;
  page_id <~ St.lift (getitem locs 0) ;;
  let idx := PageLocation.page_index page_id in
  if PageLocation.is_base page_id then
    n <~ read_con_bp_num_resolved idx ;;
    modify (fun d => set_con_bp_num_resolved
                       (<[idx := n + 1]> (_con_bp_num_resolved d)) d)
  else
    n <~ read_con_tp_num_resolved idx ;;
    run modify (fun d => set_con_tp_num_resolved
                           (<[idx := n + 1]> (_con_tp_num_resolved d)) d) ;;
    let tp_idx := idx in
    d <~ St.get ;;
    bp_idx <~ St.lift (dict_get idx (_con_tp_owner d)) ;;
    b <~ read_con_bp_num_resolved bp_idx ;;
    if negb (b =? _con_page_max_recs tbl) then St.ret tt
    else
      n <~ read_con_tp_num_resolved tp_idx ;;
      if negb (n =? _con_page_max_recs tbl) then St.ret tt
      else
        modify (fun d => set_merge_queue
                           (_merge_queue d ++ [PageLocation.id page_id]) d).

(** [notify_resolve] *)
Definition notify_resolve (tbl : TableInfo.t) (affected_rids : list Z)
    : St.M t unit :=
  St.for_each affected_rids (mark_resolved tbl).

(** [__has_capacity] *)
Definition has_capacity (tbl : TableInfo.t) (page_id : PageId.t)
    : St.M t bool :=
  if PageId.is_base page_id then
    n <~ read_con_bp_num_records (PageId.page_index page_id) ;;
    St.ret (n <? _con_page_max_recs tbl)
  else
    n <~ read_con_tp_num_records (PageId.page_index page_id) ;;
    St.ret (n <? _con_page_max_recs tbl).

(** [__set_num_records] *)
Definition set_num_records_of (tbl : TableInfo.t) (page_id : PageId.t)
    (value : Z) : St.M t unit :=
  run St.lift (assert (value <=? _con_page_max_recs tbl)) ;;
  run modify (fun d => set_num_records
                         (<[page_id := value]> (_num_records d)) d) ;;
  let idx := PageId.page_index page_id in
  if PageId.is_base page_id then
    prev_con_size <~ read_con_bp_num_records idx ;;
    modify (fun d => set_con_bp_num_records
                       (<[idx := Z.max value prev_con_size]>
                          (_con_bp_num_records d)) d)
  else
    prev_con_size <~ read_con_tp_num_records idx ;;
    modify (fun d => set_con_tp_num_records
                       (<[idx := Z.max value prev_con_size]>
                          (_con_tp_num_records d)) d).

(** [is_base_rec] *)
Definition is_base_rec (rid : Z) (d : t) : bool :=
  (_base_rid_begin <=? rid) && (rid <? _unused_base_rid d).

(** [get_base_record_location]: the TPS and a copy of the offsets. *)
Definition get_base_record_location (base_rid : Z) (d : t)
    : res (Z * list PageLocation.t) :=
  if negb ((_base_rid_begin <=? base_rid) && (base_rid <? _unused_base_rid d))
  then Raise ValueError
  else
    tps <- dict_get base_rid (_tps d) ;;
    locs <- dict_get base_rid (_offsets d) ;;
    Ok (tps, locs).

(** [get_tail_record_location] *)
Definition get_tail_record_location (tail_rid : Z) (d : t)
    : res (list PageLocation.t) :=
  if negb ((tail_rid <=? _tail_rid_begin) && (_unused_tail_rid d <? tail_rid))
  then Raise ValueError
  else dict_get tail_rid (_offsets d).

(** [notify_merge] *)
Definition notify_merge (tbl : TableInfo.t) (base_rid : Z)
    (offsets : list PageLocation.t) (tps : Z) : St.M t unit :=
  run St.lift (assert (Nat.eqb (length offsets) (TableInfo.num_columns tbl))) ;;
  d <~ St.get ;;
  locs <~ St.lift (dict_get base_rid (_offsets d)) ;;
  let n := Z.of_nat Config.NUM_META_COLS in
  run modify (set_offsets
                (<[base_rid := set_slice locs n (Z.of_nat (length locs)) offsets]>
                   (_offsets d))) ;;
  modify (fun d => set_tps (<[base_rid := tps]> (_tps d)) d).

(** [__ensure_range_exists] *)
Definition ensure_range_exists (range_id : Z) : St.M t unit :=
  d <~ St.get ;;
  run (match _range_last_bp d !! range_id with
       | Some _ => St.ret tt
       | None =>
           modify (fun d =>
             set_unused_bp_idx (_unused_bp_idx d + 1)
               (set_range_last_bp
                  (<[range_id := _unused_bp_idx d]> (_range_last_bp d)) d))
       end) ;;
  d <~ St.get ;;
  match _con_bp_last_con_tp d !! range_id with
  | Some _ => St.ret tt
  | None =>
      modify (fun d => set_con_bp_last_con_tp
                         (<[range_id := None]> (_con_bp_last_con_tp d)) d)
  end.

(** [__get_range_bp_idx] *)
Definition get_range_bp_idx (tbl : TableInfo.t) (range_id : Z) : St.M t Z :=
  d <~ St.get ;;
  bp_idx <~ St.lift (dict_get range_id (_range_last_bp d)) ;;
  n <~ read_con_bp_num_records bp_idx ;;
  if n <? _con_page_max_recs tbl then St.ret bp_idx
  else
    d <~ St.get ;;
    let bp_idx := _unused_bp_idx d in
    run modify (fun d =>
          set_range_last_bp (<[range_id := bp_idx]> (_range_last_bp d))
            (set_unused_bp_idx (_unused_bp_idx d + 1) d)) ;;
    St.ret bp_idx.

(** The loop of [__alloc_bp_space] *)
Fixpoint alloc_bp_loop (tbl : TableInfo.t) (bps : list PageId.t)
    : St.M t (list PageLocation.t) :=
  match bps with
  | [] => St.ret []
  | bp :: r =>
      n <~ read_num_records bp ;;
      run set_num_records_of tbl bp (n + 1) ;;
      rest <~ alloc_bp_loop tbl r ;;
      St.ret (PageLocation.from_id bp n :: rest)
  end.

(** [__alloc_bp_space] *)
Definition alloc_bp_space (tbl : TableInfo.t) (bp_idx : Z)
    : St.M t (list PageLocation.t) :=
  let start := PageLocation.mk (TableInfo.name tbl) 0 true bp_idx 0 in
  alloc_bp_loop tbl
    (columns_of (PageLocation.id start) (TableInfo.num_raw_cols tbl)).

(** [alloc_base_rid] *)
Definition alloc_base_rid (tbl : TableInfo.t)
    : St.M t (Z * list PageLocation.t) :=
  d <~ St.get ;;
  let rid := _unused_base_rid d in
  run modify (set_unused_base_rid (rid + 1)) ;;
  let base_rec_idx := rid - Config.BASE_RID_BEGIN in
  range_id <~ St.lift (floordiv base_rec_idx (_con_page_max_recs tbl)) ;;
  run ensure_range_exists range_id ;;
  bp_idx <~ get_range_bp_idx tbl range_id ;;
  offsets <~ alloc_bp_space tbl bp_idx ;;
  run modify (fun d => set_offsets (<[rid := offsets]> (_offsets d)) d) ;;
  run modify (fun d => set_tps (<[rid := _tail_rid_begin + 1]> (_tps d)) d) ;;
  St.ret (rid, offsets).

(** The loop of [alloc_merge_locations] *)
Fixpoint alloc_merge_loop (tbl : TableInfo.t) (bps : list PageId.t)
    : St.M t (list PageLocation.t) :=
  match bps with
  | [] => St.ret []
  | bp :: r =>
      run set_num_records_of tbl bp (_con_page_max_recs tbl) ;;
      rest <~ alloc_merge_loop tbl r ;;
      if (PageId.raw_column_index bp <? Config.NUM_META_COLS)%nat
      then St.ret rest
      else St.ret (PageLocation.from_id bp 0 :: rest)
  end.

(** [alloc_merge_locations] *)
Definition alloc_merge_locations (tbl : TableInfo.t)
    : St.M t (list PageLocation.t) :=
  d <~ St.get ;;
  let bp_idx := _unused_bp_idx d in
  run modify (set_unused_bp_idx (bp_idx + 1)) ;;
  let start := PageId.mk (TableInfo.name tbl) 0 true bp_idx in
  alloc_merge_loop tbl (columns_of start (TableInfo.num_raw_cols tbl)).

(** The loop of [__alloc_tp_space] *)
Fixpoint alloc_tp_loop (tbl : TableInfo.t) (schema_encoding : bitarray)
    (tps : list PageId.t) : St.M t (list PageLocation.t) :=
  match tps with
  | [] => St.ret []
  | tp :: r =>
      let raw_col_idx := PageId.raw_column_index tp in
      let col_idx := Z.of_nat raw_col_idx - Z.of_nat Config.NUM_META_COLS in
      skip <~ (if (Config.NUM_META_COLS <=? raw_col_idx)%nat then
                 b <~ St.lift (getitem schema_encoding col_idx) ;;
                 St.ret (negb b)
               else St.ret false) ;;
      if (skip : bool) then alloc_tp_loop tbl schema_encoding r
      else
        n <~ read_num_records tp ;;
        run set_num_records_of tbl tp (n + 1) ;;
        rest <~ alloc_tp_loop tbl schema_encoding r ;;
        St.ret (PageLocation.from_id tp n :: rest)
  end.

(** [__alloc_tp_space] *)
Definition alloc_tp_space (tbl : TableInfo.t) (tp_idx : Z)
    (schema_encoding : bitarray) : St.M t (list PageLocation.t) :=
  let start := PageLocation.mk (TableInfo.name tbl) 0 false tp_idx 0 in
  alloc_tp_loop tbl schema_encoding
    (columns_of (PageLocation.id start) (TableInfo.num_raw_cols tbl)).

(** [__get_tp_idx] *)
Definition get_tp_idx (tbl : TableInfo.t) (bp_idx : Z) : St.M t Z :=
  d <~ St.get ;;
  tp_idx <~ St.lift (dict_get bp_idx (_con_bp_last_con_tp d)) ;;
  full <~ match tp_idx with
          | None => St.ret true
          | Some i =>
              n <~ read_con_tp_num_records i ;;
              St.ret (negb (n <? _con_page_max_recs tbl))
          end ;;
  match tp_idx, full with
  | Some i, false => St.ret i
  | _, _ =>
      d <~ St.get ;;
      let tp_idx := _unused_tp_idx d in
      run modify (fun d =>
            set_con_tp_owner (<[tp_idx := bp_idx]> (_con_tp_owner d))
              (set_con_bp_last_con_tp
                 (<[bp_idx := Some tp_idx]> (_con_bp_last_con_tp d))
                 (set_unused_tp_idx (_unused_tp_idx d + 1) d))) ;;
      St.ret tp_idx
  end.

(** [alloc_tail_rid].  The call of [table.notify_merge()] starts the
    background merge thread; it changes nothing in the directory by
    itself and is left out of this sequential model. *)
Definition alloc_tail_rid (tbl : TableInfo.t) (base_rid : val)
    (schema_encoding : bitarray) : St.M t (Z * list PageLocation.t) :=
  d <~ St.get ;;
  let rid := _unused_tail_rid d in
  run modify (set_unused_tail_rid (rid - 1)) ;;
  base_rid <~ St.lift (as_int base_rid TypeError) ;;
  let base_rec_idx := base_rid - Config.BASE_RID_BEGIN in
  range_id <~ St.lift (floordiv base_rec_idx (_con_page_max_recs tbl)) ;;
  run ensure_range_exists range_id ;;
  d <~ St.get ;;
  locs <~ St.lift (dict_get base_rid (_offsets d)) ;;
  first <~ St.lift (getitem locs 0) ;;
  let bp_idx := PageLocation.page_index first in
  tp_idx <~ get_tp_idx tbl bp_idx ;;
  offsets <~ alloc_tp_space tbl tp_idx schema_encoding ;;
  run modify (fun d => set_offsets (<[rid := offsets]> (_offsets d)) d) ;;
  St.ret (rid, offsets).

(** [is_aborted_xact] *)
Definition is_aborted_xact (tracker : TransactionTracker.t) (timestamp : Z)
    : bool :=
  if timestamp =? 0 then false
  else TransactionTracker.is_aborted timestamp tracker.

(** [base_rids] *)
Definition base_rids (d : t) : list Z :=
  map (fun i => _base_rid_begin + Z.of_nat i)
    (seq 0 (Z.to_nat (_unused_base_rid d - _base_rid_begin))).
End PageDirectory.

(** ** [transaction.py] *)

Module Transaction.
(** [registered] is [__xact_tracker is not None]: [add_query] has been
    called, and [__pagedirs] holds the table's page directory. *)
Record t : Type := mk {
  queries : list StoredQuery;
  affected_rids : list Z;
  start_time : Z;
  registered : bool;
}.

(** [Transaction(start_time_override)] *)
Definition new (start_time_override : Z) : t :=
  mk [] [] start_time_override false.

(** [add_query(query, table, *args)] *)
Definition add_query (q : StoredQuery) (x : t) : t :=
  mk (queries x ++ [q]) (affected_rids x) (start_time x) true.

(** [affected_rids.append(rid)] *)
Definition append_rid (rid : Z) (x : t) : t :=
  mk (queries x) (affected_rids x ++ [rid]) (start_time x) (registered x).
End Transaction.

(** ** [table.py]

    A table reaches its pages through [bufferpool.read] and
    [bufferpool.write].  Here the pool and the column files behind it are
    one map from [PageId] to the page's bytes; a page that was never
    written is the page of zeros that [fetch] makes up for a block past
    the end of the file.  The frame locks have no timeout
    ([BUFFERPOOL_LOCK_TIMEOUT = -1]), so a buffer is never [False].  The
    background merge thread is not part of this sequential model. *)

Module Table.
Import Py.

Record t : Type := mk {
  page_directory : PageDirectory.t;
  pages : gmap PageId.t (list byte);
  index : Index.t;
  xact_tracker : TransactionTracker.t;
  (** the bytes of the WAL file *)
  wal : list byte;
}.

Definition set_page_directory (v : PageDirectory.t) (s : t) : t :=
  mk v (pages s) (index s) (xact_tracker s) (wal s).
Definition set_pages (v : gmap PageId.t (list byte)) (s : t) : t :=
  mk (page_directory s) v (index s) (xact_tracker s) (wal s).
Definition set_index (v : Index.t) (s : t) : t :=
  mk (page_directory s) (pages s) v (xact_tracker s) (wal s).
Definition set_xact_tracker (v : TransactionTracker.t) (s : t) : t :=
  mk (page_directory s) (pages s) (index s) v (wal s).
Definition set_wal (v : list byte) (s : t) : t :=
  mk (page_directory s) (pages s) (index s) (xact_tracker s) v.

(** A table as [create_table] makes it. *)
Definition new (tbl : TableInfo.t) : t :=
  mk PageDirectory.new ∅
     (Index.new (TableInfo.num_columns tbl) (TableInfo.key tbl)) ∅ [].

Definition pagedir {A} (m : St.M PageDirectory.t A) : St.M t A :=
  St.zoom page_directory set_page_directory m.
Definition tracker {A} (m : St.M TransactionTracker.t A) : St.M t A :=
  St.zoom xact_tracker set_xact_tracker m.

(** The buffer that [bufferpool.read(page_id)] and
    [bufferpool.write(page_id)] yield. *)
Definition frame (page_id : PageId.t) (s : t) : list byte :=
  default Page.zero_page (pages s !! page_id).

(** [not data] *)
Definition falsy (data : list byte) : bool :=
  match data with [] => true | _ => false end.

Definition ones (n : nat) : bitarray := repeat true n.
Definition zeros (n : nat) : bitarray := repeat false n.

Definition is_schema_column (l : PageLocation.t) : bool :=
  Nat.eqb (PageLocation.raw_column_index l) Config.SCHEMA_ENCODING_COLUMN.

(** The loop [for page_info in page_indx: with self.bufferpool.write(...)]
    of [add_base_record], [add_original_copy] and [add_tail_record]:
    [false] when it returns [False] early. *)
Fixpoint write_columns (tbl : TableInfo.t) (schema_encoding : val)
    (raw_cols : list val) (page_indx : list PageLocation.t) : St.M t bool :=
  match page_indx with
  | [] => St.ret true
  | page_info :: rest =>
      s <~ St.get ;;
      let page_id := PageLocation.id page_info in
      let data := frame page_id s in
      if falsy data then St.ret false
      else
        data' <~ St.lift
          (if is_schema_column page_info then
             page <- SchemaEncodingPage.new data ;;
             SchemaEncodingPage.write (TableInfo.byteorder tbl)
               (TableInfo.num_columns tbl) page schema_encoding
               (PageLocation.offset page_info)
           else
             page <- DataPage.new data ;;
             v <- getitem raw_cols
                    (Z.of_nat (PageLocation.raw_column_index page_info)) ;;
             DataPage.write (TableInfo.byteorder tbl) page v
               (PageLocation.offset page_info)) ;;
        run St.put (set_pages (<[page_id := data']> (pages s)) s) ;;
        write_columns tbl schema_encoding raw_cols rest
  end.

(** Read the integer at a location: [None] stands for the [False]
    returned when the buffer is missing. *)
Definition read_int (tbl : TableInfo.t) (l : PageLocation.t) (s : t)
    : res (option Z) :=
  let data := frame (PageLocation.id l) s in
  if falsy data then Ok None
  else
    page <- DataPage.new data ;;
    Ok (Some (DataPage.read (TableInfo.byteorder tbl) page
                (PageLocation.offset l))).

Definition read_bits (tbl : TableInfo.t) (l : PageLocation.t) (s : t)
    : res (option bitarray) :=
  let data := frame (PageLocation.id l) s in
  if falsy data then Ok None
  else
    page <- SchemaEncodingPage.new data ;;
    Ok (Some (SchemaEncodingPage.read (TableInfo.byteorder tbl)
                (TableInfo.num_columns tbl) page (PageLocation.offset l))).

(** [__get_tail_schema_encoding] *)
Definition get_tail_schema_encoding (tbl : TableInfo.t) (tid : Z) (s : t)
    : res (option bitarray) :=
  page_indx <- PageDirectory.get_tail_record_location tid (page_directory s) ;;
  schema_info <- getitem page_indx (Z.of_nat Config.SCHEMA_ENCODING_COLUMN) ;;
  read_bits tbl schema_info s.

(** [__get_tail_timestamp]; the [False] of a missing buffer is the
    integer 0 in every use made of it. *)
Definition get_tail_timestamp (tbl : TableInfo.t) (tid : Z) (s : t) : res Z :=
  page_indx <- PageDirectory.get_tail_record_location tid (page_directory s) ;;
  timestamp_info <- getitem page_indx (Z.of_nat Config.TIMESTAMP_COLUMN) ;;
  v <- read_int tbl timestamp_info s ;;
  Ok (default 0 v).

(** [__get_tail_indirection] *)
Definition get_tail_indirection (tbl : TableInfo.t) (tid : Z) (s : t)
    : res Z :=
  page_indx <- PageDirectory.get_tail_record_location tid (page_directory s) ;;
  indirection_info <- getitem page_indx (Z.of_nat Config.INDIRECTION_COLUMN) ;;
  v <- read_int tbl indirection_info s ;;
  Ok (default 0 v).

(** [add_base_record]: [None] is [False]. *)
Definition add_base_record (tbl : TableInfo.t) (rec : Record.t)
    : St.M t (option Z) :=
  '(base_rid, page_indx) <~ pagedir (PageDirectory.alloc_base_rid tbl) ;;
  let rec := Record.set_base_rid rec (VInt base_rid) in
  let rec := Record.set_rid rec (VInt base_rid) in
  let rec := Record.set_indirection rec VNone in
  let rec :=
    Record.set_schema_encoding rec
      (VBits (zeros (TableInfo.num_columns tbl))) in
  let raw_cols := Record.raw_columns rec in
  ok <~ write_columns tbl (Record.schema_encoding rec) raw_cols page_indx ;;
  if (ok : bool) then
    match Record.base_rid rec with
    | VInt r => St.ret (Some r)
    | _ => St.ret None
    end
  else St.ret None.

(** [update_base_record] *)
Definition update_base_record (tbl : TableInfo.t) (base_rid : Z)
    (indirection : val) (schema_encoding : bitarray) : St.M t bool :=
  s <~ St.get ;;
  '(tps, base_pages_indx) <~
    St.lift (PageDirectory.get_base_record_location base_rid
               (page_directory s)) ;;
  indirection_page_info <~
    St.lift (getitem base_pages_indx (Z.of_nat Config.INDIRECTION_COLUMN)) ;;
  schema_encoding_page_info <~
    St.lift (getitem base_pages_indx (Z.of_nat Config.SCHEMA_ENCODING_COLUMN)) ;;
  let ipid := PageLocation.id indirection_page_info in
  let data := frame ipid s in
  if falsy data then St.ret false
  else
    page <~ St.lift (DataPage.new data) ;;
    data' <~ St.lift (DataPage.write (TableInfo.byteorder tbl) page
                        indirection
                        (PageLocation.offset indirection_page_info)) ;;
    run St.put (set_pages (<[ipid := data']> (pages s)) s) ;;
    s <~ St.get ;;
    let spid := PageLocation.id schema_encoding_page_info in
    let data := frame spid s in
    if falsy data then St.ret false
    else
      page <~ St.lift (SchemaEncodingPage.new data) ;;
      data' <~ St.lift (SchemaEncodingPage.write (TableInfo.byteorder tbl)
                          (TableInfo.num_columns tbl) page
                          (VBits schema_encoding)
                          (PageLocation.offset schema_encoding_page_info)) ;;
      run St.put (set_pages (<[spid := data']> (pages s)) s) ;;
      St.ret true.

(** The loop of [__get_base_record]: [None] is the early [False]. *)
Fixpoint read_raw_cols (tbl : TableInfo.t) (locs : list PageLocation.t)
    (s : t) : res (option (list val)) :=
  match locs with
  | [] => Ok (Some [])
  | page_info :: rest =>
      let data := frame (PageLocation.id page_info) s in
      if falsy data then Ok None
      else
        v <- (if is_schema_column page_info then
                page <- SchemaEncodingPage.new data ;;
                Ok (VBits (SchemaEncodingPage.read (TableInfo.byteorder tbl)
                             (TableInfo.num_columns tbl) page
                             (PageLocation.offset page_info)))
              else
                page <- DataPage.new data ;;
                Ok (VInt (DataPage.read (TableInfo.byteorder tbl) page
                            (PageLocation.offset page_info)))) ;;
        r <- read_raw_cols tbl rest s ;;
        Ok (cons v <$> r)
  end.

(** [__get_base_record] *)
Definition get_base_record (tbl : TableInfo.t) (rid : Z) (s : t)
    : res (option Record.t) :=
  '(tps, base_pages_indx) <-
    PageDirectory.get_base_record_location rid (page_directory s) ;;
  raw_cols <- read_raw_cols tbl base_pages_indx s ;;
  Ok (Record.new (TableInfo.key tbl) <$> raw_cols).

(** How the [while] loop of [get_record_version] ends: by its
    [return base_rec], or by leaving the loop with [latest_tid]. *)
Inductive walked : Type :=
| Returned
| Exited (latest_tid : Z).

(** The [while] loop of [get_record_version], at most [fuel]
    iterations. *)
Fixpoint walk (fuel : nat) (tbl : TableInfo.t) (s : t) (base_rid : Z)
    (latest_tid latest_timestamp version : Z) : res walked :=
  if ((version <? 0) && negb (latest_tid =? 0))
     || PageDirectory.is_aborted_xact (xact_tracker s) latest_timestamp
  then
    match fuel with
    | O => Raise OutOfFuel
    | S fuel' =>
        stop <- (if PageDirectory.is_base_rec latest_tid (page_directory s)
                 then Ok true
                 else
                   tps <- PageDirectory.dict_get base_rid
                            (PageDirectory._tps (page_directory s)) ;;
                   Ok (tps <=? latest_tid)) ;;
        if (stop : bool) then Ok Returned
        else
          latest_tid <- get_tail_indirection tbl latest_tid s ;;
          latest_timestamp <- get_tail_timestamp tbl latest_tid s ;;
          walk fuel' tbl s base_rid latest_tid latest_timestamp (version + 1)
    end
  else Ok (Exited latest_tid).

(** The first [for] loop at the end of [get_record_version]: the
    columns the tail record holds, popped from the end of its
    locations.  [None] is the early [False]. *)
Fixpoint read_updated (tbl : TableInfo.t) (s : t) (cols_needed : bitarray)
    (cols : list nat) (updated_column_locations : list PageLocation.t)
    (latest_cols : list val) : res (option (list val)) :=
  match cols with
  | [] => Ok (Some latest_cols)
  | col :: cols' =>
      needed <- getitem cols_needed (Z.of_nat col) ;;
      if (needed : bool) then
        match rev updated_column_locations with
        | [] => Raise IndexError
        | page_info :: rest =>
            v <- read_int tbl page_info s ;;
            match v with
            | None => Ok None
            | Some v =>
                latest_cols <-
                  setitem latest_cols
                    (Z.of_nat (PageLocation.raw_column_index page_info))
                    (VInt v) ;;
                read_updated tbl s cols_needed cols' (rev rest) latest_cols
            end
        end
      else
        read_updated tbl s cols_needed cols' updated_column_locations
          latest_cols
  end.

(** The second [for] loop: the other columns come from the base
    record. *)
Fixpoint copy_base (cols_needed : bitarray) (base_cols : list val)
    (cols : list nat) (latest_cols : list val) : res (list val) :=
  match cols with
  | [] => Ok latest_cols
  | i :: cols' =>
      needed <- getitem cols_needed (Z.of_nat i) ;;
      if (needed : bool) then copy_base cols_needed base_cols cols' latest_cols
      else
        v <- getitem base_cols (Z.of_nat i) ;;
        latest_cols <-
          setitem latest_cols (Z.of_nat (i + Config.NUM_META_COLS)) v ;;
        copy_base cols_needed base_cols cols' latest_cols
  end.

(** The bits of a record's schema encoding; [Record.new] makes it a
    bitarray. *)
Definition bits_of_val (v : val) : res bitarray :=
  match v with VBits b => Ok b | _ => Raise TypeError end.

(** [get_record_version]: [None] is [False]. *)
Definition get_record_version (fuel : nat) (tbl : TableInfo.t)
    (base_rid : Z) (version : Z) (s : t) : res (option Record.t) :=
  if 0 <? version then Raise ValueError
  else
    base_rec <- get_base_record tbl base_rid s ;;
    match base_rec with
    | None => Ok None
    | Some base_rec =>
        let base_rec := Record.set_base_rid base_rec (VInt base_rid) in
        let latest_tid := Record.indirection base_rec in
        at_base <-
          (if negb (truthy latest_tid) then Ok true
           else if bool_decide (latest_tid = Record.rid base_rec) then Ok true
           else
             tps <- PageDirectory.dict_get base_rid
                      (PageDirectory._tps (page_directory s)) ;;
             t <- as_int latest_tid TypeError ;;
             Ok (tps <=? t)) ;;
        if (at_base : bool) then Ok (Some base_rec)
        else
          latest_tid <- as_int latest_tid TypeError ;;
          latest_encoding <- get_tail_schema_encoding tbl latest_tid s ;;
          match latest_encoding with
          | None | Some [] => Raise PlainException
          | Some latest_encoding =>
              if forallb negb latest_encoding then
                let result :=
                  Record.new (TableInfo.key tbl)
                    (repeat VNone (TableInfo.num_raw_cols tbl)) in
                let result := Record.set_base_rid result (VInt base_rid) in
                Ok (Some (Record.set_is_deleted result true))
              else
                latest_timestamp <- get_tail_timestamp tbl latest_tid s ;;
                w <- walk fuel tbl s base_rid latest_tid latest_timestamp
                       version ;;
                match w with
                | Returned => Ok (Some base_rec)
                | Exited latest_tid =>
                    if (latest_tid =? 0) || (latest_tid =? base_rid)
                    then Ok (Some base_rec)
                    else
                      let latest_cols :=
                        repeat (VInt 0) (TableInfo.num_raw_cols tbl) in
                      cols_needed <-
                        bits_of_val (Record.schema_encoding base_rec) ;;
                      locs <- PageDirectory.get_tail_record_location
                                latest_tid (page_directory s) ;;
                      let updated_column_locations :=
                        drop Config.NUM_META_COLS locs in
                      latest_cols <-
                        read_updated tbl s cols_needed
                          (seq 0 (TableInfo.num_columns tbl))
                          updated_column_locations latest_cols ;;
                      match latest_cols with
                      | None => Ok None
                      | Some latest_cols =>
                          latest_cols <-
                            copy_base cols_needed (Record.columns base_rec)
                              (seq 0 (TableInfo.num_columns tbl))
                              latest_cols ;;
                          let rec := Record.new (TableInfo.key tbl) [] in
                          let rec := Record.set_rid rec (VInt latest_tid) in
                          let rec := Record.set_base_rid rec (VInt base_rid) in
                          let rec := Record.set_raw_columns rec latest_cols in
                          let rec :=
                            Record.set_indirection rec
                              (Record.indirection base_rec) in
                          let rec := Record.set_base_rid rec (VInt base_rid) in
                          let rec :=
                            Record.set_schema_encoding rec
                              (Record.schema_encoding base_rec) in
                          Ok (Some rec)
                      end
                end
          end
    end.

(** [get_latest_record] *)
Definition get_latest_record (fuel : nat) (tbl : TableInfo.t) (base_rid : Z)
    (s : t) : res (option Record.t) :=
  get_record_version fuel tbl base_rid 0 s.

(** [add_original_copy]; its result is not used by its caller. *)
Definition add_original_copy (tbl : TableInfo.t) (rec : Record.t)
    : St.M t unit :=
  if negb (truthy (Record.base_rid rec)) then St.ret tt
  else
    let schema_encoding := ones (TableInfo.num_columns tbl) in
    '(new_tid, page_indx) <~
      pagedir (PageDirectory.alloc_tail_rid tbl (Record.rid rec)
                 schema_encoding) ;;
    let rec := Record.set_indirection rec (Record.base_rid rec) in
    let rec := Record.set_rid rec (VInt new_tid) in
    let rec := Record.set_schema_encoding rec (VBits schema_encoding) in
    let latest_cols := Record.raw_columns rec in
    ok <~ write_columns tbl (VBits schema_encoding) latest_cols page_indx ;;
    if (ok : bool) then
      base_rid <~ St.lift (as_int (Record.base_rid rec) TypeError) ;;
      run update_base_record tbl base_rid (VInt new_tid)
            (zeros (TableInfo.num_columns tbl)) ;;
      St.ret tt
    else St.ret tt.

(** The loop of [add_tail_record] that builds the schema encoding of
    the update and fills the columns it inherits.  [schema_encoding]
    holds the bits appended so far, [i] is the loop index. *)
Fixpoint encode_update (new_cols latest_cols : list val)
    (base_schema : bitarray) (idxs : list nat) (schema_encoding : bitarray)
    : res (bitarray * list val) :=
  match idxs with
  | [] => Ok (schema_encoding, new_cols)
  | i :: idxs' =>
      new_i <- getitem new_cols (Z.of_nat i) ;;
      bit <- (if negb (bool_decide (new_i = VNone)) then Ok true
              else
                latest_i <- getitem latest_cols (Z.of_nat i) ;;
                Ok (negb (bool_decide (new_i = latest_i))
                    && negb (bool_decide (new_i = VNone)))) ;;
      let schema_encoding := schema_encoding ++ [bit] in
      inherit <- (if (bit : bool) then Ok true
                  else getitem base_schema (Z.of_nat i)) ;;
      if (inherit : bool) && bool_decide (new_i = VNone) then
        latest_i <- getitem latest_cols (Z.of_nat i) ;;
        new_cols <- setitem new_cols (Z.of_nat i) latest_i ;;
        encode_update new_cols latest_cols base_schema idxs' schema_encoding
      else
        encode_update new_cols latest_cols base_schema idxs' schema_encoding
  end.

(** [a | b] on bitarrays *)
Definition bits_or (a b : bitarray) : res bitarray :=
  if negb (Nat.eqb (length a) (length b)) then Raise ValueError
  else Ok (zip_with orb a b).

(** [add_tail_record]: [None] is [False]. *)
Definition add_tail_record (fuel : nat) (tbl : TableInfo.t) (rec : Record.t)
    : St.M t (option Z) :=
  if negb (truthy (Record.base_rid rec)) then St.ret None
  else
    rec_base_rid <~ St.lift (as_int (Record.base_rid rec) TypeError) ;;
    s <~ St.get ;;
    latest_rec <~ St.lift (get_latest_record fuel tbl rec_base_rid s) ;;
    match latest_rec with
    | None => St.raise PlainException
    | Some latest_rec =>
        base_rec <~ St.lift (get_base_record tbl rec_base_rid s) ;;
        match base_rec with
        | None => St.raise PlainException
        | Some base_rec =>
            latest_rec <~
              (if bool_decide (Record.rid latest_rec = Record.base_rid rec)
               then
                 run add_original_copy tbl base_rec ;;
                 s <~ St.get ;;
                 l <~ St.lift (get_latest_record fuel tbl rec_base_rid s) ;;
                 match l with
                 | None => St.raise PlainException
                 | Some l => St.ret l
                 end
               else St.ret latest_rec) ;;
            s <~ St.get ;;
            base_rec <~ St.lift (get_base_record tbl rec_base_rid s) ;;
            match base_rec with
            | None => St.raise PlainException
            | Some base_rec =>
                let latest_cols := Record.columns latest_rec in
                let rec := Record.set_indirection rec (Record.rid latest_rec) in
                let new_cols := Record.columns rec in
                base_schema <~
                  St.lift (bits_of_val (Record.schema_encoding base_rec)) ;;
                '(schema_encoding, new_cols) <~
                  St.lift (encode_update new_cols latest_cols base_schema
                             (seq 0 (length new_cols)) []) ;;
                cumulative_schema <~
                  St.lift (bits_or schema_encoding base_schema) ;;
                '(new_tid, page_indx) <~
                  pagedir (PageDirectory.alloc_tail_rid tbl
                             (Record.rid base_rec) cumulative_schema) ;;
                let rec := Record.set_rid rec (VInt new_tid) in
                let rec := Record.set_columns rec new_cols in
                let rec := Record.set_indirection rec (Record.rid latest_rec) in
                let rec :=
                  Record.set_schema_encoding rec (VBits cumulative_schema) in
                let new_raw_cols := Record.raw_columns rec in
                ok <~ write_columns tbl (VBits cumulative_schema) new_raw_cols
                        page_indx ;;
                if (ok : bool) then
                  run update_base_record tbl rec_base_rid (VInt new_tid)
                        cumulative_schema ;;
                  St.ret (Some new_tid)
                else St.ret None
            end
        end
    end.

(** [delete_record] *)
Definition delete_record (fuel : nat) (tbl : TableInfo.t) (base_rid : Z)
    (timestamp : Z) : St.M t (option Z) :=
  let delete_indicator :=
    Record.new (TableInfo.key tbl)
      (repeat (VInt 0) (TableInfo.num_raw_cols tbl)) in
  let delete_indicator :=
    Record.set_base_rid delete_indicator (VInt base_rid) in
  let delete_indicator :=
    Record.set_schema_encoding delete_indicator
      (VBits (zeros (TableInfo.num_columns tbl))) in
  let delete_indicator :=
    Record.set_timestamp delete_indicator (VInt timestamp) in
  add_tail_record fuel tbl delete_indicator.

(** [records(version)], consumed by a loop with body [body] over an
    accumulator: the generator runs one record ahead of the body, so an
    exception of either stops the loop where it happens. *)
Fixpoint for_records {A} (fuel : nat) (tbl : TableInfo.t) (version : Z)
    (s : t) (base_rids : list Z) (body : A -> Record.t -> res A) (acc : A)
    : res A :=
  match base_rids with
  | [] => Ok acc
  | base_rid :: rest =>
      rec <- get_record_version fuel tbl base_rid version s ;;
      acc <- match rec with
             | Some rec =>
                 if negb (Record.is_deleted rec)
                    && negb (bool_decide (Record.base_rid rec = VInt 0))
                 then body acc rec
                 else Ok acc
             | None => Ok acc
             end ;;
      for_records fuel tbl version s rest body acc
  end.

Definition records {A} (fuel : nat) (tbl : TableInfo.t) (version : Z)
    (s : t) (body : A -> Record.t -> res A) (acc : A) : res A :=
  for_records fuel tbl version s
    (PageDirectory.base_rids (page_directory s)) body acc.
End Table.

(** ** [wal.py]: [WriteAheadLog.log] and [transaction.py]: [commit] *)

Module WriteAheadLog.
(** [log(xact)]: the serialized transaction is written at the end of
    the file. *)
Definition log (x : Transaction.t) : St.M Table.t unit :=
  b <~ St.lift (TransactionSerializer.serialize (Transaction.start_time x)
                  (Transaction.queries x)) ;;
  fun s => (Py.Ok tt, Table.set_wal (Table.wal s ++ b) s).
End WriteAheadLog.

Module Commit.
(** [Transaction.commit()] for a transaction of one table. *)
Definition commit (tbl : TableInfo.t) (x : Transaction.t)
    : St.M Table.t bool :=
  St.try_except
    (if negb (Transaction.registered x) then St.ret true
     else
       run Table.tracker
             (TransactionTracker.mark_committed (Transaction.start_time x)) ;;
       run Table.pagedir
             (PageDirectory.notify_resolve tbl (Transaction.affected_rids x)) ;;
       St.ret true)
    (St.ret false).
End Commit.

(** ** [query.py]

    [now] is what [time.time_ns()] returns during the call; [xact] is the
    optional enclosing transaction, returned as the call leaves it. *)

Module Query.
Import Py.

(** [try: return impl  except Exception: return False] around a method
    that only reads. *)
Definition guarded {A} (r : res A) : res (option A) :=
  match r with
  | Ok a => Ok (Some a)
  | Raise e => if is_Exception e then Ok None else Raise e
  end.

Definition all_projected (tbl : TableInfo.t) : list Z :=
  repeat 1 (TableInfo.num_columns tbl).

Definition val_of (c : option Z) : val :=
  match c with Some z => VInt z | None => VNone end.

(** The [for base_rid in base_rids] loop of [__select_impl] *)
Fixpoint select_located (fuel : nat) (tbl : TableInfo.t)
    (projected_column_indices : list Z) (s : Table.t) (base_rids : list Z)
    (results : list Record.t) : res (list Record.t) :=
  match base_rids with
  | [] => Ok results
  | base_rid :: rest =>
      rec <- Table.get_latest_record fuel tbl base_rid s ;;
      match rec with
      | None => select_located fuel tbl projected_column_indices s rest results
      | Some rec =>
          select_located fuel tbl projected_column_indices s rest
            (results ++ [Record.filter_columns rec projected_column_indices])
      end
  end.

(** The body of the linear scans of [__select_impl] and
    [__select_version_impl] *)
Definition scan_body (search_key search_key_index : Z)
    (projected_column_indices : list Z) (results : list Record.t)
    (rec : Record.t) : res (list Record.t) :=
  c <- getitem (Record.columns rec) search_key_index ;;
  if eq_int c search_key
  then Ok (results ++ [Record.filter_columns rec projected_column_indices])
  else Ok results.

Definition select_impl (fuel : nat) (tbl : TableInfo.t)
    (search_key search_key_index : Z) (projected_column_indices : list Z)
    (s : Table.t) : res (list Record.t) :=
  ix <- getitem (Table.index s) search_key_index ;;
  match ix with
  | None =>
      Table.records fuel tbl 0 s
        (scan_body search_key search_key_index projected_column_indices) []
  | Some _ =>
      base_rids <- Index.locate search_key_index search_key (Table.index s) ;;
      select_located fuel tbl projected_column_indices s base_rids []
  end.

(** [select]: [None] is [False]. *)
Definition select (fuel : nat) (tbl : TableInfo.t)
    (search_key search_key_index : Z) (projected_column_indices : list Z)
    (s : Table.t) : res (option (list Record.t)) :=
  guarded (select_impl fuel tbl search_key search_key_index
             projected_column_indices s).

Definition select_version_impl (fuel : nat) (tbl : TableInfo.t)
    (search_key search_key_index : Z) (projected_column_indices : list Z)
    (relative_version : Z) (s : Table.t) : res (option (list Record.t)) :=
  if relative_version =? 0 then
    select fuel tbl search_key search_key_index projected_column_indices s
  else
    r <- Table.records fuel tbl relative_version s
           (scan_body search_key search_key_index projected_column_indices)
           [] ;;
    Ok (Some r).

(** [select_version] *)
Definition select_version (fuel : nat) (tbl : TableInfo.t)
    (search_key search_key_index : Z) (projected_column_indices : list Z)
    (relative_version : Z) (s : Table.t) : res (option (list Record.t)) :=
  r <- guarded (select_version_impl fuel tbl search_key search_key_index
                  projected_column_indices relative_version s) ;;
  Ok (mjoin r).

(** The loop of [__insert_impl] that adds the record to the column
    indices. *)
Fixpoint index_record (cols : list (nat * Z)) (base_rid : Z)
    : St.M Table.t unit :=
  match cols with
  | [] => St.ret tt
  | (col_idx, col_value) :: rest =>
      s <~ St.get ;;
      ix <~ St.lift (getitem (Table.index s) (Z.of_nat col_idx)) ;;
      run (match ix with
           | None => St.ret tt
           | Some ix =>
               ix' <~ St.lift (RangedIndex.add col_value base_rid ix) ;;
               St.put (Table.set_index
                         (<[col_idx := Some ix']> (Table.index s)) s)
           end) ;;
      index_record rest base_rid
  end.

Definition enumerate {A} (l : list A) : list (nat * A) :=
  zip (seq 0 (length l)) l.

Definition timestamp_of (now : Z) (xact : option Transaction.t) : Z :=
  match xact with
  | Some x => Transaction.start_time x
  | None => now
  end.

Definition insert_impl (tbl : TableInfo.t) (now : Z) (columns : list Z)
    (xact : option Transaction.t)
    : St.M Table.t (bool * option Transaction.t) :=
  if negb (Nat.eqb (length columns) (TableInfo.num_columns tbl))
  then St.ret (false, xact)
  else
    s <~ St.get ;;
    k <~ St.lift (getitem columns (Z.of_nat (TableInfo.key tbl))) ;;
    key_lookup <~
      St.lift (Index.locate (Z.of_nat (TableInfo.key tbl)) k (Table.index s)) ;;
    if (0 <? length key_lookup)%nat then St.ret (false, xact)
    else
      let base_rec :=
        Record.new (TableInfo.key tbl)
          (repeat (VInt 0) (TableInfo.num_raw_cols tbl)) in
      let base_rec :=
        Record.set_schema_encoding base_rec
          (VBits (Table.zeros (TableInfo.num_columns tbl))) in
      let base_rec :=
        Record.set_timestamp base_rec (VInt (timestamp_of now xact)) in
      let base_rec := Record.set_columns base_rec (map VInt columns) in
      base_rid <~ Table.add_base_record tbl base_rec ;;
      match base_rid with
      | None => St.ret (false, xact)
      | Some base_rid =>
          s <~ St.get ;;
          key_index <~
            St.lift (getitem (Table.index s) (Z.of_nat (TableInfo.key tbl))) ;;
          match key_index with
          | None => St.raise RuntimeError
          | Some _ =>
              run index_record (enumerate columns) base_rid ;;
              match xact with
              | None =>
                  let x := Transaction.new (timestamp_of now xact) in
                  let x := Transaction.append_rid base_rid x in
                  let x :=
                    Transaction.add_query
                      (mkStoredQuery QueryType.INSERT (TableInfo.name tbl)
                         (map Some columns)) x in
                  _ <~ Commit.commit tbl x ;;
                  run WriteAheadLog.log x ;;
                  St.ret (true, None)
              | Some x =>
                  St.ret (true, Some (Transaction.append_rid base_rid x))
              end
          end
      end.

(** [insert] *)
Definition insert (tbl : TableInfo.t) (now : Z) (columns : list Z)
    (xact : option Transaction.t)
    : St.M Table.t (bool * option Transaction.t) :=
  St.try_except (insert_impl tbl now columns xact) (St.ret (false, xact)).

(** [index.remove(original_value, base_rid)] on a value read from a
    record: [None] is no key of the index, a bitarray cannot be
    hashed. *)
Definition remove_val (value : val) (rid : option Z) (ix : RangedIndex.t)
    : res RangedIndex.t :=
  match value with
  | VInt z => RangedIndex.remove z rid ix
  | VNone => Ok ix
  | VBits _ => Raise TypeError
  end.

(** The loop of [__update_impl] that moves the record in the column
    indices. *)
Fixpoint reindex (cols : list (nat * (val * option Z))) (base_rid : Z)
    : St.M Table.t unit :=
  match cols with
  | [] => St.ret tt
  | (col, (original_value, new_value)) :: rest =>
      s <~ St.get ;;
      ix <~ St.lift (getitem (Table.index s) (Z.of_nat col)) ;;
      run (match ix, new_value with
           | Some ix, Some new_value =>
               if eq_int original_value new_value then St.ret tt
               else
                 ix <~ St.lift (remove_val original_value (Some base_rid) ix) ;;
                 run St.put (Table.set_index
                               (<[col := Some ix]> (Table.index s)) s) ;;
                 ix <~ St.lift (RangedIndex.add new_value base_rid ix) ;;
                 St.put (Table.set_index
                           (<[col := Some ix]> (Table.index s)) s)
           | _, _ => St.ret tt
           end) ;;
      reindex rest base_rid
  end.

Definition update_impl (fuel : nat) (tbl : TableInfo.t) (now : Z)
    (primary_key : Z) (columns : list (option Z))
    (xact : option Transaction.t)
    : St.M Table.t (bool * option Transaction.t) :=
  s <~ St.get ;;
  key_lookup <~
    St.lift (Index.locate (Z.of_nat (TableInfo.key tbl)) primary_key
               (Table.index s)) ;;
  match key_lookup with
  | [base_rid] =>
      if forallb (fun column : option Z => bool_decide (column = None)) columns
      then St.ret (true, xact)
      else
        original_rec <~
          St.lift (select fuel tbl primary_key (Z.of_nat (TableInfo.key tbl))
                     (all_projected tbl) s) ;;
        match original_rec with
        | None => St.raise AssertionError
        | Some original_rec =>
            original_rec <~ St.lift (getitem original_rec 0) ;;
            let update_rec :=
              Record.new (TableInfo.key tbl)
                (repeat (VInt 0) (TableInfo.num_raw_cols tbl)) in
            let update_rec := Record.set_base_rid update_rec (VInt base_rid) in
            if negb (Nat.eqb (length columns) (TableInfo.num_columns tbl))
            then St.ret (false, xact)
            else
              let update_rec :=
                Record.set_columns update_rec (map val_of columns) in
              let update_rec :=
                Record.set_timestamp update_rec
                  (VInt (timestamp_of now xact)) in
              tail_rid <~ Table.add_tail_record fuel tbl update_rec ;;
              match tail_rid with
              | None => St.ret (false, xact)
              | Some tail_rid =>
                  run reindex
                        (enumerate (zip (Record.columns original_rec) columns))
                        base_rid ;;
                  match xact with
                  | None =>
                      let x := Transaction.new (timestamp_of now xact) in
                      let x :=
                        Transaction.add_query
                          (mkStoredQuery QueryType.UPDATE (TableInfo.name tbl)
                             (Some primary_key :: columns)) x in
                      let x := Transaction.append_rid tail_rid x in
                      _ <~ Commit.commit tbl x ;;
                      run WriteAheadLog.log x ;;
                      St.ret (true, None)
                  | Some x =>
                      St.ret (true, Some (Transaction.append_rid tail_rid x))
                  end
              end
        end
  | _ => St.ret (false, xact)
  end.

(** [update] *)
Definition update (fuel : nat) (tbl : TableInfo.t) (now : Z)
    (primary_key : Z) (columns : list (option Z))
    (xact : option Transaction.t)
    : St.M Table.t (bool * option Transaction.t) :=
  St.try_except (update_impl fuel tbl now primary_key columns xact)
    (St.ret (false, xact)).

(** The loop of [__delete_impl] over all column indices *)
Fixpoint unindex (cols : list (nat * option RangedIndex.t)) (rec : Record.t)
    : St.M Table.t unit :=
  match cols with
  | [] => St.ret tt
  | (col, _) :: rest =>
      s <~ St.get ;;
      run (match Table.index s !! col with
           | Some (Some ix) =>
               v <~ St.lift (getitem (Record.columns rec) (Z.of_nat col)) ;;
               rid <~ St.lift (match Record.base_rid rec with
                               | VInt z => Ok (Some z)
                               | VNone => Ok None
                               | VBits _ => Raise TypeError
                               end) ;;
               ix <~ St.lift (remove_val v rid ix) ;;
               St.put (Table.set_index (<[col := Some ix]> (Table.index s)) s)
           | _ => St.ret tt
           end) ;;
      unindex rest rec
  end.

Definition delete_impl (fuel : nat) (tbl : TableInfo.t) (now : Z)
    (primary_key : Z) (xact : option Transaction.t)
    : St.M Table.t (bool * option Transaction.t) :=
  s <~ St.get ;;
  key_lookup <~
    St.lift (Index.locate (Z.of_nat (TableInfo.key tbl)) primary_key
               (Table.index s)) ;;
  match key_lookup with
  | [key] =>
      rec <~ St.lift (select fuel tbl key (Z.of_nat (TableInfo.key tbl))
                        (all_projected tbl) s) ;;
      match rec with
      | None => St.raise AssertionError
      | Some [] => St.ret (false, xact)
      | Some (rec :: _) =>
          let timestamp := timestamp_of now xact in
          tail_rid <~ Table.delete_record fuel tbl key timestamp ;;
          match tail_rid with
          | None => St.ret (false, xact)
          | Some tail_rid =>
              s <~ St.get ;;
              key_index <~
                St.lift (getitem (Table.index s)
                           (Z.of_nat (TableInfo.key tbl))) ;;
              match key_index with
              | None => St.raise AssertionError
              | Some key_index =>
                  key_index <~
                    St.lift (RangedIndex.remove key None key_index) ;;
                  run St.put
                        (Table.set_index
                           (<[TableInfo.key tbl := Some key_index]>
                              (Table.index s)) s) ;;
                  s <~ St.get ;;
                  run unindex (enumerate (Table.index s)) rec ;;
                  match xact with
                  | None =>
                      let x := Transaction.new timestamp in
                      let x :=
                        Transaction.add_query
                          (mkStoredQuery QueryType.DELETE (TableInfo.name tbl)
                             [Some primary_key]) x in
                      let x := Transaction.append_rid tail_rid x in
                      _ <~ Commit.commit tbl x ;;
                      run WriteAheadLog.log x ;;
                      St.ret (true, None)
                  | Some x =>
                      St.ret (true, Some (Transaction.append_rid tail_rid x))
                  end
              end
          end
      end
  | _ => St.ret (false, xact)
  end.

(** [delete] *)
Definition delete (fuel : nat) (tbl : TableInfo.t) (now : Z)
    (primary_key : Z) (xact : option Transaction.t)
    : St.M Table.t (bool * option Transaction.t) :=
  St.try_except (delete_impl fuel tbl now primary_key xact)
    (St.ret (false, xact)).

(** The [for rid in rids] loop of [__sum_impl] *)
Fixpoint sum_located (fuel : nat) (tbl : TableInfo.t)
    (aggregate_column_index : Z) (s : Table.t) (rids : list Z) (sum : Z)
    : res Z :=
  match rids with
  | [] => Ok sum
  | rid :: rest =>
      rec <- Table.get_record_version fuel tbl rid 0 s ;;
      match rec with
      | None => sum_located fuel tbl aggregate_column_index s rest sum
      | Some rec =>
          c <- getitem (Record.columns rec) aggregate_column_index ;;
          c <- as_int c TypeError ;;
          sum_located fuel tbl aggregate_column_index s rest (sum + c)
      end
  end.

(** The body of the scans of [__sum_impl] and [__sum_version_impl]:
    [found] and [sum]. *)
Definition sum_body (tbl : TableInfo.t) (start_range end_range : Z)
    (aggregate_column_index : Z) (agg_first : bool) (acc : bool * Z)
    (rec : Record.t) : res (bool * Z) :=
  let '(found, sum) := acc in
  if agg_first then
    t <- getitem (Record.columns rec) aggregate_column_index ;;
    k <- getitem (Record.columns rec) (Z.of_nat (TableInfo.key tbl)) ;;
    k <- as_int k TypeError ;;
    if (start_range <=? k) && (k <=? end_range) then
      t <- as_int t TypeError ;;
      Ok (true, sum + t)
    else Ok (found, sum)
  else
    k <- getitem (Record.columns rec) (Z.of_nat (TableInfo.key tbl)) ;;
    k <- as_int k TypeError ;;
    if (start_range <=? k) && (k <=? end_range) then
      t <- getitem (Record.columns rec) aggregate_column_index ;;
      t <- as_int t TypeError ;;
      Ok (true, sum + t)
    else Ok (found, sum).

Definition sum_impl (fuel : nat) (tbl : TableInfo.t)
    (start_range end_range aggregate_column_index : Z) (s : Table.t)
    : res (option Z) :=
  if (aggregate_column_index <? 0)
     || (Z.of_nat (TableInfo.num_columns tbl) - 1 <? aggregate_column_index)
  then Ok None
  else
    ix <- getitem (Table.index s) (Z.of_nat (TableInfo.key tbl)) ;;
    match ix with
    | Some ix =>
        let rids := RangedIndex.locate_range start_range end_range ix in
        match rids with
        | [] => Ok None
        | _ =>
            sum <- sum_located fuel tbl aggregate_column_index s rids 0 ;;
            Ok (Some sum)
        end
    | None =>
        '(found, sum) <-
          Table.records fuel tbl 0 s
            (sum_body tbl start_range end_range aggregate_column_index true)
            (false, 0) ;;
        if (found : bool) then Ok (Some sum) else Ok None
    end.

(** [sum]: [None] is [False]. *)
Definition sum (fuel : nat) (tbl : TableInfo.t)
    (start_range end_range aggregate_column_index : Z) (s : Table.t)
    : res (option Z) :=
  r <- guarded (sum_impl fuel tbl start_range end_range
                  aggregate_column_index s) ;;
  Ok (mjoin r).

Definition sum_version_impl (fuel : nat) (tbl : TableInfo.t)
    (start_range end_range aggregate_column_index relative_version : Z)
    (s : Table.t) : res (option Z) :=
  if (aggregate_column_index <? 0)
     || (Z.of_nat (TableInfo.num_columns tbl) - 1 <? aggregate_column_index)
  then Ok None
  else if relative_version =? 0 then
    sum fuel tbl start_range end_range aggregate_column_index s
  else
    '(found, sum) <-
      Table.records fuel tbl relative_version s
        (sum_body tbl start_range end_range aggregate_column_index false)
        (false, 0) ;;
    if (found : bool) then Ok (Some sum) else Ok None.

(** [sum_version] *)
Definition sum_version (fuel : nat) (tbl : TableInfo.t)
    (start_range end_range aggregate_column_index relative_version : Z)
    (s : Table.t) : res (option Z) :=
  r <- guarded (sum_version_impl fuel tbl start_range end_range
                  aggregate_column_index relative_version s) ;;
  Ok (mjoin r).

Definition increment_impl (fuel : nat) (tbl : TableInfo.t) (now : Z)
    (key column : Z) (xact : option Transaction.t)
    : St.M Table.t (bool * option Transaction.t) :=
  s <~ St.get ;;
  r <~ St.lift (select fuel tbl key (Z.of_nat (TableInfo.key tbl))
                  (all_projected tbl) s) ;;
  match r with
  | None => St.ret (false, xact)
  | Some r =>
      r <~ St.lift (getitem r 0) ;;
      let updated_columns : list (option Z) :=
        repeat None (TableInfo.num_columns tbl) in
      c <~ St.lift (getitem (Record.columns r) column) ;;
      c <~ St.lift (as_int c TypeError) ;;
      updated_columns <~ St.lift (setitem updated_columns column (Some (c + 1))) ;;
      let timestamp := timestamp_of now xact in
      let x := match xact with
               | Some x => x
               | None => Transaction.new timestamp
               end in
      '(result, x') <~ update fuel tbl now key updated_columns (Some x) ;;
      match xact with
      | Some _ => St.ret (result, x')
      | None =>
          if (result : bool) then
            let x := default x x' in
            let x :=
              Transaction.add_query
                (mkStoredQuery QueryType.INCREMENT (TableInfo.name tbl)
                   [Some key; Some column]) x in
            _ <~ Commit.commit tbl x ;;
            run WriteAheadLog.log x ;;
            St.ret (result, None)
          else St.ret (result, None)
      end
  end.

(** [increment] *)
Definition increment (fuel : nat) (tbl : TableInfo.t) (now : Z)
    (key column : Z) (xact : option Transaction.t)
    : St.M Table.t (bool * option Transaction.t) :=
  St.try_except (increment_impl fuel tbl now key column xact)
    (St.ret (false, xact)).
End Query.

(** ** [filesystem.py] *)

Module Filesystem.
Import Py.

(** A column file is found by table, raw column and base/tail; the
    file system under [db_dir] is the contents of these files. *)
Definition path : Type := Py.str * nat * bool.
Abbreviation t := (gmap path (list byte)) (only parsing).

(** [get_page_path] *)
Definition get_page_path (page_id : PageId.t) : path :=
  (PageId.table_name page_id, PageId.raw_column_index page_id,
   PageId.is_base page_id).

(** [chop]: consecutive blocks of [PAGE_SIZE] bytes. *)
Fixpoint chop (blocks : nat) (m : list byte) : list (list byte) :=
  match blocks with
  | O => []
  | S n =>
      take (Z.to_nat Config.PAGE_SIZE) m
      :: chop n (drop (Z.to_nat Config.PAGE_SIZE) m)
  end.

(** [read_pages] *)
Definition read_pages (fs : t) (page_id : PageId.t) (count : Z)
    : res (list (list byte)) :=
  if count =? 0 then Ok []
  else
    match fs !! get_page_path page_id with
    | None => Raise FileNotFoundError
    | Some f =>
        let file_size := Z.of_nat (length f) in
        let cur_pos := PageId.page_index page_id * Config.PAGE_SIZE in
        if cur_pos <? 0 then Raise OSError
        else
          let blocks_to_read :=
            Z.min ((file_size - cur_pos) / Config.PAGE_SIZE) count in
          if blocks_to_read <=? 0 then Ok []
          else
            let data := take (Z.to_nat (blocks_to_read * Config.PAGE_SIZE))
                          (drop (Z.to_nat cur_pos) f) in
            Ok (chop (Z.to_nat blocks_to_read) data)
    end.

(** Writing [data] at byte [pos] of a file: a gap past the end reads
    as zeros. *)
Definition write_at (f : list byte) (pos : nat) (data : list byte)
    : list byte :=
  take pos f ++ repeat x00 (pos - length f) ++ data
  ++ drop (pos + length data) f.

(** [write_page] *)
Definition write_page (page_id : PageId.t) (data : list byte) : St.M t unit :=
  fun fs =>
    match fs !! get_page_path page_id with
    | None => (Raise FileNotFoundError, fs)
    | Some f =>
        let pos := PageId.page_index page_id * Config.PAGE_SIZE in
        if pos <? 0 then (Raise OSError, fs)
        else (Ok tt, <[get_page_path page_id :=
                         write_at f (Z.to_nat pos) data]> fs)
    end.
End Filesystem.

(** ** [bufferpool.py]

    The pool's own state under its lock.  A frame is its buffer;
    [_frames] keeps the order of the [OrderedDict], least recently
    pinned first.  While a thread waits in [Condition.wait_for] the lock
    is free and other threads run their calls: [others] lists these
    calls in the order they happen, and the wait times out when the list
    ends with the predicate still false. *)

Module Bufferpool.
Import Py.

Record t : Type := mk {
  _frames : list (PageId.t * list byte);
  _dirty : gset PageId.t;
  _pins : gmap PageId.t Z;
  files : Filesystem.t;
}.

Definition set_frames (v : list (PageId.t * list byte)) (b : t) : t :=
  mk v (_dirty b) (_pins b) (files b).
Definition set_dirty (v : gset PageId.t) (b : t) : t :=
  mk (_frames b) v (_pins b) (files b).
Definition set_pins (v : gmap PageId.t Z) (b : t) : t :=
  mk (_frames b) (_dirty b) v (files b).
Definition set_files (v : Filesystem.t) (b : t) : t :=
  mk (_frames b) (_dirty b) (_pins b) v.

(** [Bufferpool(db_path)] over the files [fs] *)
Definition new (fs : Filesystem.t) : t := mk [] ∅ ∅ fs.

(** [self._frames[page_id]] *)
Fixpoint lookup_frame (page_id : PageId.t)
    (frames : list (PageId.t * list byte)) : option (list byte) :=
  match frames with
  | [] => None
  | (p, d) :: r =>
      if bool_decide (p = page_id) then Some d else lookup_frame page_id r
  end.

(** [page_id in self._frames] *)
Definition resident (page_id : PageId.t) (b : t) : bool :=
  bool_decide (is_Some (lookup_frame page_id (_frames b))).

(** [del self._frames[page_id]] *)
Definition remove_frame (page_id : PageId.t)
    (frames : list (PageId.t * list byte)) : list (PageId.t * list byte) :=
  filter (fun x => x.1 <> page_id) frames.

(** [self._frames.move_to_end(page_id)] *)
Definition move_to_end (page_id : PageId.t)
    (frames : list (PageId.t * list byte)) : list (PageId.t * list byte) :=
  match lookup_frame page_id frames with
  | Some d => remove_frame page_id frames ++ [(page_id, d)]
  | None => frames
  end.

(** [self._pins[page_id]] on the [defaultdict] *)
Definition read_pins (page_id : PageId.t) : St.M t Z :=
  fun b => let '(v, m) := PageDirectory.dd_get page_id (_pins b) in
           (Ok v, set_pins m b).

Definition modify (f : t -> t) : St.M t unit := fun b => (Ok tt, f b).

(** [has_capacity] *)
Definition has_capacity (b : t) : bool :=
  Z.of_nat (length (_frames b)) <? Config.BUFFERPOOL_MAX_FRAMES.

(** The last loop of [fetch]: a frame for each page read that is not
    resident yet. *)
Fixpoint add_frames (ids : list PageId.t) (pages : list (list byte))
    (frames : list (PageId.t * list byte)) : list (PageId.t * list byte) :=
  match ids, pages with
  | page_id :: ids', page :: pages' =>
      match lookup_frame page_id frames with
      | Some _ => add_frames ids' pages' frames
      | None => add_frames ids' pages' (frames ++ [(page_id, page)])
      end
  | _, _ => frames
  end.

(** [fetch(start, count)] *)
Definition fetch (start : PageId.t) (count : Z) : St.M t unit :=
  b <~ St.get ;;
  if negb (has_capacity b) || (count =? 0) then St.ret tt
  else
    let available_slots :=
      Config.BUFFERPOOL_MAX_FRAMES - Z.of_nat (length (_frames b)) in
    let count := Z.max (Z.min (available_slots - 10) count) 1 in
    if forallb (fun pid => resident pid b)
         (page_range start (Z.to_nat count))
    then St.ret tt
    else
      pages <~ St.lift (Filesystem.read_pages (files b) start count) ;;
      let pages := match pages with
                   | [] => [Page.zero_page]
                   | _ => pages
                   end in
      let n := Nat.min (Z.to_nat count) (length pages) in
      modify (fun b => set_frames
                         (add_frames (page_range start n) pages (_frames b))
                         b).

(** [evict_page] *)
Definition evict_page (page_id : PageId.t) : St.M t unit :=
  n <~ read_pins page_id ;;
  if negb (n =? 0) then St.raise ValueError
  else
    b <~ St.get ;;
    run (if bool_decide (page_id ∈ _dirty b) then
           match lookup_frame page_id (_frames b) with
           | None => St.raise KeyError
           | Some data =>
               St.zoom files set_files (Filesystem.write_page page_id data)
           end
         else St.ret tt) ;;
    b <~ St.get ;;
    if negb (resident page_id b) then St.raise KeyError
    else
      run modify (fun b => set_frames (remove_frame page_id (_frames b)) b) ;;
      modify (fun b => set_pins (delete page_id (_pins b)) b).

(** [self._cond.wait_for(lambda: self._pins[page_id] == 0, timeout)]:
    the calls of the other threads run one by one until the pin count
    is zero; [false] when they end first.  A call that raises does so
    in its own thread. *)
Fixpoint wait_unpinned (page_id : PageId.t) (others : list (St.M t unit))
    : St.M t bool :=
  n <~ read_pins page_id ;;
  if n =? 0 then St.ret true
  else
    match others with
    | [] => St.ret false
    | call :: rest =>
        run (fun b => (Ok tt, (call b).2)) ;;
        wait_unpinned page_id rest
    end.

(** [_evict_lru] *)
Definition _evict_lru (others : list (St.M t unit)) : St.M t unit :=
  b <~ St.get ;;
  match _frames b with
  | [] => St.raise StopIteration
  | (lru_page_id, _) :: _ =>
      unpinned <~ wait_unpinned lru_page_id others ;;
      if (unpinned : bool) then evict_page lru_page_id
      else St.raise RuntimeError
  end.

(** [pin]: the frame's buffer *)
Definition pin (others : list (St.M t unit)) (page_id : PageId.t)
    : St.M t (list byte) :=
  b <~ St.get ;;
  run (if resident page_id b then
         run modify (fun b => set_frames (move_to_end page_id (_frames b)) b) ;;
         n <~ read_pins page_id ;;
         modify (fun b => set_pins (<[page_id := n + 1]> (_pins b)) b)
       else
         run (if negb (has_capacity b) then _evict_lru others
              else St.ret tt) ;;
         run fetch page_id 1 ;;
         modify (fun b => set_pins (<[page_id := 1]> (_pins b)) b)) ;;
  b <~ St.get ;;
  match lookup_frame page_id (_frames b) with
  | Some data => St.ret data
  | None => St.raise KeyError
  end.

(** [unpin] *)
Definition unpin (page_id : PageId.t) : St.M t unit :=
  pin_count <~ read_pins page_id ;;
  modify (fun b => set_pins (<[page_id := Z.max (pin_count - 1) 0]> (_pins b))
                     b).

(** [mark_dirty] *)
Definition mark_dirty (page_id : PageId.t) : St.M t unit :=
  modify (fun b => set_dirty ({[page_id]} ∪ _dirty b) b).

(** What a holder of the frame of [page_id] does to its buffer under
    [Frame.write]: the page is marked dirty, then the buffer is
    changed in place. *)
Definition write_buffer (page_id : PageId.t) (data : list byte)
    : St.M t unit :=
  run mark_dirty page_id ;;
  modify (fun b => set_frames
                     (map (fun x => if bool_decide (x.1 = page_id)
                                    then (x.1, data) else x)
                        (_frames b)) b).

(** [_evict_all]: one [_evict_lru] per resident frame; each call
    removes a frame or raises. *)
Fixpoint _evict_all (fuel : nat) (others : list (St.M t unit))
    : St.M t unit :=
  b <~ St.get ;;
  match _frames b, fuel with
  | [], _ => St.ret tt
  | _, O => St.raise OutOfFuel
  | _, S fuel' => run _evict_lru others ;; _evict_all fuel' others
  end.

(** [close] *)
Definition close (others : list (St.M t unit)) : St.M t unit :=
  b <~ St.get ;;
  _evict_all (length (_frames b)) others.

(** The loop of [checkpoint] over the copy of the dirty set.  Its
    [wait_for] has no timeout: when the other threads never unpin the
    page, the call does not return. *)
Fixpoint checkpoint_loop (dirty : list PageId.t) (others : list (St.M t unit))
    : St.M t unit :=
  match dirty with
  | [] => St.ret tt
  | page :: rest =>
      unpinned <~ wait_unpinned page others ;;
      if (unpinned : bool) then
        run evict_page page ;; checkpoint_loop rest others
      else St.raise OutOfFuel
  end.

(** [checkpoint] *)
Definition checkpoint (others : list (St.M t unit)) : St.M t unit :=
  b <~ St.get ;;
  checkpoint_loop (elements (_dirty b)) others.
End Bufferpool.

(** ** [pagedir.py]: [save] and [load]

    The sidecar files of a table directory.  [values.txt] is its list of
    lines, each without the newline that ends it ([int] ignores it); a
    pickle file holds the object that was dumped into it. *)

Module Sidecar.
Import Py.

Record t : Type := mk {
  values_txt : option (list string);
  num_records_pickle : option (gmap PageId.t Z);
  offsets_pickle : option (gmap Z (list PageLocation.t));
  con_bp_num_records_pickle : option (gmap Z Z);
  con_tp_num_records_pickle : option (gmap Z Z);
  tps_pickle : option (gmap Z Z);
  merge_queue_pickle : option (list PageId.t);
  range_last_bp_pickle : option (gmap Z Z);
  con_bp_last_con_tp_pickle : option (gmap Z (option Z));
  con_bp_num_resolved_pickle : option (gmap Z Z);
  con_tp_num_resolved_pickle : option (gmap Z Z);
}.

(** [str(z)] *)
Definition str_of_int (z : Z) : string :=
  DecimalString.NilZero.string_of_int (Z.to_int z).

(** [int(line)] for a line as [str] prints it; anything else is a
    [ValueError] here. *)
Definition int_of_str (line : string) : res Z :=
  match DecimalString.NilZero.int_of_string line with
  | Some d => Ok (Z.of_int d)
  | None => Raise ValueError
  end.

(** [open(path, "rb")] and [pickle.load] *)
Definition unpickle {A} (file : option A) : res A :=
  match file with
  | Some a => Ok a
  | None => Raise FileNotFoundError
  end.

(** [PageDirectory.save] *)
Definition save (d : PageDirectory.t) : t :=
  mk (Some [str_of_int (PageDirectory._unused_tp_idx d);
            str_of_int (PageDirectory._unused_bp_idx d);
            str_of_int (PageDirectory._unused_base_rid d);
            str_of_int (PageDirectory._unused_tail_rid d)])
     (Some (PageDirectory._num_records d))
     (Some (PageDirectory._offsets d))
     (Some (PageDirectory._con_bp_num_records d))
     (Some (PageDirectory._con_tp_num_records d))
     (Some (PageDirectory._tps d))
     (Some (PageDirectory._merge_queue d))
     (Some (PageDirectory._range_last_bp d))
     (Some (PageDirectory._con_bp_last_con_tp d))
     (Some (PageDirectory._con_bp_num_resolved d))
     (Some (PageDirectory._con_tp_num_resolved d)).

Definition line (lines : list string) (i : Z) : res Z :=
  l <- getitem lines i ;; int_of_str l.

Definition assign {A} (file : option A)
    (set : A -> PageDirectory.t -> PageDirectory.t)
    : St.M PageDirectory.t unit :=
  v <~ St.lift (unpickle file) ;; PageDirectory.modify (set v).

(** [PageDirectory.load] *)
Definition load (f : t) : St.M PageDirectory.t unit :=
  match values_txt f with
  | None => St.ret tt
  | Some lines =>
      v <~ St.lift (line lines 0) ;;
      run PageDirectory.modify (PageDirectory.set_unused_tp_idx v) ;;
      v <~ St.lift (line lines 1) ;;
      run PageDirectory.modify (PageDirectory.set_unused_bp_idx v) ;;
      v <~ St.lift (line lines 2) ;;
      run PageDirectory.modify (PageDirectory.set_unused_base_rid v) ;;
      v <~ St.lift (line lines 2) ;;
      run PageDirectory.modify (PageDirectory.set_unused_tail_rid v) ;;
      run assign (num_records_pickle f) PageDirectory.set_num_records ;;
      run assign (offsets_pickle f) PageDirectory.set_offsets ;;
      run assign (con_bp_num_records_pickle f)
            PageDirectory.set_con_bp_num_records ;;
      run assign (con_tp_num_records_pickle f)
            PageDirectory.set_con_tp_num_records ;;
      run assign (tps_pickle f) PageDirectory.set_tps ;;
      run assign (merge_queue_pickle f) PageDirectory.set_merge_queue ;;
      run assign (range_last_bp_pickle f) PageDirectory.set_range_last_bp ;;
      run assign (con_bp_last_con_tp_pickle f)
            PageDirectory.set_con_bp_last_con_tp ;;
      run assign (con_bp_num_resolved_pickle f)
            PageDirectory.set_con_bp_num_resolved ;;
      assign (con_tp_num_resolved_pickle f)
        PageDirectory.set_con_tp_num_resolved
  end.

(** [PageDirectory(table, load=True)]: a fresh directory, then
    [load]. *)
Definition reopen (f : t) : res unit * PageDirectory.t :=
  load f PageDirectory.new.
End Sidecar.

(** ** A small table used by the examples *)

Module Demo.
(** [create_table("G", 5, 0)] on a little-endian machine *)
Definition tbl : TableInfo.t := TableInfo.mk [71] 5 0 Py.Little.

(** after [insert(42, 1, 2, 3, 4)] at time 111 *)
Definition s1 : Table.t :=
  (Query.insert tbl 111 [42; 1; 2; 3; 4] None (Table.new tbl)).2.

(** the key index of [s1] *)
Definition ix1 : RangedIndex.t :=
  match Table.index s1 !! TableInfo.key tbl with
  | Some (Some ix) => ix
  | _ => RangedIndex.empty true
  end.

(** the record that [__update_impl] hands to [add_tail_record] for
    [update(42, None, 1, None, None, None)] at time 222: column 1 is
    given the value it already has *)
Definition unchanged : Record.t :=
  Record.set_timestamp
    (Record.set_columns
       (Record.set_base_rid
          (Record.new (TableInfo.key tbl)
             (repeat (Py.VInt 0) (TableInfo.num_raw_cols tbl)))
          (Py.VInt 1000))
       (map Query.val_of [None; Some 1; None; None; None]))
    (Py.VInt 222).

(** the table after that update *)
Definition s2 : Table.t := (Table.add_tail_record 1 tbl unchanged s1).2.

(** the key index of [s1] after [add(7, 1001)] *)
Definition ix7 : RangedIndex.t :=
  RangedIndex.mk (<[7 := [1001]]> (RangedIndex._index ix1)) true.
End Demo.

(** ** Stable conceptual tail pages, as [__mark_resolved] tests them *)

Module MergeQueue.

(** A resolved counter as the [defaultdict] reads it. *)
Definition bp_resolved (d : PageDirectory.t) (bp_idx : Z) : Z :=
  default 0 (PageDirectory._con_bp_num_resolved d !! bp_idx).
Definition tp_resolved (d : PageDirectory.t) (tp_idx : Z) : Z :=
  default 0 (PageDirectory._con_tp_num_resolved d !! tp_idx).

(** Both resolved counters of conceptual tail page [tp_idx], its own and
    that of the base page that owns it, are at the capacity. *)
Definition stable (tbl : TableInfo.t) (d : PageDirectory.t) (tp_idx : Z)
    : bool :=
  match PageDirectory._con_tp_owner d !! tp_idx with
  | Some bp_idx =>
      (bp_resolved d bp_idx =? PageDirectory._con_page_max_recs tbl)
      && (tp_resolved d tp_idx =? PageDirectory._con_page_max_recs tbl)
  | None => false
  end.


(** The first location of a RID: [self._offsets[rid][0]]. *)
Definition first_location (d : PageDirectory.t) (rid : Z)
    : option PageLocation.t :=
  PageDirectory._offsets d !! rid ≫= head.

(** What one [__mark_resolved(rid)] that ends in [d'] appends. *)
Definition appended (tbl : TableInfo.t) (d d' : PageDirectory.t) (rid : Z)
    : list PageId.t :=
  match first_location d rid with
  | Some loc =>
      if negb (PageLocation.is_base loc)
         && stable tbl d' (PageLocation.page_index loc)
      then [PageLocation.id loc]
      else []
  | None => []
  end.

(** [n] times [step], collecting the results. *)
Fixpoint times {S A} (n : nat) (step : St.M S A) : St.M S unit :=
  match n with
  | O => St.ret tt
  | S n' => St.bind step (fun _ => times n' step)
  end.

(** An update as the page directory sees it: a tail RID is allocated
    for base RID 1000 and then resolved. *)
Definition resolved_update (tbl : TableInfo.t) : St.M PageDirectory.t unit :=
  St.bind (PageDirectory.alloc_tail_rid tbl (Py.VInt 1000) [true])
    (fun r => PageDirectory.notify_resolve tbl [r.1]).

(** An insert as the page directory sees it. *)
Definition resolved_insert (tbl : TableInfo.t) : St.M PageDirectory.t unit :=
  St.bind (PageDirectory.alloc_base_rid tbl)
    (fun r => PageDirectory.notify_resolve tbl [r.1]).

(** A table of one column: 512 records to a conceptual page. *)
Definition tbl1 : TableInfo.t := TableInfo.mk [71] 1 0 Py.Little.


(** 512 records are inserted and resolved; the first of them is then
    updated 1024 times, the last tail record not yet resolved. *)
Definition scenario_full : PageDirectory.t :=
  (St.bind (times 512 (resolved_insert tbl1)) (fun _ =>
   St.bind (PageDirectory.alloc_tail_rid tbl1 (Py.VInt 1000) [true]) (fun _ =>
   St.bind (times 1022 (resolved_update tbl1)) (fun _ =>
   PageDirectory.alloc_tail_rid tbl1 (Py.VInt 1000) [true])))
     PageDirectory.new).2.

(** The tail RID that [scenario_full] allocated last. *)
Definition last_tail_rid : Z := Config.TAIL_RID_BEGIN - 1023.

End MergeQueue.

(** ** The calls of [__mark_resolved] that [notify_resolve] makes *)

Module Resolve.

(** One call [__mark_resolved(rid)]: the directory it starts from and
    the one it leaves, whether it returns or raises. *)
Record step : Type := mk_step {
  rid : Z;
  before : PageDirectory.t;
  after : PageDirectory.t;
}.




(** The steps lead from [d] to [d'], each from where the one before
    ended. *)
Fixpoint path (d : PageDirectory.t) (steps : list step)
    (d' : PageDirectory.t) : Prop :=
  match steps with
  | [] => d = d'
  | s :: rest => before s = d /\ path (after s) rest d'
  end.

(** What the step appends to the merge queue. *)
Definition appended (tbl : TableInfo.t) (s : step) : list PageId.t :=
  MergeQueue.appended tbl (before s) (after s) (rid s).

End Resolve.

(** ** What eviction leaves on disk *)

Module Evicted.


(** The pin count as the [defaultdict] reads it. *)
Definition pin_count (b : Bufferpool.t) (page_id : PageId.t) : Z :=
  default 0 (Bufferpool._pins b !! page_id).

(** A pool over one column file of two pages, with page 0 resident,
    written to and unpinned again. *)
Definition file0 : Filesystem.path := ([71], 0%nat, true).
Definition page0 : PageId.t := PageId.mk [71] 0 true 0.
Definition pool : Bufferpool.t :=
  (St.bind (Bufferpool.pin [] page0) (fun _ =>
   St.bind (Bufferpool.write_buffer page0
             (repeat x01 (Z.to_nat Config.PAGE_SIZE))) (fun _ =>
   Bufferpool.unpin page0))
     (Bufferpool.new
        {[file0 := repeat x00 (Z.to_nat (2 * Config.PAGE_SIZE))]})).2.

End Evicted.

(** ** Transactions as the query layer logs them *)

Module Logged.

(** A table name of ASCII characters: as many bytes as characters. *)
Definition ascii (s : Py.str) : Prop := Forall (fun c => 0 <= c < 128) s.

(** A recorded query of a mutating method with the arguments the method
    takes: the columns of an [insert], the key and the columns of an
    [update], the key and the column of an [increment], the key of a
    [delete]. *)
Definition well_formed (q : StoredQuery) : Prop :=
  match sq_type q with
  | QueryType.INSERT | QueryType.UPDATE => True
  | QueryType.INCREMENT => length (sq_args q) = 2%nat
  | QueryType.DELETE => length (sq_args q) = 1%nat
  | QueryType.SELECT | QueryType.SUM => False
  end.

(** [[q.to_stored_query(...) for q in queries]] *)
Fixpoint to_stored_queries (qs : list RedoQuery.t) : Py.res (list StoredQuery) :=
  match qs with
  | [] => Py.Ok []
  | q :: r =>
      Py.bind (RedoQuery.to_stored_query q) (fun s =>
      Py.bind (to_stored_queries r) (fun rest => Py.Ok (s :: rest)))
  end.

(** An [insert(5)] into a one-column table named "é" (U+00E9). *)
Definition non_ascii : list StoredQuery :=
  [mkStoredQuery QueryType.INSERT [233] [Some 5]].

End Logged.


(** ** Reasoning about stateful methods

    [keeps f m]: the method [m] leaves the part [f] of the state as it
    was, whether it returns or raises.  [preserves P m]: [m] maintains
    the invariant [P]. *)

Module Frame.
Definition keeps {S A X : Type} (f : S -> X) (m : St.M S A) : Prop :=
  forall s, f (m s).2 = f s.

Definition preserves {S A : Type} (P : S -> Prop) (m : St.M S A) : Prop :=
  forall s, P s -> P (m s).2.

(** Where the records are: their locations, the TPS of the base
    records, and the two RID counters. *)
Definition located (d : PageDirectory.t)
    : gmap Z (list PageLocation.t) * gmap Z Z * Z * Z :=
  (PageDirectory._offsets d, PageDirectory._tps d,
   PageDirectory._unused_base_rid d, PageDirectory._unused_tail_rid d).
(** What a read of the table depends on, besides the transaction
    tracker: where the records are, the pages, and the indices. *)
Definition stored (s : Table.t)
    : (gmap Z (list PageLocation.t) * gmap Z Z * Z * Z)
      * gmap PageId.t (list byte) * list (option RangedIndex.t) :=
  (located (Table.page_directory s), Table.pages s, Table.index s).

(** What [write_columns] leaves at a location [l]: a page of full
    length, whose slot holds the integer of the record's column or,
    in the schema-encoding column, the bytes of the bitarray. *)
Definition written (tbl : TableInfo.t) (schema_encoding : Py.val)
    (raw_cols : list Py.val) (s : Table.t) (l : PageLocation.t) : Prop :=
  Z.of_nat (length (Table.frame (PageLocation.id l) s)) = Config.PAGE_SIZE
  /\ (Table.is_schema_column l = false ->
      exists v,
        raw_cols !! PageLocation.raw_column_index l = Some (Py.VInt v)
        /\ DataPage.read (TableInfo.byteorder tbl)
             (Table.frame (PageLocation.id l) s) (PageLocation.offset l)
           = v)
  /\ (Table.is_schema_column l = true ->
      exists ba,
        schema_encoding = Py.VBits ba
        /\ Page._read_bytes
             (SchemaEncodingPage.get_col_size (TableInfo.num_columns tbl))
             (Table.frame (PageLocation.id l) s) (PageLocation.offset l)
           = Py.tobytes (TableInfo.byteorder tbl) ba).
End Frame.


(** ** Well-formed directories

    What the allocation of a record relies on, and what it
    maintains. *)

Module Wf.
(** No page has a negative record count. *)
Definition counted (d : PageDirectory.t) : Prop :=
  map_Forall (fun (_ : PageId.t) n => 0 <= n) (PageDirectory._num_records d).

(** The base RIDs start at [BASE_RID_BEGIN]. *)
Definition based (d : PageDirectory.t) : Prop :=
  Config.BASE_RID_BEGIN <= PageDirectory._unused_base_rid d.

(** The locations of a base RID are on base pages. *)
Definition base_located (d : PageDirectory.t) : Prop :=
  map_Forall (fun rid locs =>
    PageDirectory.is_base_rec rid d = true ->
    Forall (fun l => PageLocation.is_base l = true) locs)
    (PageDirectory._offsets d).

(** The tail RIDs start at [TAIL_RID_BEGIN] and stay above the base
    RIDs. *)
Definition tailed (d : PageDirectory.t) : Prop :=
  PageDirectory._unused_base_rid d <= PageDirectory._unused_tail_rid d
  /\ PageDirectory._unused_tail_rid d <= Config.TAIL_RID_BEGIN.
End Wf.


(** ** The schema encoding of an update *)

Module Encoding.
Import Py.

(** The bit the loop of [add_tail_record] appends for a supplied
    value. *)
Definition supplied (new : val) : bool := negb (bool_decide (new = VNone)).

(** The bit as the specification words it: the supplied value is
    non-null and differs from the latest value. *)
Definition differs (new latest : val) : bool :=
  negb (bool_decide (new = VNone)) && negb (bool_decide (new = latest)).

(** The pages of a conceptual tail page that a tail record with the
    schema encoding [schema_encoding] takes a slot in. *)
Definition kept (schema_encoding : bitarray) (tp : PageId.t) : bool :=
  (PageId.raw_column_index tp <? Config.NUM_META_COLS)%nat
  || default false
       (schema_encoding !! (PageId.raw_column_index tp - Config.NUM_META_COLS)%nat).
End Encoding.


(** ** Outcomes that a handler catches, and well-formed tables

    [caught r]: the outcome [r] is a result or an exception that
    [except Exception] catches.  [post R x]: the outcome of a stateful
    method is caught and leaves a state in [R]. *)

Module Total.
Import Py.

Definition caught {A} (r : res A) : Prop :=
  match r with
  | Ok _ => True
  | Raise e => is_Exception e = true
  end.

Definition post {S A} (R : S -> Prop) (x : res A * S) : Prop :=
  caught x.1 /\ R x.2.

(** The number of slots of a data page. *)
Definition slots : nat := Z.to_nat PageDirectory._data_recs_per_page.

(** The pages whose slots hold RIDs that the version walker may
    follow: the indirection column of the tail pages, the RID and
    base-RID columns of the base pages. *)
Definition special (pid : PageId.t) : bool :=
  if PageId.is_base pid then
    Nat.eqb (PageId.raw_column_index pid) Config.RID_COLUMN
    || Nat.eqb (PageId.raw_column_index pid) Config.BASE_RID_COLUMN
  else Nat.eqb (PageId.raw_column_index pid) Config.INDIRECTION_COLUMN.

Definition in_slots (l : PageLocation.t) : Prop :=
  0 <= PageLocation.offset l /\ PageLocation.offset l < Z.of_nat slots.

(** The locations of a base record: column [i] at position [i], on
    base pages. *)
Definition base_struct (locs : list PageLocation.t) : Prop :=
  Forall (fun p : nat * PageLocation.t =>
            PageLocation.is_base p.2 = true
            /\ PageLocation.raw_column_index p.2 = p.1
            /\ in_slots p.2)
    (zip (seq 0 (length locs)) locs).

(** The locations of a tail record: the metadata columns at their
    positions, then data columns, on tail pages. *)
Definition tail_struct (locs : list PageLocation.t) : Prop :=
  Forall (fun p : nat * PageLocation.t =>
            PageLocation.is_base p.2 = false
            /\ ((p.1 < Config.NUM_META_COLS)%nat ->
                PageLocation.raw_column_index p.2 = p.1)
            /\ ((Config.NUM_META_COLS <= p.1)%nat ->
                (Config.NUM_META_COLS <= PageLocation.raw_column_index p.2)%nat)
            /\ in_slots p.2)
    (zip (seq 0 (length locs)) locs).

(** The RID counters: base RIDs below tail RIDs, with room for [n]
    more RIDs. *)
Definition ordered (n : Z) (d : PageDirectory.t) : Prop :=
  Config.BASE_RID_BEGIN <= PageDirectory._unused_base_rid d
  /\ PageDirectory._unused_base_rid d + n
     <= PageDirectory._unused_tail_rid d + 1
  /\ PageDirectory._unused_tail_rid d <= Config.TAIL_RID_BEGIN.

(** Every located RID is an allocated base RID or an allocated tail
    RID, and is located accordingly. *)
Definition located (d : PageDirectory.t) : Prop :=
  map_Forall (fun rid locs =>
    (Config.BASE_RID_BEGIN <= rid < PageDirectory._unused_base_rid d
     /\ base_struct locs)
    \/ (PageDirectory._unused_tail_rid d < rid <= Config.TAIL_RID_BEGIN
        /\ tail_struct locs))
    (PageDirectory._offsets d).

Definition directory (n : Z) (d : PageDirectory.t) : Prop :=
  ordered n d /\ Wf.counted d /\ located d.

(** Every slot of a special page holds a value below [bound]. *)
Definition clean (e : endian) (bound : Z)
    (pages : gmap PageId.t (list byte)) : Prop :=
  map_Forall (fun pid page =>
    special pid = true ->
    Forall (fun o => DataPage.read e page (Z.of_nat o) < bound)
      (seq 0 slots))
    pages.

(** A well-formed table with room for [n] more RIDs. *)
Definition wf (tbl : TableInfo.t) (n : Z) (s : Table.t) : Prop :=
  directory n (Table.page_directory s)
  /\ clean (TableInfo.byteorder tbl)
       (PageDirectory._unused_base_rid (Table.page_directory s))
       (Table.pages s).
End Total.

(** ** The capacity of the pool *)

Module Pool.
(** The pool holds no more frames than [BUFFERPOOL_MAX_FRAMES]. *)
Definition within_capacity (b : Bufferpool.t) : Prop :=
  Z.of_nat (length (Bufferpool._frames b)) <= Config.BUFFERPOOL_MAX_FRAMES.

(** The pool holds at most [n] frames. *)
Definition at_most (n : nat) (b : Bufferpool.t) : Prop :=
  (length (Bufferpool._frames b) <= n)%nat.
End Pool.

(** ** What the record store leaves alone *)

Module Kept.
(** [P] holds of the state that a call leaves, whatever its outcome. *)
Definition after {S A} (P : S -> Prop) (x : Py.res A * S) : Prop := P x.2.

(** The parts of a table that reading and writing records do not
    touch: the indices, the transaction tracker and the log. *)
Definition rest (s : Table.t)
    : list (option RangedIndex.t) * gmap Z bool * list byte :=
  (Table.index s, Table.xact_tracker s, Table.wal s).
End Kept.

(** ** A table of two records, used by the examples *)

Module Demo2.
(** [Demo.s1] after [insert(43, 10, 20, 30, 40)] at time 555 *)
Definition s3 : Table.t :=
  (Query.insert Demo.tbl 555 [43; 10; 20; 30; 40] None Demo.s1).2.

(** the key index of [s3] *)
Definition ix3 : RangedIndex.t :=
  match Table.index s3 !! TableInfo.key Demo.tbl with
  | Some (Some ix) => ix
  | _ => RangedIndex.empty true
  end.

(** the record that [__update_impl] hands to [add_tail_record] for
    [update(42, 43, None, None, None, None)] at time 777 *)
Definition moved : Record.t :=
  Record.set_timestamp
    (Record.set_columns
       (Record.set_base_rid
          (Record.new (TableInfo.key Demo.tbl)
             (repeat (Py.VInt 0) (TableInfo.num_raw_cols Demo.tbl)))
          (Py.VInt 1000))
       (map Query.val_of [Some 43; None; None; None; None]))
    (Py.VInt 777).

(** the record with key 42 as [select] returns it from [s3] *)
Definition found : Record.t :=
  match Query.select 5 Demo.tbl 42 0 (Query.all_projected Demo.tbl) s3 with
  | Py.Ok (Some (r :: _)) => r
  | _ => moved
  end.

(** [s3] after that tail record is added *)
Definition s4 : Table.t := (Table.add_tail_record 5 Demo.tbl moved s3).2.
End Demo2.

(** ** A record and its latest version, as the pages hold them *)

Module Stored.
Import Py.

(** No transaction is recorded as aborted. *)
Definition none_aborted (a : gmap Z bool) : Prop :=
  map_Forall (fun (_ : Z) (aborted : bool) => aborted = false) a.

(** Every page has [PAGE_SIZE] bytes. *)
Definition sized (pages : gmap PageId.t (list byte)) : Prop :=
  map_Forall (fun (_ : PageId.t) (page : list byte) =>
                Z.of_nat (length page) = Config.PAGE_SIZE) pages.


(** A table as the queries leave it. *)
Definition wf (s : Table.t) : Prop :=
  Wf.counted (Table.page_directory s)
  /\ Wf.based (Table.page_directory s)
  /\ Wf.base_located (Table.page_directory s)
  /\ Wf.tailed (Table.page_directory s)
  /\ sized (Table.pages s)
  /\ none_aborted (Table.xact_tracker s).









(** What the row of a key depends on, besides the transaction
    tracker. *)
Definition kept (s : Table.t) :=
  (Frame.stored s, PageDirectory._num_records (Table.page_directory s)).


End Stored.

Module Demo3.
(** [Demo.s1] after [update(42, None, None, 9, None, None)] at time 222 *)
Definition s5 : Table.t :=
  (Query.update 1 Demo.tbl 222 42 [None; None; Some 9; None; None] None
     Demo.s1).2.

(** [s5] after [update(42, None, 7, None, None, None)] at time 333 *)
Definition s6 : Table.t :=
  (Query.update 1 Demo.tbl 333 42 [None; Some 7; None; None; None] None
     s5).2.

(** [s6] after [increment(42, 3)] at time 444 *)
Definition s7 : Table.t :=
  (Query.increment 1 Demo.tbl 444 42 3 None s6).2.
End Demo3.

(** * Properties *)

(** ** Python list indexing *)

Section Getitem.
Context {A : Type}.

Lemma getitem_nat (l : list A) (n : nat) (a : A) :
  l !! n = Some a -> Py.getitem l (Z.of_nat n) = Py.Ok a.
Proof.
  intros H. unfold Py.getitem.
  destruct (Z.ltb_spec (Z.of_nat n) 0) as [Hn|Hn]; [lia|].
  destruct (Z.ltb_spec (Z.of_nat n) 0); [lia|].
  rewrite Nat2Z.id, H. reflexivity.
Qed.

Lemma getitem_nat_None (l : list A) (n : nat) :
  l !! n = None -> Py.getitem l (Z.of_nat n) = Py.Raise Py.IndexError.
Proof.
  intros H. unfold Py.getitem.
  destruct (Z.ltb_spec (Z.of_nat n) 0) as [Hn|Hn]; [lia|].
  destruct (Z.ltb_spec (Z.of_nat n) 0); [lia|].
  rewrite Nat2Z.id, H. reflexivity.
Qed.

Lemma getitem_raises (l : list A) (i : Z) (e : Py.exn) :
  Py.getitem l i = Py.Raise e -> e = Py.IndexError.
Proof.
  unfold Py.getitem. repeat case_match; congruence.
Qed.
End Getitem.

(** ** The key index decides [insert] and the all-[None] [update] *)

Section KeyLookup.
Variable tbl : TableInfo.t.

Lemma locate_key (s : Table.t) (ix : RangedIndex.t) (k : Z) :
  Table.index s !! TableInfo.key tbl = Some (Some ix) ->
  Index.locate (Z.of_nat (TableInfo.key tbl)) k (Table.index s)
  = Py.Ok (RangedIndex.locate k ix).
Proof.
  intros H. unfold Index.locate. rewrite (getitem_nat _ _ _ H). reflexivity.
Qed.

(** C4.  When the key index already holds a RID for the key value of
    the row, [insert] returns [False] and leaves the whole table state
    as it was: page directory, pages, indices, tracker and WAL. *)
Theorem insert_duplicate_key_rejected (now : Z) (columns : list Z)
    (xact : option Transaction.t) (s : Table.t) (ix : RangedIndex.t)
    (k : Z) :
  columns !! TableInfo.key tbl = Some k ->
  Table.index s !! TableInfo.key tbl = Some (Some ix) ->
  RangedIndex.locate k ix <> [] ->
  Query.insert tbl now columns xact s = (Py.Ok (false, xact), s).
Proof.
  intros Hk Hix Hne.
  unfold Query.insert, St.try_except, Query.insert_impl.
  destruct (negb _); [reflexivity|].
  unfold St.bind, St.get, St.lift.
  rewrite (getitem_nat _ _ _ Hk), (locate_key _ _ _ Hix).
  destruct (RangedIndex.locate k ix) as [|r rs]; [congruence|].
  reflexivity.
Qed.

(** C10.  When the key index holds exactly one RID for the key, an
    [update] whose columns are all [None] returns [True] and leaves the
    whole table state as it was. *)
Theorem update_all_none_is_noop (fuel : nat) (now primary_key : Z)
    (columns : list (option Z)) (xact : option Transaction.t) (s : Table.t)
    (ix : RangedIndex.t) (base_rid : Z) :
  Table.index s !! TableInfo.key tbl = Some (Some ix) ->
  RangedIndex.locate primary_key ix = [base_rid] ->
  Forall (fun column => column = None) columns ->
  Query.update fuel tbl now primary_key columns xact s
  = (Py.Ok (true, xact), s).
Proof.
  intros Hix Hloc Hall.
  unfold Query.update, St.try_except, Query.update_impl.
  unfold St.bind, St.get, St.lift.
  rewrite (locate_key _ _ _ Hix), Hloc.
  assert (forallb (fun column : option Z => bool_decide (column = None))
            columns = true) as ->.
  { apply forallb_forall. intros c Hc.
    rewrite Forall_forall in Hall. apply bool_decide_eq_true, Hall.
    by apply list_elem_of_In. }
  reflexivity.
Qed.
End KeyLookup.

(** ** Versions above zero *)

Section InvalidVersion.
Variable tbl : TableInfo.t.

Lemma get_record_version_positive (fuel : nat) (base_rid version : Z)
    (s : Table.t) :
  0 < version ->
  Table.get_record_version fuel tbl base_rid version s
  = Py.Raise Py.ValueError.
Proof.
  intros H. unfold Table.get_record_version.
  destruct (Z.ltb_spec 0 version); [reflexivity|lia].
Qed.

Lemma base_rids_cons (d : PageDirectory.t) :
  Config.BASE_RID_BEGIN < PageDirectory._unused_base_rid d ->
  exists r rs, PageDirectory.base_rids d = r :: rs.
Proof.
  intros H. unfold PageDirectory.base_rids, PageDirectory._base_rid_begin.
  destruct (Z.to_nat (PageDirectory._unused_base_rid d - Config.BASE_RID_BEGIN))
    as [|n] eqn:E; [lia|].
  simpl. eauto.
Qed.

Lemma base_rids_nil (d : PageDirectory.t) :
  PageDirectory._unused_base_rid d <= Config.BASE_RID_BEGIN ->
  PageDirectory.base_rids d = [].
Proof.
  intros H. unfold PageDirectory.base_rids, PageDirectory._base_rid_begin.
  replace (Z.to_nat _) with O by lia. reflexivity.
Qed.

(** C7.  [get_record_version] raises the invalid-version error for
    every base RID when the version is above zero and returns no
    record; [select_version] lets no exception out: it returns [False]
    as soon as the table has a base RID, which is when the walker is
    called at all, and the empty list on a table without records. *)
Theorem invalid_version_rejected (fuel : nat) (version : Z) (s : Table.t) :
  0 < version ->
  (forall base_rid,
      Table.get_record_version fuel tbl base_rid version s
      = Py.Raise Py.ValueError)
  /\ (forall search_key search_key_index projected_column_indices,
        Query.select_version fuel tbl search_key search_key_index
          projected_column_indices version s
        = Py.Ok
            (if bool_decide
                  (Config.BASE_RID_BEGIN
                   < PageDirectory._unused_base_rid (Table.page_directory s))
             then None
             else Some [])).
Proof.
  intros Hv. split.
  { intros. by apply get_record_version_positive. }
  intros sk ski proj.
  unfold Query.select_version, Query.select_version_impl.
  destruct (Z.eqb_spec version 0); [lia|].
  unfold Table.records.
  case_bool_decide as Hb.
  - destruct (base_rids_cons _ Hb) as (r & rs & ->).
    simpl. rewrite get_record_version_positive by done. reflexivity.
  - rewrite base_rids_nil by lia. reflexivity.
Qed.
End InvalidVersion.

Lemma insert_duplicate_key_rejected_witness :
  [42; 9; 9; 9; 9] !! TableInfo.key Demo.tbl = Some 42
  /\ Table.index Demo.s1 !! TableInfo.key Demo.tbl = Some (Some Demo.ix1)
  /\ RangedIndex.locate 42 Demo.ix1 <> []
  /\ Query.insert Demo.tbl 222 [42; 9; 9; 9; 9] None Demo.s1
     = (Py.Ok (false, None), Demo.s1).
Proof.
  assert (H1 : [42; 9; 9; 9; 9] !! TableInfo.key Demo.tbl = Some 42)
    by reflexivity.
  assert (H2 : Table.index Demo.s1 !! TableInfo.key Demo.tbl
               = Some (Some Demo.ix1)) by (vm_compute; reflexivity).
  assert (H3 : RangedIndex.locate 42 Demo.ix1 <> [])
    by (vm_compute; discriminate).
  split; [exact H1 | split; [exact H2 | split; [exact H3 |]]].
  exact (insert_duplicate_key_rejected Demo.tbl 222 [42; 9; 9; 9; 9] None
           Demo.s1 Demo.ix1 42 H1 H2 H3).
Defined.

Lemma update_all_none_is_noop_witness :
  Table.index Demo.s1 !! TableInfo.key Demo.tbl = Some (Some Demo.ix1)
  /\ RangedIndex.locate 42 Demo.ix1 = [1000]
  /\ Forall (fun column : option Z => column = None)
       [None; None; None; None; None]
  /\ Query.update 5 Demo.tbl 222 42 [None; None; None; None; None] None
       Demo.s1
     = (Py.Ok (true, None), Demo.s1).
Proof.
  assert (H1 : Table.index Demo.s1 !! TableInfo.key Demo.tbl
               = Some (Some Demo.ix1)) by (vm_compute; reflexivity).
  assert (H2 : RangedIndex.locate 42 Demo.ix1 = [1000])
    by (vm_compute; reflexivity).
  assert (H3 : Forall (fun column : option Z => column = None)
                 [None; None; None; None; None])
    by (repeat constructor).
  split; [exact H1 | split; [exact H2 | split; [exact H3 |]]].
  exact (update_all_none_is_noop Demo.tbl 5 222 42
           [None; None; None; None; None] None Demo.s1 Demo.ix1 1000
           H1 H2 H3).
Defined.

Lemma invalid_version_rejected_witness :
  0 < 1
  /\ Table.get_record_version 5 Demo.tbl 1000 1 Demo.s1
     = Py.Raise Py.ValueError
  /\ Query.select_version 5 Demo.tbl 42 0 [1; 1; 1; 1; 1] 1 Demo.s1
     = Py.Ok None.
Proof.
  assert (H : 0 < 1) by lia.
  destruct (invalid_version_rejected Demo.tbl 5 1 Demo.s1 H) as [Ha Hb].
  split; [exact H | split; [exact (Ha 1000) |]].
  rewrite Hb. vm_compute. reflexivity.
Defined.

(** ** Saving and reloading the page directory *)

Section SaveLoad.

Lemma to_int_not_nil (z : Z) :
  Z.to_int z <> Decimal.Pos Decimal.Nil /\ Z.to_int z <> Decimal.Neg Decimal.Nil.
Proof.
  destruct z as [|p|p]; simpl; split; try discriminate;
    intros [= H]; by apply DecimalPos.Unsigned.to_uint_nonnil in H.
Qed.

(** [int(str(z)) == z] *)
Lemma int_of_str_of_int (z : Z) :
  Sidecar.int_of_str (Sidecar.str_of_int z) = Py.Ok z.
Proof.
  unfold Sidecar.int_of_str, Sidecar.str_of_int.
  destruct (to_int_not_nil z) as [H1 H2].
  rewrite DecimalString.NilZero.isi by assumption.
  by rewrite DecimalZ.of_to.
Qed.

(** What [load] restores from what [save] wrote: everything but the
    tail RID counter, which is read from the line of the base RID
    counter, and [_con_tp_owner], which is not saved. *)
Lemma reopen_after_save (d : PageDirectory.t) :
  Sidecar.reopen (Sidecar.save d)
  = (Py.Ok tt,
     PageDirectory.set_con_tp_owner ∅
       (PageDirectory.set_unused_tail_rid (PageDirectory._unused_base_rid d)
          d)).
Proof.
  unfold Sidecar.reopen, Sidecar.load, Sidecar.save, Sidecar.line; simpl.
  unfold St.bind, St.lift, Py.getitem; simpl.
  rewrite !int_of_str_of_int; simpl.
  by destruct d.
Qed.

(** C3, at the directory of a freshly created table: after [save] and
    [load] the tail RID counter is [BASE_RID_BEGIN], not the
    [TAIL_RID_BEGIN] it was when saved. *)
Theorem reopen_loses_tail_rid_counter :
  PageDirectory._unused_tail_rid PageDirectory.new = 2 ^ 63 - 1
  /\ PageDirectory._unused_tail_rid
       (Sidecar.reopen (Sidecar.save PageDirectory.new)).2 = 1000
  /\ (Sidecar.reopen (Sidecar.save PageDirectory.new)).2 <> PageDirectory.new.
Proof.
  rewrite reopen_after_save. split; [reflexivity|]. split; [reflexivity|].
  intros H. apply (f_equal PageDirectory._unused_tail_rid) in H.
  vm_compute in H. discriminate.
Qed.

End SaveLoad.

(** ** Resolved counters and the merge queue *)

Section MergeQueueFacts.
Variable tbl : TableInfo.t.












End MergeQueueFacts.

(** ** Every [__mark_resolved] of every [notify_resolve] *)

Section ResolveFacts.
Variable tbl : TableInfo.t.






End ResolveFacts.




(** In [MergeQueue.scenario_full] the last resolve makes tail page 1
    stable, and it is queued. *)
Lemma stable_page_queued :
  PageDirectory._merge_queue
    (PageDirectory.notify_resolve MergeQueue.tbl1 [MergeQueue.last_tail_rid]
       MergeQueue.scenario_full).2
  = [PageId.mk [71] 0 false 1].
Proof. vm_compute. reflexivity. Qed.

(** ** Eviction *)

Section Eviction.

Lemma write_at_read (f data : list byte) (pos : nat) :
  take (length data) (drop pos (Filesystem.write_at f pos data)) = data.
Proof.
  unfold Filesystem.write_at.
  assert (Hlen : length (take pos f ++ repeat x00 (pos - length f)) = pos).
  { rewrite length_app, length_take, repeat_length. lia. }
  rewrite app_assoc, drop_app_length'; [|by rewrite Hlen].
  by rewrite take_app_length.
Qed.

Lemma pins_dd_get (p : PageId.t) (m : gmap PageId.t Z) :
  PageDirectory.dd_get p m
  = (default 0 (m !! p),
     match m !! p with Some _ => m | None => <[p := 0]> m end).
Proof. unfold PageDirectory.dd_get. by destruct (m !! p). Qed.


(** [evict_page] on a page whose pin count is not zero raises and
    changes nothing. *)
Lemma evict_page_pinned (p : PageId.t) (b : Bufferpool.t) (n : Z) :
  Bufferpool._pins b !! p = Some n -> n <> 0 ->
  Bufferpool.evict_page p b = (Py.Raise Py.ValueError, b).
Proof.
  intros Hp Hn. unfold Bufferpool.evict_page, St.bind, Bufferpool.read_pins.
  rewrite pins_dd_get, Hp. simpl.
  destruct (Z.eqb_spec n 0); [done|]. simpl. by destruct b.
Qed.





Lemma lookup_frame_app (p : PageId.t) (fr more : list (PageId.t * list byte))
    (data : list byte) :
  Bufferpool.lookup_frame p fr = Some data ->
  Bufferpool.lookup_frame p (fr ++ more) = Some data.
Proof.
  induction fr as [|[q d] fr IH]; [done|]. simpl.
  case_bool_decide; [done|apply IH].
Qed.

(** The calls that do not evict keep every resident frame. *)
Lemma lookup_add_frames (p : PageId.t) (ids : list PageId.t)
    (pages : list (list byte)) (frames : list (PageId.t * list byte))
    (data : list byte) :
  Bufferpool.lookup_frame p frames = Some data ->
  Bufferpool.lookup_frame p (Bufferpool.add_frames ids pages frames)
  = Some data.
Proof.
  revert pages frames. induction ids as [|i ids IH]; intros pages frames H;
    [by destruct pages|].
  destruct pages as [|pg pages]; [done|]. simpl.
  destruct (Bufferpool.lookup_frame i frames) eqn:Ei; [by apply IH|].
  apply IH. by apply lookup_frame_app.
Qed.

Lemma fetch_keeps (start : PageId.t) (count : Z) (b b' : Bufferpool.t)
    (r : Py.res unit) (p : PageId.t) (data : list byte) :
  Bufferpool.fetch start count b = (r, b') ->
  Bufferpool.lookup_frame p (Bufferpool._frames b) = Some data ->
  Bufferpool.lookup_frame p (Bufferpool._frames b') = Some data.
Proof.
  unfold Bufferpool.fetch, St.bind, St.get, St.ret, St.lift, Bufferpool.modify.
  intros H Hl.
  destruct (_ || _); [by injection H as <- <-|].
  destruct (forallb _ _); [by injection H as <- <-|].
  destruct (Filesystem.read_pages _ _ _); injection H as <- <-; [|done].
  simpl. by apply lookup_add_frames.
Qed.

Lemma unpin_keeps (q : PageId.t) (b : Bufferpool.t) :
  Bufferpool._frames (Bufferpool.unpin q b).2 = Bufferpool._frames b
  /\ Bufferpool.files (Bufferpool.unpin q b).2 = Bufferpool.files b.
Proof.
  unfold Bufferpool.unpin, St.bind, Bufferpool.read_pins, Bufferpool.modify.
  by rewrite pins_dd_get.
Qed.

Lemma mark_dirty_keeps (q : PageId.t) (b : Bufferpool.t) :
  Bufferpool._frames (Bufferpool.mark_dirty q b).2 = Bufferpool._frames b.
Proof. reflexivity. Qed.


End Eviction.


(** ** Integers and bytes *)

Section Bytes.

Lemma Z_of_byte_range (b : byte) : 0 <= Py.Z_of_byte b < 256.
Proof.
  unfold Py.Z_of_byte. pose proof (Byte.to_N_bounded b). lia.
Qed.

Lemma Z_of_byte_of_Z (z : Z) : Py.Z_of_byte (Py.byte_of_Z z) = z mod 256.
Proof.
  unfold Py.Z_of_byte, Py.byte_of_Z.
  pose proof (Z.mod_pos_bound z 256 ltac:(lia)) as Hr.
  destruct (Byte.of_N (Z.to_N (z mod 256))) as [b|] eqn:E.
  - apply Byte.to_of_N in E. rewrite E. lia.
  - apply Byte.of_N_None_iff in E. lia.
Qed.

Lemma byte_of_Z_of_byte (b : byte) : Py.byte_of_Z (Py.Z_of_byte b) = b.
Proof.
  unfold Py.byte_of_Z. pose proof (Z_of_byte_range b) as Hr.
  rewrite Z.mod_small by lia. unfold Py.Z_of_byte. rewrite N2Z.id.
  by rewrite Byte.of_to_N.
Qed.

Lemma length_le_bytes (n : nat) (z : Z) : length (Py.le_bytes n z) = n.
Proof. revert z. induction n; intros z; simpl; [done|]. by rewrite IHn. Qed.

Lemma le_value_le_bytes (n : nat) (z : Z) :
  Py.le_value (Py.le_bytes n z) = z mod 2 ^ Py.bits_of n.
Proof.
  revert z. unfold Py.bits_of. induction n as [|n IH]; intros z.
  - simpl. by rewrite Z.mod_1_r.
  - cbn [Py.le_bytes Py.le_value]. rewrite IH, Z_of_byte_of_Z.
    replace (8 * Z.of_nat (S n)) with (8 + 8 * Z.of_nat n) by lia.
    rewrite Z.pow_add_r by lia.
    change (2 ^ 8) with 256.
    rewrite Z.rem_mul_r by lia. reflexivity.
Qed.

Lemma le_value_range (bs : list byte) :
  0 <= Py.le_value bs < 2 ^ Py.bits_of (length bs).
Proof.
  unfold Py.bits_of. induction bs as [|b bs IH].
  - simpl. lia.
  - cbn [Py.le_value length].
    replace (8 * Z.of_nat (S (length bs))) with (8 + 8 * Z.of_nat (length bs))
      by lia.
    rewrite Z.pow_add_r by lia. change (2 ^ 8) with 256.
    pose proof (Z_of_byte_range b). nia.
Qed.

Lemma order_length {A} (e : Py.endian) (l : list A) :
  length (Py.order e l) = length l.
Proof. destruct e; simpl; [done|apply length_rev]. Qed.

Lemma order_order {A} (e : Py.endian) (l : list A) :
  Py.order e (Py.order e l) = l.
Proof. destruct e; simpl; [done|apply rev_involutive]. Qed.

Lemma to_bytes_length (v : Z) (n : nat) (e : Py.endian) (signed : bool)
    (b : list byte) :
  Py.to_bytes v n e signed = Py.Ok b -> length b = n.
Proof.
  unfold Py.to_bytes. repeat case_match; intros [= <-];
    by rewrite order_length, length_le_bytes.
Qed.

(** [int.from_bytes(v.to_bytes(n, e, signed), e, signed) == v] *)
Lemma from_bytes_to_bytes (v : Z) (n : nat) (e : Py.endian) (signed : bool)
    (b : list byte) :
  Py.to_bytes v n e signed = Py.Ok b -> Py.from_bytes b e signed = v.
Proof.
  intros H. pose proof (to_bytes_length _ _ _ _ _ H) as Hlen.
  unfold Py.from_bytes. rewrite Hlen.
  destruct (decide (n = 0%nat)) as [->|Hn].
  { destruct b; [|done]. unfold Py.to_bytes, Py.bits_of in H.
    change (8 * Z.of_nat 0 - 1) with (-1) in H.
    change (8 * Z.of_nat 0) with 0 in H.
    change (2 ^ (-1)) with 0 in H. change (2 ^ 0) with 1 in H.
    destruct signed.
    - destruct (Z.leb_spec (- 0) v), (Z.ltb_spec v 0); simpl in H; try done; lia.
    - destruct (Z.leb_spec 0 v), (Z.ltb_spec v 1); simpl in H; try done; lia. }
  assert (Hb : match b with [] => False | _ => True end).
  { destruct b; [simpl in Hlen; lia|done]. }
  assert (Hpow : 2 ^ Py.bits_of n = 2 * 2 ^ (Py.bits_of n - 1)).
  { unfold Py.bits_of. rewrite <- Z.pow_succ_r by lia. f_equal. lia. }
  assert (Hpos : 0 < 2 ^ (Py.bits_of n - 1)).
  { apply Z.pow_pos_nonneg; unfold Py.bits_of; lia. }
  unfold Py.to_bytes in H. destruct signed.
  - destruct (Z.leb_spec (- 2 ^ (Py.bits_of n - 1)) v) as [Hlo|]; [|done].
    destruct (Z.ltb_spec v (2 ^ (Py.bits_of n - 1))) as [Hhi|]; [|done].
    cbn [andb] in H. injection H as <-.
    rewrite order_order, le_value_le_bytes, Z.mod_mod by lia.
    destruct (Py.order e _); [done|]. cbn [andb].
    destruct (Z.leb_spec (2 ^ (Py.bits_of n - 1))
                (v mod 2 ^ Py.bits_of n)) as [Hs|Hs].
    + destruct (Z.lt_ge_cases v 0).
      * rewrite <- (Z.mod_add v 1) by lia. rewrite Z.mod_small; lia.
      * rewrite Z.mod_small in Hs by lia. lia.
    + destruct (Z.lt_ge_cases v 0).
      * rewrite <- (Z.mod_add v 1) in Hs by lia.
        rewrite Z.mod_small in Hs; lia.
      * rewrite Z.mod_small; lia.
  - destruct (Z.leb_spec 0 v) as [Hlo|]; [|done].
    destruct (Z.ltb_spec v (2 ^ Py.bits_of n)) as [Hhi|]; [|done].
    cbn [andb] in H. injection H as <-.
    rewrite order_order, le_value_le_bytes, Z.mod_small by lia.
    by destruct (Py.order e _).
Qed.

End Bytes.

(** ** The write-ahead log: what is parsed back *)

(** Step through [x <- m ;; k] in a hypothesis that says the whole
    returned: [m] returned too. *)
Ltac bind_ok H x E :=
  match type of H with
  | context [Py.bind ?m _] =>
      destruct m as [x|] eqn:E; [|discriminate H]; cbn [Py.bind] in H
  end.

Section WalRoundTrip.
Import Py.

Lemma parse_int_app (v : Z) (n : nat) (signed : bool) (b rest : list byte) :
  to_bytes v n Little signed = Ok b ->
  WriteAheadLogParser.parse_int n signed (b ++ rest) = Ok (v, rest).
Proof.
  intros H. unfold WriteAheadLogParser.parse_int, WriteAheadLogParser.read.
  simpl. pose proof (to_bytes_length _ _ _ _ _ H) as Hl.
  rewrite take_app_length', drop_app_length' by done.
  by rewrite (from_bytes_to_bytes _ _ _ _ _ H).
Qed.

Lemma byte_of_ascii (c : Z) : 0 <= c < 128 -> Z_of_byte (byte_of_Z c) = c.
Proof. intros H. rewrite Z_of_byte_of_Z, Z.mod_small; lia. Qed.

Lemma encode_ascii (s : str) :
  Logged.ascii s -> encode s = Ok (map byte_of_Z s).
Proof.
  induction 1 as [|c s Hc _ IH]; [done|]. simpl. rewrite IH.
  unfold utf8_encode_cp.
  destruct (Z.ltb_spec c 0); [lia|]. destruct (Z.ltb_spec c 128); [|lia].
  reflexivity.
Qed.

Lemma decode_ascii (s : str) :
  Logged.ascii s -> decode (map byte_of_Z s) = Ok s.
Proof.
  induction 1 as [|c s Hc _ IH]; [done|]. cbn [map decode].
  rewrite byte_of_ascii by done.
  destruct (Z.ltb_spec c 128); [|lia]. by rewrite IH.
Qed.

Lemma parse_str_app (s : str) (b rest : list byte) :
  Logged.ascii s ->
  TransactionSerializer.serialize_str s = Ok b ->
  WriteAheadLogParser.parse_str (b ++ rest) = Ok (s, rest).
Proof.
  intros Ha H. unfold TransactionSerializer.serialize_str in H.
  destruct (_ <? _); [done|].
  destruct (TransactionSerializer.serialize_uint _ _) as [n|] eqn:En; [|done].
  cbn [bind] in H. rewrite (encode_ascii _ Ha) in H. injection H as <-.
  unfold WriteAheadLogParser.parse_str, WriteAheadLogParser.parse_uint.
  rewrite <- app_assoc, (parse_int_app _ _ _ _ _ En). cbn [bind].
  unfold WriteAheadLogParser.read. cbn [bind]. rewrite Nat2Z.id.
  rewrite take_app_length', drop_app_length' by by rewrite length_map.
  by rewrite (decode_ascii _ Ha).
Qed.

Lemma parse_cols_app (cols : list (option Z)) (b rest : list byte) :
  TransactionSerializer.serialize_args cols = Ok b ->
  exists vs,
    cols = map Some vs
    /\ WriteAheadLogParser.parse_cols (length cols) (b ++ rest) = Ok (vs, rest).
Proof.
  revert b. induction cols as [|c cols IH]; intros b H.
  - injection H as <-. by exists [].
  - cbn [TransactionSerializer.serialize_args] in H.
    bind_ok H bv Ev. bind_ok H br Er. injection H as <-.
    destruct c as [v|]; [|done]. cbn [TransactionSerializer.serialize_arg] in Ev.
    destruct (IH _ eq_refl) as (vs & -> & Hp). exists (v :: vs).
    split; [done|]. cbn [length WriteAheadLogParser.parse_cols].
    rewrite <- app_assoc, (parse_int_app _ _ _ _ _ Ev).
    cbn [bind]. rewrite Hp. reflexivity.
Qed.

Lemma parse_flags_app (cols : list (option Z)) (b rest : list byte) :
  TransactionSerializer.serialize_present cols = Ok b ->
  WriteAheadLogParser.parse_flags
    (map (fun col : option Z => match col with None => false | Some _ => true end)
       cols) (b ++ rest)
  = Ok (cols, rest).
Proof.
  revert b. induction cols as [|c cols IH]; intros b H.
  - by injection H as <-.
  - destruct c as [v|]; cbn [TransactionSerializer.serialize_present] in H;
      cbn [map WriteAheadLogParser.parse_flags].
    + bind_ok H bv Ev. bind_ok H br Er. injection H as <-.
      rewrite <- app_assoc, (parse_int_app _ _ _ _ _ Ev). cbn [bind].
      by rewrite (IH _ eq_refl).
    + by rewrite (IH _ H).
Qed.

Lemma unpack_pack (e : endian) (l : list bool) :
  (length l <= 8)%nat ->
  unpack e (byte_of_Z (pack e 0 l)) = l ++ repeat false (8 - length l).
Proof.
  intros H.
  let rec go n :=
    lazymatch n with
    | O => simpl in H; lia
    | S ?m =>
        destruct l as [|[] l];
        [by destruct e; vm_compute | go m | go m]
    end in
  go 9%nat.
Qed.

Lemma frombytes_tobytes_aux (e : endian) (n : nat) (bits : list bool) :
  (length bits <= 8 * n)%nat ->
  frombytes e (tobytes_aux e n bits)
  = bits ++ repeat false (8 * n - length bits).
Proof.
  revert bits. induction n as [|n IH]; intros bits H.
  - destruct bits; [done|simpl in H; lia].
  - cbn [tobytes_aux]. unfold frombytes. cbn [flat_map].
    fold (frombytes e (tobytes_aux e n (drop 8 bits))).
    rewrite IH by (rewrite length_drop; lia).
    rewrite unpack_pack by (rewrite length_take; lia).
    rewrite length_take, length_drop.
    destruct (Nat.le_gt_cases (length bits) 8) as [Hs|Hs].
    + rewrite take_ge, drop_ge by lia. cbn [length].
      rewrite app_nil_l, <- app_assoc, <- repeat_app. do 2 f_equal. lia.
    + rewrite <- app_assoc.
      replace (8 - 8 `min` length bits)%nat with 0%nat by lia.
      cbn [repeat]. rewrite app_nil_l, app_assoc, take_drop.
      do 2 f_equal. lia.
Qed.

(** [bitarray.frombytes(ba.tobytes())[:len(ba)] == ba] *)
Lemma frombytes_tobytes (e : endian) (ba : bitarray) :
  take (length ba) (frombytes e (tobytes e ba)) = ba.
Proof.
  unfold tobytes. rewrite frombytes_tobytes_aux.
  - by rewrite take_app_length.
  - pose proof (Nat.div_mod (length ba + 7) 8 ltac:(lia)).
    pose proof (Nat.mod_upper_bound (length ba + 7) 8 ltac:(lia)). lia.
Qed.

Lemma length_tobytes (e : endian) (ba : bitarray) :
  length (tobytes e ba) = Z.to_nat ((Z.of_nat (length ba) + 7) / 8).
Proof.
  unfold tobytes.
  assert (forall n bits, length (tobytes_aux e n bits) = n) as ->.
  { induction n; intros; simpl; [done|]. by rewrite IHn. }
  change 7 with (Z.of_nat 7). change 8 with (Z.of_nat 8).
  rewrite <- Nat2Z.inj_add, <- Nat2Z.inj_div. by rewrite Nat2Z.id.
Qed.

Lemma getitem_0 {A} (a : A) (l : list A) : getitem (a :: l) 0 = Ok a.
Proof. reflexivity. Qed.

Lemma getitem_1 {A} (a b : A) (l : list A) : getitem (a :: b :: l) 1 = Ok b.
Proof. reflexivity. Qed.

Lemma parse_query_app (q : StoredQuery) (b rest : list byte) :
  Logged.ascii (sq_table q) -> Logged.well_formed q ->
  TransactionSerializer._serialize_query q = Ok b ->
  exists r,
    WriteAheadLogParser._parse_query (b ++ rest) = Ok (r, rest)
    /\ RedoQuery.to_stored_query r = Ok q.
Proof.
  intros Ha Hw H. destruct q as [ty name args]. cbn [sq_table] in Ha.
  unfold Logged.well_formed in Hw. cbn [sq_type sq_args] in Hw.
  unfold TransactionSerializer._serialize_query in H.
  cbn [sq_type sq_table sq_args] in H.
  assert (Hro : QueryType.is_readonly ty = false) by by destruct ty.
  rewrite Hro in H.
  bind_ok H bt Et. bind_ok H bs Es. bind_ok H body Eb. injection H as <-.
  unfold WriteAheadLogParser._parse_query, WriteAheadLogParser.parse_query_type,
    WriteAheadLogParser.parse_uint.
  rewrite <- !app_assoc, (parse_int_app _ _ _ _ _ Et). cbn [bind].
  assert (QueryType.of_int (QueryType.value ty) = Ok ty) as -> by by destruct ty.
  cbn [bind]. rewrite (parse_str_app _ _ _ Ha Es). cbn [bind].
  unfold RedoQuery.new. rewrite Hro. cbn [bind RedoQuery.query_type].
  destruct ty; try done.
  - (* INSERT *)
    unfold TransactionSerializer._serialize_insert in Eb.
    bind_ok Eb bn En. bind_ok Eb bc Ec. injection Eb as <-.
    destruct (parse_cols_app _ _ rest Ec) as (vs & -> & Hp).
    unfold WriteAheadLogParser._parse_insert, WriteAheadLogParser.parse_uint.
    rewrite <- app_assoc, (parse_int_app _ _ _ _ _ En). cbn [bind].
    rewrite Nat2Z.id, Hp. cbn [bind]. eexists. split; [reflexivity|].
    reflexivity.
  - (* UPDATE *)
    unfold TransactionSerializer._serialize_update in Eb.
    bind_ok Eb k Ek. bind_ok Eb bk Ebk. bind_ok Eb bn En. bind_ok Eb bv Ev.
    injection Eb as <-.
    destruct args as [|a args]; [done|].
    rewrite getitem_0 in Ek. injection Ek as ->.
    destruct k as [k|]; [|done].
    cbn [TransactionSerializer.serialize_arg] in Ebk. cbn [drop] in *.
    unfold WriteAheadLogParser._parse_update, WriteAheadLogParser.parse_uint.
    rewrite <- !app_assoc, (parse_int_app _ _ _ _ _ Ebk). cbn [bind].
    rewrite (parse_int_app _ _ _ _ _ En). cbn [bind].
    unfold WriteAheadLogParser.read. cbn [bind].
    change (drop 0 args) with args in *.
    set (ba := map (fun col : option Z =>
                      match col with None => false | Some _ => true end) args)
      in *.
    assert (Hl : length args = length ba) by (unfold ba; by rewrite length_map).
    rewrite Hl, <- (length_tobytes Little ba).
    rewrite take_app_length, drop_app_length, Nat2Z.id, frombytes_tobytes.
    unfold ba. rewrite (parse_flags_app _ _ _ Ev). cbn [bind].
    eexists. split; reflexivity.
  - (* INCREMENT *)
    destruct args as [|a0 [|a1 [|? ?]]]; try done.
    unfold TransactionSerializer._serialize_increment in Eb.
    rewrite getitem_0, getitem_1 in Eb. cbn [bind] in Eb.
    bind_ok Eb bk Ek. bind_ok Eb bc Ec. injection Eb as <-.
    destruct a0 as [k|]; [|done]. destruct a1 as [c|]; [|done].
    cbn [TransactionSerializer.serialize_arg] in Ek.
    unfold WriteAheadLogParser._parse_increment, WriteAheadLogParser.parse_uint.
    rewrite <- app_assoc, (parse_int_app _ _ _ _ _ Ek). cbn [bind].
    rewrite (parse_int_app _ _ _ _ _ Ec). cbn [bind].
    eexists. split; reflexivity.
  - (* DELETE *)
    destruct args as [|a0 [|? ?]]; try done.
    unfold TransactionSerializer._serialize_delete in Eb.
    rewrite getitem_0 in Eb. cbn [bind] in Eb.
    destruct a0 as [k|]; [|done].
    cbn [TransactionSerializer.serialize_arg] in Eb.
    unfold WriteAheadLogParser._parse_delete.
    rewrite (parse_int_app _ _ _ _ _ Eb). cbn [bind].
    eexists. split; reflexivity.
Qed.

Lemma parse_queries_app (qs : list StoredQuery) (b rest : list byte) :
  Forall (fun q => Logged.ascii (sq_table q) /\ Logged.well_formed q) qs ->
  TransactionSerializer.serialize_queries qs = Ok b ->
  exists rs,
    WriteAheadLogParser.parse_queries (length qs) (b ++ rest) = Ok (rs, rest)
    /\ Logged.to_stored_queries rs = Ok qs.
Proof.
  intros Hall. revert b. induction Hall as [|q qs [Ha Hw] _ IH]; intros b H.
  - injection H as <-. by exists [].
  - cbn [TransactionSerializer.serialize_queries] in H.
    bind_ok H bq Ebq. bind_ok H br Er. injection H as <-.
    destruct (parse_query_app _ _ (br ++ rest) Ha Hw Ebq) as (r & Hr & Hs).
    destruct (IH _ eq_refl) as (rs & Hrs & Hss).
    exists (r :: rs). cbn [length WriteAheadLogParser.parse_queries].
    rewrite <- app_assoc, Hr. cbn [bind]. rewrite Hrs. cbn [bind].
    split; [done|]. cbn [Logged.to_stored_queries]. by rewrite Hs, Hss.
Qed.

Lemma parse_loop_nil (fuel : nat) :
  WriteAheadLogParser.parse_loop fuel [] = Some (Ok []).
Proof. by destruct fuel. Qed.

(** For table names of ASCII characters the log round-trips: the bytes
    of a serialized transaction parse back to one redo transaction with
    the same start time and the same queries in the same order. *)
Lemma wal_round_trip_ascii (start_time : Z) (queries : list StoredQuery)
    (b : list byte) :
  Forall (fun q => Logged.ascii (sq_table q) /\ Logged.well_formed q) queries ->
  TransactionSerializer.serialize start_time queries = Ok b ->
  exists x,
    WriteAheadLogParser.parse b = Some (Ok [x])
    /\ RedoTransaction.start_time x = start_time
    /\ Logged.to_stored_queries (RedoTransaction.queries x) = Ok queries.
Proof.
  intros Hall H. unfold TransactionSerializer.serialize in H.
  bind_ok H bt Et. bind_ok H bn En. bind_ok H bq Ebq. injection H as <-.
  destruct (parse_queries_app _ _ [] Hall Ebq) as (rs & Hrs & Hss).
  exists (RedoTransaction.mk start_time rs).
  split; [|done].
  unfold WriteAheadLogParser.parse.
  pose proof (to_bytes_length _ _ _ _ _ Et) as Hlt.
  destruct bt as [|b0 bt]; [done|].
  cbn [app length WriteAheadLogParser.parse_loop].
  change (b0 :: bt ++ bn ++ bq) with ((b0 :: bt) ++ bn ++ bq).
  unfold WriteAheadLogParser._parse_xact, WriteAheadLogParser.parse_uint.
  rewrite (parse_int_app _ _ _ _ _ Et). cbn [bind].
  rewrite (parse_int_app _ _ _ _ _ En). cbn [bind].
  rewrite Nat2Z.id. rewrite <- (app_nil_r bq), Hrs. cbn [bind].
  by rewrite parse_loop_nil.
Qed.

End WalRoundTrip.

(** C6, at a table whose name is not ASCII: [serialize] writes the
    number of characters of the name as its length, [parse] reads that
    many bytes of its UTF-8 encoding, and the redo transaction is never
    built. *)
Theorem wal_round_trip_non_ascii :
  exists b,
    TransactionSerializer.serialize 77 Logged.non_ascii = Py.Ok b
    /\ WriteAheadLogParser.parse b = Some (Py.Raise Py.UnicodeDecodeError).
Proof. eexists. split; vm_compute; reflexivity. Qed.

(** ** Pages: reading back what was written *)

Section PageBytes.
Import Py.

Lemma clip_in_range (len : nat) (i : Z) :
  0 <= i <= Z.of_nat len -> clip len i = Z.to_nat i.
Proof.
  intros H. unfold clip. destruct (Z.ltb_spec i 0); lia.
Qed.

Lemma length_set_slice {A} (l v : list A) (first : Z) :
  0 <= first -> first + Z.of_nat (length v) <= Z.of_nat (length l) ->
  length (set_slice l first (first + Z.of_nat (length v)) v) = length l.
Proof.
  intros H0 H1. unfold set_slice.
  rewrite !clip_in_range by lia.
  rewrite !length_app, length_take, length_drop. lia.
Qed.

Lemma slice_set_slice {A} (l v : list A) (first : Z) :
  0 <= first -> first + Z.of_nat (length v) <= Z.of_nat (length l) ->
  slice (set_slice l first (first + Z.of_nat (length v)) v) first
    (first + Z.of_nat (length v)) = v.
Proof.
  intros H0 H1. unfold slice.
  rewrite length_set_slice by lia. unfold set_slice.
  rewrite !clip_in_range by lia.
  rewrite drop_app_length' by (rewrite length_take; lia).
  replace (Z.to_nat (first + Z.of_nat (length v)) - Z.to_nat first)%nat
    with (length v) by lia.
  by rewrite take_app_length.
Qed.

(** The bytes of a slot. *)
Lemma write_bytes_read (col_size : Z) (data value data' : list byte)
    (offset : Z) :
  Page._write_bytes col_size data value offset = Ok data' ->
  0 <= offset -> 0 <= col_size ->
  (offset + 1) * col_size <= Z.of_nat (length data) ->
  length data' = length data
  /\ Page._read_bytes col_size data' offset = value.
Proof.
  unfold Page._write_bytes, Page._read_bytes, assert.
  destruct (Z.eqb_spec (Z.of_nat (length value)) col_size) as [<-|];
    [|done]. cbn [bind]. intros [= <-] H0 H1 H2.
  split.
  - apply length_set_slice; nia.
  - apply slice_set_slice; nia.
Qed.

Lemma page_init_ok (data d : list byte) :
  Page.init data = Ok d ->
  Z.of_nat (length d) = Config.PAGE_SIZE
  /\ (data <> [] -> d = data).
Proof.
  unfold Page.init, assert.
  match goal with |- context [?a =? ?b] =>
    destruct (Z.eqb_spec a b) as [Hl|]; [|done] end.
  cbn [bind]. intros [= <-]. split; [done|]. by destruct data.
Qed.

Lemma page_init_length (data : list byte) :
  Z.of_nat (length data) = Config.PAGE_SIZE -> Page.init data = Ok data.
Proof.
  intros H. unfold Page.init, assert.
  destruct data; [done|]. by rewrite H.
Qed.

(** Writing an integer to a data page and reading the slot back. *)
Lemma data_page_write_read (e : endian) (page page' : list byte) (value : val)
    (offset : Z) :
  DataPage.write e page value offset = Ok page' ->
  0 <= offset ->
  (offset + 1) * DataPage.col_size <= Z.of_nat (length page) ->
  length page' = length page
  /\ exists v, value = VInt v /\ DataPage.read e page' offset = v.
Proof.
  unfold DataPage.write, DataPage.read. intros H H0 H1.
  destruct value as [v| |]; try done. cbn [as_int bind] in H.
  destruct (to_bytes v Config.DATA_SIZE e true) as [b|] eqn:Eb; [|done].
  cbn [bind] in H.
  destruct (write_bytes_read _ _ _ _ _ H H0 ltac:(done) H1) as [Hl Hr].
  split; [done|]. exists v. split; [done|].
  rewrite Hr. by apply from_bytes_to_bytes in Eb.
Qed.

Lemma schema_page_write_read (e : endian) (num_columns : nat)
    (page page' : list byte) (value : val) (offset : Z) :
  SchemaEncodingPage.write e num_columns page value offset = Ok page' ->
  0 <= offset ->
  (offset + 1) * SchemaEncodingPage.get_col_size num_columns
  <= Z.of_nat (length page) ->
  length page' = length page
  /\ exists ba,
       value = VBits ba
       /\ Page._read_bytes (SchemaEncodingPage.get_col_size num_columns)
            page' offset
          = tobytes e ba.
Proof.
  unfold SchemaEncodingPage.write. intros H H0 H1.
  destruct value as [| |ba]; try done.
  assert (0 <= SchemaEncodingPage.get_col_size num_columns).
  { unfold SchemaEncodingPage.get_col_size. apply Z.div_pos; lia. }
  destruct (write_bytes_read _ _ _ _ _ H H0 ltac:(done) H1) as [Hl Hr].
  split; [done|]. by exists ba.
Qed.

End PageBytes.

(** ** Frame rules *)

Section FrameRules.
Context {S : Type}.

Lemma bind_Ok_inv {A B} (m : St.M S A) (k : A -> St.M S B) (s s' : S)
    (b : B) :
  St.bind m k s = (Py.Ok b, s') ->
  exists a s1, m s = (Py.Ok a, s1) /\ k a s1 = (Py.Ok b, s').
Proof.
  unfold St.bind. destruct (m s) as [[a|e] s1]; [|done]. by exists a, s1.
Qed.

Lemma bind_Ok {A B} (m : St.M S A) (k : A -> St.M S B) (s s1 : S) (a : A) :
  m s = (Py.Ok a, s1) -> St.bind m k s = k a s1.
Proof. unfold St.bind. by intros ->. Qed.

Lemma try_except_Ok {A} (m h : St.M S A) (s s1 : S) (a : A) :
  m s = (Py.Ok a, s1) -> St.try_except m h s = (Py.Ok a, s1).
Proof. unfold St.try_except. by intros ->. Qed.

Lemma preserves_ret {A} (P : S -> Prop) (a : A) :
  Frame.preserves P (St.ret a).
Proof. by intros s. Qed.

Lemma preserves_raise {A} (P : S -> Prop) (e : Py.exn) :
  Frame.preserves P (St.raise (A := A) e).
Proof. by intros s. Qed.

Lemma preserves_lift {A} (P : S -> Prop) (r : Py.res A) :
  Frame.preserves P (St.lift r).
Proof. by intros s. Qed.

Lemma preserves_get (P : S -> Prop) : Frame.preserves P St.get.
Proof. by intros s. Qed.

Lemma preserves_bind {A B} (P : S -> Prop) (m : St.M S A)
    (k : A -> St.M S B) :
  Frame.preserves P m -> (forall a, Frame.preserves P (k a)) ->
  Frame.preserves P (St.bind m k).
Proof.
  intros Hm Hk s Hs. unfold St.bind. specialize (Hm s Hs).
  destruct (m s) as [[a|e] s1]; [|done]. by apply Hk.
Qed.

Lemma preserves_for_each {A} (P : S -> Prop) (l : list A)
    (f : A -> St.M S unit) :
  (forall a, Frame.preserves P (f a)) ->
  Frame.preserves P (St.for_each l f).
Proof.
  intros Hf. induction l as [|a l IH]; simpl.
  - apply preserves_ret.
  - apply preserves_bind; [apply Hf|done].
Qed.

Lemma preserves_try_except {A} (P : S -> Prop) (m h : St.M S A) :
  Frame.preserves P m -> Frame.preserves P h ->
  Frame.preserves P (St.try_except m h).
Proof.
  intros Hm Hh s Hs. unfold St.try_except. specialize (Hm s Hs).
  destruct (m s) as [[a|e] s1]; [done|].
  destruct (Py.is_Exception e); [by apply Hh|done].
Qed.

Lemma preserves_zoom {T A} (P : S -> Prop) (Q : T -> Prop) (proj : S -> T)
    (inj : T -> S -> S) (m : St.M T A) :
  (forall s, P s -> Q (proj s)) ->
  (forall s t, P s -> Q t -> P (inj t s)) ->
  Frame.preserves Q m -> Frame.preserves P (St.zoom proj inj m).
Proof.
  intros H1 H2 Hm s Hs. unfold St.zoom.
  specialize (Hm (proj s) (H1 s Hs)).
  destruct (m (proj s)) as [r t]. by apply H2.
Qed.

Lemma keeps_preserves {A X} (f : S -> X) (m : St.M S A) :
  Frame.keeps f m <-> forall x, Frame.preserves (fun s => f s = x) m.
Proof.
  split.
  - intros H x s <-. apply H.
  - intros H s. by apply (H (f s)).
Qed.

Lemma keeps_eq {A X} (f : S -> X) (m : St.M S A) (s s' : S) (r : Py.res A) :
  Frame.keeps f m -> m s = (r, s') -> f s' = f s.
Proof. intros H E. specialize (H s). by rewrite E in H. Qed.

End FrameRules.

(** Splits a frame condition along the structure of the method. *)
Ltac frame_step :=
  lazymatch goal with
  | |- Frame.preserves _ (St.bind _ _) => apply preserves_bind; [|intros ?]
  | |- Frame.preserves _ (St.ret _) => apply preserves_ret
  | |- Frame.preserves _ (St.raise _) => apply preserves_raise
  | |- Frame.preserves _ (St.lift _) => apply preserves_lift
  | |- Frame.preserves _ St.get => apply preserves_get
  | |- Frame.preserves _ (St.try_except _ _) => apply preserves_try_except
  | |- Frame.preserves _ (St.for_each _ _) =>
      apply preserves_for_each; intros ?
  | |- Frame.preserves _ (if ?b then _ else _) => destruct b
  | |- Frame.preserves _ (match ?x with _ => _ end) => destruct x
  | |- Frame.preserves _ (let '(_, _) := ?x in _) => destruct x
  end.

Ltac frame := repeat frame_step.

Ltac frame_leaf :=
  let d := fresh "d" in
  let Hd := fresh "Hd" in
  intros d Hd;
  first
    [ exact Hd
    | progress unfold PageDirectory.read_con_bp_num_resolved,
        PageDirectory.read_con_tp_num_resolved,
        PageDirectory.read_con_bp_num_records,
        PageDirectory.read_con_tp_num_records,
        PageDirectory.read_num_records, PageDirectory.clear_merge_queue;
      try (destruct (PageDirectory.dd_get _ _)); exact Hd ].

Section DirectoryFrame.
Variable tbl : TableInfo.t.
Import PageDirectory.

(** The allocation of page space and the resolve counters leave the
    record locations, the TPS and the two RID counters alone. *)
Lemma set_num_records_of_keeps (page_id : PageId.t) (value : Z) :
  Frame.keeps Frame.located (set_num_records_of tbl page_id value).
Proof.
  apply keeps_preserves. intros x. unfold set_num_records_of.
  frame; frame_leaf.
Qed.

Lemma ensure_range_exists_keeps (range_id : Z) :
  Frame.keeps Frame.located (ensure_range_exists range_id).
Proof.
  apply keeps_preserves. intros x. unfold ensure_range_exists.
  frame; frame_leaf.
Qed.

Lemma get_range_bp_idx_keeps (range_id : Z) :
  Frame.keeps Frame.located (get_range_bp_idx tbl range_id).
Proof.
  apply keeps_preserves. intros x. unfold get_range_bp_idx.
  frame; frame_leaf.
Qed.

Lemma alloc_bp_loop_keeps (bps : list PageId.t) :
  Frame.keeps Frame.located (alloc_bp_loop tbl bps).
Proof.
  apply keeps_preserves. intros x.
  induction bps as [|bp bps IH]; simpl; frame; try frame_leaf.
  - by apply keeps_preserves, set_num_records_of_keeps.
  - done.
Qed.

Lemma get_tp_idx_keeps (bp_idx : Z) :
  Frame.keeps Frame.located (get_tp_idx tbl bp_idx).
Proof.
  apply keeps_preserves. intros x. unfold get_tp_idx.
  frame; frame_leaf.
Qed.

Lemma alloc_tp_loop_keeps (schema_encoding : Py.bitarray)
    (tps : list PageId.t) :
  Frame.keeps Frame.located (alloc_tp_loop tbl schema_encoding tps).
Proof.
  apply keeps_preserves. intros x.
  induction tps as [|tp tps IH]; simpl; frame; try frame_leaf; try done.
  all: by apply keeps_preserves, set_num_records_of_keeps.
Qed.

Lemma mark_resolved_keeps (rid : Z) :
  Frame.keeps Frame.located (mark_resolved tbl rid).
Proof.
  apply keeps_preserves. intros x. unfold mark_resolved.
  frame; frame_leaf.
Qed.

Lemma notify_resolve_keeps (rids : list Z) :
  Frame.keeps Frame.located (notify_resolve tbl rids).
Proof.
  apply keeps_preserves. intros x. unfold notify_resolve.
  frame. by apply keeps_preserves, mark_resolved_keeps.
Qed.

End DirectoryFrame.

(** ** Allocation of a base RID *)

Section BaseAllocation.
Variable tbl : TableInfo.t.
Import PageDirectory.

Import Wf.

Lemma ensure_range_exists_num_records (range_id : Z) :
  Frame.keeps _num_records (ensure_range_exists range_id).
Proof.
  apply keeps_preserves. intros x. unfold ensure_range_exists.
  frame; frame_leaf.
Qed.

Lemma get_range_bp_idx_num_records (range_id : Z) :
  Frame.keeps _num_records (get_range_bp_idx tbl range_id).
Proof.
  apply keeps_preserves. intros x. unfold get_range_bp_idx.
  frame; frame_leaf.
Qed.

Lemma read_num_records_Ok (bp : PageId.t) (d d' : PageDirectory.t) (n : Z) :
  read_num_records bp d = (Py.Ok n, d') ->
  counted d ->
  0 <= n /\ counted d' /\ Frame.located d' = Frame.located d.
Proof.
  unfold read_num_records, dd_get, counted. intros H Hd.
  destruct (_num_records d !! bp) as [v|] eqn:E; simplify_eq.
  - split; [by apply (Hd _ _ E)|]. by destruct d.
  - split; [done|]. split; [|done]. simpl. by apply map_Forall_insert_2.
Qed.

Lemma set_num_records_of_Ok (page_id : PageId.t) (value : Z)
    (d d' : PageDirectory.t) :
  set_num_records_of tbl page_id value d = (Py.Ok tt, d') ->
  value <= _con_page_max_recs tbl
  /\ _num_records d' = <[page_id := value]> (_num_records d).
Proof.
  unfold set_num_records_of. intros H.
  apply bind_Ok_inv in H as (? & d1 & E1 & H).
  unfold St.lift, Py.assert in E1.
  destruct (Z.leb_spec value (_con_page_max_recs tbl)); [|done].
  simplify_eq. split; [done|].
  apply bind_Ok_inv in H as (? & d2 & E2 & H).
  unfold modify in E2. simplify_eq.
  destruct (PageId.is_base page_id);
    apply bind_Ok_inv in H as (n & d3 & E3 & H);
    unfold read_con_bp_num_records, read_con_tp_num_records in E3;
    destruct (dd_get _ _) in E3; unfold modify in H; by simplify_eq.
Qed.

Lemma alloc_bp_loop_Ok (bps : list PageId.t) (d d' : PageDirectory.t)
    (locs : list PageLocation.t) :
  alloc_bp_loop tbl bps d = (Py.Ok locs, d') ->
  counted d ->
  counted d'
  /\ map PageLocation.id locs = bps
  /\ Forall (fun l => 0 <= PageLocation.offset l
                      /\ PageLocation.offset l + 1 <= _con_page_max_recs tbl)
       locs.
Proof.
  revert d locs. induction bps as [|bp bps IH]; simpl; intros d locs H Hd.
  - unfold St.ret in H. by simplify_eq.
  - apply bind_Ok_inv in H as (n & d1 & E1 & H).
    apply bind_Ok_inv in H as ([] & d2 & E2 & H).
    apply bind_Ok_inv in H as (rest & d3 & E3 & H).
    unfold St.ret in H. simplify_eq.
    destruct (read_num_records_Ok _ _ _ _ E1 Hd) as (Hn & Hd1 & _).
    destruct (set_num_records_of_Ok _ _ _ _ E2) as (Hmax & Hnr).
    assert (counted d2) as Hd2.
    { unfold counted. rewrite Hnr. apply map_Forall_insert_2; [lia|done]. }
    destruct (IH _ _ E3 Hd2) as (Hd3 & Hid & Hoff).
    split; [done|]. split.
    + simpl. f_equal; [by destruct bp|done].
    + constructor; [simpl; lia|done].
Qed.

(** What a successful [alloc_base_rid] returns and records. *)
Lemma alloc_base_rid_Ok (d d' : PageDirectory.t) (rid : Z)
    (locs : list PageLocation.t) :
  alloc_base_rid tbl d = (Py.Ok (rid, locs), d') ->
  counted d ->
  rid = _unused_base_rid d
  /\ _unused_base_rid d' = rid + 1
  /\ _unused_tail_rid d' = _unused_tail_rid d
  /\ _offsets d' = <[rid := locs]> (_offsets d)
  /\ _tps d' = <[rid := _tail_rid_begin + 1]> (_tps d)
  /\ counted d'
  /\ (exists bp_idx,
        map PageLocation.id locs
        = columns_of (PageId.mk (TableInfo.name tbl) 0 true bp_idx)
            (TableInfo.num_raw_cols tbl))
  /\ Forall (fun l => 0 <= PageLocation.offset l
                      /\ PageLocation.offset l + 1 <= _con_page_max_recs tbl)
       locs.
Proof.
  unfold alloc_base_rid, alloc_bp_space. intros H Hd.
  apply bind_Ok_inv in H as (? & d1 & E1 & H).
  unfold St.get in E1. simplify_eq.
  apply bind_Ok_inv in H as ([] & d2 & E2 & H).
  unfold modify in E2. simplify_eq.
  apply bind_Ok_inv in H as (range_id & d3 & E3 & H).
  unfold St.lift in E3. simplify_eq.
  apply bind_Ok_inv in H as ([] & d4 & E4 & H).
  apply bind_Ok_inv in H as (bp_idx & d5 & E5 & H).
  apply bind_Ok_inv in H as (offsets & d6 & E6 & H).
  apply bind_Ok_inv in H as ([] & d7 & E7 & H).
  apply bind_Ok_inv in H as ([] & d8 & E8 & H).
  unfold St.ret in H. unfold modify in E7, E8. simplify_eq.
  pose proof (keeps_eq _ _ _ _ _ (ensure_range_exists_keeps _) E4) as K4.
  pose proof (keeps_eq _ _ _ _ _ (get_range_bp_idx_keeps tbl _) E5) as K5.
  pose proof (keeps_eq _ _ _ _ _ (alloc_bp_loop_keeps tbl _) E6) as K6.
  rewrite K5, K4 in K6. unfold Frame.located in K6. simpl in K6.
  injection K6 as Ko Kt Kb Kl.
  assert (counted d5) as Hd5.
  { unfold counted.
    rewrite (keeps_eq _ _ _ _ _ (get_range_bp_idx_num_records _) E5).
    by rewrite (keeps_eq _ _ _ _ _ (ensure_range_exists_num_records _) E4). }
  destruct (alloc_bp_loop_Ok _ _ _ _ E6 Hd5) as (Hd6 & Hid & Hoff).
  simpl. rewrite Ko, Kt, Kb, Kl.
  repeat split; try done. by exists bp_idx.
Qed.

End BaseAllocation.

(** ** Writing a record to its pages and reading it back *)

Section RecordPages.
Variable tbl : TableInfo.t.
Import Py.

Lemma getitem_nat_inv {A} (l : list A) (n : nat) (a : A) :
  getitem l (Z.of_nat n) = Ok a -> l !! n = Some a.
Proof.
  destruct (l !! n) as [b|] eqn:E.
  - rewrite (getitem_nat _ _ _ E). by intros [= ->].
  - by rewrite (getitem_nat_None _ _ E).
Qed.

Lemma falsy_false (data : list byte) : Table.falsy data = false -> data <> [].
Proof. by destruct data. Qed.

Lemma length_falsy (data : list byte) :
  Z.of_nat (length data) = Config.PAGE_SIZE -> Table.falsy data = false.
Proof. by destruct data. Qed.

(** A slot within the capacity of a conceptual page lies within the
    page, in a data column and in the schema-encoding column. *)
Lemma slot_in_page (o : Z) :
  0 <= o -> o + 1 <= PageDirectory._con_page_max_recs tbl ->
  (o + 1) * DataPage.col_size <= Config.PAGE_SIZE
  /\ (o + 1) * SchemaEncodingPage.get_col_size (TableInfo.num_columns tbl)
     <= Config.PAGE_SIZE.
Proof.
  unfold PageDirectory._con_page_max_recs, PageDirectory._se_recs_per_page,
    PageDirectory._data_recs_per_page, SchemaEncodingPage.get_col_size,
    DataPage.col_size.
  intros Ho Hmax.
  set (cs := (Z.of_nat (TableInfo.num_columns tbl) + 7) / 8) in *.
  assert (1 <= cs) as Hcs.
  { assert (0 <= cs) by (unfold cs; apply Z.div_pos; lia).
    destruct (decide (cs = 0)) as [Hz|]; [|lia].
    rewrite Hz in Hmax. change (Config.PAGE_SIZE / 0) with 0 in Hmax. lia. }
  change (Config.PAGE_SIZE / Z.of_nat Config.DATA_SIZE) with 512 in Hmax.
  change (Z.of_nat Config.DATA_SIZE) with 8.
  change Config.PAGE_SIZE with 4096 in *.
  split; [lia|].
  assert (o + 1 <= 4096 / cs) as H1 by lia.
  pose proof (Z.mul_div_le 4096 cs ltac:(lia)). nia.
Qed.

(** [write_columns] on locations of distinct pages: it touches nothing
    but those pages, and every data column can be read back from its
    slot. *)
Lemma write_columns_Ok (schema_encoding : val) (raw_cols : list val)
    (page_indx : list PageLocation.t) (s s' : Table.t) :
  Table.write_columns tbl schema_encoding raw_cols page_indx s
  = (Ok true, s') ->
  NoDup (map PageLocation.id page_indx) ->
  Forall (fun l => 0 <= PageLocation.offset l
                   /\ PageLocation.offset l + 1
                      <= PageDirectory._con_page_max_recs tbl) page_indx ->
  Table.page_directory s' = Table.page_directory s
  /\ Table.index s' = Table.index s
  /\ Table.xact_tracker s' = Table.xact_tracker s
  /\ Table.wal s' = Table.wal s
  /\ (forall pid, pid ∉ map PageLocation.id page_indx ->
        Table.pages s' !! pid = Table.pages s !! pid)
  /\ Forall (Frame.written tbl schema_encoding raw_cols s') page_indx.
Proof.
  intros H. revert s H.
  induction page_indx as [|l rest IH]; intros s H Hnd Hoff.
  - simpl in H. unfold St.ret in H. simplify_eq. by repeat split.
  - simpl in H. apply bind_Ok_inv in H as (s0 & s1 & E0 & H).
    unfold St.get in E0. injection E0 as -> ->.
    destruct (Table.falsy (Table.frame (PageLocation.id l) s1)) eqn:Ef;
      [unfold St.ret in H; by simplify_eq|].
    apply bind_Ok_inv in H as (data' & s2 & E1 & H).
    unfold St.lift in E1. injection E1 as E1 <-.
    apply bind_Ok_inv in H as ([] & s3 & E2 & H).
    unfold St.put in E2. injection E2 as <-.
    apply NoDup_cons in Hnd as [Hl Hnd].
    apply Forall_cons in Hoff as [[Ho Hmax] Hoff].
    destruct (IH _ H Hnd Hoff) as (Hd & Hi & Hx & Hw & Hp & Hr).
    simpl in Hd, Hi, Hx, Hw.
    split; [done|]. split; [done|]. split; [done|]. split; [done|].
    split.
    { intros pid Hpid. simpl in Hpid. apply not_elem_of_cons in Hpid as [? ?].
      rewrite Hp by done. simpl. by rewrite lookup_insert_ne. }
    constructor; [|done]. unfold Frame.written.
    assert (Table.frame (PageLocation.id l) s' = data') as Hf.
    { unfold Table.frame. rewrite Hp by done. simpl.
      by rewrite lookup_insert_eq. }
    rewrite Hf.
    destruct (slot_in_page _ Ho Hmax) as [Hdata Hse].
    apply falsy_false in Ef.
    destruct (Table.is_schema_column l) eqn:Esc.
    + unfold SchemaEncodingPage.new in E1.
      destruct (Page.init (Table.frame (PageLocation.id l) s1))
        as [page|] eqn:Ep; [|done]. cbn [bind] in E1.
      destruct (page_init_ok _ _ Ep) as [Hlen _].
      apply schema_page_write_read in E1 as (Hl' & ba & -> & Hrd);
        [|done|lia].
      split; [lia|]. split; [done|]. intros _. by exists ba.
    + unfold DataPage.new in E1.
      destruct (Page.init (Table.frame (PageLocation.id l) s1))
        as [page|] eqn:Ep; [|done]. cbn [bind] in E1.
      destruct (page_init_ok _ _ Ep) as [Hlen _].
      destruct (getitem raw_cols _) as [v|] eqn:Ev; [|done].
      cbn [bind] in E1. apply getitem_nat_inv in Ev.
      apply data_page_write_read in E1 as (Hl' & w & -> & Hrd); [|done|lia].
      split; [lia|]. split; [|done]. intros _. by exists w.
Qed.

Lemma read_raw_cols_written (schema_encoding : val) (raw_cols : list val)
    (locs : list PageLocation.t) (s : Table.t) :
  Forall (Frame.written tbl schema_encoding raw_cols s) locs ->
  exists vals,
    Table.read_raw_cols tbl locs s = Ok (Some vals)
    /\ Forall2 (fun l v =>
         if Table.is_schema_column l then exists b, v = VBits b
         else raw_cols !! PageLocation.raw_column_index l = Some v)
       locs vals.
Proof.
  induction 1 as [|l locs (Hlen & Hv & _) _ (vals & Hr & Hvals)]; simpl.
  - by exists [].
  - rewrite (length_falsy _ Hlen).
    unfold SchemaEncodingPage.new, DataPage.new.
    rewrite (page_init_length _ Hlen), Hr. cbn [bind].
    destruct (Table.is_schema_column l) eqn:Esc; cbn [bind fmap option_fmap
      option_map]; eexists; (split; [reflexivity|]); constructor; try done;
      rewrite Esc.
    + by eexists.
    + by destruct (Hv eq_refl) as (v & -> & ->).
Qed.

(** The values read back from the locations of the raw columns
    [0 .. n-1], in this order: the record that was written, but for the
    schema-encoding column. *)
Lemma read_back_columns (raw_cols vals : list val)
    (locs : list PageLocation.t) :
  Forall2 (fun l v =>
    if Table.is_schema_column l then exists b, v = VBits b
    else raw_cols !! PageLocation.raw_column_index l = Some v) locs vals ->
  map PageLocation.raw_column_index locs = seq 0 (length raw_cols) ->
  length vals = length raw_cols
  /\ (forall i, i <> Config.SCHEMA_ENCODING_COLUMN ->
        vals !! i = raw_cols !! i)
  /\ (forall v, vals !! Config.SCHEMA_ENCODING_COLUMN = Some v ->
        exists b, v = VBits b).
Proof.
  intros HF Hmap.
  assert (length locs = length raw_cols) as Hlen.
  { by rewrite <- (length_map PageLocation.raw_column_index), Hmap,
      length_seq. }
  assert (forall i l, locs !! i = Some l -> PageLocation.raw_column_index l = i)
    as Hcol.
  { intros i l Hl.
    assert (map PageLocation.raw_column_index locs !! i
            = Some (PageLocation.raw_column_index l)) as Hm
      by by rewrite list_lookup_fmap, Hl.
    rewrite Hmap in Hm. apply lookup_seq in Hm as [Hm _]. simpl in Hm. lia. }
  pose proof (Forall2_length _ _ _ HF) as Hlv.
  split; [lia|]. split.
  - intros i Hi. destruct (locs !! i) as [l|] eqn:El.
    + destruct (Forall2_lookup_l _ _ _ _ _ HF El) as (v & Ev & Hv).
      pose proof (Hcol _ _ El) as Hc. unfold Table.is_schema_column in Hv.
      rewrite Hc in Hv. destruct (Nat.eqb_spec i Config.SCHEMA_ENCODING_COLUMN);
        [done|]. by rewrite Ev, Hv.
    + apply lookup_ge_None in El.
      rewrite (proj2 (lookup_ge_None vals i)) by lia.
      by rewrite (proj2 (lookup_ge_None raw_cols i)) by lia.
  - intros v Ev.
    destruct (Forall2_lookup_r _ _ _ _ _ HF Ev) as (l & El & Hv).
    pose proof (Hcol _ _ El) as Hc. unfold Table.is_schema_column in Hv.
    by rewrite Hc in Hv.
Qed.

End RecordPages.

(** ** The steps of an insert after the record is written *)

Section InsertSteps.
Variable tbl : TableInfo.t.
Import Py.

Lemma pagedir_keeps {A} (m : St.M PageDirectory.t A) :
  Frame.keeps Frame.located m ->
  Frame.keeps Frame.stored (Table.pagedir m).
Proof.
  intros H s. unfold Table.pagedir, St.zoom. specialize (H (Table.page_directory s)).
  destruct (m (Table.page_directory s)) as [r d]. simpl in *.
  unfold Frame.stored. simpl. by rewrite H.
Qed.

Lemma tracker_keeps {A} (m : St.M (gmap Z bool) A) :
  Frame.keeps Frame.stored (Table.tracker m).
Proof.
  intros s. unfold Table.tracker, St.zoom.
  by destruct (m (Table.xact_tracker s)) as [r d].
Qed.

Lemma commit_keeps (x : Transaction.t) :
  Frame.keeps Frame.stored (Commit.commit tbl x).
Proof.
  apply keeps_preserves. intros y. unfold Commit.commit.
  frame.
  - apply keeps_preserves, tracker_keeps.
  - apply keeps_preserves, pagedir_keeps, notify_resolve_keeps.
Qed.

Lemma log_keeps (x : Transaction.t) :
  Frame.keeps Frame.stored (WriteAheadLog.log x).
Proof.
  apply keeps_preserves. intros y. unfold WriteAheadLog.log.
  frame. intros s Hs. exact Hs.
Qed.

Lemma sorted_set_add_nil (rid : Z) : SortedSet.add rid [] = [rid].
Proof. reflexivity. Qed.

Lemma ranged_index_add_fresh (value rid : Z) (ix ix' : RangedIndex.t) :
  RangedIndex.add value rid ix = Ok ix' ->
  RangedIndex.locate value ix = [] ->
  RangedIndex.locate value ix' = [rid].
Proof.
  unfold RangedIndex.add, RangedIndex.locate. intros H E.
  destruct (_ && _); [done|]. injection H as <-. simpl.
  by rewrite lookup_insert_eq, E.
Qed.

(** The loop that indexes the new record: only the indices of the
    listed columns change. *)
Lemma index_record_Ok (cols : list (nat * Z)) (base_rid : Z)
    (s s' : Table.t) :
  Query.index_record cols base_rid s = (Ok tt, s') ->
  Table.page_directory s' = Table.page_directory s
  /\ Table.pages s' = Table.pages s
  /\ (forall c, c ∉ map fst cols -> Table.index s' !! c = Table.index s !! c).
Proof.
  revert s. induction cols as [|[c v] cols IH]; intros s H.
  - simpl in H. unfold St.ret in H. by simplify_eq.
  - simpl in H. apply bind_Ok_inv in H as (s0 & s1 & E0 & H).
    unfold St.get in E0. injection E0 as -> ->.
    apply bind_Ok_inv in H as (ix & s2 & E1 & H).
    unfold St.lift in E1. injection E1 as E1 <-.
    apply bind_Ok_inv in H as ([] & s3 & E2 & H).
    destruct (IH _ H) as (Hd & Hp & Hi).
    assert (Table.page_directory s3 = Table.page_directory s1
            /\ Table.pages s3 = Table.pages s1
            /\ forall c', c' <> c ->
                 Table.index s3 !! c' = Table.index s1 !! c') as (Hd3 & Hp3 & Hi3).
    { destruct ix as [ix|].
      - apply bind_Ok_inv in E2 as (ix' & s4 & E3 & E2).
        unfold St.lift in E3. injection E3 as E3 <-.
        unfold St.put in E2. injection E2 as <-. simpl.
        split; [done|]. split; [done|]. intros c' Hc.
        by rewrite list_lookup_insert_ne.
      - unfold St.ret in E2. by simplify_eq. }
    rewrite Hd, Hp, Hd3, Hp3. split; [done|]. split; [done|].
    intros c' Hc. simpl in Hc. apply not_elem_of_cons in Hc as [? ?].
    rewrite Hi by done. by apply Hi3.
Qed.

Lemma index_record_key (cols : list (nat * Z)) (base_rid : Z)
    (s s' : Table.t) (key : nat) (k : Z) (ix : RangedIndex.t) :
  Query.index_record cols base_rid s = (Ok tt, s') ->
  NoDup (map fst cols) ->
  (key, k) ∈ cols ->
  Table.index s !! key = Some (Some ix) ->
  RangedIndex.locate k ix = [] ->
  exists ix',
    Table.index s' !! key = Some (Some ix')
    /\ RangedIndex.locate k ix' = [base_rid].
Proof.
  revert s. induction cols as [|[c v] cols IH]; intros s H Hnd Hin Hix Hk.
  - by apply elem_of_nil in Hin.
  - simpl in Hnd. apply NoDup_cons in Hnd as [Hc Hnd].
    simpl in H. apply bind_Ok_inv in H as (s0 & s1 & E0 & H).
    unfold St.get in E0. injection E0 as -> ->.
    apply bind_Ok_inv in H as (ix0 & s2 & E1 & H).
    unfold St.lift in E1. injection E1 as E1 <-.
    apply bind_Ok_inv in H as ([] & s3 & E2 & H).
    apply elem_of_cons in Hin as [Hin|Hin].
    + injection Hin as <- <-.
      apply getitem_nat_inv in E1. rewrite Hix in E1. injection E1 as <-.
      apply bind_Ok_inv in E2 as (ix' & s4 & E3 & E2).
      unfold St.lift in E3. injection E3 as E3 <-.
      unfold St.put in E2. injection E2 as <-.
      destruct (index_record_Ok _ _ _ _ H) as (_ & _ & Hi).
      exists ix'. rewrite Hi by done. simpl. split.
      * apply list_lookup_insert_eq. by apply lookup_lt_Some in Hix.
      * by apply (ranged_index_add_fresh _ _ _ _ E3).
    + assert (c <> key) as Hne.
      { intros ->. apply Hc. apply list_elem_of_fmap. by exists (key, k). }
      apply (IH s3 H Hnd Hin); [|done].
      destruct ix0 as [ix0|].
      * apply bind_Ok_inv in E2 as (ix' & s4 & E3 & E2).
        unfold St.lift in E3. injection E3 as E3 <-.
        unfold St.put in E2. injection E2 as <-. simpl.
        by rewrite list_lookup_insert_ne.
      * unfold St.ret in E2. by simplify_eq.
Qed.

Lemma enumerate_fst {A} (l : list A) :
  map fst (Query.enumerate l) = seq 0 (length l).
Proof.
  unfold Query.enumerate. apply fst_zip. by rewrite length_seq.
Qed.

Lemma enumerate_elem {A} (l : list A) (i : nat) (a : A) :
  l !! i = Some a -> (i, a) ∈ Query.enumerate l.
Proof.
  intros H. unfold Query.enumerate.
  apply (elem_of_lookup_zip_with_2 _ _ _ _ _ (i, a) i); [|done].
  apply lookup_seq. split; [done|]. by apply lookup_lt_Some in H.
Qed.

End InsertSteps.

(** ** Insert, then select *)

Section InsertSelect.
Variable tbl : TableInfo.t.
Import Py.

Lemma set_slice_tail {A} (l v : list A) (n : nat) :
  (n <= length l)%nat ->
  set_slice l (Z.of_nat n) (Z.of_nat (length l)) v = take n l ++ v.
Proof.
  intros H. unfold set_slice. rewrite !clip_in_range by lia.
  rewrite !Nat2Z.id. replace (n `max` length l)%nat with (length l) by lia.
  by rewrite drop_all, app_nil_r.
Qed.

(** The raw columns of the record that [__insert_impl] and
    [add_base_record] build. *)
Lemma inserted_raw_columns (key : nat) (ts rid : Z) (columns : list Z) :
  Record.raw_columns
    (Record.set_schema_encoding
       (Record.set_indirection
          (Record.set_rid
             (Record.set_base_rid
                (Record.set_columns
                   (Record.set_timestamp
                      (Record.set_schema_encoding
                         (Record.new key
                            (repeat (VInt 0)
                               (length columns + Config.NUM_META_COLS)))
                         (VBits (Table.zeros (length columns))))
                      (VInt ts))
                   (map VInt columns))
                (VInt rid))
             (VInt rid))
          VNone)
       (VBits (Table.zeros (length columns))))
  = [VInt 0; VInt rid; VInt ts; VBits (Table.zeros (length columns));
     VInt rid] ++ map VInt columns.
Proof.
  rewrite Nat.add_comm. unfold Record.new. cbn.
  rewrite app_nil_r. unfold Record.set_columns. cbn.
  match goal with |- context [set_slice ?l ?a ?b ?v] =>
    replace (set_slice l a b v) with (take 5 l ++ v)
      by (symmetry; apply (set_slice_tail l v 5); simpl; lia) end.
  reflexivity.
Qed.

Lemma columns_of_NoDup (start : PageId.t) (n : nat) :
  NoDup (columns_of start n).
Proof.
  unfold columns_of. apply (NoDup_fmap_2_strong _).
  - intros i j _ _ [= ->]. done.
  - apply NoDup_seq.
Qed.

Lemma columns_of_raw_column_index (start : PageId.t) (n : nat) :
  map PageId.raw_column_index (columns_of start n) = seq 0 n.
Proof. unfold columns_of. rewrite map_map. simpl. apply map_id. Qed.

Lemma read_raw_cols_pages (locs : list PageLocation.t) (s1 s2 : Table.t) :
  Table.pages s1 = Table.pages s2 ->
  Table.read_raw_cols tbl locs s1 = Table.read_raw_cols tbl locs s2.
Proof.
  intros H. induction locs as [|l locs IH]; [done|]. simpl.
  unfold Table.frame. by rewrite H, IH.
Qed.

(** [add_base_record]: the new RID is the counter's value, the record
    is located, and its raw columns read back as written, but for the
    schema-encoding column, which reads back as some bitarray. *)
Lemma add_base_record_Ok (rec : Record.t) (s s' : Table.t) (base_rid : Z) :
  Table.add_base_record tbl rec s = (Ok (Some base_rid), s') ->
  Wf.counted (Table.page_directory s) ->
  (0 < TableInfo.num_columns tbl)%nat ->
  length (Record.raw_columns rec) = TableInfo.num_raw_cols tbl ->
  let d := Table.page_directory s in
  let d' := Table.page_directory s' in
  let raw_cols :=
    Record.raw_columns
      (Record.set_schema_encoding
         (Record.set_indirection
            (Record.set_rid (Record.set_base_rid rec (VInt base_rid))
               (VInt base_rid)) VNone)
         (VBits (Table.zeros (TableInfo.num_columns tbl)))) in
  base_rid = PageDirectory._unused_base_rid d
  /\ PageDirectory._unused_base_rid d' = base_rid + 1
  /\ Table.index s' = Table.index s
  /\ exists locs vals,
       PageDirectory._offsets d' !! base_rid = Some locs
       /\ is_Some (PageDirectory._tps d' !! base_rid)
       /\ Table.read_raw_cols tbl locs s' = Ok (Some vals)
       /\ length vals = TableInfo.num_raw_cols tbl
       /\ (forall i, i <> Config.SCHEMA_ENCODING_COLUMN ->
             vals !! i = raw_cols !! i)
       /\ (forall v, vals !! Config.SCHEMA_ENCODING_COLUMN = Some v ->
             exists b, v = VBits b).
Proof.
  intros H Hc HK Hlen. unfold Table.add_base_record in H.
  apply bind_Ok_inv in H as ([rid locs] & s1 & E1 & H).
  unfold Table.pagedir, St.zoom in E1.
  destruct (PageDirectory.alloc_base_rid tbl (Table.page_directory s))
    as [r d1] eqn:Ea. injection E1 as -> <-.
  destruct (alloc_base_rid_Ok _ _ _ _ _ Ea Hc)
    as (Hrid & Hub & Hut & Hoff & Htps & Hc1 & [bp_idx Hids] & Hin).
  apply bind_Ok_inv in H as (ok & s2 & E2 & H).
  destruct ok; [|unfold St.ret in H; by simplify_eq].
  set (rec' := Record.set_schema_encoding _ _) in *.
  assert (length (Record.raw_columns rec') = TableInfo.num_raw_cols tbl)
    as Hlen'.
  { unfold rec'. simpl. by rewrite !length_insert. }
  assert (Record.base_rid rec' = VInt rid) as Hb.
  { unfold rec', Record.base_rid, Record.raw. simpl.
    rewrite nth_lookup.
    rewrite list_lookup_insert_ne, list_lookup_insert_ne,
      list_lookup_insert_ne by done.
    rewrite list_lookup_insert_eq; [done|].
    rewrite Hlen. unfold TableInfo.num_raw_cols. simpl.
    unfold Config.BASE_RID_COLUMN, Config.NUM_META_COLS. lia. }
  rewrite Hb in H. unfold St.ret in H. injection H as <- <-.
  apply write_columns_Ok in E2 as (Hd & Hi & _ & _ & _ & Hw); [| |done].
  2:{ rewrite Hids. apply columns_of_NoDup. }
  destruct (read_raw_cols_written tbl _ _ _ _ Hw) as (vals & Hr & HF).
  apply read_back_columns in HF as (Hlv & Hv & Hs).
  2:{ rewrite Hlen'.
      rewrite <- (columns_of_raw_column_index
                    (PageId.mk (TableInfo.name tbl) 0 true bp_idx)).
      rewrite <- Hids, map_map. reflexivity. }
  simpl. rewrite Hd. simpl. split; [done|]. split; [done|].
  split; [done|]. exists locs, vals. rewrite Hoff, Htps.
  rewrite !lookup_insert_eq. split; [done|]. split; [by eexists|].
  split; [done|]. split; [lia|]. done.
Qed.

(** The latest version of a base record that has no tail record yet is
    the base record. *)
Lemma get_latest_record_base (fuel : nat) (rid tps : Z)
    (locs : list PageLocation.t) (vals : list val) (s : Table.t) :
  PageDirectory.get_base_record_location rid (Table.page_directory s)
  = Ok (tps, locs) ->
  Table.read_raw_cols tbl locs s = Ok (Some vals) ->
  (Config.NUM_META_COLS <= length vals)%nat ->
  vals !! Config.INDIRECTION_COLUMN = Some (VInt 0) ->
  (exists b, vals !! Config.SCHEMA_ENCODING_COLUMN = Some (VBits b)) ->
  Table.get_latest_record fuel tbl rid s
  = Ok (Some (Record.mk (TableInfo.key tbl)
                (<[Config.BASE_RID_COLUMN := VInt rid]> vals) false)).
Proof.
  intros Hloc Hr Hlen H0 [b Hb].
  unfold Table.get_latest_record, Table.get_record_version,
    Table.get_base_record.
  change (0 <? 0) with false. cbn iota.
  rewrite Hloc. cbn [bind]. rewrite Hr. cbn [bind fmap option_fmap option_map].
  assert (Record.new (TableInfo.key tbl) vals
          = Record.mk (TableInfo.key tbl) vals false) as ->.
  { unfold Record.new.
    replace (Config.NUM_META_COLS - length vals)%nat with 0%nat by lia.
    simpl. rewrite app_nil_r.
    unfold Record.schema_encoding, Record.raw. simpl.
    by rewrite (nth_lookup_Some _ _ _ _ Hb). }
  unfold Record.set_base_rid, Record.set_raw. simpl.
  assert (Record.indirection
            (Record.mk (TableInfo.key tbl)
               (<[Config.BASE_RID_COLUMN := VInt rid]> vals) false) = VNone)
    as ->.
  { unfold Record.indirection, Record.raw. simpl.
    rewrite (nth_lookup_Some _ _ VNone (VInt 0)); [done|].
    by rewrite list_lookup_insert_ne. }
  reflexivity.
Qed.

Lemma project_all (cols : list val) :
  Record.project cols (repeat 1 (length cols)) = cols.
Proof. induction cols as [|c cols IH]; [done|]. simpl. by rewrite IH. Qed.

(** Projecting on the all-ones list keeps the data columns. *)
Lemma filter_columns_all (r : Record.t) :
  (Config.NUM_META_COLS <= length (Record.raw_columns r))%nat ->
  Record.columns
    (Record.filter_columns r (repeat 1 (length (Record.columns r))))
  = Record.columns r.
Proof.
  intros H. unfold Record.filter_columns. rewrite project_all.
  unfold Record.set_columns, Record.columns at 1. simpl.
  rewrite set_slice_tail by done.
  rewrite drop_app_length'; [done|]. rewrite length_take. lia.
Qed.

End InsertSelect.

Section RoundTrip.
Variable tbl : TableInfo.t.
Import Py.

Lemma length_set_raw (r : Record.t) (i : nat) (v : val) :
  length (Record.raw_columns (Record.set_raw r i v))
  = length (Record.raw_columns r).
Proof. unfold Record.set_raw. simpl. apply length_insert. Qed.

Lemma length_new (key : nat) (l : list val) :
  (Config.NUM_META_COLS <= length l)%nat ->
  length (Record.raw_columns (Record.new key l)) = length l.
Proof.
  intros H. unfold Record.new.
  replace (Config.NUM_META_COLS - length l)%nat with 0%nat by lia.
  simpl. rewrite app_nil_r. destruct (Record.schema_encoding _); try done.
  all: apply length_set_raw.
Qed.

Lemma length_set_columns (r : Record.t) (v : list val) :
  (Config.NUM_META_COLS <= length (Record.raw_columns r))%nat ->
  length (Record.raw_columns (Record.set_columns r v))
  = (Config.NUM_META_COLS + length v)%nat.
Proof.
  intros H. unfold Record.set_columns. simpl.
  rewrite set_slice_tail by done.
  rewrite length_app, length_take. unfold Config.NUM_META_COLS in *. lia.
Qed.

(** C1.  Insert/select round trip.  When [insert] of a row succeeds on
    a table whose directory has non-negative page counters and a base
    RID counter not below [BASE_RID_BEGIN], the row has a key value
    [k], and [select(k, key column, all ones)] on the state the insert
    leaves returns a list of exactly one record, whose data columns
    are the inserted row.  (A successful insert implies that the key
    was not present: see [insert_duplicate_key_rejected].) *)
Theorem insert_select_round_trip (now : Z) (columns : list Z)
    (xact xact' : option Transaction.t) (s s' : Table.t) :
  Query.insert tbl now columns xact s = (Ok (true, xact'), s') ->
  Wf.based (Table.page_directory s) ->
  Wf.counted (Table.page_directory s) ->
  exists k rec,
    columns !! TableInfo.key tbl = Some k
    /\ Record.columns rec = map VInt columns
    /\ forall fuel,
         Query.select fuel tbl k (Z.of_nat (TableInfo.key tbl))
           (Query.all_projected tbl) s'
         = Ok (Some [rec]).
Proof.
  intros H Hb Hc. unfold Query.insert, St.try_except in H.
  destruct (Query.insert_impl tbl now columns xact s) as [[r|e] s1] eqn:E.
  2:{ destruct (is_Exception e); unfold St.ret in H; by simplify_eq. }
  injection H as -> ->. unfold Query.insert_impl in E.
  destruct (Nat.eqb_spec (length columns) (TableInfo.num_columns tbl))
    as [HK|]; [|unfold St.ret in E; by simplify_eq]. cbn [negb] in E.
  apply bind_Ok_inv in E as (s0 & s1 & E0 & E).
  unfold St.get in E0. injection E0 as -> ->.
  apply bind_Ok_inv in E as (k & s2 & E1 & E).
  unfold St.lift in E1. injection E1 as E1 <-.
  apply getitem_nat_inv in E1.
  assert (0 < TableInfo.num_columns tbl)%nat as Hpos.
  { apply lookup_lt_Some in E1. lia. }
  apply bind_Ok_inv in E as (key_lookup & s2 & E2 & E).
  unfold St.lift in E2. injection E2 as E2 <-.
  destruct key_lookup as [|? ?]; [|unfold St.ret in E; by simplify_eq].
  cbn [length Nat.ltb Nat.leb] in E.
  apply bind_Ok_inv in E as (base_rid & s2 & E3 & E).
  destruct base_rid as [rid|]; [|unfold St.ret in E; by simplify_eq].
  apply add_base_record_Ok in E3
    as (Hrid & Hub & Hix & locs & vals & Hoff & Htps & Hr & Hlv & Hv & Hs);
    [|done|done|].
  2:{ unfold TableInfo.num_raw_cols.
      rewrite length_set_columns, length_map;
        [unfold Config.NUM_META_COLS; lia|].
      unfold Record.set_timestamp, Record.set_schema_encoding.
      rewrite !length_set_raw, length_new; rewrite repeat_length;
        unfold Config.NUM_META_COLS; lia. }
  unfold TableInfo.num_raw_cols in Hv. rewrite <- HK in Hv.
  rewrite inserted_raw_columns in Hv.
  apply bind_Ok_inv in E as (s3 & s4 & E4 & E).
  unfold St.get in E4. injection E4 as -> ->.
  apply bind_Ok_inv in E as (key_index & s5 & E5 & E).
  unfold St.lift in E5. injection E5 as E5 <-.
  destruct key_index as [ix|]; [|done].
  apply getitem_nat_inv in E5.
  apply bind_Ok_inv in E as ([] & s5 & E6 & E).
  unfold Index.locate in E2. rewrite <- Hix in E2.
  rewrite (getitem_nat _ _ _ E5) in E2. cbn [bind] in E2.
  injection E2 as E2.
  assert (NoDup (map fst (Query.enumerate columns))) as Hnd
    by (rewrite enumerate_fst; apply NoDup_seq).
  pose proof (enumerate_elem _ _ _ E1) as Hin.
  destruct (index_record_key _ _ _ _ _ _ _ E6 Hnd Hin E5 E2)
    as (ix' & Hix' & Hloc).
  destruct (index_record_Ok _ _ _ _ E6) as (Hd5 & Hp5 & _).
  assert (Frame.stored s' = Frame.stored s5) as Hst.
  { destruct xact as [x|].
    - unfold St.ret in E. by simplify_eq.
    - apply bind_Ok_inv in E as (? & s6 & E7 & E).
      apply bind_Ok_inv in E as ([] & s7 & E8 & E).
      unfold St.ret in E. injection E as _ <-.
      rewrite (keeps_eq _ _ _ _ _ (log_keeps _) E8).
      by rewrite (keeps_eq _ _ _ _ _ (commit_keeps tbl _) E7). }
  unfold Frame.stored, Frame.located in Hst.
  injection Hst as Ho Ht Hu _ Hp Hi.
  set (rec := Record.mk (TableInfo.key tbl)
                (<[Config.BASE_RID_COLUMN := VInt rid]> vals) false).
  assert (Record.columns rec = map VInt columns) as Hcols.
  { unfold rec, Record.columns. simpl.
    apply list_eq. intros i. rewrite !lookup_drop.
    rewrite list_lookup_insert_ne
      by (unfold Config.BASE_RID_COLUMN, Config.NUM_META_COLS; lia).
    rewrite Hv by (unfold Config.SCHEMA_ENCODING_COLUMN, Config.NUM_META_COLS;
                   lia).
    reflexivity. }
  exists k, (Record.filter_columns rec (Query.all_projected tbl)).
  split; [done|]. split.
  { unfold Query.all_projected. rewrite <- HK.
    rewrite <- (length_map VInt), <- Hcols.
    rewrite filter_columns_all; [done|].
    unfold rec. simpl. rewrite length_insert, Hlv.
    unfold TableInfo.num_raw_cols. lia. }
  intros fuel. unfold Query.select, Query.select_impl.
  rewrite Hi, (getitem_nat _ _ _ Hix'). cbn [bind].
  unfold Index.locate. rewrite (getitem_nat _ _ _ Hix'). cbn [bind].
  rewrite Hloc. cbn [Query.select_located].
  destruct Htps as [tps Htps].
  rewrite (get_latest_record_base tbl fuel rid tps locs vals).
  - reflexivity.
  - unfold PageDirectory.get_base_record_location.
    rewrite Hu, Hd5, Hub. unfold PageDirectory._base_rid_begin.
    unfold Wf.based in Hb. rewrite <- Hrid in Hb.
    destruct (Z.leb_spec Config.BASE_RID_BEGIN rid); [|lia].
    destruct (Z.ltb_spec rid (rid + 1)); [|lia]. cbn [andb negb].
    unfold PageDirectory.dict_get. rewrite Ht, Ho, Hd5, Hoff, Htps.
    reflexivity.
  - rewrite (read_raw_cols_pages _ _ _ s5) by done.
    by rewrite (read_raw_cols_pages _ _ _ s4) by done.
  - rewrite Hlv. unfold TableInfo.num_raw_cols. lia.
  - by rewrite Hv.
  - destruct (vals !! Config.SCHEMA_ENCODING_COLUMN) as [v|] eqn:Ev.
    + destruct (Hs v eq_refl) as [b ->]. by exists b.
    + apply lookup_ge_None in Ev. rewrite Hlv in Ev.
      unfold TableInfo.num_raw_cols, Config.SCHEMA_ENCODING_COLUMN,
        Config.NUM_META_COLS in Ev. lia.
Qed.

End RoundTrip.

Lemma insert_select_round_trip_witness :
  Query.insert Demo.tbl 111 [42; 1; 2; 3; 4] None (Table.new Demo.tbl)
  = (Py.Ok (true, None), Demo.s1)
  /\ Wf.based (Table.page_directory (Table.new Demo.tbl))
  /\ Wf.counted (Table.page_directory (Table.new Demo.tbl))
  /\ exists k rec,
       [42; 1; 2; 3; 4] !! TableInfo.key Demo.tbl = Some k
       /\ Record.columns rec = map Py.VInt [42; 1; 2; 3; 4]
       /\ forall fuel,
            Query.select fuel Demo.tbl k (Z.of_nat (TableInfo.key Demo.tbl))
              (Query.all_projected Demo.tbl) Demo.s1
            = Py.Ok (Some [rec]).
Proof.
  assert (H1 : Query.insert Demo.tbl 111 [42; 1; 2; 3; 4] None
                 (Table.new Demo.tbl)
               = (Py.Ok (true, None), Demo.s1)) by (vm_compute; reflexivity).
  assert (H2 : Wf.based (Table.page_directory (Table.new Demo.tbl)))
    by (unfold Wf.based; simpl; unfold Config.BASE_RID_BEGIN; lia).
  assert (H3 : Wf.counted (Table.page_directory (Table.new Demo.tbl)))
    by (unfold Wf.counted; simpl; apply map_Forall_empty).
  split; [exact H1 | split; [exact H2 | split; [exact H3 |]]].
  exact (insert_select_round_trip Demo.tbl 111 [42; 1; 2; 3; 4] None None
           (Table.new Demo.tbl) Demo.s1 H1 H2 H3).
Defined.

(** ** Allocation of a tail RID *)

Section TailAllocation.
Variable tbl : TableInfo.t.
Import PageDirectory.
Import Wf.

Lemma get_tp_idx_num_records (bp_idx : Z) :
  Frame.keeps _num_records (get_tp_idx tbl bp_idx).
Proof.
  apply keeps_preserves. intros x. unfold get_tp_idx.
  frame; frame_leaf.
Qed.

Lemma alloc_tp_loop_Ok (schema_encoding : Py.bitarray) (tps : list PageId.t)
    (d d' : PageDirectory.t) (locs : list PageLocation.t) :
  alloc_tp_loop tbl schema_encoding tps d = (Py.Ok locs, d') ->
  counted d ->
  counted d'
  /\ map PageLocation.id locs = List.filter (Encoding.kept schema_encoding) tps
  /\ Forall (fun l => 0 <= PageLocation.offset l
                      /\ PageLocation.offset l + 1 <= _con_page_max_recs tbl)
       locs.
Proof.
  revert d locs.
  induction tps as [|tp tps IH]; cbn [alloc_tp_loop List.filter];
    intros d locs H Hd.
  - unfold St.ret in H. by simplify_eq.
  - apply bind_Ok_inv in H as (skip & d0 & E0 & H).
    assert (d0 = d /\ skip = negb (Encoding.kept schema_encoding tp))
      as [-> ->].
    { unfold Encoding.kept.
      destruct (Nat.leb_spec Config.NUM_META_COLS (PageId.raw_column_index tp))
        as [Hle|Hlt].
      - apply bind_Ok_inv in E0 as (b & d1 & E1 & E0).
        unfold St.lift in E1. injection E1 as E1 <-.
        unfold St.ret in E0. injection E0 as <- <-. split; [done|].
        destruct (Nat.ltb_spec (PageId.raw_column_index tp)
                    Config.NUM_META_COLS); [lia|]. cbn [orb].
        replace (Z.of_nat (PageId.raw_column_index tp)
                 - Z.of_nat Config.NUM_META_COLS)
          with (Z.of_nat (PageId.raw_column_index tp - Config.NUM_META_COLS))
          in E1 by lia.
        apply getitem_nat_inv in E1.
        apply (f_equal (default false)) in E1. simpl in E1. by subst b.
      - unfold St.ret in E0. injection E0 as <- <-. split; [done|].
        by destruct (Nat.ltb_spec (PageId.raw_column_index tp)
                       Config.NUM_META_COLS); [|lia]. }
    destruct (Encoding.kept schema_encoding tp); cbn [negb] in H.
    + apply bind_Ok_inv in H as (n & d1 & E1 & H).
      apply bind_Ok_inv in H as ([] & d2 & E2 & H).
      apply bind_Ok_inv in H as (rest & d3 & E3 & H).
      unfold St.ret in H. simplify_eq.
      destruct (read_num_records_Ok _ _ _ _ E1 Hd) as (Hn & Hd1 & _).
      destruct (set_num_records_of_Ok _ _ _ _ _ E2) as (Hmax & Hnr).
      assert (counted d2) as Hd2.
      { unfold counted. rewrite Hnr. apply map_Forall_insert_2; [lia|done]. }
      destruct (IH _ _ E3 Hd2) as (Hd3 & Hid & Hoff).
      split; [done|]. split.
      * simpl. f_equal; [by destruct tp|done].
      * constructor; [simpl; lia|done].
    + exact (IH _ _ H Hd).
Qed.

(** What a successful [alloc_tail_rid] returns and records. *)
Lemma alloc_tail_rid_Ok (base_rid : Py.val) (schema_encoding : Py.bitarray)
    (d d' : PageDirectory.t) (rid : Z) (locs : list PageLocation.t) :
  alloc_tail_rid tbl base_rid schema_encoding d = (Py.Ok (rid, locs), d') ->
  counted d ->
  rid = _unused_tail_rid d
  /\ _unused_tail_rid d' = rid - 1
  /\ _unused_base_rid d' = _unused_base_rid d
  /\ _offsets d' = <[rid := locs]> (_offsets d)
  /\ _tps d' = _tps d
  /\ counted d'
  /\ (exists tp_idx,
        map PageLocation.id locs
        = List.filter (Encoding.kept schema_encoding)
            (columns_of (PageId.mk (TableInfo.name tbl) 0 false tp_idx)
               (TableInfo.num_raw_cols tbl)))
  /\ Forall (fun l => 0 <= PageLocation.offset l
                      /\ PageLocation.offset l + 1 <= _con_page_max_recs tbl)
       locs.
Proof.
  unfold alloc_tail_rid, alloc_tp_space. intros H Hd.
  apply bind_Ok_inv in H as (? & d1 & E1 & H).
  unfold St.get in E1. injection E1 as -> ->.
  apply bind_Ok_inv in H as ([] & d2 & E2 & H).
  unfold modify in E2. injection E2 as <-.
  apply bind_Ok_inv in H as (b & d3 & E3 & H).
  unfold St.lift in E3. injection E3 as E3 <-.
  apply bind_Ok_inv in H as (range_id & d3 & E4 & H).
  unfold St.lift in E4. injection E4 as E4 <-.
  apply bind_Ok_inv in H as ([] & d4 & E5 & H).
  apply bind_Ok_inv in H as (d5 & d6 & E6 & H).
  unfold St.get in E6. injection E6 as -> ->.
  apply bind_Ok_inv in H as (blocs & d7 & E7 & H).
  unfold St.lift in E7. injection E7 as E7 <-.
  apply bind_Ok_inv in H as (first & d7 & E8 & H).
  unfold St.lift in E8. injection E8 as E8 <-.
  apply bind_Ok_inv in H as (tp_idx & d7 & E9 & H).
  apply bind_Ok_inv in H as (offsets & d8 & E10 & H).
  apply bind_Ok_inv in H as ([] & d9 & E11 & H).
  unfold modify in E11. injection E11 as <-.
  unfold St.ret in H. injection H as <- <- <-.
  pose proof (keeps_eq _ _ _ _ _ (ensure_range_exists_keeps _) E5) as K5.
  pose proof (keeps_eq _ _ _ _ _ (get_tp_idx_keeps tbl _) E9) as K9.
  pose proof (keeps_eq _ _ _ _ _ (alloc_tp_loop_keeps tbl _ _) E10) as K10.
  rewrite K9, K5 in K10. unfold Frame.located in K10. simpl in K10.
  injection K10 as Ko Kt Kb Kl.
  assert (counted d7) as Hd7.
  { unfold counted.
    rewrite (keeps_eq _ _ _ _ _ (get_tp_idx_num_records _) E9).
    by rewrite (keeps_eq _ _ _ _ _ (ensure_range_exists_num_records _) E5). }
  destruct (alloc_tp_loop_Ok _ _ _ _ _ E10 Hd7) as (Hd8 & Hid & Hoff).
  simpl. rewrite Ko, Kt, Kb, Kl.
  repeat split; try done. by exists tp_idx.
Qed.

End TailAllocation.

(** ** The loop that encodes an update *)

Section EncodeUpdate.
Import Py.

Lemma setitem_nat {A} (l l' : list A) (n : nat) (v : A) :
  setitem l (Z.of_nat n) v = Ok l' -> l' = <[n := v]> l.
Proof.
  unfold setitem. destruct (Z.ltb_spec (Z.of_nat n) 0); [lia|].
  destruct (_ || _); [done|]. rewrite Nat2Z.id. by intros [= <-].
Qed.

(** Over the indices [a .. a+m-1]: one bit per index is appended, which
    is 1 exactly for a supplied (non-null) value, whatever the latest
    value is; a null value is replaced by the latest one where the base
    record's schema encoding has the bit set. *)
Lemma encode_update_Ok (m : nat) :
  forall (a : nat) (new_cols latest_cols : list val) (base_schema acc : bitarray)
         (schema_encoding : bitarray) (out : list val),
    Table.encode_update new_cols latest_cols base_schema (seq a m) acc
    = Ok (schema_encoding, out) ->
    length out = length new_cols
    /\ schema_encoding
       = acc ++ map (fun i => Encoding.supplied (default VNone (new_cols !! i)))
                  (seq a m)
    /\ (forall j, (j < a \/ a + m <= j)%nat -> out !! j = new_cols !! j)
    /\ (forall j, (a <= j < a + m)%nat -> is_Some (new_cols !! j))
    /\ (forall j new_j, (a <= j < a + m)%nat ->
          new_cols !! j = Some new_j ->
          out !! j
          = Some (if Encoding.supplied new_j then new_j
                  else if default false (base_schema !! j)
                       then default VNone (latest_cols !! j)
                       else new_j)).
Proof.
  induction m as [|m IH]; intros a new_cols latest_cols base_schema acc
    schema_encoding out H; unfold bitarray in *.
  - simpl in H. injection H as <- <-. simpl. rewrite app_nil_r.
    repeat split; try done; intros; lia.
  - cbn [seq Table.encode_update] in H.
    destruct (getitem new_cols (Z.of_nat a)) as [new_a|] eqn:Ea; [|done].
    cbn [bind] in H. apply getitem_nat_inv in Ea.
    assert (exists nc',
              Table.encode_update nc' latest_cols base_schema (seq (S a) m)
                (acc ++ [Encoding.supplied new_a])
              = Ok (schema_encoding, out)
              /\ nc' = (if Encoding.supplied new_a then new_cols
                        else if default false (base_schema !! a)
                             then <[a := default VNone (latest_cols !! a)]>
                                    new_cols
                             else new_cols)) as (nc' & H' & Hnc).
    { unfold Encoding.supplied.
      destruct (bool_decide (new_a = VNone)) eqn:En; cbn [negb] in H |- *.
      - destruct (getitem latest_cols (Z.of_nat a)) as [latest_a|] eqn:El;
          [|done]. cbn [bind] in H. rewrite andb_false_r in H.
        cbn iota in H.
        destruct (getitem base_schema (Z.of_nat a)) as [b|] eqn:Eb; [|done].
        cbn [bind] in H. apply getitem_nat_inv in Eb, El.
        rewrite Eb, El. cbn [default]. destruct b; cbn [andb] in H.
        + destruct (setitem new_cols (Z.of_nat a) latest_a) as [nc'|] eqn:Es;
            [|done]. cbn [bind] in H. apply setitem_nat in Es.
          exists nc'. by subst.
        + by exists new_cols.
      - cbn [bind andb] in H. by exists new_cols. }
    destruct (IH _ _ _ _ _ _ _ H') as (Hlen & Hsch & Hout & Hsome & Hin).
    assert (length nc' = length new_cols) as Hl'.
    { subst nc'. repeat case_match; by rewrite ?length_insert. }
    assert (forall j, j <> a -> nc' !! j = new_cols !! j) as Hne.
    { intros j Hj. subst nc'.
      repeat case_match; by rewrite ?list_lookup_insert_ne. }
    split; [lia|]. split.
    { rewrite Hsch, <- app_assoc. cbn [app map seq]. rewrite Ea.
      cbn [default].
      do 2 f_equal. apply map_ext_in. intros i Hi%in_seq.
      by rewrite Hne by lia. }
    split.
    { intros j Hj. rewrite Hout by lia. apply Hne. lia. }
    split.
    { intros j Hj. destruct (decide (j = a)) as [->|]; [by eexists|].
      rewrite <- Hne by done. apply Hsome. lia. }
    intros j new_j Hj Ej. destruct (decide (j = a)) as [->|Hja].
    + rewrite Hout by lia. rewrite Ea in Ej. injection Ej as <-.
      subst nc'. destruct (Encoding.supplied new_a); [done|].
      destruct (default false (base_schema !! a)); [|done].
      apply list_lookup_insert_eq. by apply lookup_lt_Some in Ea.
    + apply Hin; [lia|]. by rewrite Hne.
Qed.

End EncodeUpdate.

(** ** What an update leaves in the directory and in the base pages *)

Section UpdateFrame.
Variable tbl : TableInfo.t.
Import Py.

Lemma bind_inv {S A B} (m : St.M S A) (k : A -> St.M S B) (s s' : S)
    (r : res B) :
  St.bind m k s = (r, s') ->
  (exists e, m s = (Raise e, s') /\ r = Raise e)
  \/ (exists a s1, m s = (Ok a, s1) /\ k a s1 = (r, s')).
Proof.
  unfold St.bind. destruct (m s) as [[a|e] s1].
  - right. by exists a, s1.
  - intros [= <- <-]. left. by exists e.
Qed.

(** [write_columns] never touches the directory, and no page outside
    its locations, however it ends. *)
Lemma write_columns_frame (schema_encoding : val) (raw_cols : list val)
    (page_indx : list PageLocation.t) (s s' : Table.t) (r : res bool) :
  Table.write_columns tbl schema_encoding raw_cols page_indx s = (r, s') ->
  Table.page_directory s' = Table.page_directory s
  /\ (forall pid, pid ∉ map PageLocation.id page_indx ->
        Table.pages s' !! pid = Table.pages s !! pid).
Proof.
  revert s. induction page_indx as [|l rest IH]; intros s H.
  - simpl in H. unfold St.ret in H. by simplify_eq.
  - simpl in H. apply bind_inv in H as [(e & E & _)|(s0 & s1 & E0 & H)];
      [done|].
    unfold St.get in E0. injection E0 as -> ->.
    destruct (Table.falsy _); [unfold St.ret in H; by simplify_eq|].
    apply bind_inv in H as [(e & E & _)|(data' & s2 & E1 & H)].
    { unfold St.lift in E. by injection E as _ ->. }
    unfold St.lift in E1. injection E1 as E1 <-.
    apply bind_inv in H as [(e & E & _)|([] & s3 & E2 & H)]; [done|].
    unfold St.put in E2. injection E2 as <-.
    destruct (IH _ H) as [Hd Hp]. split; [done|].
    intros pid Hpid. simpl in Hpid. apply not_elem_of_cons in Hpid as [? ?].
    rewrite Hp by done. simpl. by rewrite lookup_insert_ne.
Qed.

(** [update_base_record] writes to pages of the base record only. *)
Lemma update_base_record_frame (base_rid : Z) (indirection : val)
    (schema_encoding : bitarray) (s s' : Table.t) (r : res bool) :
  Table.update_base_record tbl base_rid indirection schema_encoding s
  = (r, s') ->
  Wf.base_located (Table.page_directory s) ->
  Table.page_directory s' = Table.page_directory s
  /\ (forall pid, PageId.is_base pid = false ->
        Table.pages s' !! pid = Table.pages s !! pid).
Proof.
  unfold Table.update_base_record. intros H Hl.
  apply bind_inv in H as [(e & E & _)|(s0 & s1 & E0 & H)]; [done|].
  unfold St.get in E0. injection E0 as -> ->.
  apply bind_inv in H as [(e & E & _)|([tps locs] & s2 & E1 & H)].
  { unfold St.lift in E. by injection E as _ ->. }
  unfold St.lift in E1. injection E1 as E1 <-.
  assert (Forall (fun l => PageLocation.is_base l = true) locs) as Hlocs.
  { unfold PageDirectory.get_base_record_location in E1.
    destruct (negb _) eqn:En; [done|]. apply negb_false_iff in En.
    unfold PageDirectory.dict_get in E1.
    destruct (PageDirectory._tps _ !! base_rid); [|done]. cbn [bind] in E1.
    destruct (PageDirectory._offsets _ !! base_rid) as [locs'|] eqn:Eo;
      [|done]. cbn [bind] in E1. injection E1 as _ ->.
    exact (Hl _ _ Eo En). }
  apply bind_inv in H as [(e & E & _)|(l0 & s2 & E2 & H)].
  { unfold St.lift in E. by injection E as _ ->. }
  unfold St.lift in E2. injection E2 as E2 <-.
  apply bind_inv in H as [(e & E & _)|(l3 & s2 & E3 & H)].
  { unfold St.lift in E. by injection E as _ ->. }
  unfold St.lift in E3. injection E3 as E3 <-.
  apply getitem_nat_inv, list_elem_of_lookup_2 in E2, E3.
  rewrite Forall_forall in Hlocs.
  pose proof (Hlocs _ E2) as Hb0. pose proof (Hlocs _ E3) as Hb3.
  destruct (Table.falsy _); [unfold St.ret in H; by simplify_eq|].
  apply bind_inv in H as [(e & E & _)|(page & s2 & E4 & H)].
  { unfold St.lift in E. by injection E as _ ->. }
  unfold St.lift in E4. injection E4 as E4 <-.
  apply bind_inv in H as [(e & E & _)|(data' & s2 & E5 & H)].
  { unfold St.lift in E. by injection E as _ ->. }
  unfold St.lift in E5. injection E5 as E5 <-.
  apply bind_inv in H as [(e & E & _)|([] & s2 & E6 & H)]; [done|].
  unfold St.put in E6. injection E6 as <-.
  apply bind_inv in H as [(e & E & _)|(s3 & s4 & E7 & H)]; [done|].
  unfold St.get in E7. injection E7 as <- <-.
  assert (forall pid, PageId.is_base pid = false ->
            <[PageLocation.id l0 := data']> (Table.pages s1) !! pid
            = Table.pages s1 !! pid) as Hp0.
  { intros pid Hpid. apply lookup_insert_ne. intros <-.
    unfold PageLocation.id in Hpid. simpl in Hpid. congruence. }
  destruct (Table.falsy _); [unfold St.ret in H; by simplify_eq|].
  apply bind_inv in H as [(e & E & _)|(page' & s2 & E8 & H)].
  { unfold St.lift in E. by injection E as _ <-. }
  unfold St.lift in E8. injection E8 as E8 <-.
  apply bind_inv in H as [(e & E & _)|(data'' & s2 & E9 & H)].
  { unfold St.lift in E. by injection E as _ <-. }
  unfold St.lift in E9. injection E9 as E9 <-.
  apply bind_inv in H as [(e & E & _)|([] & s2 & E10 & H)]; [done|].
  unfold St.put in E10. injection E10 as <-.
  unfold St.ret in H. injection H as _ <-. simpl. split; [done|].
  intros pid Hpid. rewrite lookup_insert_ne; [by apply Hp0|].
  intros <-. unfold PageLocation.id in Hpid. simpl in Hpid. congruence.
Qed.

(** The allocation of a tail RID keeps a directory well formed, as
    long as the tail RIDs stay above the base RIDs. *)
Lemma alloc_tail_rid_wf (base_rid : val) (schema_encoding : bitarray)
    (d d' : PageDirectory.t) (rid : Z) (locs : list PageLocation.t) :
  PageDirectory.alloc_tail_rid tbl base_rid schema_encoding d
  = (Ok (rid, locs), d') ->
  Wf.counted d -> Wf.base_located d -> Wf.tailed d ->
  Wf.counted d' /\ Wf.base_located d'
  /\ PageDirectory._unused_base_rid d' = PageDirectory._unused_base_rid d
  /\ PageDirectory._unused_tail_rid d' = PageDirectory._unused_tail_rid d - 1
  /\ (forall r, r <> PageDirectory._unused_tail_rid d ->
        PageDirectory._offsets d' !! r = PageDirectory._offsets d !! r)
  /\ PageDirectory._tps d' = PageDirectory._tps d.
Proof.
  intros H Hc Hl [Ht1 Ht2].
  destruct (alloc_tail_rid_Ok _ _ _ _ _ _ _ H Hc)
    as (-> & Hut & Hub & Hoff & Htps & Hc' & _ & _).
  split; [done|]. split.
  { unfold Wf.base_located. rewrite Hoff.
    apply map_Forall_insert_2.
    - unfold PageDirectory.is_base_rec. rewrite Hub.
      intros [_ ?%Z.ltb_lt]%andb_true_iff. lia.
    - intros r locs' Hr Hb. apply (Hl _ _ Hr).
      unfold PageDirectory.is_base_rec in *. by rewrite Hub in Hb. }
  split; [done|]. split; [done|]. split; [|done].
  intros r Hr. rewrite Hoff. by apply lookup_insert_ne.
Qed.

(** [add_original_copy] allocates at most one tail RID, and writes to
    tail pages and to pages of base records. *)
Lemma add_original_copy_wf (rec : Record.t) (s s' : Table.t) :
  Table.add_original_copy tbl rec s = (Ok tt, s') ->
  let d := Table.page_directory s in
  let d' := Table.page_directory s' in
  Wf.counted d -> Wf.base_located d -> Wf.tailed d ->
  Wf.counted d' /\ Wf.base_located d'
  /\ PageDirectory._unused_base_rid d' = PageDirectory._unused_base_rid d
  /\ PageDirectory._unused_tail_rid d - 1 <= PageDirectory._unused_tail_rid d'
     <= PageDirectory._unused_tail_rid d.
Proof.
  intros H d d' Hc Hl Ht. subst d d'. unfold Table.add_original_copy in H.
  destruct (negb _).
  { unfold St.ret in H. injection H as <-. repeat split; try done; lia. }
  apply bind_Ok_inv in H as ([new_tid locs] & s1 & E1 & H).
  unfold Table.pagedir, St.zoom in E1.
  destruct (PageDirectory.alloc_tail_rid tbl _ _ (Table.page_directory s))
    as [r d1] eqn:Ea. injection E1 as -> <-.
  destruct (alloc_tail_rid_wf _ _ _ _ _ _ Ea Hc Hl Ht)
    as (Hc1 & Hl1 & Hub & Hut & _).
  apply bind_Ok_inv in H as (ok & s2 & E2 & H).
  destruct (write_columns_frame _ _ _ _ _ _ E2) as [Hd2 _].
  simpl in Hd2.
  assert (Table.page_directory s' = d1) as ->.
  { destruct ok.
    - apply bind_Ok_inv in H as (b & s3 & E3 & H).
      unfold St.lift in E3. injection E3 as E3 <-.
      apply bind_Ok_inv in H as (u & s3 & E4 & H).
      unfold St.ret in H. injection H as <-.
      apply update_base_record_frame in E4 as [-> _]; [done|].
      by rewrite Hd2.
    - unfold St.ret in H. by injection H as <-. }
  repeat split; try done; lia.
Qed.

End UpdateFrame.

(** ** The tail record of an update *)

Section TailRecord.
Variable tbl : TableInfo.t.
Import Py.

Lemma written_frame (schema_encoding : val) (raw_cols : list val)
    (s s' : Table.t) (l : PageLocation.t) :
  Table.pages s' !! PageLocation.id l = Table.pages s !! PageLocation.id l ->
  Frame.written tbl schema_encoding raw_cols s l ->
  Frame.written tbl schema_encoding raw_cols s' l.
Proof. unfold Frame.written, Table.frame. by intros ->. Qed.

Lemma read_int_written (schema_encoding : val) (raw_cols : list val)
    (s : Table.t) (l : PageLocation.t) :
  Frame.written tbl schema_encoding raw_cols s l ->
  Table.is_schema_column l = false ->
  exists v,
    raw_cols !! PageLocation.raw_column_index l = Some (VInt v)
    /\ Table.read_int tbl l s = Ok (Some v).
Proof.
  intros (Hlen & Hv & _) Hs. destruct (Hv Hs) as (v & Hr & Hd).
  exists v. split; [done|]. unfold Table.read_int, DataPage.new.
  by rewrite (length_falsy _ Hlen), (page_init_length _ Hlen), <- Hd.
Qed.

Lemma read_bits_written (ba : bitarray) (raw_cols : list val)
    (s : Table.t) (l : PageLocation.t) :
  Frame.written tbl (VBits ba) raw_cols s l ->
  Table.is_schema_column l = true ->
  length ba = TableInfo.num_columns tbl ->
  Table.read_bits tbl l s = Ok (Some ba).
Proof.
  intros (Hlen & _ & Hv) Hs Hba. destruct (Hv Hs) as (ba' & [= <-] & Hr).
  unfold Table.read_bits, SchemaEncodingPage.new.
  rewrite (length_falsy _ Hlen), (page_init_length _ Hlen). cbn [bind].
  unfold SchemaEncodingPage.read. rewrite Hr, <- Hba.
  by rewrite frombytes_tobytes.
Qed.

(** The tail pages of a record: the five metadata columns, then the
    data columns of the schema encoding. *)
Lemma tail_pages_meta (schema_encoding : bitarray) (start : PageId.t)
    (locs : list PageLocation.t) :
  map PageLocation.id locs
  = List.filter (Encoding.kept schema_encoding)
      (columns_of start (TableInfo.num_raw_cols tbl)) ->
  exists l,
    locs !! Config.SCHEMA_ENCODING_COLUMN = Some l
    /\ PageLocation.raw_column_index l = Config.SCHEMA_ENCODING_COLUMN.
Proof.
  unfold TableInfo.num_raw_cols. rewrite Nat.add_comm. unfold columns_of.
  cbn. intros H.
  apply (f_equal (fun l => l !! Config.SCHEMA_ENCODING_COLUMN)) in H.
  cbn in H. rewrite list_lookup_fmap in H.
  destruct (locs !! Config.SCHEMA_ENCODING_COLUMN) as [l|]; [|done].
  exists l. split; [done|]. apply (inj Some) in H.
  by apply (f_equal PageId.raw_column_index) in H.
Qed.

Lemma tail_pages_data (schema_encoding : bitarray) (start : PageId.t)
    (locs : list PageLocation.t) (i : nat) :
  map PageLocation.id locs
  = List.filter (Encoding.kept schema_encoding)
      (columns_of start (TableInfo.num_raw_cols tbl)) ->
  schema_encoding !! i = Some true ->
  (i < TableInfo.num_columns tbl)%nat ->
  exists l,
    l ∈ locs
    /\ PageLocation.raw_column_index l = (i + Config.NUM_META_COLS)%nat.
Proof.
  intros H Hi HK.
  assert (PageId.mk (PageId.table_name start) (i + Config.NUM_META_COLS)
            (PageId.is_base start) (PageId.page_index start)
          ∈ map PageLocation.id locs) as Hin.
  { rewrite H. apply list_elem_of_In, filter_In. split.
    - unfold columns_of. apply in_map_iff.
      exists (i + Config.NUM_META_COLS)%nat. split; [done|].
      apply in_seq. unfold TableInfo.num_raw_cols. lia.
    - unfold Encoding.kept. simpl.
      replace (i + Config.NUM_META_COLS - Config.NUM_META_COLS)%nat with i
        by lia.
      unfold bitarray in *. rewrite Hi. apply orb_true_r. }
  apply list_elem_of_fmap in Hin as (l & Hl & Hin).
  exists l. split; [done|].
  by apply (f_equal PageId.raw_column_index) in Hl.
Qed.

Lemma tail_pages_not_base (schema_encoding : bitarray) (idx : Z)
    (locs : list PageLocation.t) (l : PageLocation.t) :
  map PageLocation.id locs
  = List.filter (Encoding.kept schema_encoding)
      (columns_of (PageId.mk (TableInfo.name tbl) 0 false idx)
         (TableInfo.num_raw_cols tbl)) ->
  l ∈ locs -> PageId.is_base (PageLocation.id l) = false.
Proof.
  intros H Hl.
  assert (PageLocation.id l ∈ map PageLocation.id locs) as Hin
    by by apply list_elem_of_fmap_2.
  rewrite H in Hin. apply list_elem_of_In, filter_In in Hin as [Hin _].
  unfold columns_of in Hin. apply in_map_iff in Hin as (j & <- & _). done.
Qed.

(** The last steps of [add_tail_record]: the RID is allocated, the
    record is written, the base record is updated.  The schema
    encoding and the data columns it marks can then be read back. *)
Lemma tail_record_stored (base_rec_rid : val) (base_rid : Z)
    (cumulative_schema : bitarray) (new_raw_cols : list val) (new_tid : Z)
    (page_indx : list PageLocation.t) (s0 s1 s2 s' : Table.t) (u : bool) :
  Table.pagedir
    (PageDirectory.alloc_tail_rid tbl base_rec_rid cumulative_schema) s0
  = (Ok (new_tid, page_indx), s1) ->
  Table.write_columns tbl (VBits cumulative_schema) new_raw_cols page_indx s1
  = (Ok true, s2) ->
  Table.update_base_record tbl base_rid (VInt new_tid) cumulative_schema s2
  = (Ok u, s') ->
  Wf.counted (Table.page_directory s0) ->
  Wf.base_located (Table.page_directory s0) ->
  Wf.tailed (Table.page_directory s0) ->
  length cumulative_schema = TableInfo.num_columns tbl ->
  PageDirectory.get_tail_record_location new_tid (Table.page_directory s')
  = Ok page_indx
  /\ Table.get_tail_schema_encoding tbl new_tid s'
     = Ok (Some cumulative_schema)
  /\ forall i,
       cumulative_schema !! i = Some true ->
       exists l v,
         l ∈ page_indx
         /\ PageLocation.raw_column_index l = (i + Config.NUM_META_COLS)%nat
         /\ Table.read_int tbl l s' = Ok (Some v)
         /\ new_raw_cols !! (i + Config.NUM_META_COLS)%nat = Some (VInt v).
Proof.
  intros Ea Ew Eu Hc Hl Ht Hlen.
  unfold Table.pagedir, St.zoom in Ea.
  destruct (PageDirectory.alloc_tail_rid tbl _ _ (Table.page_directory s0))
    as [r d1] eqn:Ea'. injection Ea as -> <-.
  destruct (alloc_tail_rid_Ok _ _ _ _ _ _ _ Ea' Hc)
    as (Htid & Hut & Hub & Hoff & Htps & Hc1 & [tp_idx Hids] & Hin).
  destruct (alloc_tail_rid_wf _ _ _ _ _ _ _ Ea' Hc Hl Ht) as (_ & Hl1 & _).
  apply write_columns_Ok in Ew as (Hd2 & _ & _ & _ & _ & Hw); [| |done].
  2:{ rewrite Hids.
      apply NoDup_ListNoDup, List.NoDup_filter, NoDup_ListNoDup,
        columns_of_NoDup. }
  simpl in Hd2.
  apply update_base_record_frame in Eu as [Hd' Hp']; [|by rewrite Hd2].
  assert (Forall (Frame.written tbl (VBits cumulative_schema) new_raw_cols s')
            page_indx) as Hw'.
  { rewrite Forall_forall in Hw |- *. intros l Hl'.
    apply (written_frame _ _ s2); [|by apply Hw].
    apply Hp'. by apply (tail_pages_not_base _ _ _ _ Hids). }
  rewrite Forall_forall in Hw'.
  assert (PageDirectory.get_tail_record_location new_tid
            (Table.page_directory s') = Ok page_indx) as Hloc.
  { unfold PageDirectory.get_tail_record_location.
    rewrite Hd', Hd2, Hut, Hoff. unfold PageDirectory._tail_rid_begin.
    destruct Ht as [_ Ht]. rewrite <- Htid in Ht.
    destruct (Z.leb_spec new_tid Config.TAIL_RID_BEGIN); [|lia].
    destruct (Z.ltb_spec (new_tid - 1) new_tid); [|lia]. cbn [andb negb].
    unfold PageDirectory.dict_get. by rewrite lookup_insert_eq. }
  split; [done|]. split.
  - unfold Table.get_tail_schema_encoding. rewrite Hloc. cbn [bind].
    destruct (tail_pages_meta _ _ _ Hids) as (l3 & El3 & Hcol).
    rewrite (getitem_nat _ _ _ El3). cbn [bind].
    apply read_bits_written with (raw_cols := new_raw_cols); [|by
      unfold Table.is_schema_column; rewrite Hcol|done].
    apply Hw'. by apply list_elem_of_lookup_2 in El3.
  - intros i Hi.
    assert (i < TableInfo.num_columns tbl)%nat as HK.
    { rewrite <- Hlen. by apply lookup_lt_Some in Hi. }
    destruct (tail_pages_data _ _ _ _ Hids Hi HK) as (l & Hl' & Hcol).
    destruct (read_int_written _ _ _ _ (Hw' _ Hl')) as (v & Hv & Hr).
    { unfold Table.is_schema_column. rewrite Hcol.
      unfold Config.NUM_META_COLS, Config.SCHEMA_ENCODING_COLUMN.
      apply Nat.eqb_neq. lia. }
    exists l, v. by rewrite <- Hcol.
Qed.

End TailRecord.

Section SchemaEncoding.
Variable tbl : TableInfo.t.
Import Py.

Lemma bits_or_Ok (a b c : bitarray) :
  Table.bits_or a b = Ok c ->
  length a = length b /\ c = zip_with orb a b.
Proof.
  unfold Table.bits_or. destruct (Nat.eqb_spec (length a) (length b)); [|done].
  by intros [= <-].
Qed.

(** C2, as the code has it.  When [add_tail_record] succeeds for an
    update record of [K] data columns aimed at the base RID [base_rid],
    on a well-formed directory: let [latest_rec] be the latest version
    and [base_schema] the schema encoding of the base record at the
    moment the loop runs (after the original copy has been added, when
    this is the first update of the record).  Then the schema encoding
    read back from the new tail record has bit [i] set if and only if
    the update supplies a non-null value for column [i] or the base
    record's bit [i] is already set -- whether or not the supplied
    value differs from the latest one.  For every column whose bit is
    set, the value stored in the tail record is the supplied value when
    it is non-null, and the value of the latest version when it is
    null. *)
Theorem tail_record_schema_encoding (fuel : nat) (rec : Record.t)
    (base_rid new_tid : Z) (s s' : Table.t) :
  Table.add_tail_record fuel tbl rec s = (Ok (Some new_tid), s') ->
  Record.base_rid rec = VInt base_rid ->
  length (Record.columns rec) = TableInfo.num_columns tbl ->
  Wf.counted (Table.page_directory s) ->
  Wf.base_located (Table.page_directory s) ->
  PageDirectory._unused_base_rid (Table.page_directory s)
  < PageDirectory._unused_tail_rid (Table.page_directory s) ->
  PageDirectory._unused_tail_rid (Table.page_directory s)
  <= Config.TAIL_RID_BEGIN ->
  exists (s0 : Table.t) (latest_rec base_rec : Record.t)
         (base_schema bits : bitarray) (locs : list PageLocation.t),
    (s0 = s \/ exists b, Table.add_original_copy tbl b s = (Ok tt, s0))
    /\ Table.get_latest_record fuel tbl base_rid s0 = Ok (Some latest_rec)
    /\ Table.get_base_record tbl base_rid s0 = Ok (Some base_rec)
    /\ Record.schema_encoding base_rec = VBits base_schema
    /\ PageDirectory.get_tail_record_location new_tid
         (Table.page_directory s') = Ok locs
    /\ Table.get_tail_schema_encoding tbl new_tid s' = Ok (Some bits)
    /\ forall i new_i,
         Record.columns rec !! i = Some new_i ->
         exists base_i,
           base_schema !! i = Some base_i
           /\ bits !! i = Some (Encoding.supplied new_i || base_i)
           /\ (Encoding.supplied new_i || base_i = true ->
               exists l v,
                 l ∈ locs
                 /\ PageLocation.raw_column_index l
                    = (i + Config.NUM_META_COLS)%nat
                 /\ Table.read_int tbl l s' = Ok (Some v)
                 /\ Some (VInt v)
                    = if Encoding.supplied new_i then Some new_i
                      else Record.columns latest_rec !! i).
Proof.
  intros H Hbr HK Hc Hl Hbt Htb. unfold Table.add_tail_record in H.
  rewrite Hbr in H.
  destruct (negb (truthy (VInt base_rid))); [by unfold St.ret in H|].
  apply bind_Ok_inv in H as (x & sx & E & H).
  unfold St.lift in E. cbn [as_int] in E. injection E as <- <-.
  apply bind_Ok_inv in H as (sa & sb & E & H).
  unfold St.get in E. injection E as -> ->.
  apply bind_Ok_inv in H as (latest1 & sx & E1 & H).
  unfold St.lift in E1. injection E1 as E1 <-.
  destruct latest1 as [latest1|]; [|done].
  apply bind_Ok_inv in H as (base1 & sx & E2 & H).
  unfold St.lift in E2. injection E2 as E2 <-.
  destruct base1 as [base1|]; [|done].
  apply bind_Ok_inv in H as (latest_rec & s0 & E3 & H).
  assert ((s0 = sb \/ exists b, Table.add_original_copy tbl b sb = (Ok tt, s0))
          /\ Table.get_latest_record fuel tbl base_rid s0
             = Ok (Some latest_rec)) as [Hs0 Hlatest].
  { destruct (bool_decide _).
    - apply bind_Ok_inv in E3 as ([] & sc & E4 & E3).
      apply bind_Ok_inv in E3 as (sd & se & E5 & E3).
      unfold St.get in E5. injection E5 as -> ->.
      apply bind_Ok_inv in E3 as (l & sx & E6 & E3).
      unfold St.lift in E6. injection E6 as E6 <-.
      destruct l as [l|]; [|done]. unfold St.ret in E3.
      injection E3 as <- <-. split; [|done]. right. by exists base1.
    - unfold St.ret in E3. injection E3 as <- <-. split; [by left|done]. }
  assert (Wf.counted (Table.page_directory s0)
          /\ Wf.base_located (Table.page_directory s0)
          /\ Wf.tailed (Table.page_directory s0)) as (Hc0 & Hl0 & Ht0).
  { destruct Hs0 as [->|[b Hb]].
    - split; [done|]. split; [done|]. split; [lia|done].
    - destruct (add_original_copy_wf _ _ _ _ Hb Hc Hl) as (? & ? & ? & ?).
      { split; [lia|done]. }
      split; [done|]. split; [done|]. split; lia. }
  apply bind_Ok_inv in H as (sa & sc & E & H).
  unfold St.get in E. injection E as <- <-.
  apply bind_Ok_inv in H as (base_rec & sx & E4 & H).
  unfold St.lift in E4. injection E4 as E4 <-.
  destruct base_rec as [base_rec|]; [|done].
  apply bind_Ok_inv in H as (base_schema & sx & E5 & H).
  unfold St.lift in E5. injection E5 as E5 <-.
  assert (Record.schema_encoding base_rec = VBits base_schema) as Hbs.
  { unfold Table.bits_of_val in E5.
    destruct (Record.schema_encoding base_rec); by simplify_eq. }
  apply bind_Ok_inv in H as ([schema_encoding new_cols] & sx & E6 & H).
  unfold St.lift in E6. injection E6 as E6 <-.
  apply bind_Ok_inv in H as (cumulative & sx & E7 & H).
  unfold St.lift in E7. injection E7 as E7 <-.
  apply bind_Ok_inv in H as ([tid page_indx] & s1 & E8 & H).
  apply bind_Ok_inv in H as (ok & s2 & E9 & H).
  destruct ok; [|by unfold St.ret in H].
  apply bind_Ok_inv in H as (u & s3 & E10 & H).
  unfold St.ret in H. injection H as -> ->.
  assert (Record.columns (Record.set_indirection rec (Record.rid latest_rec))
          = Record.columns rec) as Hcols.
  { unfold Record.columns, Record.set_indirection, Record.set_raw. simpl.
    apply drop_insert_lt. unfold Config.INDIRECTION_COLUMN,
      Config.NUM_META_COLS. lia. }
  rewrite Hcols in E6.
  apply encode_update_Ok in E6 as (Hlo & Hsch & _ & _ & Hout).
  apply bits_or_Ok in E7 as [Hlb ->].
  assert (length schema_encoding = TableInfo.num_columns tbl) as Hls.
  { rewrite Hsch. simpl. by rewrite length_map, length_seq. }
  destruct (tail_record_stored tbl _ _ _ _ _ _ _ _ _ _ _ E8 E9 E10 Hc0 Hl0 Ht0)
    as (Hloc & Hbits & Hdata).
  { rewrite length_zip_with. lia. }
  exists s0, latest_rec, base_rec, base_schema,
    (zip_with orb schema_encoding base_schema), page_indx.
  split; [done|]. split; [done|]. split; [done|]. split; [done|].
  split; [done|]. split; [done|].
  intros i new_i Hi.
  assert (i < TableInfo.num_columns tbl)%nat as Hik.
  { rewrite <- HK. by apply lookup_lt_Some in Hi. }
  destruct (lookup_lt_is_Some_2 base_schema i) as [base_i Hbi]; [lia|].
  exists base_i. split; [done|].
  assert (zip_with orb schema_encoding base_schema !! i
          = Some (Encoding.supplied new_i || base_i)) as Hz.
  { rewrite lookup_zip_with, Hbi, Hsch. simpl.
    rewrite list_lookup_fmap, lookup_seq_lt by lia. simpl.
    by rewrite Hi. }
  split; [done|]. intros Hset. rewrite Hset in Hz.
  destruct (Hdata _ Hz) as (l & v & Hin & Hcol & Hr & Hv).
  exists l, v. split; [done|]. split; [done|]. split; [done|].
  assert (Config.NUM_META_COLS <= length (Record.raw_columns rec))%nat
    as Hraw.
  { unfold Record.columns in HK.
    destruct (Nat.le_gt_cases Config.NUM_META_COLS
                (length (Record.raw_columns rec))) as [|Hlt]; [done|].
    rewrite drop_ge in HK by lia. simpl in HK. lia. }
  unfold Record.set_schema_encoding, Record.set_indirection, Record.set_raw
    in Hv. cbn [Record.raw_columns] in Hv.
  rewrite !list_lookup_insert_ne in Hv
    by (unfold Config.SCHEMA_ENCODING_COLUMN, Config.INDIRECTION_COLUMN,
          Config.NUM_META_COLS; lia).
  unfold Record.set_columns in Hv. cbn [Record.raw_columns Record.set_rid
    Record.set_raw Record.set_raw_columns] in Hv.
  rewrite set_slice_tail in Hv by (rewrite !length_insert; lia).
  rewrite lookup_app_r in Hv
    by (rewrite length_take, !length_insert; lia).
  rewrite length_take, !length_insert in Hv.
  replace (i + Config.NUM_META_COLS
           - Config.NUM_META_COLS `min` length (Record.raw_columns rec))%nat
    with i in Hv by lia.
  rewrite (Hout i new_i) in Hv by (done || lia).
  injection Hv as Hv. destruct (Encoding.supplied new_i); [by rewrite Hv|].
  cbn [orb] in Hset. subst base_i. unfold bitarray in *.
  rewrite Hbi in Hv. cbn [default] in Hv.
  destruct (Record.columns latest_rec !! i); [by rewrite <- Hv|done].
Qed.

End SchemaEncoding.

(** The bit is set for a value that does not differ from the latest
    one: after [insert(42, 1, 2, 3, 4)], the update
    [update(42, None, 1, None, None, None)] leaves a tail record whose
    schema encoding has bit 1 set. *)
Lemma unchanged_value_sets_bit :
  exists latest_rec bits,
    Table.get_latest_record 1 Demo.tbl 1000 Demo.s1 = Py.Ok (Some latest_rec)
    /\ Record.columns latest_rec !! 1%nat = Some (Py.VInt 1)
    /\ Record.columns Demo.unchanged !! 1%nat = Some (Py.VInt 1)
    /\ Table.add_tail_record 1 Demo.tbl Demo.unchanged Demo.s1
       = (Py.Ok (Some (Config.TAIL_RID_BEGIN - 1)), Demo.s2)
    /\ Table.get_tail_schema_encoding Demo.tbl (Config.TAIL_RID_BEGIN - 1)
         Demo.s2
       = Py.Ok (Some bits)
    /\ bits !! 1%nat = Some true
    /\ Encoding.differs (Py.VInt 1) (Py.VInt 1) = false.
Proof.
  eexists _, _.
  split; [vm_compute; reflexivity|].
  split; [reflexivity|].
  split; [reflexivity|].
  split; [vm_compute; reflexivity|].
  split; [vm_compute; reflexivity|].
  split; reflexivity.
Qed.

Lemma tail_record_schema_encoding_witness :
  Table.add_tail_record 1 Demo.tbl Demo.unchanged Demo.s1
  = (Py.Ok (Some (Config.TAIL_RID_BEGIN - 1)), Demo.s2)
  /\ Record.base_rid Demo.unchanged = Py.VInt 1000
  /\ length (Record.columns Demo.unchanged) = TableInfo.num_columns Demo.tbl
  /\ Wf.counted (Table.page_directory Demo.s1)
  /\ Wf.base_located (Table.page_directory Demo.s1)
  /\ PageDirectory._unused_base_rid (Table.page_directory Demo.s1)
     < PageDirectory._unused_tail_rid (Table.page_directory Demo.s1)
  /\ PageDirectory._unused_tail_rid (Table.page_directory Demo.s1)
     <= Config.TAIL_RID_BEGIN
  /\ exists (s0 : Table.t) (latest_rec base_rec : Record.t)
            (base_schema bits : Py.bitarray) (locs : list PageLocation.t),
       (s0 = Demo.s1
        \/ exists b, Table.add_original_copy Demo.tbl b Demo.s1
                     = (Py.Ok tt, s0))
       /\ Table.get_latest_record 1 Demo.tbl 1000 s0 = Py.Ok (Some latest_rec)
       /\ Table.get_base_record Demo.tbl 1000 s0 = Py.Ok (Some base_rec)
       /\ Record.schema_encoding base_rec = Py.VBits base_schema
       /\ PageDirectory.get_tail_record_location (Config.TAIL_RID_BEGIN - 1)
            (Table.page_directory Demo.s2) = Py.Ok locs
       /\ Table.get_tail_schema_encoding Demo.tbl (Config.TAIL_RID_BEGIN - 1)
            Demo.s2 = Py.Ok (Some bits)
       /\ forall i new_i,
            Record.columns Demo.unchanged !! i = Some new_i ->
            exists base_i,
              base_schema !! i = Some base_i
              /\ bits !! i = Some (Encoding.supplied new_i || base_i)
              /\ (Encoding.supplied new_i || base_i = true ->
                  exists l v,
                    l ∈ locs
                    /\ PageLocation.raw_column_index l
                       = (i + Config.NUM_META_COLS)%nat
                    /\ Table.read_int Demo.tbl l Demo.s2 = Py.Ok (Some v)
                    /\ Some (Py.VInt v)
                       = if Encoding.supplied new_i then Some new_i
                         else Record.columns latest_rec !! i).
Proof.
  assert (H1 : Table.add_tail_record 1 Demo.tbl Demo.unchanged Demo.s1
               = (Py.Ok (Some (Config.TAIL_RID_BEGIN - 1)), Demo.s2))
    by (vm_compute; reflexivity).
  assert (H2 : Record.base_rid Demo.unchanged = Py.VInt 1000) by reflexivity.
  assert (H3 : length (Record.columns Demo.unchanged)
               = TableInfo.num_columns Demo.tbl) by reflexivity.
  assert (H4 : Wf.counted (Table.page_directory Demo.s1))
    by (apply (bool_decide_unpack _); vm_compute; reflexivity).
  assert (H5 : Wf.base_located (Table.page_directory Demo.s1))
    by (apply (bool_decide_unpack _); vm_compute; reflexivity).
  assert (H6 : PageDirectory._unused_base_rid (Table.page_directory Demo.s1)
               < PageDirectory._unused_tail_rid (Table.page_directory Demo.s1))
    by (vm_compute; reflexivity).
  assert (H7 : PageDirectory._unused_tail_rid (Table.page_directory Demo.s1)
               <= Config.TAIL_RID_BEGIN)
    by (vm_compute; discriminate).
  split; [exact H1|]. split; [exact H2|]. split; [exact H3|].
  split; [exact H4|]. split; [exact H5|]. split; [exact H6|].
  split; [exact H7|].
  exact (tail_record_schema_encoding Demo.tbl 1 Demo.unchanged 1000
           (Config.TAIL_RID_BEGIN - 1) Demo.s1 Demo.s2 H1 H2 H3 H4 H5 H6 H7).
Defined.

(** ** Caught outcomes *)

Section Caught.
Import Py.
Import Total.

Lemma caught_bind {A B} (r : res A) (k : A -> res B) :
  caught r -> (forall a, r = Ok a -> caught (k a)) -> caught (bind r k).
Proof. destruct r as [a|e]; simpl; [|done]. intros _ H. by apply H. Qed.

Lemma caught_getitem {A} (l : list A) (i : Z) : caught (getitem l i).
Proof. unfold getitem. repeat case_match; done. Qed.

Lemma caught_setitem {A} (l : list A) (i : Z) (v : A) :
  caught (setitem l i v).
Proof. unfold setitem. repeat case_match; done. Qed.

Lemma caught_dict_get `{Countable K} {V} (k : K) (m : gmap K V) :
  caught (PageDirectory.dict_get k m).
Proof. unfold PageDirectory.dict_get. by case_match. Qed.

Lemma caught_assert (b : bool) : caught (assert b).
Proof. by destruct b. Qed.

Lemma caught_floordiv (a b : Z) : caught (floordiv a b).
Proof. unfold floordiv. by case_match. Qed.

Lemma caught_as_int (v : val) (e : exn) :
  is_Exception e = true -> caught (as_int v e).
Proof. by destruct v. Qed.

Lemma caught_to_bytes (v : Z) (n : nat) (e : endian) (signed : bool) :
  caught (to_bytes v n e signed).
Proof. unfold to_bytes. repeat case_match; done. Qed.

Lemma caught_guarded {A} (r : res A) :
  caught r -> exists a, Query.guarded r = Ok a.
Proof.
  destruct r as [a|e]; simpl; [by eexists|]. intros ->. by eexists.
Qed.

End Caught.

Create HintDb caught.

#[global] Hint Resolve caught_getitem caught_setitem caught_dict_get
  caught_assert caught_floordiv caught_to_bytes : caught.

(** Splits [caught] along the structure of a computation. *)
Ltac caught_step :=
  lazymatch goal with
  | |- Total.caught (Py.bind _ _) => apply caught_bind; [|intros ? ?]
  | |- Total.caught (Py.Ok _) => exact I
  | |- Total.caught (Py.Raise _) => reflexivity
  | |- Total.caught (Py.as_int _ _) => apply caught_as_int; reflexivity
  | |- Total.caught (if ?b then _ else _) => destruct b eqn:?
  | |- Total.caught (match ?x with _ => _ end) => destruct x eqn:?
  | |- Total.caught (let '(_, _) := ?x in _) => destruct x eqn:?
  end.

Ltac caught := repeat (caught_step || solve [eauto with caught]).

(** ** The computations that read pages, encode and serialize raise
    nothing but exceptions *)

Section CaughtPure.
Import Py.
Import Total.

Lemma caught_encode (s : str) : caught (encode s).
Proof.
  induction s as [|c s IH]; simpl; [done|].
  apply caught_bind; [unfold utf8_encode_cp; caught|intros ? _].
  by apply caught_bind.
Qed.

Lemma caught_serialize_int (v : Z) (n : nat) (signed : bool) :
  caught (TransactionSerializer.serialize_int v n signed).
Proof. apply caught_to_bytes. Qed.

Lemma caught_serialize_uint (v : Z) (n : nat) :
  caught (TransactionSerializer.serialize_uint v n).
Proof. apply caught_to_bytes. Qed.

Hint Resolve caught_encode caught_serialize_int caught_serialize_uint
  : caught.

Lemma caught_serialize_str (s : str) :
  caught (TransactionSerializer.serialize_str s).
Proof. unfold TransactionSerializer.serialize_str. caught. Qed.

Lemma caught_serialize_arg (col : option Z) :
  caught (TransactionSerializer.serialize_arg col).
Proof. unfold TransactionSerializer.serialize_arg. caught. Qed.

Hint Resolve caught_serialize_str caught_serialize_arg : caught.

Lemma caught_serialize_args (cols : list (option Z)) :
  caught (TransactionSerializer.serialize_args cols).
Proof. induction cols; simpl; caught. Qed.

Lemma caught_serialize_present (cols : list (option Z)) :
  caught (TransactionSerializer.serialize_present cols).
Proof. induction cols as [|[v|] cols IH]; simpl; caught. Qed.

Hint Resolve caught_serialize_args caught_serialize_present : caught.

Lemma caught_serialize_query (q : StoredQuery) :
  caught (TransactionSerializer._serialize_query q).
Proof.
  unfold TransactionSerializer._serialize_query,
    TransactionSerializer._serialize_insert,
    TransactionSerializer._serialize_update,
    TransactionSerializer._serialize_increment,
    TransactionSerializer._serialize_delete.
  caught.
Qed.

Hint Resolve caught_serialize_query : caught.

Lemma caught_serialize_queries (qs : list StoredQuery) :
  caught (TransactionSerializer.serialize_queries qs).
Proof. induction qs; simpl; caught. Qed.

Hint Resolve caught_serialize_queries : caught.

Lemma caught_serialize (start_time : Z) (queries : list StoredQuery) :
  caught (TransactionSerializer.serialize start_time queries).
Proof. unfold TransactionSerializer.serialize. caught. Qed.

Lemma caught_page_init (data : list byte) : caught (Page.init data).
Proof. unfold Page.init. caught. Qed.

Lemma caught_write_bytes (col_size : Z) (data value : list byte)
    (offset : Z) :
  caught (Page._write_bytes col_size data value offset).
Proof. unfold Page._write_bytes. caught. Qed.

Hint Resolve caught_page_init caught_write_bytes : caught.

Lemma caught_data_page_write (e : endian) (page : list byte) (value : val)
    (offset : Z) :
  caught (DataPage.write e page value offset).
Proof. unfold DataPage.write. caught. Qed.

Lemma caught_schema_page_write (e : endian) (num_columns : nat)
    (page : list byte) (value : val) (offset : Z) :
  caught (SchemaEncodingPage.write e num_columns page value offset).
Proof. unfold SchemaEncodingPage.write. caught. Qed.

Lemma caught_get_base_record_location (base_rid : Z) (d : PageDirectory.t) :
  caught (PageDirectory.get_base_record_location base_rid d).
Proof. unfold PageDirectory.get_base_record_location. caught. Qed.

Lemma caught_get_tail_record_location (tail_rid : Z) (d : PageDirectory.t) :
  caught (PageDirectory.get_tail_record_location tail_rid d).
Proof. unfold PageDirectory.get_tail_record_location. caught. Qed.

Hint Resolve caught_data_page_write caught_schema_page_write
  caught_get_base_record_location caught_get_tail_record_location : caught.

Lemma caught_read_int (tbl : TableInfo.t) (l : PageLocation.t) (s : Table.t) :
  caught (Table.read_int tbl l s).
Proof. unfold Table.read_int, DataPage.new. caught. Qed.

Lemma caught_read_bits (tbl : TableInfo.t) (l : PageLocation.t)
    (s : Table.t) :
  caught (Table.read_bits tbl l s).
Proof. unfold Table.read_bits, SchemaEncodingPage.new. caught. Qed.

Hint Resolve caught_read_int caught_read_bits : caught.

Lemma caught_get_tail_schema_encoding (tbl : TableInfo.t) (tid : Z)
    (s : Table.t) :
  caught (Table.get_tail_schema_encoding tbl tid s).
Proof. unfold Table.get_tail_schema_encoding. caught. Qed.

Lemma caught_get_tail_timestamp (tbl : TableInfo.t) (tid : Z) (s : Table.t) :
  caught (Table.get_tail_timestamp tbl tid s).
Proof. unfold Table.get_tail_timestamp. caught. Qed.

Lemma caught_get_tail_indirection (tbl : TableInfo.t) (tid : Z)
    (s : Table.t) :
  caught (Table.get_tail_indirection tbl tid s).
Proof. unfold Table.get_tail_indirection. caught. Qed.

Lemma caught_read_raw_cols (tbl : TableInfo.t) (locs : list PageLocation.t)
    (s : Table.t) :
  caught (Table.read_raw_cols tbl locs s).
Proof.
  induction locs; simpl; unfold SchemaEncodingPage.new, DataPage.new; caught.
Qed.

Hint Resolve caught_get_tail_schema_encoding caught_get_tail_timestamp
  caught_get_tail_indirection caught_read_raw_cols : caught.

Lemma caught_get_base_record (tbl : TableInfo.t) (rid : Z) (s : Table.t) :
  caught (Table.get_base_record tbl rid s).
Proof. unfold Table.get_base_record. caught. Qed.

Lemma caught_read_updated (tbl : TableInfo.t) (s : Table.t)
    (cols_needed : bitarray) (cols : list nat) :
  forall (locs : list PageLocation.t) (latest_cols : list val),
    caught (Table.read_updated tbl s cols_needed cols locs latest_cols).
Proof. induction cols; intros; simpl; caught. Qed.

Lemma caught_copy_base (cols_needed : bitarray) (base_cols : list val)
    (cols : list nat) :
  forall latest_cols : list val,
    caught (Table.copy_base cols_needed base_cols cols latest_cols).
Proof. induction cols; intros; simpl; caught. Qed.

Lemma caught_bits_of_val (v : val) : caught (Table.bits_of_val v).
Proof. by destruct v. Qed.

Lemma caught_encode_update (latest_cols : list val) (base_schema : bitarray)
    (idxs : list nat) :
  forall (new_cols : list val) (schema_encoding : bitarray),
    caught (Table.encode_update new_cols latest_cols base_schema idxs
              schema_encoding).
Proof. induction idxs; intros; simpl; caught. Qed.

Lemma caught_bits_or (a b : bitarray) : caught (Table.bits_or a b).
Proof. unfold Table.bits_or. caught. Qed.

Lemma caught_ranged_index_add (value rid : Z) (ix : RangedIndex.t) :
  caught (RangedIndex.add value rid ix).
Proof. unfold RangedIndex.add. caught. Qed.

Lemma caught_ranged_index_remove (value : Z) (rid : option Z)
    (ix : RangedIndex.t) :
  caught (RangedIndex.remove value rid ix).
Proof. unfold RangedIndex.remove, SortedSet.remove. caught. Qed.

Lemma caught_index_locate (column value : Z)
    (ix : list (option RangedIndex.t)) :
  caught (Index.locate column value ix).
Proof. unfold Index.locate. caught. Qed.

Hint Resolve caught_ranged_index_remove : caught.

Lemma caught_remove_val (value : val) (rid : option Z) (ix : RangedIndex.t) :
  caught (Query.remove_val value rid ix).
Proof. unfold Query.remove_val. caught. Qed.

Lemma caught_scan_body (search_key search_key_index : Z)
    (projected_column_indices : list Z) (results : list Record.t)
    (rec : Record.t) :
  caught (Query.scan_body search_key search_key_index
            projected_column_indices results rec).
Proof. unfold Query.scan_body. caught. Qed.

Lemma caught_sum_body (tbl : TableInfo.t) (start_range end_range : Z)
    (aggregate_column_index : Z) (agg_first : bool) (acc : bool * Z)
    (rec : Record.t) :
  caught (Query.sum_body tbl start_range end_range aggregate_column_index
            agg_first acc rec).
Proof. unfold Query.sum_body. caught. Qed.

End CaughtPure.

#[global] Hint Resolve caught_serialize caught_get_base_record
  caught_read_updated caught_copy_base caught_bits_of_val
  caught_encode_update caught_bits_or caught_ranged_index_add
  caught_ranged_index_remove caught_index_locate caught_remove_val
  caught_scan_body caught_sum_body caught_encode caught_serialize_int
  caught_serialize_uint caught_page_init caught_write_bytes
  caught_data_page_write caught_schema_page_write
  caught_get_base_record_location caught_get_tail_record_location
  caught_read_int caught_read_bits caught_get_tail_schema_encoding
  caught_get_tail_timestamp caught_get_tail_indirection caught_read_raw_cols
  : caught.

(** ** The slots of a page *)

Section Slots.
Import Py.
Import Total.

Lemma slice_set_slice_disjoint {A} (l v : list A) (f1 f2 n : Z) :
  0 <= f1 -> f1 + Z.of_nat (length v) <= Z.of_nat (length l) ->
  0 <= f2 -> 0 <= n -> f2 + n <= Z.of_nat (length l) ->
  f2 + n <= f1 \/ f1 + Z.of_nat (length v) <= f2 ->
  slice (set_slice l f1 (f1 + Z.of_nat (length v)) v) f2 (f2 + n)
  = slice l f2 (f2 + n).
Proof.
  intros H1 H2 H3 H4 H5 H6. unfold slice.
  rewrite length_set_slice by lia. unfold set_slice.
  rewrite !clip_in_range by lia.
  replace (Z.to_nat f1 `max` Z.to_nat (f1 + Z.of_nat (length v)))%nat
    with (Z.to_nat f1 + length v)%nat by lia.
  replace (Z.to_nat (f2 + n) - Z.to_nat f2)%nat with (Z.to_nat n) by lia.
  set (a := Z.to_nat f1). set (c := Z.to_nat f2). set (m := Z.to_nat n).
  assert (a + length v <= length l)%nat by lia.
  assert (c + m <= length l)%nat by lia.
  assert (c + m <= a \/ a + length v <= c)%nat as Hd by lia.
  apply list_eq. intros i. rewrite !lookup_take, !lookup_drop.
  case_decide; [|done].
  destruct Hd as [Hd|Hd].
  - rewrite lookup_app_l by (rewrite length_take; lia).
    by rewrite lookup_take_lt by lia.
  - rewrite lookup_app_r by (rewrite length_take; lia).
    rewrite lookup_app_r by (rewrite length_take; lia).
    rewrite lookup_drop, length_take. f_equal. lia.
Qed.

Lemma drop_repeat {A} (x : A) (n m : nat) :
  drop n (repeat x m) = repeat x (m - n).
Proof.
  revert m. induction n as [|n IH]; intros [|m]; simpl; try done.
Qed.

Lemma take_repeat {A} (x : A) (n m : nat) :
  take n (repeat x m) = repeat x (n `min` m).
Proof.
  revert m. induction n as [|n IH]; intros [|m]; simpl; try done.
  by rewrite IH.
Qed.

(** Writing a slot of a data page leaves the other slots as they
    were. *)
Lemma data_page_write_other (e : endian) (page page' : list byte)
    (value : val) (offset o : Z) :
  DataPage.write e page value offset = Ok page' ->
  Z.of_nat (length page) = Config.PAGE_SIZE ->
  0 <= offset < Z.of_nat slots -> 0 <= o < Z.of_nat slots -> o <> offset ->
  DataPage.read e page' o = DataPage.read e page o.
Proof.
  unfold DataPage.write, DataPage.read, Page._write_bytes, Page._read_bytes.
  intros H Hlen Ho1 Ho2 Hne.
  destruct value as [v| |]; try done. cbn [as_int bind] in H.
  destruct (to_bytes v Config.DATA_SIZE e true) as [b|] eqn:Eb; [|done].
  cbn [bind] in H. apply to_bytes_length in Eb.
  unfold assert in H. rewrite Eb in H.
  change (Z.of_nat Config.DATA_SIZE =? DataPage.col_size) with true in H.
  cbn [bind] in H. injection H as <-. f_equal.
  change DataPage.col_size with 8 in *.
  change (Z.of_nat slots) with 512 in *.
  change Config.PAGE_SIZE with 4096 in *.
  pose proof (slice_set_slice_disjoint page b (offset * 8) (o * 8) 8) as Hs.
  rewrite Eb in Hs. change (Z.of_nat Config.DATA_SIZE) with 8 in Hs.
  apply Hs; lia.
Qed.

Lemma read_zero_page (e : endian) (o : Z) :
  0 <= o < Z.of_nat slots -> DataPage.read e Page.zero_page o = 0.
Proof.
  intros Ho. unfold DataPage.read, Page._read_bytes, slice, Page.zero_page.
  change DataPage.col_size with 8. change (Z.of_nat slots) with 512 in Ho.
  rewrite repeat_length. change (Z.to_nat Config.PAGE_SIZE) with 4096%nat.
  rewrite !clip_in_range by lia.
  rewrite drop_repeat, take_repeat.
  replace (_ `min` _)%nat with 8%nat by lia.
  by destruct e.
Qed.

End Slots.

(** ** Stepping through a stateful method *)

Section Post.
Context {S : Type}.
Import Py.
Import Total.

Lemma post_ret {A} (R : S -> Prop) (a : A) (s : S) :
  R s -> post R (St.ret a s).
Proof. by split. Qed.

Lemma post_raise {A} (R : S -> Prop) (e : exn) (s : S) :
  is_Exception e = true -> R s -> post R (St.raise (A := A) e s).
Proof. by split. Qed.

Lemma post_lift {A} (R : S -> Prop) (r : res A) (s : S) :
  caught r -> R s -> post R (St.lift r s).
Proof. by split. Qed.

Lemma post_put (R : S -> Prop) (s1 s : S) : R s1 -> post R (St.put s1 s).
Proof. by split. Qed.

Lemma post_bind {A B} (Q R : S -> Prop) (m : St.M S A) (k : A -> St.M S B)
    (s : S) :
  post Q (m s) ->
  (forall s1, Q s1 -> R s1) ->
  (forall a s1, m s = (Ok a, s1) -> Q s1 -> post R (k a s1)) ->
  post R (St.bind m k s).
Proof.
  unfold post, St.bind. intros [Hc HQ] HR Hk.
  destruct (m s) as [[a|e] s1]; simpl in *.
  - by apply Hk.
  - split; [done|]. by apply HR.
Qed.

Lemma post_bind_get {B} (R : S -> Prop) (k : S -> St.M S B) (s : S) :
  post R (k s s) -> post R (St.bind St.get k s).
Proof. done. Qed.

Lemma post_bind_lift {A B} (R : S -> Prop) (r : res A) (k : A -> St.M S B)
    (s : S) :
  caught r -> R s -> (forall a, r = Ok a -> post R (k a s)) ->
  post R (St.bind (St.lift r) k s).
Proof.
  unfold post, St.bind, St.lift. intros Hc HR Hk.
  destruct r as [a|e]; simpl in *; [by apply Hk|done].
Qed.

Lemma post_bind_put {B} (R : S -> Prop) (s1 : S) (k : unit -> St.M S B)
    (s : S) :
  post R (k tt s1) -> post R (St.bind (St.put s1) k s).
Proof. done. Qed.

Lemma post_weaken {A} (Q R : S -> Prop) (x : res A * S) :
  post Q x -> (forall s, Q s -> R s) -> post R x.
Proof. intros [Hc HQ] HR. split; [done|]. by apply HR. Qed.

Lemma post_for_each {A} (R : S -> Prop) (l : list A) (f : A -> St.M S unit) :
  (forall a s, R s -> post R (f a s)) ->
  forall s, R s -> post R (St.for_each l f s).
Proof.
  intros Hf. induction l as [|a l IH]; intros s Hs; simpl.
  - by apply post_ret.
  - apply (post_bind R); [by apply Hf|done|]. intros _ s1 _ Hs1. by apply IH.
Qed.

(** [try: m except Exception: return x] returns. *)
Lemma try_except_returns {A} (R : S -> Prop) (m : St.M S A) (x : A) (s : S) :
  post R (m s) ->
  exists a s', St.try_except m (St.ret x) s = (Ok a, s') /\ R s'.
Proof.
  unfold post, St.try_except. destruct (m s) as [[a|e] s1]; simpl.
  - intros [_ HR]. by exists a, s1.
  - intros [-> HR]. by exists x, s1.
Qed.

Lemma post_try_except {A} (Q R : S -> Prop) (m h : St.M S A) (s : S) :
  post Q (m s) ->
  (forall s1, Q s1 -> R s1) ->
  (forall s1, Q s1 -> post R (h s1)) ->
  post R (St.try_except m h s).
Proof.
  unfold post, St.try_except. intros [Hc HQ] HR Hh.
  destruct (m s) as [[a|e] s1]; simpl in *.
  - split; [done|]. by apply HR.
  - rewrite Hc. by apply Hh.
Qed.

End Post.

(** One step of a method whose state is at hand. *)
Ltac post_step :=
  lazymatch goal with
  | |- Total.post _ (St.bind St.get _ _) => apply post_bind_get
  | |- Total.post _ (St.bind (St.put _) _ _) => apply post_bind_put
  | |- Total.post _ (St.bind (St.lift _) _ _) =>
      apply post_bind_lift; [try solve [caught] | try assumption | intros ? ?]
  | |- Total.post _ (St.ret _ _) => apply post_ret; try assumption
  | |- Total.post _ (St.raise _ _) =>
      apply post_raise; [reflexivity | try assumption]
  | |- Total.post _ (St.lift _ _) =>
      apply post_lift; [try solve [caught] | try assumption]
  | |- Total.post _ (St.put _ _) => apply post_put
  | |- Total.post _ ((if ?b then _ else _) _) => destruct b eqn:?
  | |- Total.post _ ((match ?x with _ => _ end) _) => destruct x eqn:?
  end.

Ltac post := repeat post_step.

(** ** The page directory stays well formed *)

Section DirectoryTotal.
Variable tbl : TableInfo.t.
Import Py.
Import PageDirectory.
Import Total.

Lemma post_bind_modify {B} (R : PageDirectory.t -> Prop)
    (f : PageDirectory.t -> PageDirectory.t) (k : unit -> St.M _ B)
    (d : PageDirectory.t) :
  post R (k tt (f d)) -> post R (St.bind (modify f) k d).
Proof. done. Qed.

Lemma post_modify (R : PageDirectory.t -> Prop)
    (f : PageDirectory.t -> PageDirectory.t) (d : PageDirectory.t) :
  R (f d) -> post R (modify f d).
Proof. by split. Qed.

(** A directory is well formed by its locations, its RID counters and
    its page counters. *)
Lemma directory_ext (n : Z) (d d' : PageDirectory.t) :
  Frame.located d' = Frame.located d ->
  _num_records d' = _num_records d ->
  directory n d -> directory n d'.
Proof.
  unfold Frame.located, directory, ordered, located, Wf.counted.
  intros [= -> _ -> ->] ->. done.
Qed.

Lemma directory_mono (n m : Z) (d : PageDirectory.t) :
  m <= n -> directory n d -> directory m d.
Proof.
  unfold directory, ordered. intros H ((? & ? & ?) & ? & ?).
  repeat split; try done; lia.
Qed.

(** A method that keeps these parts and raises nothing but exceptions
    keeps the directory well formed. *)
Lemma post_keeps {A} (n : Z) (m : St.M PageDirectory.t A)
    (d : PageDirectory.t) :
  Frame.keeps Frame.located m -> Frame.keeps _num_records m ->
  caught (m d).1 -> directory n d -> post (directory n) (m d).
Proof.
  intros H1 H2 Hc Hd. split; [done|].
  by apply (directory_ext n d); [apply H1|apply H2|].
Qed.

Lemma post_bind_read_num_records {B} (R : PageDirectory.t -> Prop) (n : Z)
    (pid : PageId.t) (k : Z -> St.M _ B) (d : PageDirectory.t) :
  directory n d ->
  (forall v d', 0 <= v -> directory n d' -> post R (k v d')) ->
  post R (St.bind (read_num_records pid) k d).
Proof.
  intros Hd Hk. unfold St.bind, read_num_records, dd_get.
  destruct Hd as (Ho & Hc & Hl).
  destruct (_num_records d !! pid) as [v|] eqn:E.
  - apply Hk; [by apply (Hc _ _ E)|]. by destruct d.
  - apply Hk; [done|]. split; [done|]. split; [|done].
    unfold Wf.counted. simpl. by apply map_Forall_insert_2.
Qed.

Lemma post_bind_read_con_bp_num_records {B} (R : PageDirectory.t -> Prop)
    (n : Z) (i : Z) (k : Z -> St.M _ B) (d : PageDirectory.t) :
  directory n d ->
  (forall v d', directory n d' -> post R (k v d')) ->
  post R (St.bind (read_con_bp_num_records i) k d).
Proof.
  intros Hd Hk. unfold St.bind, read_con_bp_num_records.
  destruct (dd_get _ _). apply Hk. by apply (directory_ext n d).
Qed.

Lemma post_bind_read_con_tp_num_records {B} (R : PageDirectory.t -> Prop)
    (n : Z) (i : Z) (k : Z -> St.M _ B) (d : PageDirectory.t) :
  directory n d ->
  (forall v d', directory n d' -> post R (k v d')) ->
  post R (St.bind (read_con_tp_num_records i) k d).
Proof.
  intros Hd Hk. unfold St.bind, read_con_tp_num_records.
  destruct (dd_get _ _). apply Hk. by apply (directory_ext n d).
Qed.

Lemma post_bind_read_con_bp_num_resolved {B} (R : PageDirectory.t -> Prop)
    (n : Z) (i : Z) (k : Z -> St.M _ B) (d : PageDirectory.t) :
  directory n d ->
  (forall v d', directory n d' -> post R (k v d')) ->
  post R (St.bind (read_con_bp_num_resolved i) k d).
Proof.
  intros Hd Hk. unfold St.bind, read_con_bp_num_resolved.
  destruct (dd_get _ _). apply Hk. by apply (directory_ext n d).
Qed.

Lemma post_bind_read_con_tp_num_resolved {B} (R : PageDirectory.t -> Prop)
    (n : Z) (i : Z) (k : Z -> St.M _ B) (d : PageDirectory.t) :
  directory n d ->
  (forall v d', directory n d' -> post R (k v d')) ->
  post R (St.bind (read_con_tp_num_resolved i) k d).
Proof.
  intros Hd Hk. unfold St.bind, read_con_tp_num_resolved.
  destruct (dd_get _ _). apply Hk. by apply (directory_ext n d).
Qed.

Lemma set_num_records_of_post (n : Z) (pid : PageId.t) (v : Z)
    (d : PageDirectory.t) :
  directory n d -> 0 <= v ->
  post (directory n) (set_num_records_of tbl pid v d).
Proof.
  intros Hd Hv. unfold set_num_records_of.
  apply post_bind_lift; [caught|done|intros _ _].
  apply post_bind_modify.
  assert (directory n
            (set_num_records (<[pid := v]> (_num_records d)) d)) as Hd1.
  { destruct Hd as (Ho & Hc & Hl). split; [done|]. split; [|done].
    unfold Wf.counted. simpl. by apply map_Forall_insert_2. }
  destruct (PageId.is_base pid).
  - apply (post_bind_read_con_bp_num_records _ n); [done|].
    intros x d' Hd'. apply post_modify. by apply (directory_ext n d').
  - apply (post_bind_read_con_tp_num_records _ n); [done|].
    intros x d' Hd'. apply post_modify. by apply (directory_ext n d').
Qed.

Lemma ensure_range_exists_post (n : Z) (range_id : Z) (d : PageDirectory.t) :
  directory n d -> post (directory n) (ensure_range_exists range_id d).
Proof.
  intros Hd. unfold ensure_range_exists. apply post_bind_get.
  apply (post_bind (directory n)); [|done|].
  - destruct (_ !! _); [by apply post_ret|]. apply post_modify.
    by apply (directory_ext n d).
  - intros _ d1 _ Hd1. apply post_bind_get.
    destruct (_ !! _); [by apply post_ret|]. apply post_modify.
    by apply (directory_ext n d1).
Qed.

Lemma get_range_bp_idx_post (n : Z) (range_id : Z) (d : PageDirectory.t) :
  directory n d -> post (directory n) (get_range_bp_idx tbl range_id d).
Proof.
  intros Hd. unfold get_range_bp_idx. apply post_bind_get.
  apply post_bind_lift; [caught|done|intros bp_idx _].
  apply (post_bind_read_con_bp_num_records _ n); [done|].
  intros v d1 Hd1. destruct (_ <? _); [by apply post_ret|].
  apply post_bind_get. apply post_bind_modify. apply post_ret.
  by apply (directory_ext n d1).
Qed.

Lemma alloc_bp_loop_post (n : Z) (bps : list PageId.t) :
  forall d, directory n d -> post (directory n) (alloc_bp_loop tbl bps d).
Proof.
  induction bps as [|bp bps IH]; intros d Hd; simpl.
  - by apply post_ret.
  - apply (post_bind_read_num_records _ n); [done|]. intros v d1 Hv Hd1.
    apply (post_bind (directory n)); [|done|].
    + apply set_num_records_of_post; [done|lia].
    + intros _ d2 _ Hd2.
      apply (post_bind (directory n)); [by apply IH|done|].
      intros rest d3 _ Hd3. by apply post_ret.
Qed.

Lemma get_tp_idx_post (n : Z) (bp_idx : Z) (d : PageDirectory.t) :
  directory n d -> post (directory n) (get_tp_idx tbl bp_idx d).
Proof.
  intros Hd. unfold get_tp_idx. apply post_bind_get.
  apply post_bind_lift; [caught|done|intros tp_idx _].
  apply (post_bind (directory n)); [|done|].
  - destruct tp_idx as [i|]; [|by apply post_ret].
    apply (post_bind_read_con_tp_num_records _ n); [done|].
    intros v d1 Hd1. by apply post_ret.
  - intros full d1 _ Hd1.
    assert (post (directory n)
              (St.bind St.get
                 (fun d : PageDirectory.t =>
                    St.bind
                      (modify
                         (fun d0 =>
                            set_con_tp_owner
                              (<[_unused_tp_idx d := bp_idx]>
                                 (_con_tp_owner d0))
                              (set_con_bp_last_con_tp
                                 (<[bp_idx := Some (_unused_tp_idx d)]>
                                    (_con_bp_last_con_tp d0))
                                 (set_unused_tp_idx (_unused_tp_idx d0 + 1)
                                    d0))))
                      (fun _ => St.ret (_unused_tp_idx d))) d1)) as Hnew.
    { apply post_bind_get, post_bind_modify, post_ret.
      by apply (directory_ext n d1). }
    destruct tp_idx as [i|]; [destruct full|]; first
      [exact Hnew | by apply post_ret].
Qed.

Lemma alloc_tp_loop_post (n : Z) (schema_encoding : bitarray)
    (tps : list PageId.t) :
  forall d,
    directory n d ->
    post (directory n) (alloc_tp_loop tbl schema_encoding tps d).
Proof.
  induction tps as [|tp tps IH]; intros d Hd; cbn [alloc_tp_loop].
  - by apply post_ret.
  - apply (post_bind (directory n)); [|done|].
    + destruct (_ <=? _)%nat; [|by apply post_ret].
      apply post_bind_lift; [caught|done|intros b _]. by apply post_ret.
    + intros skip d1 _ Hd1. destruct skip; [by apply IH|].
      apply (post_bind_read_num_records _ n); [done|]. intros v d2 Hv Hd2.
      apply (post_bind (directory n)); [|done|].
      * apply set_num_records_of_post; [done|lia].
      * intros _ d3 _ Hd3.
        apply (post_bind (directory n)); [by apply IH|done|].
        intros rest d4 _ Hd4. by apply post_ret.
Qed.

Lemma mark_resolved_post (n : Z) (rid : Z) (d : PageDirectory.t) :
  directory n d -> post (directory n) (mark_resolved tbl rid d).
Proof.
  intros Hd. unfold mark_resolved. apply post_bind_get.
  apply post_bind_lift; [caught|done|intros locs _].
  apply post_bind_lift; [caught|done|intros page_id _].
  destruct (PageLocation.is_base page_id).
  - apply (post_bind_read_con_bp_num_resolved _ n); [done|].
    intros v d1 Hd1. apply post_modify. by apply (directory_ext n d1).
  - apply (post_bind_read_con_tp_num_resolved _ n); [done|].
    intros v d1 Hd1. apply post_bind_modify. apply post_bind_get.
    assert (directory n
              (set_con_tp_num_resolved
                 (<[PageLocation.page_index page_id := v + 1]>
                    (_con_tp_num_resolved d1)) d1)) as Hd2
      by by apply (directory_ext n d1).
    apply post_bind_lift; [caught|done|intros bp_idx _].
    apply (post_bind_read_con_bp_num_resolved _ n); [done|].
    intros b d3 Hd3. destruct (negb _); [by apply post_ret|].
    apply (post_bind_read_con_tp_num_resolved _ n); [done|].
    intros c d4 Hd4. destruct (negb _); [by apply post_ret|].
    apply post_modify. by apply (directory_ext n d4).
Qed.

Lemma notify_resolve_post (n : Z) (rids : list Z) (d : PageDirectory.t) :
  directory n d -> post (directory n) (notify_resolve tbl rids d).
Proof.
  intros Hd. unfold notify_resolve. apply post_for_each; [|done].
  intros rid d1 Hd1. by apply mark_resolved_post.
Qed.

Lemma max_recs_slots : _con_page_max_recs tbl <= Z.of_nat slots.
Proof. unfold _con_page_max_recs. apply Z.le_min_r. Qed.

Lemma zip_seq_lookup {A} (l : list A) (p : nat * A) :
  p ∈ zip (seq 0 (length l)) l -> l !! p.1 = Some p.2.
Proof.
  intros (i & x & y & -> & Hx & Hy)%elem_of_lookup_zip_with.
  apply lookup_seq in Hx as [-> _]. done.
Qed.

(** The locations that [__alloc_bp_space] returns are those of a base
    record. *)
Lemma base_struct_columns_of (locs : list PageLocation.t) (start : PageId.t)
    (num_raw_cols : nat) :
  map PageLocation.id locs = columns_of start num_raw_cols ->
  PageId.is_base start = true ->
  Forall (fun l => 0 <= PageLocation.offset l
                   /\ PageLocation.offset l + 1 <= _con_page_max_recs tbl)
    locs ->
  base_struct locs.
Proof.
  intros Hids Hb Hin. unfold base_struct. apply Forall_forall.
  intros p Hp%zip_seq_lookup.
  assert (columns_of start num_raw_cols !! p.1 = Some (PageLocation.id p.2))
    as Hc by by rewrite <- Hids, list_lookup_fmap, Hp.
  unfold columns_of in Hc. rewrite list_lookup_fmap in Hc.
  destruct (seq 0 num_raw_cols !! p.1) as [j|] eqn:Ej; [|done].
  apply lookup_seq in Ej as [-> _]. simpl in Hc. apply (inj Some) in Hc.
  rewrite Forall_forall in Hin.
  destruct (Hin p.2) as [? ?]; [by apply list_elem_of_lookup_2 in Hp|].
  pose proof max_recs_slots.
  split; [|split; [|split; lia]].
  - apply (f_equal PageId.is_base) in Hc. simpl in Hc. congruence.
  - apply (f_equal PageId.raw_column_index) in Hc. simpl in Hc. congruence.
Qed.

(** The locations that [__alloc_tp_space] returns are those of a tail
    record. *)
Lemma tail_struct_kept (locs : list PageLocation.t)
    (schema_encoding : bitarray) (tp_idx : Z) :
  map PageLocation.id locs
  = List.filter (Encoding.kept schema_encoding)
      (columns_of (PageId.mk (TableInfo.name tbl) 0 false tp_idx)
         (TableInfo.num_raw_cols tbl)) ->
  Forall (fun l => 0 <= PageLocation.offset l
                   /\ PageLocation.offset l + 1 <= _con_page_max_recs tbl)
    locs ->
  tail_struct locs.
Proof.
  intros Hids Hin. unfold tail_struct. apply Forall_forall.
  intros p Hp%zip_seq_lookup.
  assert (map PageLocation.id locs !! p.1 = Some (PageLocation.id p.2))
    as Hc by by rewrite list_lookup_fmap, Hp.
  rewrite Forall_forall in Hin.
  destruct (Hin p.2) as [? ?]; [by apply list_elem_of_lookup_2 in Hp|].
  pose proof max_recs_slots.
  assert (PageId.is_base (PageLocation.id p.2) = false) as Hb
    by (apply (tail_pages_not_base tbl _ _ _ _ Hids);
        by apply list_elem_of_lookup_2 in Hp).
  split; [done|].
  rewrite Hids in Hc. revert Hc.
  unfold TableInfo.num_raw_cols. rewrite Nat.add_comm. unfold columns_of.
  cbn [Config.NUM_META_COLS Nat.add seq map List.filter].
  unfold Encoding.kept at 1 2 3 4 5. cbn [PageId.raw_column_index Nat.ltb
    Nat.leb Config.NUM_META_COLS orb].
  intros Hc. split; [|split; [|split; lia]].
  - intros Hlt. unfold Config.NUM_META_COLS in Hlt.
    destruct p.1 as [|[|[|[|[|i]]]]]; try lia; cbn in Hc;
      apply (inj Some) in Hc;
      by apply (f_equal PageId.raw_column_index) in Hc.
  - intros Hge. unfold Config.NUM_META_COLS in Hge |- *.
    destruct p.1 as [|[|[|[|[|i]]]]]; try lia. cbn in Hc.
    apply list_elem_of_lookup_2, list_elem_of_In, filter_In in Hc as [Hc _].
    apply in_map_iff in Hc as (j & Hj & Hc%in_seq).
    apply (f_equal PageId.raw_column_index) in Hj. simpl in Hj.
    change (PageId.raw_column_index (PageLocation.id p.2))
      with (PageLocation.raw_column_index p.2) in Hj. lia.
Qed.

Lemma located_insert (d : PageDirectory.t) (rid : Z)
    (locs : list PageLocation.t) :
  located d ->
  (Config.BASE_RID_BEGIN <= rid < _unused_base_rid d /\ base_struct locs)
  \/ (_unused_tail_rid d < rid <= Config.TAIL_RID_BEGIN /\ tail_struct locs) ->
  located (set_offsets (<[rid := locs]> (_offsets d)) d).
Proof. intros Hl H. unfold located. simpl. by apply map_Forall_insert_2. Qed.

Lemma alloc_base_rid_post (n : Z) (d : PageDirectory.t) :
  0 <= n -> directory (n + 1) d ->
  post (directory n) (alloc_base_rid tbl d).
Proof.
  intros Hn Hd. unfold alloc_base_rid. apply post_bind_get.
  apply post_bind_modify.
  set (d1 := set_unused_base_rid (_unused_base_rid d + 1) d).
  assert (directory n d1) as Hd1.
  { destruct Hd as ((? & ? & ?) & Hc & Hl). split; [|split; [done|]].
    - unfold ordered. simpl. lia.
    - unfold located in *. simpl. eapply map_Forall_impl; [exact Hl|].
      intros rid locs [[? ?]|[? ?]]; [left|right]; (split; [lia|done]). }
  apply post_bind_lift; [caught|done|intros range_id _].
  apply (post_bind (directory n));
    [by apply ensure_range_exists_post|done|].
  intros [] d2 E2 Hd2.
  apply (post_bind (directory n)); [by apply get_range_bp_idx_post|done|].
  intros bp_idx d3 E3 Hd3.
  apply (post_bind (directory n)); [by apply alloc_bp_loop_post|done|].
  intros locs d4 E4 Hd4.
  apply post_bind_modify, post_bind_modify, post_ret.
  pose proof (keeps_eq _ _ _ _ _ (ensure_range_exists_keeps _) E2) as K2.
  pose proof (keeps_eq _ _ _ _ _ (get_range_bp_idx_keeps tbl _) E3) as K3.
  pose proof (keeps_eq _ _ _ _ _ (alloc_bp_loop_keeps tbl _) E4) as K4.
  rewrite K3, K2 in K4. unfold Frame.located in K4. simpl in K4.
  injection K4 as Ko Ktp Kb Kt.
  destruct (alloc_bp_loop_Ok _ _ _ _ _ E4) as (_ & Hids & Hin);
    [by destruct Hd3 as (_ & ? & _)|].
  destruct Hd4 as (Ho4 & Hc4 & Hl4).
  split; [done|]. split; [done|].
  apply (located_insert d4); [done|]. left. split.
  - destruct Hd as ((? & ? & ?) & _). lia.
  - by apply (base_struct_columns_of _ _ _ Hids).
Qed.

Lemma alloc_tail_rid_post (n : Z) (base_rid : val)
    (schema_encoding : bitarray) (d : PageDirectory.t) :
  0 <= n -> directory (n + 1) d ->
  post (directory n) (alloc_tail_rid tbl base_rid schema_encoding d).
Proof.
  intros Hn Hd. unfold alloc_tail_rid. apply post_bind_get.
  apply post_bind_modify.
  set (d1 := set_unused_tail_rid (_unused_tail_rid d - 1) d).
  assert (directory n d1) as Hd1.
  { destruct Hd as ((? & ? & ?) & Hc & Hl). split; [|split; [done|]].
    - unfold ordered. simpl. lia.
    - unfold located in *. simpl. eapply map_Forall_impl; [exact Hl|].
      intros rid locs [[? ?]|[? ?]]; [left|right]; (split; [lia|done]). }
  apply post_bind_lift; [caught|done|intros b _].
  apply post_bind_lift; [caught|done|intros range_id _].
  apply (post_bind (directory n));
    [by apply ensure_range_exists_post|done|].
  intros [] d2 E2 Hd2. apply post_bind_get.
  apply post_bind_lift; [caught|done|intros blocs _].
  apply post_bind_lift; [caught|done|intros first _].
  apply (post_bind (directory n)); [by apply get_tp_idx_post|done|].
  intros tp_idx d3 E3 Hd3.
  apply (post_bind (directory n)); [by apply alloc_tp_loop_post|done|].
  intros locs d4 E4 Hd4.
  apply post_bind_modify, post_ret.
  pose proof (keeps_eq _ _ _ _ _ (ensure_range_exists_keeps _) E2) as K2.
  pose proof (keeps_eq _ _ _ _ _ (get_tp_idx_keeps tbl _) E3) as K3.
  pose proof (keeps_eq _ _ _ _ _ (alloc_tp_loop_keeps tbl _ _) E4) as K4.
  rewrite K3, K2 in K4. unfold Frame.located in K4. simpl in K4.
  injection K4 as Ko Ktp Kb Kt.
  destruct (alloc_tp_loop_Ok _ _ _ _ _ _ E4) as (_ & Hids & Hin);
    [by destruct Hd3 as (_ & ? & _)|].
  destruct Hd4 as (Ho4 & Hc4 & Hl4).
  split; [done|]. split; [done|].
  apply (located_insert d4); [done|]. right. split.
  - destruct Hd as ((? & ? & ?) & _). lia.
  - by apply (tail_struct_kept _ _ _ Hids).
Qed.

End DirectoryTotal.

(** * Further properties of the code *)

(** ** [index.py] *)

Section IndexFacts.
Import Py.

Lemma sorted_set_add_elem (rid x : Z) (s : list Z) :
  x ∈ SortedSet.add rid s <-> x = rid \/ x ∈ s.
Proof.
  induction s as [|y s IH]; simpl.
  - rewrite list_elem_of_singleton. split; [by left|]. intros [?|H]; [done|].
    by apply elem_of_nil in H.
  - destruct (Z.ltb_spec rid y).
    + rewrite elem_of_cons. tauto.
    + destruct (Z.eqb_spec rid y) as [->|].
      * rewrite elem_of_cons. tauto.
      * rewrite !elem_of_cons, IH. tauto.
Qed.

Lemma sorted_set_discard_add (rid : Z) (s : list Z) :
  rid ∉ s -> SortedSet.discard rid (SortedSet.add rid s) = s.
Proof.
  induction s as [|y s IH]; simpl; intros Hn.
  - by rewrite Z.eqb_refl.
  - apply not_elem_of_cons in Hn as [Hy Hs].
    destruct (Z.ltb_spec rid y); simpl.
    + by rewrite Z.eqb_refl.
    + destruct (Z.eqb_spec rid y) as [->|]; [done|]. simpl.
      destruct (Z.eqb_spec rid y); [done|]. by rewrite IH.
Qed.

Lemma sorted_set_mem_add (rid : Z) (s : list Z) :
  SortedSet.mem rid (SortedSet.add rid s) = true.
Proof.
  unfold SortedSet.mem. apply existsb_exists. exists rid.
  split; [|apply Z.eqb_refl].
  apply list_elem_of_In, sorted_set_add_elem. by left.
Qed.

(** X1.  [RangedIndex.add], when it returns: the RID is found under the
    value, together with the RIDs that were there, and the buckets of
    the other values are as before. *)
Theorem ranged_index_add_locate (value rid : Z) (ix ix' : RangedIndex.t) :
  RangedIndex.add value rid ix = Ok ix' ->
  (forall x, x ∈ RangedIndex.locate value ix'
             <-> x = rid \/ x ∈ RangedIndex.locate value ix)
  /\ (forall v, v <> value ->
        RangedIndex.locate v ix' = RangedIndex.locate v ix)
  /\ RangedIndex._is_unique ix' = RangedIndex._is_unique ix.
Proof.
  unfold RangedIndex.add, RangedIndex.locate. destruct (_ && _); [done|].
  intros [= <-]. simpl. split; [|split; [|done]].
  - intros x. rewrite lookup_insert_eq. simpl. apply sorted_set_add_elem.
  - intros v Hv. by rewrite lookup_insert_ne.
Qed.

(** X2.  A unique index holds one RID per value: once [add] has
    succeeded for a value, a second [add] of that value raises
    [UniqueKeyViolationError], whatever the RID. *)
Theorem unique_index_second_add (value rid rid' : Z) (ix ix' : RangedIndex.t) :
  RangedIndex._is_unique ix = true ->
  RangedIndex.add value rid ix = Ok ix' ->
  RangedIndex.locate value ix' = [rid]
  /\ RangedIndex.add value rid' ix' = Raise UniqueKeyViolationError.
Proof.
  unfold RangedIndex.add, RangedIndex.locate. destruct ix as [m u].
  simpl. intros ->. cbn [andb]. case_bool_decide as Hs; [done|].
  intros [= <-]. simpl. rewrite lookup_insert_eq. simpl.
  split; [|done].
  destruct (m !! value) eqn:E; [|done].
  exfalso. apply Hs. by eexists.
Qed.

(** X3.  [remove] undoes [add]: removing the pair that [add] has just
    put into the index gives back, for every value, the RIDs found
    before, provided the RID was not yet under the value. *)
Theorem ranged_index_remove_add (value rid : Z) (ix ix' : RangedIndex.t) :
  rid ∉ RangedIndex.locate value ix ->
  RangedIndex.add value rid ix = Ok ix' ->
  exists ix'',
    RangedIndex.remove value (Some rid) ix' = Ok ix''
    /\ forall v, RangedIndex.locate v ix'' = RangedIndex.locate v ix.
Proof.
  unfold RangedIndex.add, RangedIndex.remove, RangedIndex.locate.
  destruct ix as [m u]. simpl.
  intros Hn. destruct u; cbn [andb].
  - case_bool_decide as Hs; [done|]. intros [= <-]. simpl.
    rewrite lookup_insert_eq. eexists. split; [done|]. simpl.
    intros v. destruct (decide (v = value)) as [->|].
    + rewrite lookup_delete_eq.
      destruct (m !! value) eqn:E; [|done].
      exfalso. apply Hs. by eexists.
    + by rewrite lookup_delete_ne, lookup_insert_ne.
  - intros [= <-]. simpl. rewrite lookup_insert_eq.
    unfold SortedSet.remove. rewrite sorted_set_mem_add. cbn [bind].
    eexists. split; [done|]. simpl. intros v.
    destruct (decide (v = value)) as [->|].
    + rewrite lookup_insert_eq. simpl. by rewrite sorted_set_discard_add.
    + by rewrite !lookup_insert_ne.
Qed.

Lemma locate_range_elem (first last rid : Z) (ix : RangedIndex.t) :
  rid ∈ RangedIndex.locate_range first last ix
  <-> exists value,
        first <= value <= last /\ rid ∈ RangedIndex.locate value ix.
Proof.
  unfold RangedIndex.locate_range, RangedIndex.irange, RangedIndex.locate.
  rewrite list_elem_of_In, in_flat_map. split.
  - intros (v & Hv & Hr). exists v. apply list_elem_of_In in Hv, Hr.
    rewrite merge_sort_Permutation in Hv.
    apply list_elem_of_filter in Hv as [Hv _]. done.
  - intros (v & Hv & Hr). exists v. split; [|by apply list_elem_of_In].
    apply list_elem_of_In. rewrite merge_sort_Permutation.
    apply list_elem_of_filter. split; [done|].
    destruct (RangedIndex._index ix !! v) as [rids|] eqn:E;
      [|by apply elem_of_nil in Hr].
    apply list_elem_of_fmap. exists (v, rids). split; [done|].
    by apply elem_of_map_to_list.
Qed.

(** X4.  [locate_range(begin, end)] returns exactly the RIDs found
    under the values between [begin] and [end], both included. *)
Theorem locate_range_spec (first last rid : Z) (ix : RangedIndex.t) :
  rid ∈ RangedIndex.locate_range first last ix
  <-> exists value,
        first <= value <= last /\ rid ∈ RangedIndex.locate value ix.
Proof. apply locate_range_elem. Qed.

End IndexFacts.

Lemma ranged_index_add_locate_witness :
  RangedIndex.add 7 1001 Demo.ix1 = Py.Ok Demo.ix7
  /\ (forall x,
        x ∈ RangedIndex.locate 7 Demo.ix7
        <-> x = 1001 \/ x ∈ RangedIndex.locate 7 Demo.ix1)
  /\ (forall v, v <> 7 ->
        RangedIndex.locate v Demo.ix7 = RangedIndex.locate v Demo.ix1)
  /\ RangedIndex._is_unique Demo.ix7 = RangedIndex._is_unique Demo.ix1.
Proof.
  assert (H : RangedIndex.add 7 1001 Demo.ix1 = Py.Ok Demo.ix7)
    by (vm_compute; reflexivity).
  split; [exact H|].
  exact (ranged_index_add_locate 7 1001 Demo.ix1 Demo.ix7 H).
Defined.

Lemma unique_index_second_add_witness :
  RangedIndex._is_unique Demo.ix1 = true
  /\ RangedIndex.add 7 1001 Demo.ix1 = Py.Ok Demo.ix7
  /\ RangedIndex.locate 7 Demo.ix7 = [1001]
  /\ RangedIndex.add 7 1002 Demo.ix7 = Py.Raise Py.UniqueKeyViolationError.
Proof.
  assert (H1 : RangedIndex._is_unique Demo.ix1 = true)
    by (vm_compute; reflexivity).
  assert (H2 : RangedIndex.add 7 1001 Demo.ix1 = Py.Ok Demo.ix7)
    by (vm_compute; reflexivity).
  split; [exact H1|]. split; [exact H2|].
  exact (unique_index_second_add 7 1001 1002 Demo.ix1 Demo.ix7 H1 H2).
Defined.

Lemma ranged_index_remove_add_witness :
  (1001 ∉ RangedIndex.locate 7 Demo.ix1)
  /\ RangedIndex.add 7 1001 Demo.ix1 = Py.Ok Demo.ix7
  /\ exists ix'',
       RangedIndex.remove 7 (Some 1001) Demo.ix7 = Py.Ok ix''
       /\ forall v, RangedIndex.locate v ix'' = RangedIndex.locate v Demo.ix1.
Proof.
  assert (H1 : 1001 ∉ RangedIndex.locate 7 Demo.ix1).
  { assert (E : RangedIndex.locate 7 Demo.ix1 = [])
      by (vm_compute; reflexivity).
    rewrite E. apply not_elem_of_nil. }
  assert (H2 : RangedIndex.add 7 1001 Demo.ix1 = Py.Ok Demo.ix7)
    by (vm_compute; reflexivity).
  split; [exact H1|]. split; [exact H2|].
  exact (ranged_index_remove_add 7 1001 Demo.ix1 Demo.ix7 H1 H2).
Defined.

(** ** [transaction_tracker.py] *)

Section TrackerFacts.
Import Py.

(** X5.  The outcome of a transaction is recorded once: when a
    timestamp is in the tracker, marking it again, committed or
    aborted, raises [ValueError], and no marking of any timestamp
    changes what is recorded for it. *)
Theorem tracker_outcome_is_final (a : gmap Z bool) (timestamp other : Z)
    (outcome : bool) :
  a !! timestamp = Some outcome ->
  TransactionTracker.mark_committed timestamp a = (Raise ValueError, a)
  /\ TransactionTracker.mark_aborted timestamp a = (Raise ValueError, a)
  /\ (TransactionTracker.mark_committed other a).2 !! timestamp = Some outcome
  /\ (TransactionTracker.mark_aborted other a).2 !! timestamp = Some outcome.
Proof.
  intros H. unfold TransactionTracker.mark_committed,
    TransactionTracker.mark_aborted. rewrite H.
  split; [done|]. split; [done|].
  destruct (a !! other) eqn:E; simpl; [done|].
  assert (other <> timestamp) by congruence.
  by rewrite !lookup_insert_ne.
Qed.

(** X6.  A pending transaction that is marked committed reads as
    committed, not aborted and not pending, and one that is marked
    aborted reads as aborted; the other timestamps read as before. *)
Theorem tracker_mark_then_read (a : gmap Z bool) (timestamp : Z) :
  TransactionTracker.is_maybe_pending timestamp a = true ->
  (exists a',
     TransactionTracker.mark_committed timestamp a = (Ok tt, a')
     /\ TransactionTracker.is_committed timestamp a' = true
     /\ TransactionTracker.is_aborted timestamp a' = false
     /\ TransactionTracker.is_maybe_pending timestamp a' = false
     /\ forall t, t <> timestamp -> a' !! t = a !! t)
  /\ (exists a',
        TransactionTracker.mark_aborted timestamp a = (Ok tt, a')
        /\ TransactionTracker.is_committed timestamp a' = false
        /\ TransactionTracker.is_aborted timestamp a' = true
        /\ TransactionTracker.is_maybe_pending timestamp a' = false
        /\ forall t, t <> timestamp -> a' !! t = a !! t).
Proof.
  unfold TransactionTracker.is_maybe_pending. intros H%bool_decide_eq_true.
  unfold TransactionTracker.mark_committed, TransactionTracker.mark_aborted,
    TransactionTracker.is_committed, TransactionTracker.is_aborted,
    TransactionTracker.is_maybe_pending.
  rewrite H. split; eexists; (split; [reflexivity|]);
    rewrite !lookup_insert_eq; simpl; repeat split; try done;
    intros t Ht; by rewrite lookup_insert_ne.
Qed.

End TrackerFacts.

Lemma tracker_outcome_is_final_witness :
  ({[5 := false]} : gmap Z bool) !! 5 = Some false
  /\ TransactionTracker.mark_committed 5 {[5 := false]}
     = (Py.Raise Py.ValueError, {[5 := false]})
  /\ TransactionTracker.mark_aborted 5 {[5 := false]}
     = (Py.Raise Py.ValueError, {[5 := false]})
  /\ (TransactionTracker.mark_committed 9 {[5 := false]}).2 !! 5 = Some false
  /\ (TransactionTracker.mark_aborted 9 {[5 := false]}).2 !! 5 = Some false.
Proof.
  assert (H : ({[5 := false]} : gmap Z bool) !! 5 = Some false)
    by (vm_compute; reflexivity).
  split; [exact H|].
  exact (tracker_outcome_is_final {[5 := false]} 5 9 false H).
Defined.

Lemma tracker_mark_then_read_witness :
  TransactionTracker.is_maybe_pending 5 (∅ : gmap Z bool) = true
  /\ (exists a',
        TransactionTracker.mark_committed 5 ∅ = (Py.Ok tt, a')
        /\ TransactionTracker.is_committed 5 a' = true
        /\ TransactionTracker.is_aborted 5 a' = false
        /\ TransactionTracker.is_maybe_pending 5 a' = false
        /\ forall t, t <> 5 -> a' !! t = (∅ : gmap Z bool) !! t)
  /\ (exists a',
        TransactionTracker.mark_aborted 5 ∅ = (Py.Ok tt, a')
        /\ TransactionTracker.is_committed 5 a' = false
        /\ TransactionTracker.is_aborted 5 a' = true
        /\ TransactionTracker.is_maybe_pending 5 a' = false
        /\ forall t, t <> 5 -> a' !! t = (∅ : gmap Z bool) !! t).
Proof.
  assert (H : TransactionTracker.is_maybe_pending 5 (∅ : gmap Z bool) = true)
    by (vm_compute; reflexivity).
  split; [exact H|].
  exact (tracker_mark_then_read ∅ 5 H).
Defined.

(** ** [page.py] *)

Section PageFacts.
Import Py.

(** X7.  A slot of a data page: [write(value, offset)] of a signed
    64-bit integer into a slot of a full-size page returns, [read] of
    that slot gives the integer back, the other slots read as before,
    and the page keeps its size. *)
Theorem data_page_slot (e : endian) (page : list byte) (value offset : Z) :
  Z.of_nat (length page) = Config.PAGE_SIZE ->
  0 <= offset < Z.of_nat Total.slots ->
  - 2 ^ 63 <= value < 2 ^ 63 ->
  exists page',
    DataPage.write e page (VInt value) offset = Ok page'
    /\ length page' = length page
    /\ DataPage.read e page' offset = value
    /\ forall o, 0 <= o < Z.of_nat Total.slots -> o <> offset ->
         DataPage.read e page' o = DataPage.read e page o.
Proof.
  intros Hlen Ho Hv.
  destruct (DataPage.write e page (VInt value) offset) as [page'|err] eqn:E.
  - exists page'. split; [done|].
    change (Z.of_nat Total.slots) with 512 in *.
    change Config.PAGE_SIZE with 4096 in *.
    destruct (data_page_write_read _ _ _ _ _ E) as (Hl & v & [= <-] & Hr);
      [lia|change DataPage.col_size with 8; lia|].
    split; [done|]. split; [done|]. intros o Ho' Hne.
    by apply (data_page_write_other _ _ _ _ _ _ E).
  - exfalso. unfold DataPage.write in E. cbn [as_int bind] in E.
    unfold to_bytes in E.
    change (bits_of Config.DATA_SIZE) with 64 in E.
    change (64 - 1) with 63 in E.
    destruct (Z.leb_spec (- 2 ^ 63) value); [|lia].
    destruct (Z.ltb_spec value (2 ^ 63)); [|lia].
    cbn [andb bind] in E. unfold Page._write_bytes, assert in E.
    rewrite order_length, length_le_bytes in E. done.
Qed.

(** X8.  A slot of a schema-encoding page: a bitarray of [num_columns]
    bits written into a slot of a full-size page is read back as it
    was. *)
Theorem schema_page_slot (e : endian) (num_columns : nat)
    (page : list byte) (ba : bitarray) (offset : Z) :
  Z.of_nat (length page) = Config.PAGE_SIZE ->
  length ba = num_columns ->
  0 <= offset ->
  (offset + 1) * SchemaEncodingPage.get_col_size num_columns
  <= Config.PAGE_SIZE ->
  exists page',
    SchemaEncodingPage.write e num_columns page (VBits ba) offset = Ok page'
    /\ length page' = length page
    /\ SchemaEncodingPage.read e num_columns page' offset = ba.
Proof.
  intros Hlen Hba Ho Hin.
  destruct (SchemaEncodingPage.write e num_columns page (VBits ba) offset)
    as [page'|err] eqn:E.
  - exists page'. split; [done|].
    destruct (schema_page_write_read _ _ _ _ _ _ E)
      as (Hl & ba' & [= <-] & Hr); [done|lia|].
    split; [done|]. unfold SchemaEncodingPage.read. rewrite Hr, <- Hba.
    apply frombytes_tobytes.
  - exfalso. unfold SchemaEncodingPage.write, Page._write_bytes, assert in E.
    rewrite length_tobytes, Hba in E.
    unfold SchemaEncodingPage.get_col_size in E.
    rewrite Z2Nat.id in E by (apply Z.div_pos; lia).
    by rewrite Z.eqb_refl in E.
Qed.

End PageFacts.

Lemma data_page_slot_witness :
  Z.of_nat (length Page.zero_page) = Config.PAGE_SIZE
  /\ 0 <= 3 < Z.of_nat Total.slots
  /\ - 2 ^ 63 <= -42 < 2 ^ 63
  /\ exists page',
       DataPage.write Py.Little Page.zero_page (Py.VInt (-42)) 3 = Py.Ok page'
       /\ length page' = length Page.zero_page
       /\ DataPage.read Py.Little page' 3 = -42
       /\ forall o, 0 <= o < Z.of_nat Total.slots -> o <> 3 ->
            DataPage.read Py.Little page' o
            = DataPage.read Py.Little Page.zero_page o.
Proof.
  assert (H1 : Z.of_nat (length Page.zero_page) = Config.PAGE_SIZE)
    by (vm_compute; reflexivity).
  assert (H2 : 0 <= 3 < Z.of_nat Total.slots) by (vm_compute; split; [discriminate|reflexivity]).
  assert (H3 : - 2 ^ 63 <= -42 < 2 ^ 63) by lia.
  split; [exact H1|]. split; [exact H2|]. split; [exact H3|].
  exact (data_page_slot Py.Little Page.zero_page (-42) 3 H1 H2 H3).
Defined.

Lemma schema_page_slot_witness :
  Z.of_nat (length Page.zero_page) = Config.PAGE_SIZE
  /\ length [true; false; true; true; false] = 5%nat
  /\ 0 <= 2
  /\ (2 + 1) * SchemaEncodingPage.get_col_size 5 <= Config.PAGE_SIZE
  /\ exists page',
       SchemaEncodingPage.write Py.Big 5 Page.zero_page
         (Py.VBits [true; false; true; true; false]) 2 = Py.Ok page'
       /\ length page' = length Page.zero_page
       /\ SchemaEncodingPage.read Py.Big 5 page' 2
          = [true; false; true; true; false].
Proof.
  assert (H1 : Z.of_nat (length Page.zero_page) = Config.PAGE_SIZE)
    by (vm_compute; reflexivity).
  assert (H2 : length [true; false; true; true; false] = 5%nat)
    by reflexivity.
  assert (H3 : 0 <= 2) by lia.
  assert (H4 : (2 + 1) * SchemaEncodingPage.get_col_size 5 <= Config.PAGE_SIZE)
    by (vm_compute; discriminate).
  split; [exact H1|]. split; [exact H2|]. split; [exact H3|].
  split; [exact H4|].
  exact (schema_page_slot Py.Big 5 Page.zero_page
           [true; false; true; true; false] 2 H1 H2 H3 H4).
Defined.

(** ** [record.py] *)

Section RecordFacts.
Import Py.

Lemma length_new_ge (key : nat) (l : list val) :
  (Config.NUM_META_COLS <= length (Record.raw_columns (Record.new key l)))%nat.
Proof.
  unfold Record.new.
  assert (Config.NUM_META_COLS
          <= length (l ++ repeat (VInt 0) (Config.NUM_META_COLS - length l)))%nat
    by (rewrite length_app, repeat_length; lia).
  destruct (Record.schema_encoding _); try done.
  all: unfold Record.set_schema_encoding; by rewrite length_set_raw.
Qed.

(** X9.  The data columns of a record: assigning [columns] on a record
    sets the data columns to the assigned list, whatever its length,
    and leaves the five metadata columns and the key column as they
    were. *)
Theorem record_columns_assignment (key : nat) (raw value : list val) :
  let r := Record.new key raw in
  let r' := Record.set_columns r value in
  Record.columns r' = value
  /\ Record.rid r' = Record.rid r
  /\ Record.indirection r' = Record.indirection r
  /\ Record.timestamp r' = Record.timestamp r
  /\ Record.schema_encoding r' = Record.schema_encoding r
  /\ Record.base_rid r' = Record.base_rid r
  /\ Record.key_col r' = Record.key_col r.
Proof.
  intros r r'. pose proof (length_new_ge key raw) as Hl. fold r in Hl.
  assert (Hraw : Record.raw_columns r'
                 = take Config.NUM_META_COLS (Record.raw_columns r) ++ value).
  { unfold r', Record.set_columns. simpl. by apply set_slice_tail. }
  assert (Hm : forall i, (i < Config.NUM_META_COLS)%nat ->
                 Record.raw r' i = Record.raw r i).
  { intros i Hi. unfold Record.raw. rewrite Hraw.
    rewrite app_nth1 by (rewrite length_take; lia).
    rewrite <- (take_drop Config.NUM_META_COLS (Record.raw_columns r)) at 2.
    by rewrite app_nth1 by (rewrite length_take; lia). }
  split.
  { unfold Record.columns. rewrite Hraw.
    rewrite drop_app_length'; [done|]. rewrite length_take. lia. }
  unfold Record.rid, Record.indirection, Record.timestamp,
    Record.schema_encoding, Record.base_rid.
  rewrite !Hm by (vm_compute; lia). done.
Qed.

End RecordFacts.

(** ** [filesystem.py] *)

Section FileFacts.
Import Py.

Lemma length_write_at (f data : list byte) (pos : nat) :
  length (Filesystem.write_at f pos data)
  = Nat.max (length f) (pos + length data).
Proof.
  unfold Filesystem.write_at.
  rewrite !length_app, length_take, repeat_length, length_drop. lia.
Qed.

Lemma write_at_before (f data : list byte) (pos i n : nat) :
  (i + n <= pos)%nat -> (i + n <= length f)%nat ->
  take n (drop i (Filesystem.write_at f pos data)) = take n (drop i f).
Proof.
  intros H1 H2. unfold Filesystem.write_at.
  rewrite drop_app_le by (rewrite length_take; lia).
  rewrite take_app_le by (rewrite length_drop, length_take; lia).
  rewrite !take_drop_commute, take_take. f_equal. f_equal. lia.
Qed.

Lemma write_at_after (f data : list byte) (pos i : nat) :
  (pos + length data <= i)%nat -> (pos <= length f)%nat ->
  drop i (Filesystem.write_at f pos data) = drop i f.
Proof.
  intros H1 H2. unfold Filesystem.write_at.
  replace (pos - length f)%nat with 0%nat by lia. simpl.
  rewrite drop_app_ge by (rewrite length_take; lia).
  rewrite length_take.
  rewrite drop_app_ge by lia.
  rewrite drop_drop. f_equal. lia.
Qed.

Lemma chop_one (data : list byte) :
  length data = Z.to_nat Config.PAGE_SIZE ->
  Filesystem.chop 1 data = [data].
Proof. intros H. simpl. by rewrite <- H, firstn_all. Qed.

(** What [read_pages(page_id, 1)] returns for a page that lies within
    the file. *)
Lemma read_pages_one (fs : Filesystem.t) (page_id : PageId.t)
    (f : list byte) :
  fs !! Filesystem.get_page_path page_id = Some f ->
  0 <= PageId.page_index page_id ->
  (PageId.page_index page_id + 1) * Config.PAGE_SIZE <= Z.of_nat (length f) ->
  Filesystem.read_pages fs page_id 1
  = Ok [take (Z.to_nat Config.PAGE_SIZE)
          (drop (Z.to_nat (PageId.page_index page_id * Config.PAGE_SIZE)) f)].
Proof.
  intros Hf Hi Hin. unfold Filesystem.read_pages. rewrite Hf.
  change (1 =? 0) with false. cbv iota.
  change Config.PAGE_SIZE with 4096 in *.
  destruct (Z.ltb_spec (PageId.page_index page_id * 4096) 0); [lia|].
  assert (1 <= (Z.of_nat (length f) - PageId.page_index page_id * 4096) / 4096).
  { apply Z.div_le_lower_bound; lia. }
  rewrite Z.min_r by lia. change (1 <=? 0) with false. cbv iota.
  change (Z.to_nat 1) with 1%nat. change (1 * 4096) with 4096.
  rewrite chop_one; [done|].
  rewrite length_take, length_drop. change Config.PAGE_SIZE with 4096. lia.
Qed.

(** X10.  A page written with [write_page] is the page that
    [read_pages] reads at that index afterwards; the other pages of the
    column file and the other column files read as before.  Writing
    past the end makes the file longer. *)
Theorem write_page_read_pages (fs : Filesystem.t) (page_id : PageId.t)
    (data f : list byte) :
  fs !! Filesystem.get_page_path page_id = Some f ->
  0 <= PageId.page_index page_id ->
  Z.of_nat (length data) = Config.PAGE_SIZE ->
  exists fs',
    Filesystem.write_page page_id data fs = (Ok tt, fs')
    /\ Filesystem.read_pages fs' page_id 1 = Ok [data]
    /\ (forall q,
          Filesystem.get_page_path q = Filesystem.get_page_path page_id ->
          PageId.page_index q <> PageId.page_index page_id ->
          0 <= PageId.page_index q ->
          (PageId.page_index q + 1) * Config.PAGE_SIZE
          <= Z.of_nat (length f) ->
          Filesystem.read_pages fs' q 1 = Filesystem.read_pages fs q 1)
    /\ (forall q count,
          Filesystem.get_page_path q <> Filesystem.get_page_path page_id ->
          Filesystem.read_pages fs' q count = Filesystem.read_pages fs q count).
Proof.
  intros Hf Hi Hd. unfold Filesystem.write_page. rewrite Hf.
  change Config.PAGE_SIZE with 4096 in *.
  destruct (Z.ltb_spec (PageId.page_index page_id * 4096) 0); [lia|].
  eexists. split; [reflexivity|].
  set (pos := Z.to_nat (PageId.page_index page_id * 4096)).
  pose proof (length_write_at f data pos) as Hlen.
  split; [|split].
  - rewrite (read_pages_one _ _ (Filesystem.write_at f pos data)).
    + change (Z.to_nat Config.PAGE_SIZE) with 4096%nat.
      replace 4096%nat with (length data) by lia.
      fold pos. by rewrite write_at_read.
    + by rewrite lookup_insert_eq.
    + done.
    + change Config.PAGE_SIZE with 4096. lia.
  - intros q Hq Hne Hq0 Hqin.
    rewrite (read_pages_one _ q (Filesystem.write_at f pos data)).
    + rewrite (read_pages_one fs q f); [|by rewrite Hq|done|done].
      f_equal. f_equal.
      change Config.PAGE_SIZE with 4096 in *.
      change (Z.to_nat 4096) with 4096%nat.
      set (i := Z.to_nat (PageId.page_index q * 4096)).
      destruct (Z.lt_ge_cases (PageId.page_index q)
                  (PageId.page_index page_id)).
      * apply write_at_before; unfold i, pos; lia.
      * f_equal. apply write_at_after; unfold i, pos; lia.
    + by rewrite Hq, lookup_insert_eq.
    + done.
    + change Config.PAGE_SIZE with 4096 in *. lia.
  - intros q count Hq. unfold Filesystem.read_pages.
    by rewrite lookup_insert_ne.
Qed.

End FileFacts.

Lemma write_page_read_pages_witness :
  ({[Evicted.file0 := repeat x00 (Z.to_nat Config.PAGE_SIZE)]}
     : Filesystem.t) !! Filesystem.get_page_path (PageId.mk [71] 0 true 2)
  = Some (repeat x00 (Z.to_nat Config.PAGE_SIZE))
  /\ 0 <= PageId.page_index (PageId.mk [71] 0 true 2)
  /\ Z.of_nat (length (repeat x01 (Z.to_nat Config.PAGE_SIZE)))
     = Config.PAGE_SIZE
  /\ exists fs',
       Filesystem.write_page (PageId.mk [71] 0 true 2)
         (repeat x01 (Z.to_nat Config.PAGE_SIZE))
         {[Evicted.file0 := repeat x00 (Z.to_nat Config.PAGE_SIZE)]}
       = (Py.Ok tt, fs')
       /\ Filesystem.read_pages fs' (PageId.mk [71] 0 true 2) 1
          = Py.Ok [repeat x01 (Z.to_nat Config.PAGE_SIZE)]
       /\ (forall q,
             Filesystem.get_page_path q
             = Filesystem.get_page_path (PageId.mk [71] 0 true 2) ->
             PageId.page_index q <> PageId.page_index (PageId.mk [71] 0 true 2) ->
             0 <= PageId.page_index q ->
             (PageId.page_index q + 1) * Config.PAGE_SIZE
             <= Z.of_nat (length (repeat x00 (Z.to_nat Config.PAGE_SIZE))) ->
             Filesystem.read_pages fs' q 1
             = Filesystem.read_pages
                 {[Evicted.file0 := repeat x00 (Z.to_nat Config.PAGE_SIZE)]}
                 q 1)
       /\ (forall q count,
             Filesystem.get_page_path q
             <> Filesystem.get_page_path (PageId.mk [71] 0 true 2) ->
             Filesystem.read_pages fs' q count
             = Filesystem.read_pages
                 {[Evicted.file0 := repeat x00 (Z.to_nat Config.PAGE_SIZE)]}
                 q count).
Proof.
  assert (H1 : ({[Evicted.file0 := repeat x00 (Z.to_nat Config.PAGE_SIZE)]}
                  : Filesystem.t)
               !! Filesystem.get_page_path (PageId.mk [71] 0 true 2)
               = Some (repeat x00 (Z.to_nat Config.PAGE_SIZE)))
    by (vm_compute; reflexivity).
  assert (H2 : 0 <= PageId.page_index (PageId.mk [71] 0 true 2))
    by (vm_compute; discriminate).
  assert (H3 : Z.of_nat (length (repeat x01 (Z.to_nat Config.PAGE_SIZE)))
               = Config.PAGE_SIZE) by (vm_compute; reflexivity).
  split; [exact H1|]. split; [exact H2|]. split; [exact H3|].
  exact (write_page_read_pages _ _ _ _ H1 H2 H3).
Defined.

(** ** [bufferpool.py] *)

Section PoolFacts.
Import Py.

Lemma lookup_remove_frame (p q : PageId.t)
    (frames : list (PageId.t * list byte)) :
  Bufferpool.lookup_frame q (Bufferpool.remove_frame p frames)
  = if bool_decide (q = p) then None else Bufferpool.lookup_frame q frames.
Proof.
  unfold Bufferpool.remove_frame.
  induction frames as [|[r d] frames IH]; [by case_bool_decide|].
  rewrite filter_cons. simpl. destruct (decide (r <> p)) as [Hr|Hr].
  - simpl. rewrite IH. repeat case_bool_decide; congruence.
  - rewrite IH. apply dec_stable in Hr.
    repeat case_bool_decide; congruence.
Qed.

(** What [evict_page] leaves of the pool when it returns: the dirty set
    is as it was, the frame is gone and so is its pin count. *)
Lemma evict_page_rest (p : PageId.t) (b b' : Bufferpool.t) :
  Bufferpool.evict_page p b = (Ok tt, b') ->
  Bufferpool._dirty b' = Bufferpool._dirty b
  /\ Bufferpool._frames b' = Bufferpool.remove_frame p (Bufferpool._frames b)
  /\ Bufferpool._pins b' = delete p (Bufferpool._pins b).
Proof.
  unfold Bufferpool.evict_page, St.bind, Bufferpool.read_pins.
  rewrite pins_dd_get. simpl.
  destruct (Z.eqb_spec (default 0 (Bufferpool._pins b !! p)) 0) as [H0|H0];
    simpl; [|discriminate].
  unfold St.get, St.raise, St.ret, St.zoom, Bufferpool.modify,
    Bufferpool.resident. simpl.
  assert (Hdel : delete p
                   (match Bufferpool._pins b !! p with
                    | Some _ => Bufferpool._pins b
                    | None => <[p := 0]> (Bufferpool._pins b)
                    end) = delete p (Bufferpool._pins b)).
  { destruct (Bufferpool._pins b !! p) eqn:E; [done|].
    by rewrite delete_insert_eq. }
  case_bool_decide as Hd.
  - destruct (Bufferpool.lookup_frame p (Bufferpool._frames b)) as [data|] eqn:El;
      simpl; [|discriminate].
    unfold Filesystem.write_page.
    destruct (Bufferpool.files b !! Filesystem.get_page_path p) as [f|] eqn:Ef;
      simpl; [|discriminate].
    destruct (Z.ltb_spec (PageId.page_index p * Config.PAGE_SIZE) 0);
      simpl; [discriminate|].
    rewrite El. rewrite bool_decide_eq_true_2 by eauto. simpl.
    intros [= <-]. simpl. by rewrite Hdel.
  - simpl.
    destruct (Bufferpool.lookup_frame p (Bufferpool._frames b)) as [data|] eqn:El.
    + rewrite bool_decide_eq_true_2 by eauto. simpl.
      intros [= <-]. simpl. by rewrite Hdel.
    + rewrite bool_decide_eq_false_2; [simpl; discriminate|].
      by intros [? ?].
Qed.

(** Without other threads the wait returns at once. *)
Lemma wait_unpinned_alone (p : PageId.t) (b : Bufferpool.t) :
  exists b1,
    Bufferpool.wait_unpinned p [] b
    = (Ok (bool_decide (Evicted.pin_count b p = 0)), b1)
    /\ Bufferpool._frames b1 = Bufferpool._frames b
    /\ Bufferpool._dirty b1 = Bufferpool._dirty b
    /\ Bufferpool.files b1 = Bufferpool.files b
    /\ forall q, Evicted.pin_count b1 q = Evicted.pin_count b q.
Proof.
  unfold Bufferpool.wait_unpinned, St.bind, Bufferpool.read_pins,
    Evicted.pin_count.
  rewrite pins_dd_get. simpl.
  eexists. split.
  { destruct (Z.eqb_spec (default 0 (Bufferpool._pins b !! p)) 0);
      unfold St.ret; [by rewrite bool_decide_eq_true_2
                     |by rewrite bool_decide_eq_false_2]. }
  simpl. repeat split. intros q.
  destruct (Bufferpool._pins b !! p) eqn:E; [done|].
  destruct (decide (q = p)) as [->|Hq];
    [by rewrite lookup_insert_eq, E|by rewrite lookup_insert_ne].
Qed.

(** After a [checkpoint] loop that returns, the dirty set is as it was
    and no page of the loop has a frame or a pin count. *)
Lemma checkpoint_loop_ok (dirty : list PageId.t) (b b' : Bufferpool.t) :
  Bufferpool.checkpoint_loop dirty [] b = (Ok tt, b') ->
  Bufferpool._dirty b' = Bufferpool._dirty b
  /\ (forall p,
        Bufferpool.lookup_frame p (Bufferpool._frames b) = None ->
        Bufferpool.lookup_frame p (Bufferpool._frames b') = None)
  /\ (forall p,
        Evicted.pin_count b p = 0 -> Evicted.pin_count b' p = 0)
  /\ forall p, p ∈ dirty ->
       Bufferpool.lookup_frame p (Bufferpool._frames b') = None
       /\ Evicted.pin_count b' p = 0.
Proof.
  revert b. induction dirty as [|page rest IH]; intros b H.
  - injection H as <-. split; [done|]. split; [done|]. split; [done|].
    intros p Hp. by inversion Hp.
  - cbn [Bufferpool.checkpoint_loop] in H. unfold St.bind at 1 in H.
    destruct (wait_unpinned_alone page b) as (b1 & Ew & Hf1 & Hd1 & _ & Hp1).
    rewrite Ew in H. case_bool_decide as H0; [|discriminate].
    unfold St.bind in H.
    destruct (Bufferpool.evict_page page b1) as [[[]|e] b2] eqn:Ee;
      [|discriminate].
    destruct (evict_page_rest _ _ _ Ee) as (Hd2 & Hf2 & Hp2).
    destruct (IH _ H) as (Hd & Hf & Hp & Hin).
    assert (Hnone : forall p,
              Bufferpool.lookup_frame p (Bufferpool._frames b) = None ->
              Bufferpool.lookup_frame p (Bufferpool._frames b2) = None).
    { intros p Hn. rewrite Hf2, lookup_remove_frame, Hf1, Hn.
      by case_bool_decide. }
    assert (Hzero : forall p,
              Evicted.pin_count b p = 0 -> Evicted.pin_count b2 p = 0).
    { intros p Hz. unfold Evicted.pin_count. rewrite Hp2.
      destruct (decide (p = page)) as [->|Hne];
        [by rewrite lookup_delete_eq|].
      rewrite lookup_delete_ne by done. rewrite <- Hp1 in Hz. exact Hz. }
    split; [by rewrite Hd, Hd2, Hd1|].
    split; [intros p Hn; by apply Hf, Hnone|].
    split; [intros p Hz; by apply Hp, Hzero|].
    intros p [->|Hp']%elem_of_cons; [|by apply Hin].
    split.
    + apply Hf. rewrite Hf2, lookup_remove_frame.
      by rewrite bool_decide_eq_true_2.
    + apply Hp. unfold Evicted.pin_count.
      by rewrite Hp2, lookup_delete_eq.
Qed.

(** X11.  [checkpoint] evicts the dirty pages and never takes a page
    out of the dirty set: after a [checkpoint] that found a dirty page
    and returned, the next [checkpoint] of the same thread raises
    [KeyError], because the first dirty page has no frame any more. *)
Theorem checkpoint_twice (b b' : Bufferpool.t) :
  Bufferpool._dirty b <> ∅ ->
  Bufferpool.checkpoint [] b = (Ok tt, b') ->
  Bufferpool._dirty b' = Bufferpool._dirty b
  /\ (forall p, p ∈ Bufferpool._dirty b ->
        Bufferpool.lookup_frame p (Bufferpool._frames b') = None)
  /\ exists b'', Bufferpool.checkpoint [] b' = (Raise KeyError, b'').
Proof.
  intros Hne H. unfold Bufferpool.checkpoint, St.bind, St.get in H.
  destruct (checkpoint_loop_ok _ _ _ H) as (Hd & _ & _ & Hin).
  split; [done|].
  split; [intros p Hp; by apply Hin, elem_of_elements|].
  unfold Bufferpool.checkpoint, St.bind at 1, St.get. rewrite Hd.
  destruct (elements (Bufferpool._dirty b)) as [|p rest] eqn:El.
  { by apply elements_empty_inv, leibniz_equiv in El. }
  destruct (Hin p) as [Hf Hp]; [left|].
  cbn [Bufferpool.checkpoint_loop]. unfold St.bind at 1.
  destruct (wait_unpinned_alone p b') as (b1 & Ew & Hf1 & Hd1 & _ & Hp1).
  rewrite Ew, bool_decide_eq_true_2 by done.
  unfold St.bind at 1, Bufferpool.evict_page, St.bind at 1,
    Bufferpool.read_pins.
  rewrite pins_dd_get. cbn [fst snd].
  fold (Evicted.pin_count b1 p). rewrite Hp1, Hp. cbn [Z.eqb negb].
  unfold St.bind at 1, St.get. cbn [Bufferpool._dirty Bufferpool.set_pins].
  unfold St.bind at 1.
  rewrite bool_decide_eq_true_2
    by (rewrite Hd1, Hd; apply elem_of_elements; rewrite El; left).
  cbn [Bufferpool._frames Bufferpool.set_pins]. rewrite Hf1, Hf.
  unfold St.raise. by eexists.
Qed.

(** X12.  Pinning a resident page returns its buffer and adds one to
    its pin count, without touching the files or the buffers of the
    resident pages; while the page is pinned [evict_page] refuses it,
    and [unpin] brings the count back. *)
Theorem pin_unpin_balance (others : list (St.M Bufferpool.t unit))
    (page_id : PageId.t) (data : list byte) (b : Bufferpool.t) :
  Bufferpool.lookup_frame page_id (Bufferpool._frames b) = Some data ->
  0 <= Evicted.pin_count b page_id ->
  exists b1,
    Bufferpool.pin others page_id b = (Ok data, b1)
    /\ Evicted.pin_count b1 page_id = Evicted.pin_count b page_id + 1
    /\ Bufferpool.files b1 = Bufferpool.files b
    /\ (forall q d,
          Bufferpool.lookup_frame q (Bufferpool._frames b) = Some d ->
          Bufferpool.lookup_frame q (Bufferpool._frames b1) = Some d)
    /\ Bufferpool.evict_page page_id b1 = (Raise ValueError, b1)
    /\ Evicted.pin_count (Bufferpool.unpin page_id b1).2 page_id
       = Evicted.pin_count b page_id.
Proof.
  intros Hl Hn.
  assert (Hmove : forall q d,
            Bufferpool.lookup_frame q (Bufferpool._frames b) = Some d ->
            Bufferpool.lookup_frame q
              (Bufferpool.move_to_end page_id (Bufferpool._frames b))
            = Some d).
  { intros q d Hq. unfold Bufferpool.move_to_end. rewrite Hl.
    generalize (lookup_remove_frame page_id q (Bufferpool._frames b)).
    case_bool_decide as Hqp.
    - subst q. rewrite Hl in Hq. injection Hq as ->.
      generalize (Bufferpool.remove_frame page_id (Bufferpool._frames b)).
      intros l. induction l as [|[r x] l IH]; simpl.
      + intros _. by rewrite bool_decide_eq_true_2.
      + case_bool_decide; [done|]. exact IH.
    - rewrite Hq. intros Hr. by apply lookup_frame_app. }
  unfold Bufferpool.pin, St.bind at 1, St.get.
  unfold Bufferpool.resident. rewrite bool_decide_eq_true_2 by eauto.
  unfold St.bind, Bufferpool.modify, Bufferpool.read_pins. cbn [fst snd].
  cbn [Bufferpool._pins Bufferpool.set_frames].
  rewrite pins_dd_get. cbn [fst snd].
  unfold St.get. cbn [Bufferpool._frames Bufferpool.set_pins
                        Bufferpool.set_frames].
  rewrite (Hmove _ _ Hl). unfold St.ret.
  eexists. split; [reflexivity|].
  unfold Evicted.pin_count in *.
  cbn [Bufferpool._pins Bufferpool.set_pins Bufferpool.set_frames
         Bufferpool.files Bufferpool._frames Bufferpool._dirty].
  rewrite lookup_insert_eq. cbn [default].
  split; [done|]. split; [done|]. split; [exact Hmove|].
  split.
  - apply evict_page_pinned with (n := default 0 (Bufferpool._pins b !! page_id) + 1).
    + simpl. by rewrite lookup_insert_eq.
    + lia.
  - unfold Bufferpool.unpin, St.bind, Bufferpool.read_pins, Bufferpool.modify.
    rewrite pins_dd_get. simpl. rewrite !lookup_insert_eq. simpl.
    rewrite ?lookup_insert_eq. simpl. lia.
Qed.

End PoolFacts.

Lemma checkpoint_twice_witness :
  let out := Bufferpool.checkpoint [] Evicted.pool in
  Bufferpool._dirty Evicted.pool <> ∅
  /\ out = (Py.Ok tt, out.2)
  /\ Bufferpool._dirty out.2 = Bufferpool._dirty Evicted.pool
  /\ (forall p, p ∈ Bufferpool._dirty Evicted.pool ->
        Bufferpool.lookup_frame p (Bufferpool._frames out.2) = None)
  /\ exists b'', Bufferpool.checkpoint [] out.2 = (Py.Raise Py.KeyError, b'').
Proof.
  intros out.
  assert (H1 : Bufferpool._dirty Evicted.pool <> ∅).
  { assert (Hd : Evicted.page0 ∈ Bufferpool._dirty Evicted.pool)
      by (vm_compute; set_solver).
    intros E. rewrite E in Hd. set_solver. }
  assert (H2 : out = (Py.Ok tt, out.2)) by (vm_compute; reflexivity).
  split; [exact H1|]. split; [exact H2|].
  exact (checkpoint_twice Evicted.pool out.2 H1 H2).
Defined.

Lemma pin_unpin_balance_witness :
  Bufferpool.lookup_frame Evicted.page0 (Bufferpool._frames Evicted.pool)
  = Some (repeat x01 (Z.to_nat Config.PAGE_SIZE))
  /\ 0 <= Evicted.pin_count Evicted.pool Evicted.page0
  /\ exists b1,
       Bufferpool.pin [] Evicted.page0 Evicted.pool
       = (Py.Ok (repeat x01 (Z.to_nat Config.PAGE_SIZE)), b1)
       /\ Evicted.pin_count b1 Evicted.page0
          = Evicted.pin_count Evicted.pool Evicted.page0 + 1
       /\ Bufferpool.files b1 = Bufferpool.files Evicted.pool
       /\ (forall q d,
             Bufferpool.lookup_frame q (Bufferpool._frames Evicted.pool)
             = Some d ->
             Bufferpool.lookup_frame q (Bufferpool._frames b1) = Some d)
       /\ Bufferpool.evict_page Evicted.page0 b1 = (Py.Raise Py.ValueError, b1)
       /\ Evicted.pin_count (Bufferpool.unpin Evicted.page0 b1).2 Evicted.page0
          = Evicted.pin_count Evicted.pool Evicted.page0.
Proof.
  assert (H1 : Bufferpool.lookup_frame Evicted.page0
                 (Bufferpool._frames Evicted.pool)
               = Some (repeat x01 (Z.to_nat Config.PAGE_SIZE)))
    by (vm_compute; reflexivity).
  assert (H2 : 0 <= Evicted.pin_count Evicted.pool Evicted.page0)
    by (vm_compute; discriminate).
  split; [exact H1|]. split; [exact H2|].
  exact (pin_unpin_balance [] Evicted.page0 _ Evicted.pool H1 H2).
Defined.

(** ** [wal.py]: the log file as a whole *)

Section LogFile.
Import Py.

Local Abbreviation shrinks p :=
  (forall f x f', p f = Ok (x, f') -> (length f' <= length f)%nat).

Lemma read_shrinks (n : nat) : shrinks (WriteAheadLogParser.read n).
Proof.
  intros f x f' [= _ <-]. rewrite length_drop. lia.
Qed.

Lemma parse_int_shrinks (n : nat) (signed : bool) :
  shrinks (WriteAheadLogParser.parse_int n signed).
Proof.
  intros f x f' [= _ <-]. rewrite length_drop. lia.
Qed.

Lemma parse_query_type_shrinks :
  shrinks WriteAheadLogParser.parse_query_type.
Proof.
  intros f x f' H. unfold WriteAheadLogParser.parse_query_type,
    WriteAheadLogParser.parse_uint, WriteAheadLogParser.parse_int,
    WriteAheadLogParser.read in H. cbn [bind] in H.
  bind_ok H q Eqt. injection H as _ <-. rewrite length_drop. lia.
Qed.

Lemma parse_str_shrinks : shrinks WriteAheadLogParser.parse_str.
Proof.
  intros f x f' H. unfold WriteAheadLogParser.parse_str,
    WriteAheadLogParser.parse_uint, WriteAheadLogParser.parse_int,
    WriteAheadLogParser.read in H. cbn [bind] in H.
  bind_ok H s Es. injection H as _ <-. rewrite !length_drop. lia.
Qed.

Lemma parse_cols_shrinks (n : nat) :
  shrinks (WriteAheadLogParser.parse_cols n).
Proof.
  induction n as [|n IH]; intros f x f' H; cbn in H.
  - injection H as _ <-. lia.
  - destruct (WriteAheadLogParser.parse_cols n _) as [[vs f1]|] eqn:E;
      [|discriminate].
    cbn in H. injection H as _ <-. apply IH in E.
    rewrite length_drop in E. lia.
Qed.

Lemma parse_flags_shrinks (ba : bitarray) :
  shrinks (WriteAheadLogParser.parse_flags ba).
Proof.
  induction ba as [|[] ba IH]; intros f x f' H; cbn in H.
  - injection H as _ <-. lia.
  - destruct (WriteAheadLogParser.parse_flags ba _) as [[vs f1]|] eqn:E;
      [|discriminate].
    cbn in H. injection H as _ <-. apply IH in E.
    rewrite length_drop in E. lia.
  - destruct (WriteAheadLogParser.parse_flags ba _) as [[vs f1]|] eqn:E;
      [|discriminate].
    cbn in H. injection H as _ <-. by apply IH in E.
Qed.

Lemma parse_query_shrinks : shrinks WriteAheadLogParser._parse_query.
Proof.
  intros f x f' H. unfold WriteAheadLogParser._parse_query in H.
  destruct (WriteAheadLogParser.parse_query_type f) as [[qt f1]|] eqn:E1;
    [|discriminate]. cbn [bind] in H.
  destruct (WriteAheadLogParser.parse_str f1) as [[name f2]|] eqn:E2;
    [|discriminate]. cbn [bind] in H.
  apply parse_query_type_shrinks in E1. apply parse_str_shrinks in E2.
  bind_ok H query Eqy.
  assert (length f' <= length f2)%nat; [|lia].
  destruct (RedoQuery.query_type query); try discriminate.
  - unfold WriteAheadLogParser._parse_insert, WriteAheadLogParser.parse_uint,
      WriteAheadLogParser.parse_int, WriteAheadLogParser.read in H.
    cbn [bind] in H.
    destruct (WriteAheadLogParser.parse_cols _ _) as [[cols f3]|] eqn:E3;
      [|discriminate]. cbn [bind] in H. injection H as _ <-.
    apply parse_cols_shrinks in E3. rewrite length_drop in E3. lia.
  - unfold WriteAheadLogParser._parse_update, WriteAheadLogParser.parse_uint,
      WriteAheadLogParser.parse_int, WriteAheadLogParser.read in H.
    cbn [bind] in H.
    destruct (WriteAheadLogParser.parse_flags _ _) as [[cols f3]|] eqn:E3;
      [|discriminate]. cbn [bind] in H. injection H as _ <-.
    apply parse_flags_shrinks in E3. rewrite !length_drop in E3. lia.
  - unfold WriteAheadLogParser._parse_increment,
      WriteAheadLogParser.parse_uint,
      WriteAheadLogParser.parse_int, WriteAheadLogParser.read in H.
    cbn [bind] in H. injection H as _ <-. rewrite !length_drop. lia.
  - unfold WriteAheadLogParser._parse_delete,
      WriteAheadLogParser.parse_int, WriteAheadLogParser.read in H.
    cbn [bind] in H. injection H as _ <-. rewrite !length_drop. lia.
Qed.

Lemma parse_queries_shrinks (n : nat) :
  shrinks (WriteAheadLogParser.parse_queries n).
Proof.
  induction n as [|n IH]; intros f x f' H; cbn in H.
  - injection H as _ <-. lia.
  - destruct (WriteAheadLogParser._parse_query f) as [[q f1]|] eqn:E1;
      [|discriminate]. cbn [bind] in H.
    destruct (WriteAheadLogParser.parse_queries n f1) as [[qs f2]|] eqn:E2;
      [|discriminate]. cbn [bind] in H. injection H as _ <-.
    apply parse_query_shrinks in E1. apply IH in E2. lia.
Qed.

(** A transaction read from a file that is not at its end takes at
    least one byte. *)
Lemma parse_xact_consumes (f f' : list byte) (x : RedoTransaction.t) :
  f <> [] ->
  WriteAheadLogParser._parse_xact f = Ok (x, f') ->
  (length f' < length f)%nat.
Proof.
  intros Hne H. unfold WriteAheadLogParser._parse_xact,
    WriteAheadLogParser.parse_uint, WriteAheadLogParser.parse_int,
    WriteAheadLogParser.read in H. cbn [bind] in H.
  destruct (WriteAheadLogParser.parse_queries _ _) as [[qs f2]|] eqn:E;
    [|discriminate]. cbn [bind] in H. injection H as _ <-.
  apply parse_queries_shrinks in E. rewrite !length_drop in E.
  destruct f; [done|]. simpl in *. unfold Config.DATA_SIZE in E. lia.
Qed.

Lemma parse_loop_enough (fuel : nat) (f : list byte) :
  (length f <= fuel)%nat ->
  exists r, WriteAheadLogParser.parse_loop fuel f = Some r.
Proof.
  revert f. induction fuel as [|fuel IH]; intros f Hf.
  - destruct f; [by eexists|simpl in Hf; lia].
  - destruct f as [|b f]; [by eexists|].
    cbn [WriteAheadLogParser.parse_loop].
    destruct (WriteAheadLogParser._parse_xact (b :: f)) as [[x f']|e] eqn:E;
      [|by eexists].
    apply parse_xact_consumes in E; [|done].
    destruct (IH f') as [r Hr]; [simpl in *; lia|]. rewrite Hr.
    destruct r; by eexists.
Qed.

Lemma parse_loop_more (fuel fuel' : nat) (f : list byte)
    (r : res (list RedoTransaction.t)) :
  WriteAheadLogParser.parse_loop fuel f = Some r ->
  (fuel <= fuel')%nat ->
  WriteAheadLogParser.parse_loop fuel' f = Some r.
Proof.
  revert fuel' f r. induction fuel as [|fuel IH]; intros fuel' f r H Hf.
  - destruct f; [|done]. by destruct fuel'.
  - destruct fuel' as [|fuel']; [lia|].
    destruct f as [|b f]; [done|].
    cbn [WriteAheadLogParser.parse_loop] in *.
    destruct (WriteAheadLogParser._parse_xact (b :: f)) as [[x f']|e];
      [|done].
    destruct (WriteAheadLogParser.parse_loop fuel f') as [r'|] eqn:E;
      [|done].
    rewrite (IH fuel' f' r' E) by lia. done.
Qed.

(** X13.  [parse] ends on every file: each pass of its loop reads at
    least one byte, so it returns the transactions or raises within as
    many passes as the file has bytes. *)
Theorem parse_ends (wal : list byte) :
  exists r, WriteAheadLogParser.parse wal = Some r.
Proof. by apply parse_loop_enough. Qed.

(** The bytes of a serialized transaction, followed by anything, parse
    to that transaction and leave what follows. *)
Lemma parse_xact_app (start_time : Z) (queries : list StoredQuery)
    (b rest : list byte) :
  Forall (fun q => Logged.ascii (sq_table q) /\ Logged.well_formed q) queries ->
  TransactionSerializer.serialize start_time queries = Ok b ->
  b <> []
  /\ exists x,
       WriteAheadLogParser._parse_xact (b ++ rest) = Ok (x, rest)
       /\ RedoTransaction.start_time x = start_time
       /\ Logged.to_stored_queries (RedoTransaction.queries x) = Ok queries.
Proof.
  intros Hall H. unfold TransactionSerializer.serialize in H.
  bind_ok H bt Et. bind_ok H bn En. bind_ok H bq Ebq. injection H as <-.
  destruct (parse_queries_app _ _ rest Hall Ebq) as (rs & Hrs & Hss).
  pose proof (to_bytes_length _ _ _ _ _ Et) as Hlt.
  split; [by destruct bt|].
  exists (RedoTransaction.mk start_time rs). split; [|done].
  unfold WriteAheadLogParser._parse_xact, WriteAheadLogParser.parse_uint.
  rewrite <- !app_assoc.
  rewrite (parse_int_app _ _ _ _ _ Et). cbn [bind].
  rewrite (parse_int_app _ _ _ _ _ En). cbn [bind].
  rewrite Nat2Z.id, Hrs. done.
Qed.

(** What a run of [log] calls appends to the file. *)
Lemma log_all (xs : list Transaction.t) (s s' : Table.t) :
  St.for_each xs WriteAheadLog.log s = (Ok tt, s') ->
  exists bs,
    Forall2 (fun x b =>
               TransactionSerializer.serialize (Transaction.start_time x)
                 (Transaction.queries x) = Ok b) xs bs
    /\ Table.wal s' = Table.wal s ++ concat bs.
Proof.
  revert s. induction xs as [|x xs IH]; intros s H.
  - injection H as <-. exists []. split; [constructor|].
    by rewrite app_nil_r.
  - cbn [St.for_each] in H. unfold St.bind at 1 in H.
    unfold WriteAheadLog.log at 1, St.bind, St.lift in H.
    destruct (TransactionSerializer.serialize _ _) as [b|] eqn:Eb;
      [|discriminate].
    destruct (IH _ H) as (bs & Hbs & Hw). exists (b :: bs).
    split; [by constructor|]. rewrite Hw. simpl. by rewrite app_assoc.
Qed.

Lemma parse_concat (xs : list Transaction.t) (bs : list (list byte)) :
  Forall (fun x =>
            Forall (fun q => Logged.ascii (sq_table q) /\ Logged.well_formed q)
              (Transaction.queries x)) xs ->
  Forall2 (fun x b =>
             TransactionSerializer.serialize (Transaction.start_time x)
               (Transaction.queries x) = Ok b) xs bs ->
  exists rs,
    WriteAheadLogParser.parse (concat bs) = Some (Ok rs)
    /\ Forall2 (fun r x =>
                  RedoTransaction.start_time r = Transaction.start_time x
                  /\ Logged.to_stored_queries (RedoTransaction.queries r)
                     = Ok (Transaction.queries x)) rs xs.
Proof.
  intros Hall Hbs. induction Hbs as [|x b xs bs Hb Hbs IH].
  - exists []. split; [done|constructor].
  - apply Forall_cons in Hall as [Hx Hall].
    destruct (IH Hall) as (rs & Hrs & Hf).
    destruct (parse_xact_app _ _ _ (concat bs) Hx Hb) as (Hne & r & Hr & Ht & Hq).
    exists (r :: rs). split; [|by constructor].
    unfold WriteAheadLogParser.parse. cbn [concat].
    destruct b as [|b0 b]; [done|].
    cbn [app length WriteAheadLogParser.parse_loop].
    change (b0 :: b ++ concat bs) with ((b0 :: b) ++ concat bs).
    rewrite Hr.
    rewrite (parse_loop_more _ (length (b ++ concat bs)) _ _ Hrs);
      [done|rewrite length_app; lia].
Qed.

(** X14.  The log round-trips for tables with ASCII names: when an
    empty log is given transactions of mutating queries by [log], one
    after the other, [parse] reads the file back as one redo
    transaction for each, in the order logged, with the same start time
    and the same queries. *)
Theorem log_then_parse (xs : list Transaction.t) (s s' : Table.t) :
  Table.wal s = [] ->
  Forall (fun x =>
            Forall (fun q => Logged.ascii (sq_table q) /\ Logged.well_formed q)
              (Transaction.queries x)) xs ->
  St.for_each xs WriteAheadLog.log s = (Ok tt, s') ->
  exists rs,
    WriteAheadLogParser.parse (Table.wal s') = Some (Ok rs)
    /\ Forall2 (fun r x =>
                  RedoTransaction.start_time r = Transaction.start_time x
                  /\ Logged.to_stored_queries (RedoTransaction.queries r)
                     = Ok (Transaction.queries x)) rs xs.
Proof.
  intros Hw Hall H. destruct (log_all _ _ _ H) as (bs & Hbs & Hs).
  rewrite Hs, Hw. cbn [app]. by apply parse_concat.
Qed.

End LogFile.

Lemma log_then_parse_witness :
  let xs :=
    [Transaction.add_query
       (mkStoredQuery QueryType.INSERT [71] [Some 42; Some 1; Some 2])
       (Transaction.new 111);
     Transaction.add_query
       (mkStoredQuery QueryType.DELETE [71] [Some 42])
       (Transaction.add_query
          (mkStoredQuery QueryType.UPDATE [71] [Some 42; None; Some (-7); None])
          (Transaction.new 222))] in
  let out := St.for_each xs WriteAheadLog.log (Table.new Demo.tbl) in
  Table.wal (Table.new Demo.tbl) = []
  /\ Forall (fun x =>
               Forall (fun q => Logged.ascii (sq_table q)
                                /\ Logged.well_formed q)
                 (Transaction.queries x)) xs
  /\ out = (Py.Ok tt, out.2)
  /\ exists rs,
       WriteAheadLogParser.parse (Table.wal out.2) = Some (Py.Ok rs)
       /\ Forall2 (fun r x =>
                     RedoTransaction.start_time r = Transaction.start_time x
                     /\ Logged.to_stored_queries (RedoTransaction.queries r)
                        = Py.Ok (Transaction.queries x)) rs xs.
Proof.
  intros xs out.
  assert (H1 : Table.wal (Table.new Demo.tbl) = []) by reflexivity.
  assert (H2 : Forall (fun x =>
                 Forall (fun q => Logged.ascii (sq_table q)
                                  /\ Logged.well_formed q)
                   (Transaction.queries x)) xs).
  { repeat constructor; simpl; lia. }
  assert (H3 : out = (Py.Ok tt, out.2)) by (vm_compute; reflexivity).
  split; [exact H1|]. split; [exact H2|]. split; [exact H3|].
  exact (log_then_parse xs (Table.new Demo.tbl) out.2 H1 H2 H3).
Defined.

(** ** [pagedir.py]: reopening a table *)

Section ReopenFacts.
Import Py.

(** X15.  What survives [save] and [load]: the reopened directory
    finds every base record where it was, with the same TPS, has the
    same merge queue and the same record counts of the pages, and
    finds a tail record where it was as long as the tail RID lies
    above the base RID counter. *)
Theorem reopen_keeps_records (d : PageDirectory.t) :
  let out := Sidecar.reopen (Sidecar.save d) in
  out.1 = Ok tt
  /\ (forall rid,
        PageDirectory.get_base_record_location rid out.2
        = PageDirectory.get_base_record_location rid d)
  /\ (forall rid, PageDirectory.is_base_rec rid out.2
                  = PageDirectory.is_base_rec rid d)
  /\ (forall rid locs,
        PageDirectory.get_tail_record_location rid d = Ok locs ->
        PageDirectory._unused_base_rid d < rid ->
        PageDirectory.get_tail_record_location rid out.2 = Ok locs)
  /\ PageDirectory._merge_queue out.2 = PageDirectory._merge_queue d
  /\ PageDirectory._num_records out.2 = PageDirectory._num_records d
  /\ PageDirectory.base_rids out.2 = PageDirectory.base_rids d.
Proof.
  intros out. unfold out. rewrite reopen_after_save. cbn [fst snd].
  split; [done|]. split; [done|]. split; [done|].
  split; [|done].
  intros rid locs H Hlt. unfold PageDirectory.get_tail_record_location in *.
  cbn [PageDirectory._unused_tail_rid PageDirectory.set_con_tp_owner
         PageDirectory.set_unused_tail_rid PageDirectory._offsets].
  destruct (rid <=? PageDirectory._tail_rid_begin); [|done].
  destruct (Z.ltb_spec (PageDirectory._unused_base_rid d) rid); [|lia].
  destruct (PageDirectory._unused_tail_rid d <? rid); done.
Qed.

End ReopenFacts.

(** ** [transaction.py]: [commit] *)

Section CommitFacts.
Variable tbl : TableInfo.t.
Import Py.

Lemma commit_resolved (x : Transaction.t) (s : Table.t) (outcome : bool) :
  Transaction.registered x = true ->
  Table.xact_tracker s !! Transaction.start_time x = Some outcome ->
  Commit.commit tbl x s = (Ok false, s).
Proof.
  intros Hr Ht. unfold Commit.commit, St.try_except. rewrite Hr. cbn [negb].
  unfold St.bind at 1, Table.tracker, St.zoom,
    TransactionTracker.mark_committed.
  rewrite Ht. cbn. by destruct s.
Qed.

(** X16.  A transaction commits at most once.  When [commit] of a
    transaction with recorded queries returns [True], the tracker has
    the transaction as committed, and a second [commit] returns
    [False] and changes nothing; so does the [commit] of any
    transaction whose start time the tracker already holds. *)
Theorem commit_at_most_once (x : Transaction.t) (s s' : Table.t) :
  Transaction.registered x = true ->
  Commit.commit tbl x s = (Ok true, s') ->
  TransactionTracker.is_maybe_pending (Transaction.start_time x)
    (Table.xact_tracker s) = true
  /\ TransactionTracker.is_committed (Transaction.start_time x)
       (Table.xact_tracker s') = true
  /\ Commit.commit tbl x s' = (Ok false, s')
  /\ forall y,
       Transaction.registered y = true ->
       Transaction.start_time y = Transaction.start_time x ->
       Commit.commit tbl y s' = (Ok false, s').
Proof.
  intros Hr H.
  assert (Ht : Table.xact_tracker s !! Transaction.start_time x = None
               /\ Table.xact_tracker s' !! Transaction.start_time x
                  = Some false).
  { unfold Commit.commit, St.try_except in H. rewrite Hr in H.
    cbn [negb] in H. unfold St.bind at 1, Table.tracker, St.zoom,
      TransactionTracker.mark_committed in H.
    destruct (Table.xact_tracker s !! Transaction.start_time x) eqn:E;
      [cbn in H; discriminate|].
    split; [done|]. cbn in H. unfold St.bind, Table.pagedir, St.zoom in H.
    cbn in H.
    destruct (PageDirectory.notify_resolve tbl _ _) as [[[]|e] d'];
      [|destruct (is_Exception e); discriminate].
    injection H as <-. cbn. by rewrite lookup_insert_eq. }
  destruct Ht as [Ht Ht'].
  split; [by apply bool_decide_eq_true|].
  split; [unfold TransactionTracker.is_committed; by rewrite Ht'|].
  split; [by apply commit_resolved with (outcome := false)|].
  intros y Hy Hxy. apply commit_resolved with (outcome := false); [done|].
  by rewrite Hxy.
Qed.

End CommitFacts.

(** ** [query.py]: keys that are not there *)

Section AbsentKey.
Variable tbl : TableInfo.t.
Import Py.

Lemma select_absent (fuel : nat) (k : Z) (projected : list Z) (s : Table.t)
    (ix : RangedIndex.t) :
  Table.index s !! TableInfo.key tbl = Some (Some ix) ->
  RangedIndex.locate k ix = [] ->
  Query.select fuel tbl k (Z.of_nat (TableInfo.key tbl)) projected s
  = Ok (Some []).
Proof.
  intros Hix Hk. unfold Query.select, Query.select_impl.
  rewrite (getitem_nat _ _ _ Hix). cbn [bind].
  rewrite (locate_key _ _ _ _ Hix), Hk. reflexivity.
Qed.

(** X17.  A key that the key index does not hold: [select] on the key
    column returns the empty list, and [update], [delete] and
    [increment] return [False]; the table state, pages, directory,
    indices, tracker and log, is left as it was. *)
Theorem absent_key_is_noop (fuel : nat) (now k column : Z)
    (columns : list (option Z)) (projected : list Z)
    (xact : option Transaction.t) (s : Table.t) (ix : RangedIndex.t) :
  Table.index s !! TableInfo.key tbl = Some (Some ix) ->
  RangedIndex.locate k ix = [] ->
  Query.select fuel tbl k (Z.of_nat (TableInfo.key tbl)) projected s
  = Ok (Some [])
  /\ Query.update fuel tbl now k columns xact s = (Ok (false, xact), s)
  /\ Query.delete fuel tbl now k xact s = (Ok (false, xact), s)
  /\ Query.increment fuel tbl now k column xact s = (Ok (false, xact), s).
Proof.
  intros Hix Hk. split; [by apply select_absent with (ix := ix)|].
  split; [|split].
  - unfold Query.update, St.try_except, Query.update_impl.
    unfold St.bind, St.get, St.lift.
    by rewrite (locate_key _ _ _ _ Hix), Hk.
  - unfold Query.delete, St.try_except, Query.delete_impl.
    unfold St.bind, St.get, St.lift.
    by rewrite (locate_key _ _ _ _ Hix), Hk.
  - unfold Query.increment, St.try_except, Query.increment_impl.
    unfold St.bind, St.get, St.lift.
    by rewrite (select_absent _ _ _ _ _ Hix Hk).
Qed.

(** X18.  [delete] looks the record up again with its base RID in the
    place of the key: when the key index holds one RID for the key and
    no record has that RID as its key, [delete] returns [False] and
    the record stays, with the whole table state as it was. *)
Theorem delete_selects_by_rid (fuel : nat) (now primary_key base_rid : Z)
    (xact : option Transaction.t) (s : Table.t) (ix : RangedIndex.t) :
  Table.index s !! TableInfo.key tbl = Some (Some ix) ->
  RangedIndex.locate primary_key ix = [base_rid] ->
  RangedIndex.locate base_rid ix = [] ->
  Query.delete fuel tbl now primary_key xact s = (Ok (false, xact), s).
Proof.
  intros Hix Hk Hr.
  unfold Query.delete, St.try_except, Query.delete_impl.
  unfold St.bind, St.get, St.lift.
  rewrite (locate_key _ _ _ _ Hix), Hk.
  by rewrite (select_absent _ _ _ _ _ Hix Hr).
Qed.

(** X19.  [sum] returns [False] when the key index holds no key of the
    range, and when the column to aggregate is not a column of the
    table. *)
Theorem sum_of_nothing (fuel : nat) (start_range end_range : Z)
    (aggregate_column_index : Z) (s : Table.t) (ix : RangedIndex.t) :
  Table.index s !! TableInfo.key tbl = Some (Some ix) ->
  (forall k, start_range <= k <= end_range -> RangedIndex.locate k ix = [])
  \/ aggregate_column_index < 0
  \/ Z.of_nat (TableInfo.num_columns tbl) <= aggregate_column_index ->
  Query.sum fuel tbl start_range end_range aggregate_column_index s = Ok None.
Proof.
  intros Hix H. unfold Query.sum, Query.sum_impl.
  destruct (Z.ltb_spec aggregate_column_index 0); [done|].
  destruct (Z.ltb_spec (Z.of_nat (TableInfo.num_columns tbl) - 1)
              aggregate_column_index); [done|].
  cbn [orb]. rewrite (getitem_nat _ _ _ Hix). cbn [bind].
  destruct H as [H|H]; [|lia].
  assert (RangedIndex.locate_range start_range end_range ix = []) as ->;
    [|done].
  apply elem_of_nil_inv. intros rid (k & Hk & Hin)%locate_range_elem.
  rewrite (H k Hk) in Hin. by apply elem_of_nil in Hin.
Qed.

End AbsentKey.

Lemma commit_at_most_once_witness :
  let x :=
    Transaction.add_query
      (mkStoredQuery QueryType.INSERT [71] [Some 1; Some 2; Some 3; Some 4;
                                            Some 5])
      (Transaction.new 333) in
  let out := Commit.commit Demo.tbl x Demo.s1 in
  Transaction.registered x = true
  /\ out = (Py.Ok true, out.2)
  /\ TransactionTracker.is_maybe_pending (Transaction.start_time x)
       (Table.xact_tracker Demo.s1) = true
  /\ TransactionTracker.is_committed (Transaction.start_time x)
       (Table.xact_tracker out.2) = true
  /\ Commit.commit Demo.tbl x out.2 = (Py.Ok false, out.2)
  /\ forall y,
       Transaction.registered y = true ->
       Transaction.start_time y = Transaction.start_time x ->
       Commit.commit Demo.tbl y out.2 = (Py.Ok false, out.2).
Proof.
  intros x out.
  assert (H1 : Transaction.registered x = true) by reflexivity.
  assert (H2 : out = (Py.Ok true, out.2)) by (vm_compute; reflexivity).
  split; [exact H1|]. split; [exact H2|].
  exact (commit_at_most_once Demo.tbl x Demo.s1 out.2 H1 H2).
Defined.

Lemma absent_key_is_noop_witness :
  Table.index Demo.s1 !! TableInfo.key Demo.tbl = Some (Some Demo.ix1)
  /\ RangedIndex.locate 43 Demo.ix1 = []
  /\ Query.select 1 Demo.tbl 43 (Z.of_nat (TableInfo.key Demo.tbl))
       [1; 1; 1; 1; 1] Demo.s1 = Py.Ok (Some [])
  /\ Query.update 1 Demo.tbl 222 43 [None; Some 5; None; None; None] None
       Demo.s1 = (Py.Ok (false, None), Demo.s1)
  /\ Query.delete 1 Demo.tbl 222 43 None Demo.s1
     = (Py.Ok (false, None), Demo.s1)
  /\ Query.increment 1 Demo.tbl 222 43 1 None Demo.s1
     = (Py.Ok (false, None), Demo.s1).
Proof.
  assert (H1 : Table.index Demo.s1 !! TableInfo.key Demo.tbl
               = Some (Some Demo.ix1)) by (vm_compute; reflexivity).
  assert (H2 : RangedIndex.locate 43 Demo.ix1 = [])
    by (vm_compute; reflexivity).
  split; [exact H1|]. split; [exact H2|].
  exact (absent_key_is_noop Demo.tbl 1 222 43 1
           [None; Some 5; None; None; None] [1; 1; 1; 1; 1] None
           Demo.s1 Demo.ix1 H1 H2).
Defined.

Lemma delete_selects_by_rid_witness :
  Table.index Demo.s1 !! TableInfo.key Demo.tbl = Some (Some Demo.ix1)
  /\ RangedIndex.locate 42 Demo.ix1 = [1000]
  /\ RangedIndex.locate 1000 Demo.ix1 = []
  /\ Query.delete 1 Demo.tbl 222 42 None Demo.s1
     = (Py.Ok (false, None), Demo.s1).
Proof.
  assert (H1 : Table.index Demo.s1 !! TableInfo.key Demo.tbl
               = Some (Some Demo.ix1)) by (vm_compute; reflexivity).
  assert (H2 : RangedIndex.locate 42 Demo.ix1 = [1000])
    by (vm_compute; reflexivity).
  assert (H3 : RangedIndex.locate 1000 Demo.ix1 = [])
    by (vm_compute; reflexivity).
  split; [exact H1|]. split; [exact H2|]. split; [exact H3|].
  exact (delete_selects_by_rid Demo.tbl 1 222 42 1000 None Demo.s1 Demo.ix1
           H1 H2 H3).
Defined.

Lemma sum_of_nothing_witness :
  Table.index Demo.s1 !! TableInfo.key Demo.tbl = Some (Some Demo.ix1)
  /\ ((forall k, 50 <= k <= 60 -> RangedIndex.locate k Demo.ix1 = [])
      \/ 1 < 0 \/ Z.of_nat (TableInfo.num_columns Demo.tbl) <= 1)
  /\ Query.sum 1 Demo.tbl 50 60 1 Demo.s1 = Py.Ok None.
Proof.
  assert (H1 : Table.index Demo.s1 !! TableInfo.key Demo.tbl
               = Some (Some Demo.ix1)) by (vm_compute; reflexivity).
  assert (H2 : (forall k, 50 <= k <= 60 -> RangedIndex.locate k Demo.ix1 = [])
               \/ 1 < 0 \/ Z.of_nat (TableInfo.num_columns Demo.tbl) <= 1).
  { left. intros k Hk.
    assert (E : RangedIndex._index Demo.ix1 = {[42 := [1000]]})
      by (vm_compute; reflexivity).
    unfold RangedIndex.locate. rewrite E.
    rewrite lookup_singleton_ne by lia. reflexivity. }
  split; [exact H1|]. split; [exact H2|].
  exact (sum_of_nothing Demo.tbl 1 50 60 1 Demo.s1 Demo.ix1 H1 H2).
Defined.

(** ** [pagedir.py]: allocated RIDs *)

Section AllocatedRids.
Variable tbl : TableInfo.t.
Import Py.
Import PageDirectory.

(** X20.  A base RID that [alloc_base_rid] returns is new: it was no
    base record before and is one afterwards,
    [get_base_record_location] finds it at the locations returned,
    one for each raw column on the pages of one conceptual base page,
    with the TPS above every tail RID, and every other RID is found
    as before. *)
Theorem alloc_base_rid_lookup (d d' : PageDirectory.t) (rid : Z)
    (locs : list PageLocation.t) :
  alloc_base_rid tbl d = (Ok (rid, locs), d') ->
  Wf.counted d ->
  Wf.based d ->
  rid = _unused_base_rid d
  /\ is_base_rec rid d = false
  /\ is_base_rec rid d' = true
  /\ get_base_record_location rid d' = Ok (Config.TAIL_RID_BEGIN + 1, locs)
  /\ (exists bp_idx,
        map PageLocation.id locs
        = columns_of (PageId.mk (TableInfo.name tbl) 0 true bp_idx)
            (TableInfo.num_raw_cols tbl))
  /\ (forall r, r <> rid ->
        get_base_record_location r d' = get_base_record_location r d)
  /\ (forall r, r <> rid ->
        get_tail_record_location r d' = get_tail_record_location r d).
Proof.
  intros H Hc Hb.
  destruct (alloc_base_rid_Ok _ _ _ _ _ H Hc)
    as (-> & Hu & Ht & Ho & Htps & _ & Hcols & _).
  unfold Wf.based in Hb.
  unfold is_base_rec, get_base_record_location, get_tail_record_location,
    _base_rid_begin, dict_get.
  rewrite Hu, Ht, Ho, Htps.
  split; [done|].
  split; [rewrite Z.ltb_irrefl; by destruct (_ <=? _)|].
  destruct (Z.leb_spec Config.BASE_RID_BEGIN (_unused_base_rid d)); [|lia].
  destruct (Z.ltb_spec (_unused_base_rid d) (_unused_base_rid d + 1)); [|lia].
  split; [done|]. cbn [andb negb].
  rewrite !lookup_insert_eq. cbn [bind].
  split; [done|]. split; [done|].
  split.
  - intros r Hr. rewrite !lookup_insert_ne by done.
    destruct (Z.leb_spec Config.BASE_RID_BEGIN r); [|done].
    destruct (Z.ltb_spec r (_unused_base_rid d + 1));
      destruct (Z.ltb_spec r (_unused_base_rid d)); try lia; done.
  - intros r Hr. by rewrite !lookup_insert_ne.
Qed.

(** X21.  A tail RID that [alloc_tail_rid] returns, in a directory
    whose tail RID counter is not below its base RID counter, is the
    counter's value, which then goes down by one;
    [get_tail_record_location] finds it at the locations returned,
    every tail record found before is found where it was, and so is
    every base record. *)
Theorem alloc_tail_rid_lookup (base_rid : val) (schema_encoding : bitarray)
    (d d' : PageDirectory.t) (rid : Z) (locs : list PageLocation.t) :
  alloc_tail_rid tbl base_rid schema_encoding d = (Ok (rid, locs), d') ->
  Wf.counted d ->
  Wf.tailed d ->
  rid = _unused_tail_rid d
  /\ _unused_tail_rid d' = rid - 1
  /\ get_tail_record_location rid d' = Ok locs
  /\ (forall r l, r <> rid ->
        get_tail_record_location r d = Ok l ->
        get_tail_record_location r d' = Ok l)
  /\ (forall r,
        get_base_record_location r d' = get_base_record_location r d).
Proof.
  intros H Hc [Hb Ht].
  destruct (alloc_tail_rid_Ok _ _ _ _ _ _ _ H Hc)
    as (-> & Hu & Hbase & Ho & Htps & _).
  unfold get_base_record_location, get_tail_record_location,
    _tail_rid_begin, _base_rid_begin, dict_get.
  rewrite Hu, Hbase, Ho, Htps.
  split; [done|]. split; [done|].
  split.
  { destruct (Z.leb_spec (_unused_tail_rid d) Config.TAIL_RID_BEGIN); [|lia].
    destruct (Z.ltb_spec (_unused_tail_rid d - 1) (_unused_tail_rid d));
      [|lia].
    cbn [andb negb]. by rewrite lookup_insert_eq. }
  split.
  - intros r l Hr. rewrite lookup_insert_ne by done.
    destruct (Z.leb_spec r Config.TAIL_RID_BEGIN); [|done].
    destruct (Z.ltb_spec (_unused_tail_rid d) r); [|done].
    destruct (Z.ltb_spec (_unused_tail_rid d - 1) r); [|lia]. done.
  - intros r.
    destruct (Z.leb_spec Config.BASE_RID_BEGIN r); [|done].
    destruct (Z.ltb_spec r (_unused_base_rid d)); [|done].
    cbn [andb negb]. rewrite lookup_insert_ne by lia. done.
Qed.

End AllocatedRids.

Lemma alloc_base_rid_lookup_witness :
  let out := PageDirectory.alloc_base_rid Demo.tbl PageDirectory.new in
  let locs := match out.1 with Py.Ok x => x.2 | Py.Raise _ => [] end in
  out = (Py.Ok (1000, locs), out.2)
  /\ Wf.counted PageDirectory.new
  /\ Wf.based PageDirectory.new
  /\ 1000 = PageDirectory._unused_base_rid PageDirectory.new
  /\ PageDirectory.is_base_rec 1000 PageDirectory.new = false
  /\ PageDirectory.is_base_rec 1000 out.2 = true
  /\ PageDirectory.get_base_record_location 1000 out.2
     = Py.Ok (Config.TAIL_RID_BEGIN + 1, locs)
  /\ (exists bp_idx,
        map PageLocation.id locs
        = columns_of (PageId.mk (TableInfo.name Demo.tbl) 0 true bp_idx)
            (TableInfo.num_raw_cols Demo.tbl))
  /\ (forall r, r <> 1000 ->
        PageDirectory.get_base_record_location r out.2
        = PageDirectory.get_base_record_location r PageDirectory.new)
  /\ (forall r, r <> 1000 ->
        PageDirectory.get_tail_record_location r out.2
        = PageDirectory.get_tail_record_location r PageDirectory.new).
Proof.
  intros out locs.
  assert (H1 : out = (Py.Ok (1000, locs), out.2)) by (vm_compute; reflexivity).
  assert (H2 : Wf.counted PageDirectory.new)
    by (unfold Wf.counted; simpl; apply map_Forall_empty).
  assert (H3 : Wf.based PageDirectory.new)
    by (unfold Wf.based; simpl; unfold Config.BASE_RID_BEGIN; lia).
  split; [exact H1|]. split; [exact H2|]. split; [exact H3|].
  exact (alloc_base_rid_lookup Demo.tbl PageDirectory.new out.2 1000 locs
           H1 H2 H3).
Defined.

Lemma alloc_tail_rid_lookup_witness :
  let d := Table.page_directory Demo.s1 in
  let out :=
    PageDirectory.alloc_tail_rid Demo.tbl (Py.VInt 1000)
      [false; true; false; false; false] d in
  let locs := match out.1 with Py.Ok x => x.2 | Py.Raise _ => [] end in
  out = (Py.Ok (2 ^ 63 - 1, locs), out.2)
  /\ Wf.counted d
  /\ Wf.tailed d
  /\ 2 ^ 63 - 1 = PageDirectory._unused_tail_rid d
  /\ PageDirectory._unused_tail_rid out.2 = 2 ^ 63 - 1 - 1
  /\ PageDirectory.get_tail_record_location (2 ^ 63 - 1) out.2 = Py.Ok locs
  /\ (forall r l, r <> 2 ^ 63 - 1 ->
        PageDirectory.get_tail_record_location r d = Py.Ok l ->
        PageDirectory.get_tail_record_location r out.2 = Py.Ok l)
  /\ (forall r,
        PageDirectory.get_base_record_location r out.2
        = PageDirectory.get_base_record_location r d).
Proof.
  intros d out locs.
  assert (H1 : out = (Py.Ok (2 ^ 63 - 1, locs), out.2))
    by (vm_compute; reflexivity).
  assert (H2 : Wf.counted d)
    by (apply (bool_decide_unpack _); vm_compute; reflexivity).
  assert (H3 : Wf.tailed d).
  { unfold Wf.tailed. split; vm_compute; discriminate. }
  split; [exact H1|]. split; [exact H2|]. split; [exact H3|].
  exact (alloc_tail_rid_lookup Demo.tbl (Py.VInt 1000)
           [false; true; false; false; false] d out.2 (2 ^ 63 - 1) locs
           H1 H2 H3).
Defined.

(** ** [bufferpool.py]: capacity *)

Section PoolCapacity.
Import Py.

Lemma length_remove_frame (p : PageId.t)
    (frames : list (PageId.t * list byte)) :
  (length (Bufferpool.remove_frame p frames) <= length frames)%nat.
Proof. unfold Bufferpool.remove_frame. apply length_filter. Qed.

Lemma length_remove_resident (p : PageId.t) (data : list byte)
    (frames : list (PageId.t * list byte)) :
  Bufferpool.lookup_frame p frames = Some data ->
  (length (Bufferpool.remove_frame p frames) < length frames)%nat.
Proof.
  unfold Bufferpool.remove_frame.
  induction frames as [|[q d] frames IH]; [done|]. simpl.
  rewrite filter_cons. case_bool_decide as Hq.
  - intros _. rewrite decide_False by (simpl; tauto). 
    pose proof (length_filter (fun x : PageId.t * list byte => x.1 <> p) frames).
    simpl. lia.
  - intros H. rewrite decide_True by (simpl; congruence). simpl.
    specialize (IH H). lia.
Qed.

Lemma length_add_frames (ids : list PageId.t) (pages : list (list byte))
    (frames : list (PageId.t * list byte)) :
  (length (Bufferpool.add_frames ids pages frames)
   <= length frames + length ids)%nat.
Proof.
  revert pages frames. induction ids as [|i ids IH]; intros pages frames.
  - destruct pages; simpl; lia.
  - destruct pages as [|pg pages]; simpl; [lia|].
    destruct (Bufferpool.lookup_frame i frames).
    + specialize (IH pages frames). lia.
    + specialize (IH pages (frames ++ [(i, pg)])).
      rewrite length_app in IH. simpl in IH. lia.
Qed.

Lemma read_pins_at_most (n : nat) (p : PageId.t) :
  Frame.preserves (Pool.at_most n) (Bufferpool.read_pins p).
Proof.
  intros b Hb. unfold Bufferpool.read_pins.
  by destruct (PageDirectory.dd_get _ _).
Qed.

(** [evict_page] never adds a frame. *)
Lemma evict_page_at_most (n : nat) (p : PageId.t) :
  Frame.preserves (Pool.at_most n) (Bufferpool.evict_page p).
Proof.
  unfold Bufferpool.evict_page.
  apply preserves_bind; [apply read_pins_at_most|intros c].
  destruct (negb _); [apply preserves_raise|].
  apply preserves_bind; [apply preserves_get|intros b].
  apply preserves_bind.
  { destruct (bool_decide _); [|apply preserves_ret].
    destruct (Bufferpool.lookup_frame _ _); [|apply preserves_raise].
    intros s Hs. unfold St.zoom.
    by destruct (Filesystem.write_page _ _ _). }
  intros [].
  apply preserves_bind; [apply preserves_get|intros b'].
  destruct (negb _); [apply preserves_raise|].
  apply preserves_bind; [|intros []; by intros s Hs].
  intros s Hs. unfold Bufferpool.modify, Pool.at_most in *. simpl.
  pose proof (length_remove_frame p (Bufferpool._frames s)). lia.
Qed.

Lemma wait_unpinned_at_most (n : nat) (p : PageId.t)
    (others : list (St.M Bufferpool.t unit)) :
  Forall (Frame.preserves (Pool.at_most n)) others ->
  Frame.preserves (Pool.at_most n) (Bufferpool.wait_unpinned p others).
Proof.
  intros H. induction H as [|call rest Hc _ IH]; simpl.
  - apply preserves_bind; [apply read_pins_at_most|intros c].
    destruct (_ =? _); apply preserves_ret.
  - apply preserves_bind; [apply read_pins_at_most|intros c].
    destruct (_ =? _); [apply preserves_ret|].
    apply preserves_bind; [|by intros []].
    intros s Hs. by apply Hc.
Qed.

Lemma evict_lru_at_most (n : nat) (others : list (St.M Bufferpool.t unit)) :
  Forall (Frame.preserves (Pool.at_most n)) others ->
  Frame.preserves (Pool.at_most n) (Bufferpool._evict_lru others).
Proof.
  intros H. unfold Bufferpool._evict_lru.
  apply preserves_bind; [apply preserves_get|intros b].
  destruct (Bufferpool._frames b) as [|[lru d] r]; [apply preserves_raise|].
  apply preserves_bind; [by apply wait_unpinned_at_most|intros []].
  - apply evict_page_at_most.
  - apply preserves_raise.
Qed.

(** [fetch] adds frames only into free slots. *)
Lemma fetch_within (start : PageId.t) (count : Z) :
  Frame.preserves Pool.within_capacity (Bufferpool.fetch start count).
Proof.
  intros b Hb. unfold Bufferpool.fetch, St.bind, St.get, St.ret, St.lift.
  unfold Bufferpool.has_capacity.
  destruct (Z.ltb_spec (Z.of_nat (length (Bufferpool._frames b)))
              Config.BUFFERPOOL_MAX_FRAMES) as [Hcap|Hcap]; [|done].
  cbn [negb orb]. destruct (count =? 0); [done|].
  destruct (forallb _ _); [done|].
  destruct (Filesystem.read_pages _ _ _) as [pages|e]; [|done].
  unfold Bufferpool.modify, Pool.within_capacity in *.
  cbn [snd Bufferpool._frames Bufferpool.set_frames].
  match goal with
  | |- context [Bufferpool.add_frames ?ids ?pgs ?fr] =>
      pose proof (length_add_frames ids pgs fr) as Hl
  end.
  unfold page_range in Hl |- *. rewrite length_map, length_seq in Hl. lia.
Qed.

Lemma length_move_to_end (p : PageId.t)
    (frames : list (PageId.t * list byte)) :
  (length (Bufferpool.move_to_end p frames) <= length frames)%nat.
Proof.
  unfold Bufferpool.move_to_end.
  destruct (Bufferpool.lookup_frame p frames) as [d|] eqn:E; [|done].
  apply length_remove_resident in E. rewrite length_app. simpl. lia.
Qed.

Lemma within_at_most (b : Bufferpool.t) :
  Pool.within_capacity b
  <-> Pool.at_most (Z.to_nat Config.BUFFERPOOL_MAX_FRAMES) b.
Proof.
  unfold Pool.within_capacity, Pool.at_most.
  assert (0 <= Config.BUFFERPOOL_MAX_FRAMES) by (vm_compute; discriminate).
  lia.
Qed.

Lemma within_of_at_most {A} (m : St.M Bufferpool.t A) :
  Frame.preserves (Pool.at_most (Z.to_nat Config.BUFFERPOOL_MAX_FRAMES)) m ->
  Frame.preserves Pool.within_capacity m.
Proof. intros H s Hs. apply within_at_most, H, within_at_most, Hs. Qed.

Lemma at_most_of_within (others : list (St.M Bufferpool.t unit)) :
  Forall (Frame.preserves Pool.within_capacity) others ->
  Forall (Frame.preserves
            (Pool.at_most (Z.to_nat Config.BUFFERPOOL_MAX_FRAMES))) others.
Proof.
  intros H. eapply Forall_impl; [exact H|]. intros m Hm s Hs.
  apply within_at_most, Hm, within_at_most, Hs.
Qed.

Lemma pin_within (others : list (St.M Bufferpool.t unit)) (p : PageId.t) :
  Forall (Frame.preserves Pool.within_capacity) others ->
  Frame.preserves Pool.within_capacity (Bufferpool.pin others p).
Proof.
  intros H. unfold Bufferpool.pin.
  apply preserves_bind; [apply preserves_get|intros b].
  apply preserves_bind.
  2:{ intros []. apply preserves_bind; [apply preserves_get|intros b'].
      destruct (Bufferpool.lookup_frame _ _);
        [apply preserves_ret|apply preserves_raise]. }
  destruct (Bufferpool.resident p b).
  - apply preserves_bind.
    { intros s Hs. unfold Bufferpool.modify, Pool.within_capacity in *. simpl.
      pose proof (length_move_to_end p (Bufferpool._frames s)). lia. }
    intros []. apply preserves_bind.
    { apply within_of_at_most, read_pins_at_most. }
    intros c. by intros s Hs.
  - apply preserves_bind.
    { destruct (negb _); [|apply preserves_ret].
      by apply within_of_at_most, evict_lru_at_most, at_most_of_within. }
    intros []. apply preserves_bind; [apply fetch_within|].
    intros []. by intros s Hs.
Qed.

Lemma evict_all_within (fuel : nat) (others : list (St.M Bufferpool.t unit)) :
  Forall (Frame.preserves Pool.within_capacity) others ->
  Frame.preserves Pool.within_capacity (Bufferpool._evict_all fuel others).
Proof.
  intros H. induction fuel as [|fuel IH]; simpl.
  - apply preserves_bind; [apply preserves_get|intros b].
    destruct (Bufferpool._frames b); [apply preserves_ret|apply preserves_raise].
  - apply preserves_bind; [apply preserves_get|intros b].
    destruct (Bufferpool._frames b); [apply preserves_ret|].
    apply preserves_bind; [|by intros []].
    by apply within_of_at_most, evict_lru_at_most, at_most_of_within.
Qed.

Lemma checkpoint_loop_within (dirty : list PageId.t)
    (others : list (St.M Bufferpool.t unit)) :
  Forall (Frame.preserves Pool.within_capacity) others ->
  Frame.preserves Pool.within_capacity
    (Bufferpool.checkpoint_loop dirty others).
Proof.
  intros H. induction dirty as [|p dirty IH]; simpl; [apply preserves_ret|].
  apply preserves_bind.
  { by apply within_of_at_most, wait_unpinned_at_most, at_most_of_within. }
  intros []; [|apply preserves_raise].
  apply preserves_bind; [|by intros []].
  apply within_of_at_most, evict_page_at_most.
Qed.

(** X22.  The pool never holds more than [BUFFERPOOL_MAX_FRAMES]
    frames: a new pool is within its capacity, and [pin], [fetch],
    [unpin], [mark_dirty], [evict_page], [close] and [checkpoint] keep
    it so, whether they return or raise, as long as the calls that
    other threads make during a wait keep it so. *)
Theorem pool_within_capacity (others : list (St.M Bufferpool.t unit)) :
  Forall (Frame.preserves Pool.within_capacity) others ->
  (forall fs, Pool.within_capacity (Bufferpool.new fs))
  /\ (forall p, Frame.preserves Pool.within_capacity (Bufferpool.pin others p))
  /\ (forall start count,
        Frame.preserves Pool.within_capacity (Bufferpool.fetch start count))
  /\ (forall p, Frame.preserves Pool.within_capacity (Bufferpool.unpin p))
  /\ (forall p, Frame.preserves Pool.within_capacity (Bufferpool.mark_dirty p))
  /\ (forall p, Frame.preserves Pool.within_capacity (Bufferpool.evict_page p))
  /\ Frame.preserves Pool.within_capacity (Bufferpool.close others)
  /\ Frame.preserves Pool.within_capacity (Bufferpool.checkpoint others).
Proof.
  intros H.
  split; [intros fs; vm_compute; discriminate|].
  split; [intros p; by apply pin_within|].
  split; [apply fetch_within|].
  split.
  { intros p s Hs. unfold Pool.within_capacity.
    by rewrite (proj1 (unpin_keeps p s)). }
  split; [by intros p s Hs|].
  split; [intros p; apply within_of_at_most, evict_page_at_most|].
  split.
  - unfold Bufferpool.close.
    apply preserves_bind; [apply preserves_get|intros b].
    by apply evict_all_within.
  - unfold Bufferpool.checkpoint.
    apply preserves_bind; [apply preserves_get|intros b].
    by apply checkpoint_loop_within.
Qed.

End PoolCapacity.

Lemma pool_within_capacity_witness :
  Forall (Frame.preserves Pool.within_capacity)
    (@nil (St.M Bufferpool.t unit))
  /\ (forall fs, Pool.within_capacity (Bufferpool.new fs))
  /\ (forall p, Frame.preserves Pool.within_capacity (Bufferpool.pin [] p))
  /\ (forall start count,
        Frame.preserves Pool.within_capacity (Bufferpool.fetch start count))
  /\ (forall p, Frame.preserves Pool.within_capacity (Bufferpool.unpin p))
  /\ (forall p, Frame.preserves Pool.within_capacity (Bufferpool.mark_dirty p))
  /\ (forall p, Frame.preserves Pool.within_capacity (Bufferpool.evict_page p))
  /\ Frame.preserves Pool.within_capacity (Bufferpool.close [])
  /\ Frame.preserves Pool.within_capacity (Bufferpool.checkpoint []).
Proof.
  assert (H : Forall (Frame.preserves Pool.within_capacity)
                (@nil (St.M Bufferpool.t unit))) by constructor.
  split; [exact H|].
  exact (pool_within_capacity [] H).
Defined.

(** ** Records are written without touching indices, tracker or log *)

Section After.
Context {S : Type}.
Import Py.
Import Kept.

Lemma after_ret {A} (P : S -> Prop) (a : A) (s : S) :
  P s -> after P (St.ret a s).
Proof. done. Qed.

Lemma after_raise {A} (P : S -> Prop) (e : exn) (s : S) :
  P s -> after P (St.raise (A := A) e s).
Proof. done. Qed.

Lemma after_lift {A} (P : S -> Prop) (r : res A) (s : S) :
  P s -> after P (St.lift r s).
Proof. done. Qed.

Lemma after_put (P : S -> Prop) (s1 s : S) : P s1 -> after P (St.put s1 s).
Proof. done. Qed.

Lemma after_bind {A B} (P : S -> Prop) (m : St.M S A) (k : A -> St.M S B)
    (s : S) :
  after P (m s) ->
  (forall a s1, m s = (Ok a, s1) -> P s1 -> after P (k a s1)) ->
  after P (St.bind m k s).
Proof.
  unfold after, St.bind. intros Hm Hk.
  destruct (m s) as [[a|e] s1]; simpl in *; [by apply Hk|done].
Qed.

Lemma after_bind_get {B} (P : S -> Prop) (k : S -> St.M S B) (s : S) :
  after P (k s s) -> after P (St.bind St.get k s).
Proof. done. Qed.

Lemma after_bind_lift {A B} (P : S -> Prop) (r : res A) (k : A -> St.M S B)
    (s : S) :
  P s -> (forall a, r = Ok a -> after P (k a s)) ->
  after P (St.bind (St.lift r) k s).
Proof.
  unfold after, St.bind, St.lift. intros HP Hk.
  destruct r as [a|e]; simpl in *; [by apply Hk|done].
Qed.

Lemma after_bind_put {B} (P : S -> Prop) (s1 : S) (k : unit -> St.M S B)
    (s : S) :
  after P (k tt s1) -> after P (St.bind (St.put s1) k s).
Proof. done. Qed.

Lemma after_try_except {A} (P : S -> Prop) (m h : St.M S A) (s : S) :
  after P (m s) -> (forall s1, P s1 -> after P (h s1)) ->
  after P (St.try_except m h s).
Proof.
  unfold after, St.try_except. intros Hm Hh.
  destruct (m s) as [[a|e] s1]; simpl in *; [done|].
  destruct (is_Exception e); [by apply Hh|done].
Qed.

End After.

(** One step of a method whose state is at hand. *)
Ltac after_step :=
  lazymatch goal with
  | |- Kept.after _ (St.bind St.get _ _) => apply after_bind_get
  | |- Kept.after _ (St.bind (St.put _) _ _) => apply after_bind_put
  | |- Kept.after _ (St.bind (St.lift _) _ _) =>
      apply after_bind_lift; [try assumption | intros ? ?]
  | |- Kept.after _ (St.ret _ _) => apply after_ret; try assumption
  | |- Kept.after _ (St.raise _ _) => apply after_raise; try assumption
  | |- Kept.after _ (St.lift _ _) => apply after_lift; try assumption
  | |- Kept.after _ (St.put _ _) => apply after_put
  | |- Kept.after _ ((if ?b then _ else _) _) => destruct b eqn:?
  | |- Kept.after _ ((match ?x with _ => _ end) _) => destruct x eqn:?
  | |- Kept.after _ ((let '(_, _) := ?x in _) _) => destruct x eqn:?
  end.

Ltac after := repeat after_step.

Section KeptRest.
Variable tbl : TableInfo.t.
Import Py.
Import Kept.

Lemma pagedir_rest {A} (m : St.M PageDirectory.t A) (x : _) (s : Table.t) :
  rest s = x -> after (fun s' => rest s' = x) (Table.pagedir m s).
Proof.
  intros <-. unfold after, Table.pagedir, St.zoom.
  by destruct (m (Table.page_directory s)).
Qed.

Lemma write_columns_rest (schema_encoding : val) (raw_cols : list val)
    (page_indx : list PageLocation.t) (x : _) (s : Table.t) :
  rest s = x ->
  after (fun s' => rest s' = x)
    (Table.write_columns tbl schema_encoding raw_cols page_indx s).
Proof.
  revert s. induction page_indx as [|l page_indx IH]; intros s Hs;
    cbn [Table.write_columns]; [by apply after_ret|].
  after. by apply IH.
Qed.

Lemma update_base_record_rest (base_rid : Z) (indirection : val)
    (schema_encoding : bitarray) (x : _) (s : Table.t) :
  rest s = x ->
  after (fun s' => rest s' = x)
    (Table.update_base_record tbl base_rid indirection schema_encoding s).
Proof. intros Hs. unfold Table.update_base_record. after; done. Qed.

Lemma add_original_copy_rest (rec : Record.t) (x : _) (s : Table.t) :
  rest s = x ->
  after (fun s' => rest s' = x) (Table.add_original_copy tbl rec s).
Proof.
  intros Hs. unfold Table.add_original_copy. after.
  apply after_bind; [by apply pagedir_rest|]. intros [new_tid locs] s1 _ Hs1.
  apply after_bind; [by apply write_columns_rest|]. intros ok s2 _ Hs2.
  after. apply after_bind; [by apply update_base_record_rest|].
  intros u s3 _ Hs3. by apply after_ret.
Qed.

(** [add_tail_record] leaves the indices, the tracker and the log as
    they are, whether it returns or raises. *)
Lemma add_tail_record_rest (fuel : nat) (rec : Record.t) (x : _)
    (s : Table.t) :
  rest s = x ->
  after (fun s' => rest s' = x) (Table.add_tail_record fuel tbl rec s).
Proof.
  intros Hs. unfold Table.add_tail_record. after.
  apply after_bind.
  { destruct (bool_decide _).
    - apply (after_bind (fun s' => rest s' = x));
        [by apply add_original_copy_rest|].
      intros [] s1 _ Hs1. after.
    - by apply after_ret. }
  intros latest s1 _ Hs1. after.
  apply after_bind; [by apply pagedir_rest|]. intros [new_tid locs] s2 _ Hs2.
  apply after_bind; [by apply write_columns_rest|]. intros ok s3 _ Hs3.
  after. apply after_bind; [by apply update_base_record_rest|].
  intros u s4 _ Hs4. by apply after_ret.
Qed.

Lemma add_base_record_rest (rec : Record.t) (x : _) (s : Table.t) :
  rest s = x ->
  after (fun s' => rest s' = x) (Table.add_base_record tbl rec s).
Proof.
  intros Hs. unfold Table.add_base_record.
  apply after_bind; [by apply pagedir_rest|]. intros [rid locs] s1 _ Hs1.
  apply after_bind; [by apply write_columns_rest|]. intros ok s2 _ Hs2.
  after.
Qed.

End KeptRest.

Section TakenKey.
Variable tbl : TableInfo.t.
Import Py.

Lemma lookup_repeat {A} (x : A) (n i : nat) :
  (i < n)%nat -> repeat x n !! i = Some x.
Proof.
  revert i. induction n as [|n IH]; intros i Hi; [lia|].
  destruct i as [|i]; [done|]. simpl. apply IH. lia.
Qed.

Lemma reindex_unindexed (cols : list (nat * (val * option Z)))
    (more : list (nat * (val * option Z))) (base_rid : Z) (s : Table.t) :
  Forall (fun c => Table.index s !! c.1 = Some None) cols ->
  Query.reindex (cols ++ more) base_rid s = Query.reindex more base_rid s.
Proof.
  induction 1 as [|[c [o n]] cols Hc _ IH]; [done|].
  cbn [app Query.reindex]. unfold St.bind at 1, St.get.
  unfold St.bind at 1, St.lift. simpl in Hc.
  rewrite (getitem_nat _ _ _ Hc). unfold St.bind at 1, St.ret. exact IH.
Qed.

(** The loop of [__update_impl] over the indices removes the old
    value before it adds the new one: when the new key is taken, the
    add raises after the old key is gone. *)
Lemma reindex_taken (cols : list (val * option Z)) (base_rid k k2 : Z)
    (s : Table.t) (ix : RangedIndex.t) :
  Table.index s
  = <[TableInfo.key tbl := Some ix]> (repeat None (TableInfo.num_columns tbl)) ->
  (TableInfo.key tbl < TableInfo.num_columns tbl)%nat ->
  cols !! TableInfo.key tbl = Some (VInt k, Some k2) ->
  RangedIndex._is_unique ix = true ->
  RangedIndex.locate k ix = [base_rid] ->
  RangedIndex.locate k2 ix <> [] ->
  k2 <> k ->
  Query.reindex (Query.enumerate cols) base_rid s
  = (Raise UniqueKeyViolationError,
     Table.set_index
       (<[TableInfo.key tbl :=
            Some (RangedIndex.mk (delete k (RangedIndex._index ix)) true)]>
          (Table.index s)) s).
Proof.
  intros Hix Hkey Hc Hu Hk Hk2 Hne.
  assert (Hin : Query.enumerate cols !! TableInfo.key tbl
                = Some (TableInfo.key tbl, (VInt k, Some k2))).
  { unfold Query.enumerate. rewrite lookup_zip_with.
    rewrite lookup_seq_lt by (by apply lookup_lt_Some in Hc).
    by rewrite Hc. }
  rewrite <- (take_drop_middle _ _ _ Hin).
  rewrite reindex_unindexed.
  2:{ apply Forall_forall. intros [c p] Hp.
      apply list_elem_of_lookup in Hp as [i Hi].
      rewrite lookup_take_Some in Hi. destruct Hi as [Hi Hlt].
      unfold Query.enumerate in Hi. rewrite lookup_zip_with in Hi.
      destruct (seq 0 (length cols) !! i) as [j|] eqn:Ej; [|done].
      apply lookup_seq in Ej as [-> _].
      destruct (cols !! i); [|done]. injection Hi as <- _.
      simpl. rewrite Hix, list_lookup_insert_ne by lia.
      apply lookup_repeat. lia. }
  cbn [Query.reindex]. unfold St.bind at 1, St.get.
  unfold St.bind at 1, St.lift.
  assert (Hkix : Table.index s !! TableInfo.key tbl = Some (Some ix)).
  { rewrite Hix. apply list_lookup_insert_eq. by rewrite repeat_length. }
  rewrite (getitem_nat _ _ _ Hkix).
  unfold St.bind at 1. cbn [eq_int].
  destruct (Z.eqb_spec k k2); [congruence|].
  unfold St.bind at 1, St.lift, Query.remove_val, RangedIndex.remove.
  unfold RangedIndex.locate in Hk, Hk2.
  destruct (RangedIndex._index ix !! k) as [rids|] eqn:Ek; [|done].
  rewrite Hu. unfold St.bind at 1, St.put. unfold St.bind at 1, St.lift.
  unfold RangedIndex.add. cbn [RangedIndex._is_unique RangedIndex._index].
  rewrite lookup_delete_ne by done.
  destruct (RangedIndex._index ix !! k2) as [rids2|] eqn:Ek2; [|done].
  rewrite bool_decide_eq_true_2 by eauto. reflexivity.
Qed.

(** X23.  An [update] that moves the key of a record onto a key that
    another record has returns [False], but not before the new tail
    record is stored and the old key is taken out of the key index:
    afterwards the record is found under neither key, and [select] on
    its old key returns the empty list. *)
Theorem update_to_taken_key (fuel : nat) (now k k2 base_rid tail_rid : Z)
    (columns : list (option Z)) (xact : option Transaction.t)
    (s s1 : Table.t) (ix : RangedIndex.t) (original_rec : Record.t)
    (others : list Record.t) :
  Table.index s
  = <[TableInfo.key tbl := Some ix]> (repeat None (TableInfo.num_columns tbl)) ->
  (TableInfo.key tbl < TableInfo.num_columns tbl)%nat ->
  RangedIndex._is_unique ix = true ->
  RangedIndex.locate k ix = [base_rid] ->
  RangedIndex.locate k2 ix <> [] ->
  k2 <> k ->
  columns !! TableInfo.key tbl = Some (Some k2) ->
  length columns = TableInfo.num_columns tbl ->
  Query.select fuel tbl k (Z.of_nat (TableInfo.key tbl))
    (Query.all_projected tbl) s = Ok (Some (original_rec :: others)) ->
  Record.columns original_rec !! TableInfo.key tbl = Some (VInt k) ->
  Table.add_tail_record fuel tbl
    (Record.set_timestamp
       (Record.set_columns
          (Record.set_base_rid
             (Record.new (TableInfo.key tbl)
                (repeat (VInt 0) (TableInfo.num_raw_cols tbl)))
             (VInt base_rid))
          (map Query.val_of columns))
       (VInt (Query.timestamp_of now xact))) s
  = (Ok (Some tail_rid), s1) ->
  exists ix1 s',
    Query.update fuel tbl now k columns xact s = (Ok (false, xact), s')
    /\ Table.page_directory s' = Table.page_directory s1
    /\ Table.pages s' = Table.pages s1
    /\ Table.index s' = <[TableInfo.key tbl := Some ix1]> (Table.index s)
    /\ RangedIndex.locate k ix1 = []
    /\ RangedIndex.locate k2 ix1 = RangedIndex.locate k2 ix
    /\ forall fuel' projected,
         Query.select fuel' tbl k (Z.of_nat (TableInfo.key tbl)) projected s'
         = Ok (Some []).
Proof.
  intros Hix Hkey Hu Hk Hk2 Hne Hc Hlen Hsel Ho Hadd.
  assert (Hkix : Table.index s !! TableInfo.key tbl = Some (Some ix)).
  { rewrite Hix. apply list_lookup_insert_eq. by rewrite repeat_length. }
  match type of Hadd with
  | Table.add_tail_record _ _ ?r _ = _ =>
      pose proof (add_tail_record_rest tbl fuel r _ s eq_refl) as Hrest
  end.
  unfold Kept.after in Hrest. rewrite Hadd in Hrest. cbn [snd] in Hrest.
  injection Hrest as Hi1 _ _.
  set (ix1 := RangedIndex.mk (delete k (RangedIndex._index ix)) true).
  exists ix1, (Table.set_index
                 (<[TableInfo.key tbl := Some ix1]> (Table.index s)) s1).
  assert (Hloc : RangedIndex.locate k ix1 = []).
  { unfold RangedIndex.locate, ix1. simpl. by rewrite lookup_delete_eq. }
  split; [|split; [done|split; [done|split; [done|split; [done|split]]]]].
  - unfold Query.update, St.try_except, Query.update_impl.
    unfold St.bind at 1, St.get. unfold St.bind at 1, St.lift.
    rewrite (locate_key _ _ _ _ Hkix), Hk.
    assert (forallb (fun column : option Z => bool_decide (column = None))
              columns = false) as ->.
    { apply not_true_is_false. intros Hall.
      rewrite forallb_forall in Hall.
      specialize (Hall (Some k2)).
      rewrite bool_decide_eq_true in Hall. 
      assert (Some k2 = None); [|done]. apply Hall.
      apply list_elem_of_In. by apply list_elem_of_lookup_2 in Hc. }
    unfold St.bind at 1, St.lift. rewrite Hsel.
    unfold St.bind at 1, St.lift. rewrite getitem_0.
    rewrite Hlen, Nat.eqb_refl. cbn [negb].
    unfold St.bind at 1. rewrite Hadd.
    unfold St.bind at 1.
    rewrite (reindex_taken _ base_rid k k2 s1 ix); try done.
    + by rewrite Hi1.
    + by rewrite Hi1.
    + rewrite lookup_zip_with, Ho. simpl. by rewrite Hc.
  - unfold RangedIndex.locate, ix1. simpl. by rewrite lookup_delete_ne.
  - intros fuel' projected.
    apply select_absent with (ix := ix1); [|done]. simpl.
    apply list_lookup_insert_eq. rewrite Hix, length_insert, repeat_length.
    done.
Qed.

(** [index_record], [reindex] and [unindex] write the indices only. *)
Lemma index_record_logged (cols : list (nat * Z)) (base_rid : Z) (x : _)
    (s : Table.t) :
  (Table.xact_tracker s, Table.wal s) = x ->
  Kept.after (fun s' => (Table.xact_tracker s', Table.wal s') = x)
    (Query.index_record cols base_rid s).
Proof.
  revert s. induction cols as [|[c v] cols IH]; intros s Hs;
    cbn [Query.index_record]; [by apply after_ret|].
  after. apply after_bind; [|intros [] s1 _ Hs1; by apply IH].
  after; done.
Qed.

Lemma reindex_logged (cols : list (nat * (val * option Z))) (base_rid : Z)
    (x : _) (s : Table.t) :
  (Table.xact_tracker s, Table.wal s) = x ->
  Kept.after (fun s' => (Table.xact_tracker s', Table.wal s') = x)
    (Query.reindex cols base_rid s).
Proof.
  revert s. induction cols as [|[c [o n]] cols IH]; intros s Hs;
    cbn [Query.reindex]; [by apply after_ret|].
  after. apply after_bind; [|intros [] s1 _ Hs1; by apply IH].
  after; done.
Qed.

Lemma unindex_logged (cols : list (nat * option RangedIndex.t))
    (rec : Record.t) (x : _) (s : Table.t) :
  (Table.xact_tracker s, Table.wal s) = x ->
  Kept.after (fun s' => (Table.xact_tracker s', Table.wal s') = x)
    (Query.unindex cols rec s).
Proof.
  revert s. induction cols as [|[c o] cols IH]; intros s Hs;
    cbn [Query.unindex]; [by apply after_ret|].
  after. apply after_bind; [|intros [] s1 _ Hs1; by apply IH].
  after; done.
Qed.

Lemma rest_logged {A} (m : St.M Table.t A) (x : _) (s : Table.t) :
  (forall y, Kept.rest s = y -> Kept.after (fun s' => Kept.rest s' = y) (m s)) ->
  (Table.xact_tracker s, Table.wal s) = x ->
  Kept.after (fun s' => (Table.xact_tracker s', Table.wal s') = x) (m s).
Proof.
  intros H <-. specialize (H _ eq_refl). unfold Kept.after, Kept.rest in *.
  by injection H as _ -> ->.
Qed.

Lemma insert_logged (now : Z) (columns : list Z) (t : Transaction.t)
    (x : _) (s : Table.t) :
  (Table.xact_tracker s, Table.wal s) = x ->
  Kept.after (fun s' => (Table.xact_tracker s', Table.wal s') = x)
    (Query.insert tbl now columns (Some t) s).
Proof.
  intros Hs. unfold Query.insert.
  apply after_try_except; [|intros s1 Hs1; by apply after_ret].
  unfold Query.insert_impl. after.
  apply after_bind.
  { apply rest_logged; [|done]. intros y. apply add_base_record_rest. }
  intros rid s1 _ Hs1. after.
  apply after_bind; [by apply index_record_logged|].
  intros [] s2 _ Hs2. by apply after_ret.
Qed.

Lemma update_logged (fuel : nat) (now k : Z) (columns : list (option Z))
    (t : Transaction.t) (x : _) (s : Table.t) :
  (Table.xact_tracker s, Table.wal s) = x ->
  Kept.after (fun s' => (Table.xact_tracker s', Table.wal s') = x)
    (Query.update fuel tbl now k columns (Some t) s).
Proof.
  intros Hs. unfold Query.update.
  apply after_try_except; [|intros s1 Hs1; by apply after_ret].
  unfold Query.update_impl. after.
  apply after_bind.
  { apply rest_logged; [|done]. intros y. apply add_tail_record_rest. }
  intros rid s1 _ Hs1. after.
  apply after_bind; [by apply reindex_logged|].
  intros [] s2 _ Hs2. by apply after_ret.
Qed.

Lemma delete_logged (fuel : nat) (now k : Z) (t : Transaction.t)
    (x : _) (s : Table.t) :
  (Table.xact_tracker s, Table.wal s) = x ->
  Kept.after (fun s' => (Table.xact_tracker s', Table.wal s') = x)
    (Query.delete fuel tbl now k (Some t) s).
Proof.
  intros Hs. unfold Query.delete.
  apply after_try_except; [|intros s1 Hs1; by apply after_ret].
  unfold Query.delete_impl. after.
  apply after_bind.
  { apply rest_logged; [|done]. intros y. unfold Table.delete_record.
    apply add_tail_record_rest. }
  intros rid s1 _ Hs1. after.
  apply after_bind; [by apply unindex_logged|].
  intros [] s2 _ Hs2. by apply after_ret.
Qed.

(** X24.  A query that runs inside a transaction writes nothing to the
    log and marks nothing in the transaction tracker, whether it
    returns [True] or [False]: [insert], [update], [delete] and
    [increment] with [xact] given leave both as they were.  Only the
    implicit transaction of a query without [xact] is logged. *)
Theorem queries_in_transaction_keep_log (fuel : nat) (now k column : Z)
    (row : list Z) (columns : list (option Z)) (t : Transaction.t)
    (s : Table.t) :
  let logged (s' : Table.t) := (Table.xact_tracker s', Table.wal s') in
  logged (Query.insert tbl now row (Some t) s).2 = logged s
  /\ logged (Query.update fuel tbl now k columns (Some t) s).2 = logged s
  /\ logged (Query.delete fuel tbl now k (Some t) s).2 = logged s
  /\ logged (Query.increment fuel tbl now k column (Some t) s).2 = logged s.
Proof.
  intros logged. unfold logged.
  split; [by apply insert_logged|].
  split; [by apply update_logged|].
  split; [by apply delete_logged|].
  change (Kept.after
            (fun s' => (Table.xact_tracker s', Table.wal s')
                       = (Table.xact_tracker s, Table.wal s))
            (Query.increment fuel tbl now k column (Some t) s)).
  unfold Query.increment.
  apply after_try_except; [|intros s1 Hs1; by apply after_ret].
  unfold Query.increment_impl. after; try done.
  apply after_bind; [by apply update_logged|].
  intros [result x'] s1 _ Hs1. by apply after_ret.
Qed.

End TakenKey.

Lemma update_to_taken_key_witness :
  Table.index Demo2.s3
  = <[TableInfo.key Demo.tbl := Some Demo2.ix3]>
      (repeat None (TableInfo.num_columns Demo.tbl))
  /\ (TableInfo.key Demo.tbl < TableInfo.num_columns Demo.tbl)%nat
  /\ RangedIndex._is_unique Demo2.ix3 = true
  /\ RangedIndex.locate 42 Demo2.ix3 = [1000]
  /\ RangedIndex.locate 43 Demo2.ix3 <> []
  /\ 43 <> 42
  /\ [Some 43; None; None; None; None] !! TableInfo.key Demo.tbl
     = Some (Some 43)
  /\ length [Some 43; None; None; None; None (A := Z)]
     = TableInfo.num_columns Demo.tbl
  /\ Query.select 5 Demo.tbl 42 (Z.of_nat (TableInfo.key Demo.tbl))
       (Query.all_projected Demo.tbl) Demo2.s3
     = Py.Ok (Some [Demo2.found])
  /\ Record.columns Demo2.found !! TableInfo.key Demo.tbl
     = Some (Py.VInt 42)
  /\ Table.add_tail_record 5 Demo.tbl Demo2.moved Demo2.s3
     = (Py.Ok (Some (2 ^ 63 - 2)), Demo2.s4)
  /\ exists ix1 s',
       Query.update 5 Demo.tbl 777 42 [Some 43; None; None; None; None] None
         Demo2.s3 = (Py.Ok (false, None), s')
       /\ Table.page_directory s' = Table.page_directory Demo2.s4
       /\ Table.pages s' = Table.pages Demo2.s4
       /\ Table.index s'
          = <[TableInfo.key Demo.tbl := Some ix1]> (Table.index Demo2.s3)
       /\ RangedIndex.locate 42 ix1 = []
       /\ RangedIndex.locate 43 ix1 = RangedIndex.locate 43 Demo2.ix3
       /\ forall fuel' projected,
            Query.select fuel' Demo.tbl 42 (Z.of_nat (TableInfo.key Demo.tbl))
              projected s' = Py.Ok (Some []).
Proof.
  assert (H1 : Table.index Demo2.s3
               = <[TableInfo.key Demo.tbl := Some Demo2.ix3]>
                   (repeat None (TableInfo.num_columns Demo.tbl)))
    by (vm_compute; reflexivity).
  assert (H2 : (TableInfo.key Demo.tbl < TableInfo.num_columns Demo.tbl)%nat)
    by (vm_compute; lia).
  assert (H3 : RangedIndex._is_unique Demo2.ix3 = true)
    by (vm_compute; reflexivity).
  assert (H4 : RangedIndex.locate 42 Demo2.ix3 = [1000])
    by (vm_compute; reflexivity).
  assert (H5 : RangedIndex.locate 43 Demo2.ix3 <> [])
    by (vm_compute; discriminate).
  assert (H6 : 43 <> 42) by lia.
  assert (H7 : [Some 43; None; None; None; None] !! TableInfo.key Demo.tbl
               = Some (Some 43)) by reflexivity.
  assert (H8 : length [Some 43; None; None; None; None (A := Z)]
               = TableInfo.num_columns Demo.tbl) by reflexivity.
  assert (H9 : Query.select 5 Demo.tbl 42 (Z.of_nat (TableInfo.key Demo.tbl))
                 (Query.all_projected Demo.tbl) Demo2.s3
               = Py.Ok (Some [Demo2.found])) by (vm_compute; reflexivity).
  assert (H10 : Record.columns Demo2.found !! TableInfo.key Demo.tbl
                = Some (Py.VInt 42)) by (vm_compute; reflexivity).
  assert (H11 : Table.add_tail_record 5 Demo.tbl Demo2.moved Demo2.s3
                = (Py.Ok (Some (2 ^ 63 - 2)), Demo2.s4))
    by (vm_compute; reflexivity).
  repeat (split; [assumption|]).
  exact (update_to_taken_key Demo.tbl 5 777 42 43 1000 (2 ^ 63 - 2)
           [Some 43; None; None; None; None] None Demo2.s3 Demo2.s4
           Demo2.ix3 Demo2.found [] H1 H2 H3 H4 H5 H6 H7 H8 H9 H10 H11).
Defined.

(** ** [query.py] and [wal.py]: what a query logs *)

Section LoggedQueries.
Variable tbl : TableInfo.t.
Import Py.

Lemma rest_wal {A} (m : St.M Table.t A) (s s1 : Table.t) (r : res A) :
  (forall y, Kept.rest s = y -> Kept.after (fun s' => Kept.rest s' = y) (m s)) ->
  m s = (r, s1) -> Table.wal s1 = Table.wal s.
Proof.
  intros H E. specialize (H _ eq_refl). unfold Kept.after in H.
  rewrite E in H. by injection H as _ _ ->.
Qed.

Lemma logged_wal {A} (m : St.M Table.t A) (s s1 : Table.t) (r : res A) :
  (forall y, (Table.xact_tracker s, Table.wal s) = y ->
             Kept.after (fun s' => (Table.xact_tracker s', Table.wal s') = y)
               (m s)) ->
  m s = (r, s1) -> Table.wal s1 = Table.wal s.
Proof.
  intros H E. specialize (H _ eq_refl). unfold Kept.after in H.
  rewrite E in H. by injection H as _ ->.
Qed.

(** [commit] writes nothing to the log. *)
Lemma commit_wal (x : Transaction.t) (s s1 : Table.t) (r : res bool) :
  Commit.commit tbl x s = (r, s1) -> Table.wal s1 = Table.wal s.
Proof.
  intros E.
  assert (Kept.after (fun s' => Table.wal s' = Table.wal s)
            (Commit.commit tbl x s)) as H.
  { unfold Commit.commit.
    apply after_try_except; [|intros s2 Hs2; by apply after_ret].
    destruct (negb _); [by apply after_ret|].
    apply after_bind.
    { unfold Kept.after, Table.tracker, St.zoom.
      by destruct (TransactionTracker.mark_committed _ _). }
    intros [] s2 _ Hs2. apply after_bind; [|intros [] s3 _ Hs3; by apply after_ret].
    unfold Kept.after, Table.pagedir, St.zoom.
    by destruct (PageDirectory.notify_resolve _ _ _). }
  unfold Kept.after in H. by rewrite E in H.
Qed.

Lemma log_wal (x : Transaction.t) (s s1 : Table.t) :
  WriteAheadLog.log x s = (Ok tt, s1) ->
  exists b,
    TransactionSerializer.serialize (Transaction.start_time x)
      (Transaction.queries x) = Ok b
    /\ Table.wal s1 = Table.wal s ++ b.
Proof.
  unfold WriteAheadLog.log, St.bind, St.lift.
  destruct (TransactionSerializer.serialize _ _) as [b|]; [|done].
  intros [= <-]. by exists b.
Qed.

Lemma logged_one (qt : QueryType.t) (args : list (option Z)) :
  Logged.ascii (TableInfo.name tbl) ->
  Logged.well_formed (mkStoredQuery qt (TableInfo.name tbl) args) ->
  Forall (fun q => Logged.ascii (sq_table q) /\ Logged.well_formed q)
    [mkStoredQuery qt (TableInfo.name tbl) args].
Proof. intros Hn Hw. constructor; [by split|constructor]. Qed.

Lemma try_except_true (m : St.M Table.t (bool * option Transaction.t))
    (xact : option Transaction.t) (s s' : Table.t)
    (x' : option Transaction.t) :
  St.try_except m (St.ret (false, xact)) s = (Ok (true, x'), s') ->
  m s = (Ok (true, x'), s').
Proof.
  unfold St.try_except. destruct (m s) as [[a|e] s1]; [done|].
  by destruct (is_Exception e).
Qed.

(** X25.  An [insert] without [xact] that returns [True], into a table
    with an ASCII name, appends to the log the bytes of one
    transaction, and these bytes parse back to one redo transaction
    that starts at the time of the call and holds the one query
    [insert] of these columns on this table. *)
Theorem insert_is_logged (now : Z) (columns : list Z) (s s' : Table.t) :
  Logged.ascii (TableInfo.name tbl) ->
  Query.insert tbl now columns None s = (Ok (true, None), s') ->
  exists b x,
    Table.wal s' = Table.wal s ++ b
    /\ WriteAheadLogParser.parse b = Some (Ok [x])
    /\ RedoTransaction.start_time x = now
    /\ Logged.to_stored_queries (RedoTransaction.queries x)
       = Ok [mkStoredQuery QueryType.INSERT (TableInfo.name tbl)
               (map Some columns)].
Proof.
  intros Hname H. apply try_except_true in H.
  unfold Query.insert_impl in H.
  destruct (negb _); [done|].
  apply bind_Ok_inv in H as (s0 & s1 & E0 & H). injection E0 as <- <-.
  apply bind_Ok_inv in H as (k & s1 & E1 & H). injection E1 as _ <-.
  apply bind_Ok_inv in H as (key_lookup & s1 & E2 & H). injection E2 as _ <-.
  destruct (0 <? length key_lookup)%nat; [done|].
  apply bind_Ok_inv in H as (base_rid & s1 & E3 & H).
  pose proof (rest_wal _ _ _ _ (fun y => add_base_record_rest tbl _ y s) E3)
    as W1.
  destruct base_rid as [base_rid|]; [|done].
  apply bind_Ok_inv in H as (s1' & s2 & E4 & H). injection E4 as <- <-.
  apply bind_Ok_inv in H as (key_index & s2 & E5 & H). injection E5 as _ <-.
  destruct key_index as [key_index|]; [|done].
  apply bind_Ok_inv in H as ([] & s2 & E6 & H).
  pose proof (logged_wal _ _ _ _
                (fun y => index_record_logged _ base_rid y s1) E6) as W2.
  apply bind_Ok_inv in H as (c & s3 & E7 & H).
  apply commit_wal in E7 as W3.
  apply bind_Ok_inv in H as ([] & s4 & E8 & H). injection H as <-.
  apply log_wal in E8 as (b & Hb & W4). cbn in Hb.
  destruct (wal_round_trip_ascii _ _ _
              (logged_one QueryType.INSERT _ Hname I) Hb)
    as (x & Hp & Ht & Hq).
  exists b, x. split; [by rewrite W4, W3, W2, W1|]. done.
Qed.

(** X26.  An [update] without [xact] that sets a column and returns
    [True], on a table with an ASCII name, appends to the log the
    bytes of one transaction, and these bytes parse back to one redo
    transaction that starts at the time of the call and holds the one
    query [update] of this key with these columns on this table. *)
Theorem update_is_logged (fuel : nat) (now primary_key : Z)
    (columns : list (option Z)) (s s' : Table.t) :
  Logged.ascii (TableInfo.name tbl) ->
  Exists (fun column => column <> None) columns ->
  Query.update fuel tbl now primary_key columns None s
  = (Ok (true, None), s') ->
  exists b x,
    Table.wal s' = Table.wal s ++ b
    /\ WriteAheadLogParser.parse b = Some (Ok [x])
    /\ RedoTransaction.start_time x = now
    /\ Logged.to_stored_queries (RedoTransaction.queries x)
       = Ok [mkStoredQuery QueryType.UPDATE (TableInfo.name tbl)
               (Some primary_key :: columns)].
Proof.
  intros Hname Hsome H. apply try_except_true in H.
  unfold Query.update_impl in H.
  apply bind_Ok_inv in H as (s0 & s1 & E0 & H). injection E0 as <- <-.
  apply bind_Ok_inv in H as (key_lookup & s1 & E1 & H). injection E1 as _ <-.
  destruct key_lookup as [|base_rid [|]]; try done.
  assert (forallb (fun column : option Z => bool_decide (column = None))
            columns = false) as Hall.
  { apply not_true_is_false. intros Hall. rewrite forallb_forall in Hall.
    apply Exists_exists in Hsome as (c & Hc & Hne). apply Hne.
    apply list_elem_of_In in Hc. specialize (Hall c Hc).
    by apply bool_decide_eq_true in Hall. }
  rewrite Hall in H.
  apply bind_Ok_inv in H as (original_rec & s1 & E2 & H). injection E2 as _ <-.
  destruct original_rec as [original_rec|]; [|done].
  apply bind_Ok_inv in H as (orig & s1 & E3 & H). injection E3 as _ <-.
  destruct (negb _); [done|].
  apply bind_Ok_inv in H as (tail_rid & s1 & E4 & H).
  pose proof (rest_wal _ _ _ _ (fun y => add_tail_record_rest tbl fuel _ y s)
                E4) as W1.
  destruct tail_rid as [tail_rid|]; [|done].
  apply bind_Ok_inv in H as ([] & s2 & E5 & H).
  pose proof (logged_wal _ _ _ _
                (fun y => reindex_logged _ base_rid y s1) E5) as W2.
  apply bind_Ok_inv in H as (c & s3 & E6 & H).
  apply commit_wal in E6 as W3.
  apply bind_Ok_inv in H as ([] & s4 & E7 & H). injection H as <-.
  apply log_wal in E7 as (b & Hb & W4). cbn in Hb.
  destruct (wal_round_trip_ascii _ _ _
              (logged_one QueryType.UPDATE _ Hname I) Hb)
    as (x & Hp & Ht & Hq).
  exists b, x. split; [by rewrite W4, W3, W2, W1|]. done.
Qed.

End LoggedQueries.

Lemma insert_is_logged_witness :
  Logged.ascii (TableInfo.name Demo.tbl)
  /\ Query.insert Demo.tbl 111 [42; 1; 2; 3; 4] None (Table.new Demo.tbl)
     = (Py.Ok (true, None), Demo.s1)
  /\ exists b x,
       Table.wal Demo.s1 = Table.wal (Table.new Demo.tbl) ++ b
       /\ WriteAheadLogParser.parse b = Some (Py.Ok [x])
       /\ RedoTransaction.start_time x = 111
       /\ Logged.to_stored_queries (RedoTransaction.queries x)
          = Py.Ok [mkStoredQuery QueryType.INSERT (TableInfo.name Demo.tbl)
                     (map Some [42; 1; 2; 3; 4])].
Proof.
  assert (H1 : Logged.ascii (TableInfo.name Demo.tbl))
    by (repeat constructor; simpl; lia).
  assert (H2 : Query.insert Demo.tbl 111 [42; 1; 2; 3; 4] None
                 (Table.new Demo.tbl)
               = (Py.Ok (true, None), Demo.s1)) by (vm_compute; reflexivity).
  split; [exact H1|]. split; [exact H2|].
  exact (insert_is_logged Demo.tbl 111 [42; 1; 2; 3; 4] (Table.new Demo.tbl)
           Demo.s1 H1 H2).
Defined.

Lemma update_is_logged_witness :
  let out :=
    Query.update 5 Demo.tbl 222 42 [None; Some 5; None; None; None] None
      Demo.s1 in
  Logged.ascii (TableInfo.name Demo.tbl)
  /\ Exists (fun column : option Z => column <> None)
       [None; Some 5; None; None; None]
  /\ out = (Py.Ok (true, None), out.2)
  /\ exists b x,
       Table.wal out.2 = Table.wal Demo.s1 ++ b
       /\ WriteAheadLogParser.parse b = Some (Py.Ok [x])
       /\ RedoTransaction.start_time x = 222
       /\ Logged.to_stored_queries (RedoTransaction.queries x)
          = Py.Ok [mkStoredQuery QueryType.UPDATE (TableInfo.name Demo.tbl)
                     (Some 42 :: [None; Some 5; None; None; None])].
Proof.
  intros out.
  assert (H1 : Logged.ascii (TableInfo.name Demo.tbl))
    by (repeat constructor; simpl; lia).
  assert (H2 : Exists (fun column : option Z => column <> None)
                 [None; Some 5; None; None; None])
    by (apply Exists_cons_tl, Exists_cons_hd; discriminate).
  assert (H3 : out = (Py.Ok (true, None), out.2)) by (vm_compute; reflexivity).
  split; [exact H1|]. split; [exact H2|]. split; [exact H3|].
  exact (update_is_logged Demo.tbl 5 222 42 [None; Some 5; None; None; None]
           Demo.s1 out.2 H1 H2 H3).
Defined.

(** ** Reading a stored record *)

Section StoredRead.
Variable tbl : TableInfo.t.
Import Py.
Import Stored.




End StoredRead.

Section TailPages.
Variable tbl : TableInfo.t.
Import Py.
Import Stored.





End TailPages.

Section LatestVersion.
Variable tbl : TableInfo.t.
Import Py.
Import Stored.







End LatestVersion.

(** ** The latest version of an updated record *)

Section LatestTail.
Variable tbl : TableInfo.t.
Import Py.
Import Stored.




End LatestTail.

Section StoredRow.
Variable tbl : TableInfo.t.
Import Py.
Import Stored.







End StoredRow.

(** ** Writing to a stored record *)

Section StoredWrite.
Variable tbl : TableInfo.t.
Import Py.
Import Stored.








End StoredWrite.

Section StoredTail.
Variable tbl : TableInfo.t.
Import Py.
Import Stored.





End StoredTail.

(** ** The tail record of an update, on a stored record *)

Section StoredUpdate.
Variable tbl : TableInfo.t.
Import Py.
Import Stored.



End StoredUpdate.

(** ** What the end of a query keeps *)

Section StoredQueries.
Variable tbl : TableInfo.t.
Import Py.
Import Stored.











End StoredQueries.

(** ** The row after an insert *)

Section StoredInsert.
Variable tbl : TableInfo.t.
Import Py.
Import Stored.



End StoredInsert.

(** ** The row after an update *)

Section StoredRows.
Variable tbl : TableInfo.t.
Import Py.
Import Stored.



End StoredRows.

(** ** A row through its insert and its updates *)

Section StoredHistory.
Variable tbl : TableInfo.t.
Import Py.
Import Stored.





End StoredHistory.




(** ** [sum] and [increment] on a stored row *)

Section StoredSum.
Variable tbl : TableInfo.t.
Import Py.
Import Stored.









End StoredSum.


